(* ===== verification/_CoqProject ===== *)
-Q . S2P
Prelude.v
TagStack.v
InventoryItem.v
QuickBar.v
InventoryList.v
InventoryData.v
InventoryReplication.v
InventoryManager.v
InventoryInvariant.v
InventoryRemove.v
InventoryAdd.v
InventoryExamples.v
AbilityCost.v
ManaSet.v
ManaComponent.v
HealManaExecution.v
MeleeWeapon.v
RangeGeometry.v
RangeTarget.v
Enemies.v
EnemyInit.v
