(* ===== verification/Prelude.v ===== *)
(** * A verification development of the ModifyingLyra gameplay modules

    This library models, in Rocq, the gameplay core of the repository
    (src/LyraGame): the replicated inventory of
    [ULyraInventoryManagerComponent] with its item instances and their
    tag-stack counters, the inventory-item ability cost, the mana
    attribute set [ULyraManaSet] with the death state machine of
    [ULyraManaComponent], the heal-mana execution, the melee weapon's
    collision window, the range-target ability's hit-scan, the
    enemy spawner with its AI controller and enemy character, and the
    save-game data declarations.  Engine
    services (replication transport,
    physics, spawning, the message bus) are modelled only by the values
    the code exchanges with them.

    ** The parts of the program and how they interact

    - [ULyraInventoryItemInstance] keeps its counters in a
      [FGameplayTagStackContainer] (Lyra's System/GameplayTagStack, not
      under src/): the stack count of an entry is the stack of tag
      "Lyra.Inventory.Item.Count", its limit the stack of
      "Lyra.Inventory.Item.StackLimit".  File [TagStack] models the
      container (AddStack, RemoveStack, GetStackCount) from the
      documented contract in LyraInventoryItemInstance.h.
    - File [InventoryItem] holds the data: [ELyraItemType], the item
      definition (a class default object: display name, type, stack
      limit, fragments), the item instance, [FLyraInventoryEntry] and the
      [FLyraInventoryChangeMessage] broadcast on the message bus.
    - File [QuickBar] states, as a type class ([SlotService]), what the
      inventory asks of the quick-bar component (next free slot, assign,
      activate), and gives the Lyra quick bar as an instance; the
      inventory's theorems hold for every instance.
    - File [InventoryList] models [FLyraInventoryList]: AddEntry,
      RemoveEntry, the queries, and the three fast-array replication
      callbacks with their "last observed count" tracker.
    - File [InventoryManager] models the state [InvState] of
      [ULyraInventoryManagerComponent] (entry array, object allocator,
      quick bar, log of broadcast messages, replicated sub-objects) and
      its simple methods (with the constructor, the item queries and
      ReplicateSubobjects), in the state and error monad [ST] below.
      [InventoryInvariant] defines the invariant (distinct identities
      below the allocator, well-formed tag containers) and the
      stack-limit property, with the lemmas on the array edits.
      [InventoryRemove] (RemoveItemDefinition, ConsumeItemsByDefinition)
      and [InventoryAdd] (AddItemDefinition with its two loops,
      AddItemInstance) hold the remaining methods and their theorems;
      [InventoryExamples] runs them on a concrete catalog.
    - File [InventoryReplication] models a client receiving a
      replicated update of the list: the engine's fast-array receive
      (outside src/, from its documented order) runs PreReplicatedRemove
      on the removed entries, PostReplicatedAdd on the appended new
      ones, PostReplicatedChange on the dirty ones, then compacts the
      array with TArray::RemoveAtSwap from the highest removed index;
      [LastObservedCount] is not replicated.
    - File [InventoryData] holds the declarations without code around
      the inventory: the consume-effects fragment, the header members of
      [FLyraInventoryList] and its UI message, the save data of items and
      inventories, the player save game and the [ILyraSaveGame]
      interface as a type class, and the fields of [ULyraGameInstance].
    - File [AbilityCost] models [ULyraAbilityCost_InventoryItem]: CheckCost
      reads the inventory, ApplyCost pays with RemoveItemDefinition.
    - File [ManaSet] models [ULyraManaSet]: the attributes Mana, MaxMana,
      Healing and Damage as rationals, the clamp hooks, and the
      gameplay-effect pipeline Pre/PostGameplayEffectExecute as the
      engine drives it (modelled from the engine's documented order of
      calls, outside src/); the out-of-mana flag and the events it emits.
    - File [ManaComponent] models [ULyraManaComponent]: the relay of the
      set's three delegates, initialization, self-destruct, and the death
      state machine (StartDeath, FinishDeath, OnRep_DeathState) as a step
      relation [comp_step] on the component and its set.
    - File [HealManaExecution] models [ULyraCombatSet], with its
      owner-only replication and notifies, and [ULyraHealManaExecution],
      whose output modifier runs through the mana set's pipeline.
    - File [MeleeWeapon] models [ULyraMeleeWeaponInstance], the anim
      notifies that open, close and clear its collision window, and the
      melee ability's CanActivateAbility and EndAbility.  The state is
      the colliding components with their hit actors, the collision
      flags, the timer and the last socket locations (a [gmap]); the
      physics sweep and socket positions are a per-call [MeleeFrame] of
      the engine, and the calls an equipped weapon receives form the
      step relation [melee_step].  The melee ability's constructor adds
      its blocking tag and GetWeaponInstance casts the equipment.
    - File [RangeGeometry] models the targeting geometry of the same
      ability: the spread cone (VRandomConeNormalDistribution), the
      source location and GetTargetingTransform, over rational vectors,
      with the non-polynomial float functions as a record [FloatMath]
      and FMath::FRand as a stream of numbers.
    - File [RangeTarget] models [ULyraGameplayAbility_RangeTarget]: the
      scene queries of a shot (Trace with its ignored actors,
      DoSingleTrace, TraceAttack) over the engine's [RangeWorld], the
      local targeting and the handling of
      the target data (server notification, commit, end), with the
      ability's activation and scope-locked end in a small state monad.
    - File [Enemies] models, in Module [EnemySpawner],
      [ALyraEnemySpawner] (BeginPlay, OnExperienceLoaded,
      ServerCreateEnemies, SpawnOneEnemy, SpawnEnemyFromClass,
      OnSpawnedPawnDestroyed) over the engine's [SpawnerWorld], with the
      pawn destructions and respawn timers it receives as calls
      [run_spawner]; in [EnemyController] the team agent
      [ALyraEnemyControllerBase]; in [EnemyCharacter]
      [ALyraEnemyCharacterBase], which takes the pawn data the spawner
      gives the pawn extension; in [FriendlyNPC] [ALyraFriendlyNPC].
      File [EnemyInit] composes the spawner with the enemy character:
      the order of the spawner's outputs decides what the character's
      OnAbilitySystemInitialized finds in the pawn extension.

    ** What the theorems show

    - Item instances: removing the stat-tag stacks just added gives
      back the same instance (round trip).
    - Inventory: removal takes exactly the requested items while the
      held count fits the [int32] GetTotalItemCount sums in, and fails
      with no effect when fewer are held (the wrapped count never
      exceeds the held one); adding places exactly the requested items,
      keeps every stack within its limit and the invariant; with a stack
      limit of 0 the new-stack loop runs out of every fuel, with a
      negative one it ends when its [int32] count wraps; add then remove
      restores the total;
      only ConsumeItemsByDefinition refuses a caller without authority,
      RemoveItemDefinition changes a client's copy.
      The examples exhibit by evaluation the change deltas that do not
      add up, the zero-count stack left behind, the silent top-up, the
      whole-stack consumption and the single registered sub-object;
      ReplicateSubobjects hands every instance to the channel once.
    - Inventory replication: on a client whose entries have observed
      their counts, a receive never fails PostReplicatedChange's check,
      keeps that invariant, leaves the server's instances and counts up
      to the order RemoveAtSwap gives (a permutation, with the sum over
      it a [Proper] morphism), and broadcasts deltas that add up to each
      instance's change of count; a dirty entry whose count did not
      change is announced with a zero delta.
    - Ability cost: the item count is exact below 2^24; CheckCost then
      ApplyCost pays when no stack is empty; every positive cost whose
      [int32] product wraps to zero or less is accepted on any inventory
      and paid with nothing; and by evaluation, a payable cost refused
      and an unpayable one accepted.
    - Mana: every effect keeps 0 <= Mana <= MaxMana; the out-of-mana
      event fires exactly on the falling edge; damage, immunity, the
      self-destruct and the god-mode and unlimited-mana cheats behave as
      the code says; replication reports exactly the falling edges.
    - Death: the death state only moves forward, its events follow the
      state, replication reconciles missed transitions, a second
      StartDeath broadcasts nothing; heal-mana never lowers Mana.
    - Melee: an equipped weapon never dereferences a missing socket
      location; within a collision window each component reports an
      actor at most once, never the pawn, an ignored actor or class;
      opening a window clears the hit actors and its first tick only
      records locations; no hit is reported while the window is
      closed; and, by evaluation, unequipping inside a window leaves the
      trace timer running.
    - Range targeting: one trace never reports an object twice and keeps
      a hit on every object returned; a shot always leaves an entry for
      the tracers and never reports the shooter or its attached actors
      in a world that honours ignores; FindFirstPawnHitResult is stdpp's
      list_find on the pawn test; DoSingleTrace prefers the line trace's
      pawn hits; a player's camera-towards-focus start is the point of
      the line of sight nearest the weapon; and
      the target data reaches the server, the blueprint and the
      consumption in the order and cases the code gives.
    - Enemies: after the experience is loaded a spawner keeps bound
      pawns plus pending respawns equal to NumberOfEnemiesToCreate
      whatever destructions and timers follow (and never respawns when
      ShouldRespawn is off), and once the pending timers fire the
      population is back to that number (liveness); every pawn the
      spawner initializes already holds its pawn data, so the enemy
      character's check passes (composition); a team change on the authority decides
      every attitude of the controller; and the destruction of a pawn
      whose controller was detached first removes nothing from
      SpawnedEnemyList, so the dead controller stays listed.

    ** Shared conventions (this file)

    [Fault] lists the ways a call can stop the program (a failed
    [check], an [unimplemented] body, a loop that runs out of fuel);
    [ST S A] is the state and error monad the stateful components use,
    with [x <- m ;; k] in [lyra_scope]; [sumZ] sums a counter over a
    list; [wrap32], [float32_of_int] and [TruncToInt] are the [int32]
    and [float] conversions; hint databases [lyra] and [lyra_rw] collect
    the lemmas the component proofs share.

    ** Bounds and fuel

    Counters are [int32] in the source and [Z] here.  Where a sum or a
    difference can leave the [int32] range the model wraps it with
    [wrap32]: the accumulator of GetTotalItemCount, the [StackCount -=
    ItemsToAdd] of AddItemDefinition's new-stack loop, the product of
    the ability cost.  The theorems speak of [item_total], the exact
    number of items held, and state the [int32] range they need
    ([GetTotalItemCount_wrap]: the code's count is [item_total]
    wrapped once).  The other counters cannot leave the range: a stack
    count is bounded by its stack limit, the top-up loop subtracts at
    most what is left.  Fuel: filling existing stacks gets [N + 1]
    rounds and creating new stacks [rest + 1] (each round places at
    least one item when the limit is positive), removal gets
    [NumberToRemove + #entries + 1] (each round lowers one of the two),
    consumption [NumToConsume + 1]; the loop theorems show these never
    run out.  With a stack limit of 0 no fuel suffices (the loop theorem
    holds for every fuel).  With a negative limit the source ends after
    up to [2^31 - rest + 1] rounds, which the loop theorem shows, but
    AddItemDefinition's fuel [rest + 1] covers only positive limits:
    there its [OutOfFuel] is the model's bound, not a divergence of the
    code.  The engine's re-entrant
    PostAttributeChange is unfolded to depth 2: the MaxMana hook
    overrides Mana at most once, and the nested call for Mana does not
    recurse, so depth 2 never runs out.  Floats are rationals: the model has no
    rounding, infinities or NaN (except the explicit float conversion of
    the item count).

    ** What is not modelled

    The implementations of [ILyraSaveGame] and the game instance's
    methods (outside src/; their declarations are modelled).  In the spawner, the RespawnTime delay (a
    timer fires after it; only the order of calls is modelled) and the
    behaviour trees run; in the enemy character, BeginPlay and the
    parent class's OnAbilitySystemInitialized (outside src/); in the
    friendly NPC, OnInteractEvent (the interface's default).  In the melee weapon, the
    calls of the debug drawing under [bDebug] (the shapes drawn are
    modelled, not their place among the outputs) and the parent weapon
    instance (outside src/); in the
    range-target ability, the float functions that need trigonometry,
    square roots or powers, which are the parameter [FloatMath] (the
    theorems hold for every choice of them).  ULyraDamageManaExecution has no
    implementation under src/.  Replication transport (the actor channel,
    NetDeltaSerialize) is represented only by the callbacks the code
    defines and by what the channel returns. *)

From stdpp Require Export base list sets strings.
From Stdlib Require Export ZArith Lia.

(** ** Faults: the ways a call aborts *)

Inductive Fault : Type :=
  | CheckFailed (what : string)   (** a failed [check(...)] assertion *)
  | Unimplemented                 (** a body that calls [unimplemented()] *)
  | OutOfFuel.                    (** a loop that does not terminate *)

Inductive Result (A : Type) : Type :=
  | Ok (a : A)
  | Failed (f : Fault).
Arguments Ok {A} a.
Arguments Failed {A} f.

(** ** The state and error monad *)

Definition ST (S A : Type) : Type := S -> Result (A * S).

Definition st_ret {S A} (a : A) : ST S A := fun s => Ok (a, s).

Definition st_bind {S A B} (m : ST S A) (k : A -> ST S B) : ST S B :=
  fun s => match m s with
           | Ok (a, s') => k a s'
           | Failed f => Failed f
           end.

Definition st_get {S} : ST S S := fun s => Ok (s, s).
Definition st_put {S} (s : S) : ST S unit := fun _ => Ok (tt, s).
Definition st_modify {S} (f : S -> S) : ST S unit := fun s => Ok (tt, f s).
Definition st_fail {S A} (f : Fault) : ST S A := fun _ => Failed f.

(** [check(c)]: abort unless [c]. *)
Definition st_check {S} (c : bool) (what : string) : ST S unit :=
  if c then st_ret tt else st_fail (CheckFailed what).

Declare Scope lyra_scope.
Delimit Scope lyra_scope with lyra.
Notation "x <- m ;; k" := (st_bind m (fun x => k))
  (at level 100, m at next level, right associativity) : lyra_scope.
Notation "m ;;; k" := (st_bind m (fun _ => k))
  (at level 100, right associativity) : lyra_scope.
Open Scope lyra_scope.

(** Running a computation and keeping only the state or the value. *)
Definition final_state {S A} (r : Result (A * S)) : option S :=
  match r with Ok (_, s) => Some s | Failed _ => None end.

(** ** Sums of counters *)

Local Open Scope Z_scope.

Fixpoint sumZ {A} (f : A -> Z) (l : list A) : Z :=
  match l with
  | [] => 0
  | x :: l' => f x + sumZ f l'
  end.

(** ** Machine integers *)

(** The two's complement wrap-around of a 32-bit signed [int32]. *)
Definition wrap32 (z : Z) : Z := (z + 2 ^ 31) mod 2 ^ 32 - 2 ^ 31.

(** An [int32] converted to a [float]: rounded to 24 significant bits,
    to nearest with ties to even. *)
Definition float32_of_int (n : Z) : Z :=
  let m := Z.abs n in
  if m <? 2 ^ 24 then n
  else
    let e := Z.log2 m - 23 in
    let q := m / 2 ^ e in
    let r := m mod 2 ^ e in
    let half := 2 ^ (e - 1) in
    let q' := if (half <? r) || ((r =? half) && Z.odd q) then q + 1 else q in
    Z.sgn n * (q' * 2 ^ e).

(** [FMath::TruncToInt] of a float holding an integer: the value when
    it fits an [int32], else the x86 "integer indefinite" INT_MIN. *)
Definition TruncToInt (f : Z) : Z :=
  if (-2 ^ 31 <=? f) && (f <? 2 ^ 31) then f else - 2 ^ 31.

(** The first element of a list that passes a test: the early [return]
    of a C++ search loop. *)
Fixpoint first_where {A} (p : A -> bool) (l : list A) : option A :=
  match l with
  | [] => None
  | x :: l' => if p x then Some x else first_where p l'
  end.

(** ** Engine vocabulary shared by the components *)

(** A gameplay tag is its dotted name; the empty name is the invalid tag. *)
Definition GameplayTag := string.

(** [INDEX_NONE] of the engine. *)
Definition INDEX_NONE : Z := -1.

(** [TArray::IsValidIndex]. *)
Definition TArray_IsValidIndex {A} (l : list A) (i : Z) : bool :=
  (0 <=? i)%Z && (i <? Z.of_nat (length l))%Z.

(** A pointer that is not [nullptr]. *)
Definition not_null {A} (o : option A) : bool := match o with Some _ => true | None => false end.

(** How many elements of a list pass a test. *)
Fixpoint count_if {A} (p : A -> bool) (l : list A) : nat :=
  match l with
  | [] => 0
  | x :: l' => (if p x then 1 else 0) + count_if p l'
  end%nat.

Lemma wrap32_id z : - 2 ^ 31 <= z < 2 ^ 31 -> wrap32 z = z.
Proof.
  intros Hz. unfold wrap32. rewrite Z.mod_small by lia. lia.
Qed.

Lemma wrap32_range z : - 2 ^ 31 <= wrap32 z < 2 ^ 31.
Proof. unfold wrap32. pose proof (Z.mod_pos_bound (z + 2 ^ 31) (2 ^ 32) ltac:(lia)). lia. Qed.

(** Wrapping never raises a value that is not below INT_MIN. *)
Lemma wrap32_le z : - 2 ^ 31 <= z -> wrap32 z <= z.
Proof.
  intros Hz. destruct (Z.ltb_spec z (2 ^ 31)).
  - rewrite wrap32_id by lia. lia.
  - pose proof (wrap32_range z). lia.
Qed.

(** Just above INT_MAX a value wraps to a negative one. *)
Lemma wrap32_over z : 2 ^ 31 <= z < 2 ^ 32 + 2 ^ 31 -> wrap32 z = z - 2 ^ 32.
Proof.
  intros Hz. unfold wrap32.
  rewrite <- (Z.mod_unique (z + 2 ^ 31) (2 ^ 32) 1 (z + 2 ^ 31 - 2 ^ 32)) by lia. lia.
Qed.

(** An [int32] accumulator: wrapping after every addition is wrapping
    the exact sum once. *)
Lemma wrap32_add_l a b : wrap32 (wrap32 a + b) = wrap32 (a + b).
Proof.
  unfold wrap32. f_equal.
  replace ((a + 2 ^ 31) mod 2 ^ 32 - 2 ^ 31 + b + 2 ^ 31) with ((a + 2 ^ 31) mod 2 ^ 32 + b) by lia.
  rewrite Z.add_mod_idemp_l by lia. f_equal. lia.
Qed.

Lemma float32_of_int_small n : Z.abs n < 2 ^ 24 -> float32_of_int n = n.
Proof. intros Hn. unfold float32_of_int. cbv zeta. by rewrite (proj2 (Z.ltb_lt _ _) Hn). Qed.

Lemma TruncToInt_id f : - 2 ^ 31 <= f < 2 ^ 31 -> TruncToInt f = f.
Proof.
  intros Hf. unfold TruncToInt.
  rewrite (proj2 (Z.leb_le _ _) (proj1 Hf)), (proj2 (Z.ltb_lt _ _) (proj2 Hf)). done.
Qed.

Create HintDb lyra.
Create Rewrite HintDb lyra_rw.

Section Generic.
  Context {S A B C : Type}.

Lemma st_bind_ok (m : ST S A) (k : A -> ST S B) s a s' :
  m s = Ok (a, s') -> st_bind m k s = k a s'.
Proof. intros H. unfold st_bind. by rewrite H. Qed.

Lemma st_bind_failed (m : ST S A) (k : A -> ST S B) s f :
  m s = Failed f -> st_bind m k s = Failed f.
Proof. intros H. unfold st_bind. by rewrite H. Qed.

Lemma st_bind_ok_inv (m : ST S A) (k : A -> ST S B) s b s'' :
  st_bind m k s = Ok (b, s'') ->
  exists a s', m s = Ok (a, s') /\ k a s' = Ok (b, s'').
Proof.
  unfold st_bind. destruct (m s) as [[a s']|f]; [|discriminate]. eauto.
Qed.

Lemma st_bind_get (k : S -> ST S B) s : st_bind st_get k s = k s s.
Proof. reflexivity. Qed.

Lemma st_bind_put (x : S) (k : unit -> ST S B) s : st_bind (st_put x) k s = k tt x.
Proof. reflexivity. Qed.

Lemma st_bind_modify (f : S -> S) (k : unit -> ST S B) s :
  st_bind (st_modify f) k s = k tt (f s).
Proof. reflexivity. Qed.

Lemma st_bind_ret (a : A) (k : A -> ST S B) s : st_bind (st_ret a) k s = k a s.
Proof. reflexivity. Qed.

Lemma st_bind_fail (f : Fault) (k : A -> ST S B) s : st_bind (st_fail f) k s = Failed f.
Proof. reflexivity. Qed.

Lemma st_bind_assoc (m : ST S A) (k : A -> ST S B) (k2 : B -> ST S C) s :
  st_bind (st_bind m k) k2 s = st_bind m (fun a => st_bind (k a) k2) s.
Proof. unfold st_bind. by destruct (m s) as [[a s']|f]. Qed.

Lemma count_if_app (p : A -> bool) (l1 l2 : list A) :
  count_if p (l1 ++ l2) = (count_if p l1 + count_if p l2)%nat.
Proof. induction l1; simpl; [done|]. rewrite IHl1. lia. Qed.

Lemma sumZ_app (f : A -> Z) (l1 l2 : list A) :
  sumZ f (l1 ++ l2) = sumZ f l1 + sumZ f l2.
Proof. induction l1; simpl; lia. Qed.

Lemma sumZ_le (f g : A -> Z) (l : list A) :
  (forall x, x ∈ l -> f x <= g x) -> sumZ f l <= sumZ g l.
Proof.
  induction l as [|x l IH]; simpl; [lia|]. intros H.
  pose proof (H x ltac:(set_solver)). pose proof (IH ltac:(set_solver)). lia.
Qed.

Lemma sumZ_nonneg (f : A -> Z) (l : list A) :
  (forall x, x ∈ l -> 0 <= f x) -> 0 <= sumZ f l.
Proof.
  induction l as [|x l IH]; simpl; [lia|]. intros H.
  pose proof (H x ltac:(set_solver)). pose proof (IH ltac:(set_solver)). lia.
Qed.

Lemma sumZ_ext (f g : A -> Z) (l : list A) :
  (forall x, x ∈ l -> f x = g x) -> sumZ f l = sumZ g l.
Proof.
  induction l as [|x l IH]; simpl; [done|]. intros H.
  rewrite (H x ltac:(set_solver)), IH; [done|set_solver].
Qed.

Lemma sumZ_map (h : B -> A) (f : A -> Z) (l : list B) :
  sumZ f (map h l) = sumZ (fun x => f (h x)) l.
Proof. induction l; simpl; lia. Qed.

Lemma sumZ_filter (P : A -> Prop) `{!forall x, Decision (P x)} (f : A -> Z) (l : list A) :
  sumZ f (filter P l) = sumZ (fun x => if decide (P x) then f x else 0) l.
Proof.
  induction l as [|x l IH]; [done|]. rewrite filter_cons.
  simpl. case_decide; simpl; lia.
Qed.
Lemma sumZ_zero (f : A -> Z) (l : list A) :
  (forall x, x ∈ l -> f x = 0) -> sumZ f l = 0.
Proof.
  induction l as [|a l IH]; intros H; simpl; [done|].
  rewrite (H a), IH by set_solver. done.
Qed.

(** A sum whose terms vanish away from the key of [x], in a list whose
    keys are distinct, is the term of [x]. *)
Lemma sumZ_single {K} (k : A -> K) (f : A -> Z) (l : list A) x :
  NoDup (map k l) -> x ∈ l -> (forall y, y ∈ l -> k y <> k x -> f y = 0) -> sumZ f l = f x.
Proof.
  induction l as [|a l IH]; intros Hnd Hx Hf; [set_solver|]. simpl in *.
  apply NoDup_cons in Hnd as [Ha Hnd]. apply elem_of_cons in Hx as [->|Hx].
  - rewrite sumZ_zero; [lia|]. intros y Hy. apply Hf; [set_solver|].
    intros Hk. apply Ha. rewrite <- Hk. by apply list_elem_of_fmap_2.
  - rewrite (Hf a), IH by (try set_solver; intros Hk; apply Ha; rewrite Hk; by apply list_elem_of_fmap_2).
    lia.
Qed.

Lemma sumZ_add (f g : A -> Z) (l : list A) :
  sumZ f l + sumZ g l = sumZ (fun x => f x + g x) l.
Proof. induction l; simpl; lia. Qed.

(** A sum does not depend on the order of the list. *)
#[export] Instance sumZ_Permutation (f : A -> Z) : Proper ((≡ₚ) ==> (=)) (sumZ f).
Proof. induction 1; simpl; lia. Qed.

Lemma first_where_Some (p : A -> bool) (l : list A) x :
  first_where p l = Some x ->
  exists l1 l2, l = l1 ++ x :: l2 /\ p x = true /\ Forall (fun y => p y = false) l1.
Proof.
  induction l as [|y l IH]; simpl; [done|].
  destruct (p y) eqn:Hp.
  - intros [= ->]. exists [], l. auto.
  - intros H. destruct (IH H) as (l1 & l2 & -> & Hx & HF).
    exists (y :: l1), l2. auto.
Qed.

Lemma first_where_None (p : A -> bool) (l : list A) :
  first_where p l = None <-> Forall (fun y => p y = false) l.
Proof.
  induction l as [|y l IH]; simpl; [split; auto|].
  destruct (p y) eqn:Hp; split; intros H.
  - done.
  - inversion H; congruence.
  - constructor; [done|]. by apply IH.
  - inversion H; subst. by apply IH.
Qed.

End Generic.

#[export] Hint Rewrite @sumZ_app @sumZ_map @st_bind_get @st_bind_put @st_bind_modify
  @st_bind_ret @st_bind_fail @st_bind_assoc : lyra_rw.

(** Run the monad's combinators that have reached their state. *)
Ltac st_simpl := repeat progress (autorewrite with lyra_rw; cbv beta).

(** Destruct every [match] on a [Result] or a [bool] test in a hypothesis. *)
Ltac break_result :=
  repeat match goal with
  | H : context [match ?r with Ok _ => _ | Failed _ => _ end] |- _ =>
      destruct r as [[? ?]|?] eqn:?; try discriminate
  | H : Ok _ = Ok _ |- _ => injection H as; subst
  | H : Failed _ = Failed _ |- _ => injection H as; subst
  end.

(** Unfold the monad's combinators. *)
Ltac st_unfold :=
  unfold st_bind, st_ret, st_get, st_put, st_modify, st_fail, st_check in *.
