(* ===== verification/TagStack.v ===== *)
(** * Gameplay tag stacks: the counters of an item instance

    [ULyraInventoryItemInstance] stores its stack count and stack limit
    as stacks of gameplay tags in a [FGameplayTagStackContainer] (Lyra's
    System/GameplayTagStack, outside src/).  The container keeps an
    array [Stacks] of (tag, count) pairs, replicated as a fast array,
    and a map [TagToCountMap] that mirrors it for lookups.  The model
    follows the contract documented on the instance's wrappers in
    src/LyraGame/Inventory/LyraInventoryItemInstance.h: adding or
    removing fewer than one stack does nothing, a removal that reaches
    zero drops the tag, and a missing tag counts zero.

    The invariant [wf] says that the array has one stack per tag, every
    stored count is at least one, and the map agrees with the array; the
    lemmas give the effect of each operation on every tag. *)

From S2P Require Import Prelude.
From stdpp Require Import gmap.

Local Open Scope Z_scope.

Module TagStack.


Definition IsValid (Tag : GameplayTag) : bool := negb (String.eqb Tag "").

Record FGameplayTagStackContainer := {
  Stacks : list (GameplayTag * Z);
  TagToCountMap : gmap GameplayTag Z;
}.

Definition Empty : FGameplayTagStackContainer :=
  {| Stacks := []; TagToCountMap := ∅ |}.

(** The loop of AddStack over [Stacks]: bump the first stack of [Tag],
    or report that there is none. *)
Fixpoint add_to_stacks (Tag : GameplayTag) (n : Z) (l : list (GameplayTag * Z))
  : option (list (GameplayTag * Z) * Z) :=
  match l with
  | [] => None
  | (t, c) :: l' =>
      if String.eqb t Tag then Some ((t, c + n) :: l', c + n)
      else match add_to_stacks Tag n l' with
           | Some (l'', nc) => Some ((t, c) :: l'', nc)
           | None => None
           end
  end.

(** AddStack(Tag, StackCount). *)
Definition AddStack (Tag : GameplayTag) (StackCount : Z)
    (c : FGameplayTagStackContainer) : FGameplayTagStackContainer :=
  if negb (IsValid Tag) then c
  else if StackCount >? 0 then
    match add_to_stacks Tag StackCount (Stacks c) with
    | Some (l, NewCount) =>
        {| Stacks := l; TagToCountMap := <[Tag := NewCount]> (TagToCountMap c) |}
    | None =>
        {| Stacks := Stacks c ++ [(Tag, StackCount)];
           TagToCountMap := <[Tag := StackCount]> (TagToCountMap c) |}
    end
  else c.

(** The loop of RemoveStack: the first stack of [Tag] is dropped when its
    count is at most [n], and lowered by [n] otherwise.  The flag says
    whether the stack was dropped. *)
Fixpoint remove_from_stacks (Tag : GameplayTag) (n : Z) (l : list (GameplayTag * Z))
  : option (list (GameplayTag * Z) * option Z) :=
  match l with
  | [] => None
  | (t, c) :: l' =>
      if String.eqb t Tag then
        if c <=? n then Some (l', None) else Some ((t, c - n) :: l', Some (c - n))
      else match remove_from_stacks Tag n l' with
           | Some (l'', r) => Some ((t, c) :: l'', r)
           | None => None
           end
  end.

(** RemoveStack(Tag, StackCount). *)
Definition RemoveStack (Tag : GameplayTag) (StackCount : Z)
    (c : FGameplayTagStackContainer) : FGameplayTagStackContainer :=
  if negb (IsValid Tag) then c
  else if StackCount >? 0 then
    match remove_from_stacks Tag StackCount (Stacks c) with
    | Some (l, None) =>
        {| Stacks := l; TagToCountMap := delete Tag (TagToCountMap c) |}
    | Some (l, Some NewCount) =>
        {| Stacks := l; TagToCountMap := <[Tag := NewCount]> (TagToCountMap c) |}
    | None => c
    end
  else c.

(** GetStackCount(Tag): [TagToCountMap.FindRef(Tag)], zero when absent. *)
Definition GetStackCount (c : FGameplayTagStackContainer) (Tag : GameplayTag) : Z :=
  match TagToCountMap c !! Tag with Some n => n | None => 0 end.

(** ContainsTag(Tag). *)
Definition ContainsTag (c : FGameplayTagStackContainer) (Tag : GameplayTag) : bool :=
  bool_decide (is_Some (TagToCountMap c !! Tag)).

(** The count the array holds for a tag. *)
Fixpoint stacks_count (l : list (GameplayTag * Z)) (Tag : GameplayTag) : option Z :=
  match l with
  | [] => None
  | (t, c) :: l' => if String.eqb t Tag then Some c else stacks_count l' Tag
  end.

(** Well-formedness of a container. *)
Definition wf (c : FGameplayTagStackContainer) : Prop :=
  NoDup (map fst (Stacks c)) /\
  Forall (fun p => 1 <= p.2) (Stacks c) /\
  (forall t, TagToCountMap c !! t = stacks_count (Stacks c) t).

(** ** Lemmas on the array loops *)

Lemma stacks_count_none l t :
  t ∉ map fst l -> stacks_count l t = None.
Proof.
  induction l as [|[t' c] l IH]; simpl; [done|].
  intros Hn. destruct (String.eqb_spec t' t); [set_solver|]. apply IH. set_solver.
Qed.

Lemma add_to_stacks_some t n l l' nc :
  add_to_stacks t n l = Some (l', nc) ->
  map fst l' = map fst l /\
  stacks_count l' t = Some nc /\ stacks_count l t = Some (nc - n) /\
  (forall t', t' <> t -> stacks_count l' t' = stacks_count l t') /\
  (Forall (fun p => 1 <= p.2) l -> 0 < n -> Forall (fun p => 1 <= p.2) l').
Proof.
  revert l' nc. induction l as [|[t0 c] l IH]; simpl; intros l' nc H; [done|].
  destruct (String.eqb_spec t0 t) as [->|Hne].
  - injection H as <- <-. simpl. rewrite String.eqb_refl.
    repeat split; [f_equal; lia|..].
    + intros t' Ht'. destruct (String.eqb_spec t t'); congruence.
    + intros HF Hn. inversion HF; subst. constructor; simpl in *; [lia|done].
  - destruct (add_to_stacks t n l) as [[l'' nc']|] eqn:E; [|done].
    injection H as <- <-. destruct (IH _ _ eq_refl) as (H1 & H2 & H3 & H4 & H5).
    simpl. rewrite H1. destruct (String.eqb_spec t0 t); [congruence|].
    repeat split; auto.
    + intros t' Ht'. destruct (String.eqb_spec t0 t'); auto.
    + intros HF Hn. inversion HF; subst. constructor; auto.
Qed.

Lemma add_to_stacks_none t n l :
  add_to_stacks t n l = None -> t ∉ map fst l.
Proof.
  induction l as [|[t0 c] l IH]; simpl; [set_solver|].
  destruct (String.eqb_spec t0 t); [done|].
  destruct (add_to_stacks t n l) as [[]|]; [done|]. set_solver.
Qed.

Lemma stacks_count_app l t x c :
  stacks_count (l ++ [(x, c)]) t =
  match stacks_count l t with Some v => Some v | None => if String.eqb x t then Some c else None end.
Proof.
  induction l as [|[t0 c0] l IH]; simpl; [by destruct (String.eqb x t)|].
  destruct (String.eqb t0 t); auto.
Qed.

Lemma remove_from_stacks_some t n l l' r :
  remove_from_stacks t n l = Some (l', r) ->
  map fst l' `sublist_of` map fst l /\
  (exists c, stacks_count l t = Some c /\
     match r with None => c <= n | Some nc => n < c /\ nc = c - n end) /\
  (forall t', t' <> t -> stacks_count l' t' = stacks_count l t') /\
  (NoDup (map fst l) -> stacks_count l' t = r) /\
  (Forall (fun p => 1 <= p.2) l -> Forall (fun p => 1 <= p.2) l').
Proof.
  revert l' r. induction l as [|[t0 c] l IH]; simpl; intros l' r H; [done|].
  destruct (String.eqb_spec t0 t) as [->|Hne].
  - destruct (Z.leb_spec c n).
    + injection H as <- <-. repeat split.
      * by apply sublist_cons.
      * exists c. auto.
      * intros t' Ht'. destruct (String.eqb_spec t t'); congruence.
      * intros Hnd. apply NoDup_cons in Hnd as [Hnin _]. by apply stacks_count_none.
      * intros HF. by inversion HF.
    + injection H as <- <-. simpl. rewrite String.eqb_refl.
      repeat split.
      * by apply sublist_skip.
      * exists c. split; [done|lia].
      * intros t' Ht'. destruct (String.eqb_spec t t'); congruence.
      * intros HF. inversion HF; subst. constructor; simpl in *; [lia|done].
  - destruct (remove_from_stacks t n l) as [[l'' r']|] eqn:E; [|done].
    injection H as <- <-. destruct (IH _ _ eq_refl) as (H1 & H2 & H3 & H4 & H5).
    simpl. destruct (String.eqb_spec t0 t); [congruence|].
    repeat split; auto.
    + by apply sublist_skip.
    + intros t' Ht'. destruct (String.eqb_spec t0 t'); auto.
    + intros Hnd. apply NoDup_cons in Hnd as [_ Hnd]. auto.
    + intros HF. inversion HF; subst. constructor; auto.
Qed.

(** ** The container operations *)

Lemma wf_Empty : wf Empty.
Proof. split; [constructor|split; [constructor|done]]. Qed.

Lemma GetStackCount_Empty t : GetStackCount Empty t = 0.
Proof. unfold GetStackCount. simpl. by rewrite lookup_empty. Qed.

Lemma GetStackCount_wf c t :
  wf c -> GetStackCount c t = match stacks_count (Stacks c) t with Some n => n | None => 0 end.
Proof. intros (_ & _ & Hm). unfold GetStackCount. by rewrite Hm. Qed.

Lemma stacks_count_pos l t n :
  Forall (fun p => 1 <= p.2) l -> stacks_count l t = Some n -> 1 <= n.
Proof.
  induction 1 as [|[t0 c] l Hc _ IH]; simpl; [done|].
  destruct (String.eqb t0 t); [|done]. intros [= <-]. done.
Qed.

Lemma GetStackCount_nonneg c t : wf c -> 0 <= GetStackCount c t.
Proof.
  intros Hwf. rewrite GetStackCount_wf by done. destruct Hwf as (_ & HF & _).
  destruct (stacks_count (Stacks c) t) eqn:E; [|lia].
  pose proof (stacks_count_pos _ _ _ HF E). lia.
Qed.

Lemma AddStack_wf t n c : wf c -> wf (AddStack t n c).
Proof.
  intros Hwf. pose proof Hwf as (Hnd & HF & Hm). unfold AddStack.
  destruct (IsValid t) eqn:Hv; simpl; [|done].
  destruct (Z.gtb_spec n 0); [|done].
  destruct (add_to_stacks t n (Stacks c)) as [[l nc]|] eqn:E.
  - destruct (add_to_stacks_some _ _ _ _ _ E) as (H1 & H2 & _ & H4 & H5).
    repeat split; simpl.
    + by rewrite H1.
    + auto.
    + intros t'. destruct (decide (t' = t)) as [->|Hne].
      * by rewrite lookup_insert_eq.
      * rewrite lookup_insert_ne by congruence. rewrite H4 by done. apply Hm.
  - apply add_to_stacks_none in E. repeat split; simpl.
    + rewrite map_app. apply NoDup_app. repeat split; [done| |].
      * intros x Hx. simpl. set_solver.
      * apply NoDup_singleton.
    + apply Forall_app. split; [done|]. constructor; [simpl; lia|done].
    + intros t'. rewrite stacks_count_app, <- Hm.
      destruct (decide (t' = t)) as [->|Hne].
      * rewrite lookup_insert_eq, Hm, stacks_count_none by done. by rewrite String.eqb_refl.
      * rewrite lookup_insert_ne by congruence.
        destruct (TagToCountMap c !! t'); [done|].
        by destruct (String.eqb_spec t t').
Qed.

(** AddStack raises the count of its tag by the amount when the tag is
    valid and the amount positive, and leaves every other tag alone. *)
Lemma GetStackCount_AddStack c t n t' :
  wf c ->
  GetStackCount (AddStack t n c) t' =
  GetStackCount c t' + (if bool_decide (t' = t) && IsValid t && (n >? 0) then n else 0).
Proof.
  intros Hwf. pose proof Hwf as (Hnd & HF & Hm).
  unfold AddStack, GetStackCount at 1.
  destruct (IsValid t) eqn:Hv; simpl;
    [|rewrite andb_false_r; simpl; unfold GetStackCount; lia].
  destruct (Z.gtb_spec n 0) as [Hn|Hn];
    [|rewrite andb_false_r; simpl; unfold GetStackCount; lia].
  rewrite andb_true_r. unfold GetStackCount.
  destruct (add_to_stacks t n (Stacks c)) as [[l nc]|] eqn:E; simpl.
  - destruct (add_to_stacks_some _ _ _ _ _ E) as (_ & _ & H3 & _ & _).
    case_bool_decide as Ht; subst.
    + rewrite lookup_insert_eq, Hm, H3. simpl. lia.
    + rewrite lookup_insert_ne by congruence. simpl. lia.
  - apply add_to_stacks_none in E.
    case_bool_decide as Ht; subst.
    + rewrite lookup_insert_eq, Hm, stacks_count_none by done. simpl. lia.
    + rewrite lookup_insert_ne by congruence. simpl. lia.
Qed.

Lemma RemoveStack_wf t n c : wf c -> wf (RemoveStack t n c).
Proof.
  intros Hwf. pose proof Hwf as (Hnd & HF & Hm). unfold RemoveStack.
  destruct (IsValid t) eqn:Hv; simpl; [|done].
  destruct (Z.gtb_spec n 0); [|done].
  destruct (remove_from_stacks t n (Stacks c)) as [[l r]|] eqn:E; [|done].
  destruct (remove_from_stacks_some _ _ _ _ _ E) as (H1 & _ & H3 & H4 & H5).
  destruct r as [nc|]; repeat split; simpl; eauto using sublist_NoDup.
  - intros t'. destruct (decide (t' = t)) as [->|Hne].
    + rewrite lookup_insert_eq. by rewrite H4.
    + rewrite lookup_insert_ne by congruence. rewrite H3 by done. apply Hm.
  - intros t'. destruct (decide (t' = t)) as [->|Hne].
    + rewrite lookup_delete_eq. by rewrite H4.
    + rewrite lookup_delete_ne by congruence. rewrite H3 by done. apply Hm.
Qed.

(** RemoveStack lowers the count of its tag by the amount, never below
    zero, when the tag is valid and the amount positive. *)
Lemma GetStackCount_RemoveStack c t n t' :
  wf c ->
  GetStackCount (RemoveStack t n c) t' =
  if bool_decide (t' = t) && IsValid t && (n >? 0)
  then Z.max 0 (GetStackCount c t' - n) else GetStackCount c t'.
Proof.
  intros Hwf. pose proof (GetStackCount_nonneg c t' Hwf) as Hnn.
  pose proof Hwf as (Hnd & HF & Hm).
  unfold RemoveStack.
  destruct (IsValid t) eqn:Hv; simpl; [|by rewrite andb_false_r].
  destruct (Z.gtb_spec n 0) as [Hn|Hn]; [|by rewrite andb_false_r].
  rewrite andb_true_r.
  destruct (remove_from_stacks t n (Stacks c)) as [[l r]|] eqn:E; simpl.
  - destruct (remove_from_stacks_some _ _ _ _ _ E) as (_ & (c0 & Hc0 & Hr) & _ & _ & _).
    unfold GetStackCount in *. simpl. rewrite Hm in Hnn.
    case_bool_decide as Ht; [subst t'|]; destruct r as [nc|]; simpl.
    + rewrite lookup_insert_eq, Hm, Hc0. simpl. lia.
    + rewrite lookup_delete_eq, Hm, Hc0. simpl. lia.
    + rewrite lookup_insert_ne, Hm by congruence. done.
    + rewrite lookup_delete_ne, Hm by congruence. done.
  - case_bool_decide as Ht; [|done]. subst.
    unfold GetStackCount. rewrite Hm.
    assert (stacks_count (Stacks c) t = None) as ->; [|simpl; lia].
    revert E. clear. induction (Stacks c) as [|[t0 c0] l IH]; simpl; [done|].
    destruct (String.eqb t0 t); [by destruct (c0 <=? n)|].
    destruct (remove_from_stacks t n l) as [[]|]; [done|]. auto.
Qed.

(** ** Round trip *)

(** Removing what [add_to_stacks] added restores the array. *)
Lemma remove_after_add_stacks t n l l' nc :
  0 < n -> Forall (fun p => 1 <= p.2) l -> add_to_stacks t n l = Some (l', nc) ->
  remove_from_stacks t n l' = Some (l, Some (nc - n)).
Proof.
  intros Hn. revert l' nc. induction l as [|[t0 c] l IH]; cbn; intros l' nc HF H; [done|].
  apply Forall_cons in HF as [Hc HF]. cbn in Hc.
  destruct (String.eqb_spec t0 t) as [->|Hne].
  - injection H as <- <-. cbn. rewrite String.eqb_refl.
    destruct (Z.leb_spec (c + n) n); [lia|]. by replace (c + n - n) with c by lia.
  - destruct (add_to_stacks t n l) as [[l'' nc']|] eqn:E; [|done]. injection H as <- <-. cbn.
    destruct (String.eqb_spec t0 t); [congruence|]. by rewrite (IH _ _ HF eq_refl).
Qed.

(** A stack appended for a tag the array lacks is the one removed. *)
Lemma remove_appended_stack t n l :
  t ∉ map fst l -> remove_from_stacks t n (l ++ [(t, n)]) = Some (l, None).
Proof.
  induction l as [|[t0 c] l IH]; cbn; intros Hn.
  - rewrite String.eqb_refl. by rewrite Z.leb_refl.
  - destruct (String.eqb_spec t0 t) as [->|Hne]; [set_solver|]. rewrite IH by set_solver. done.
Qed.

(** [RemoveStack t n] undoes [AddStack t n] on a well-formed container:
    the array and the map come back exactly. *)
Lemma RemoveStack_AddStack t n c : wf c -> RemoveStack t n (AddStack t n c) = c.
Proof.
  intros (Hnd & HF & Hm). destruct c as [l m]. cbn in *.
  unfold AddStack. destruct (IsValid t) eqn:Hv; cbn; [|by unfold RemoveStack; rewrite Hv].
  destruct (Z.gtb_spec n 0) as [Hn|Hn]; [|by unfold RemoveStack; rewrite Hv; destruct (Z.gtb_spec n 0); [lia|]].
  unfold RemoveStack. rewrite Hv. destruct (Z.gtb_spec n 0); [|lia].
  destruct (add_to_stacks t n l) as [[l' nc]|] eqn:E; cbn.
  - rewrite (remove_after_add_stacks _ _ _ _ _ Hn HF E).
    destruct (add_to_stacks_some _ _ _ _ _ E) as (_ & _ & H3 & _ & _).
    rewrite insert_insert_eq, insert_id; [done|]. by rewrite Hm.
  - apply add_to_stacks_none in E. rewrite remove_appended_stack by done.
    rewrite delete_insert_eq, delete_id; [done|]. by rewrite Hm, stacks_count_none.
Qed.

End TagStack.
