(* ===== verification/InventoryItem.v ===== *)
(** * Inventory data: item types, definitions, instances, entries, messages

    The data declared in src/LyraGame/Inventory: [ELyraItemType], the
    item definition class and its fragments
    (LyraInventoryItemDefinition.h), the item instance with its stat
    tags (LyraInventoryItemInstance.h), the array entry and the change
    message (LyraInventoryManagerComponent.h).  Object pointers are
    object identities ([nat]); an item definition class is named by a
    [ItemDefClass] and [GetDefault] reads its class default object from a
    catalog.  The instance methods are defined in a .cpp file outside
    src/ and follow the contract stated in the header. *)

From S2P Require Import Prelude TagStack.
Import TagStack.

Local Open Scope Z_scope.

Module InventoryItem.

(** ELyraItemType (LyraInventoryItemDefinition.h). *)
Inductive ELyraItemType : Type :=
  | LIT_Consumable | LIT_Material | LIT_Weapon | LIT_Armor
  | LIT_Accessory | LIT_QuestItem | LIT_Miscellaneous | LIT_None.

#[export] Instance ELyraItemType_eq_dec : EqDecision ELyraItemType.
Proof. solve_decision. Defined.


(** The gameplay tags of the inventory (LyraInventoryManagerComponent.cpp). *)
Definition TAG_Lyra_Inventory_Message_StackChanged : GameplayTag :=
  "Lyra.Inventory.Message.StackChanged".
Definition TAG_Lyra_Inventory_Item_Count : GameplayTag := "Lyra.Inventory.Item.Count".
Definition TAG_Lyra_Inventory_Item_StackCount : GameplayTag := "Lyra.Inventory.Item.StackLimit".

(** A [TSubclassOf<ULyraInventoryItemDefinition>] other than nullptr. *)
Definition ItemDefClass := nat.

(** ULyraInventoryItemInstance: its identity, its definition class, its
    stat tags and the inventory component it belongs to. *)
Record ULyraInventoryItemInstance := {
  InstanceId : nat;
  ItemDef : ItemDefClass;
  StatTags : FGameplayTagStackContainer;
  InventoryManagerComponent : bool;
}.

(** ULyraInventoryItemFragment: a per-definition hook run on every new
    instance. *)
Record ULyraInventoryItemFragment := {
  OnInstanceCreated : ULyraInventoryItemInstance -> ULyraInventoryItemInstance;
}.

(** ULyraInventoryItemDefinition, as its class default object.  A
    fragment slot may hold nullptr. *)
Record ULyraInventoryItemDefinition := {
  DisplayName : string;
  ItemType : ELyraItemType;
  StackLimit : Z;
  Fragments : list (option ULyraInventoryItemFragment);
}.

Definition GetStackLimit (d : ULyraInventoryItemDefinition) : Z := StackLimit d.

(** The class default objects, [GetDefault<ULyraInventoryItemDefinition>]. *)
Definition Catalog := ItemDefClass -> ULyraInventoryItemDefinition.

(** The instance methods of LyraInventoryItemInstance.h. *)
Definition SetStatTags (i : ULyraInventoryItemInstance) (t : FGameplayTagStackContainer) :=
  {| InstanceId := InstanceId i; ItemDef := ItemDef i; StatTags := t;
     InventoryManagerComponent := InventoryManagerComponent i |}.

Definition AddStatTagStack (Tag : GameplayTag) (StackCount : Z) (i : ULyraInventoryItemInstance) :=
  SetStatTags i (AddStack Tag StackCount (StatTags i)).

Definition RemoveStatTagStack (Tag : GameplayTag) (StackCount : Z) (i : ULyraInventoryItemInstance) :=
  SetStatTags i (RemoveStack Tag StackCount (StatTags i)).

Definition GetStatTagStackCount (i : ULyraInventoryItemInstance) (Tag : GameplayTag) : Z :=
  GetStackCount (StatTags i) Tag.

Definition HasStatTag (i : ULyraInventoryItemInstance) (Tag : GameplayTag) : bool :=
  ContainsTag (StatTags i) Tag.

Definition SetInventoryManagerComponent (i : ULyraInventoryItemInstance) :=
  {| InstanceId := InstanceId i; ItemDef := ItemDef i; StatTags := StatTags i;
     InventoryManagerComponent := true |}.

(** FLyraInventoryEntry: the instance, the stack count the entry was
    created with, and the count last seen by the replication callbacks. *)
Record FLyraInventoryEntry := {
  Instance : ULyraInventoryItemInstance;
  StackCount : Z;
  LastObservedCount : Z;
}.

(** FLyraInventoryChangeMessage, without its constant owner field. *)
Record FLyraInventoryChangeMessage := {
  MsgInstance : nat;
  NewCount : Z;
  Delta : Z;
}.

(** The count an entry's instance holds, the quantity the component's
    queries read. *)
Definition entry_count (e : FLyraInventoryEntry) : Z :=
  GetStatTagStackCount (Instance e) TAG_Lyra_Inventory_Item_Count.

Definition entry_limit (e : FLyraInventoryEntry) : Z :=
  GetStatTagStackCount (Instance e) TAG_Lyra_Inventory_Item_StackCount.

Definition entry_id (e : FLyraInventoryEntry) : nat := InstanceId (Instance e).

Definition entry_def (e : FLyraInventoryEntry) : ItemDefClass := ItemDef (Instance e).

(** ** Lemmas on the instance methods *)

Lemma count_tags_differ :
  TAG_Lyra_Inventory_Item_Count <> TAG_Lyra_Inventory_Item_StackCount.
Proof. discriminate. Qed.

Lemma AddStatTagStack_id t n i : InstanceId (AddStatTagStack t n i) = InstanceId i.
Proof. done. Qed.

Lemma AddStatTagStack_def t n i : ItemDef (AddStatTagStack t n i) = ItemDef i.
Proof. done. Qed.

Lemma RemoveStatTagStack_id t n i : InstanceId (RemoveStatTagStack t n i) = InstanceId i.
Proof. done. Qed.

Lemma RemoveStatTagStack_def t n i : ItemDef (RemoveStatTagStack t n i) = ItemDef i.
Proof. done. Qed.

Lemma GetStatTagStackCount_Add_same i n t :
  wf (StatTags i) -> IsValid t = true -> 0 < n ->
  GetStatTagStackCount (AddStatTagStack t n i) t = GetStatTagStackCount i t + n.
Proof.
  intros Hwf Hv Hn. unfold GetStatTagStackCount, AddStatTagStack. simpl.
  rewrite GetStackCount_AddStack by done. rewrite bool_decide_true by done.
  rewrite Hv. simpl. destruct (Z.gtb_spec n 0); [done|lia].
Qed.

Lemma GetStatTagStackCount_Add_other i n t t' :
  wf (StatTags i) -> t' <> t ->
  GetStatTagStackCount (AddStatTagStack t n i) t' = GetStatTagStackCount i t'.
Proof.
  intros Hwf Hne. unfold GetStatTagStackCount, AddStatTagStack. simpl.
  rewrite GetStackCount_AddStack by done. rewrite bool_decide_false by done. simpl. lia.
Qed.

Lemma GetStatTagStackCount_Add_nonpos i n t :
  wf (StatTags i) -> n <= 0 ->
  GetStatTagStackCount (AddStatTagStack t n i) t = GetStatTagStackCount i t.
Proof.
  intros Hwf Hn. unfold GetStatTagStackCount, AddStatTagStack. simpl.
  rewrite GetStackCount_AddStack by done.
  destruct (Z.gtb_spec n 0); [lia|]. rewrite !andb_false_r. lia.
Qed.

Lemma GetStatTagStackCount_Remove_same i n t :
  wf (StatTags i) -> IsValid t = true -> 0 < n ->
  GetStatTagStackCount (RemoveStatTagStack t n i) t = Z.max 0 (GetStatTagStackCount i t - n).
Proof.
  intros Hwf Hv Hn. unfold GetStatTagStackCount, RemoveStatTagStack. simpl.
  rewrite GetStackCount_RemoveStack by done. rewrite bool_decide_true by done.
  rewrite Hv. destruct (Z.gtb_spec n 0); [done|lia].
Qed.

Lemma GetStatTagStackCount_Remove_other i n t t' :
  wf (StatTags i) -> t' <> t ->
  GetStatTagStackCount (RemoveStatTagStack t n i) t' = GetStatTagStackCount i t'.
Proof.
  intros Hwf Hne. unfold GetStatTagStackCount, RemoveStatTagStack. simpl.
  rewrite GetStackCount_RemoveStack by done. by rewrite bool_decide_false.
Qed.

Lemma GetStatTagStackCount_nonneg i t : wf (StatTags i) -> 0 <= GetStatTagStackCount i t.
Proof. apply GetStackCount_nonneg. Qed.

Lemma AddStatTagStack_wf t n i : wf (StatTags i) -> wf (StatTags (AddStatTagStack t n i)).
Proof. apply AddStack_wf. Qed.

Lemma RemoveStatTagStack_wf t n i : wf (StatTags i) -> wf (StatTags (RemoveStatTagStack t n i)).
Proof. apply RemoveStack_wf. Qed.

(** C6: Taking back stat-tag stacks is exact: on an instance whose stat
    tags are well formed, [RemoveStatTagStack t n] after
    [AddStatTagStack t n] gives back the same instance, its stack array
    and its tag-to-count map included, for every tag and amount. *)
Theorem RemoveStatTagStack_AddStatTagStack t n i :
  wf (StatTags i) -> RemoveStatTagStack t n (AddStatTagStack t n i) = i.
Proof.
  intros Hwf. unfold RemoveStatTagStack, AddStatTagStack. cbn.
  rewrite RemoveStack_AddStack by done. by destruct i.
Qed.

(** An instance holding three items. *)
Definition instance_ex : ULyraInventoryItemInstance :=
  {| InstanceId := 1%nat; ItemDef := 0%nat; StatTags := AddStack TAG_Lyra_Inventory_Item_Count 3 Empty;
     InventoryManagerComponent := true |}.

Lemma RemoveStatTagStack_AddStatTagStack_witness :
  wf (StatTags instance_ex) /\
  RemoveStatTagStack TAG_Lyra_Inventory_Item_Count 2 (AddStatTagStack TAG_Lyra_Inventory_Item_Count 2 instance_ex)
  = instance_ex.
Proof.
  assert (Hwf : wf (StatTags instance_ex)) by (apply AddStack_wf, wf_Empty).
  split; [exact Hwf|]. exact (RemoveStatTagStack_AddStatTagStack _ _ instance_ex Hwf).
Defined.

End InventoryItem.

#[export] Hint Resolve InventoryItem.AddStatTagStack_wf InventoryItem.RemoveStatTagStack_wf
  InventoryItem.GetStatTagStackCount_nonneg wf_Empty : lyra.
