(* ===== verification/QuickBar.v ===== *)
(** * The quick bar, as the inventory sees it

    [ULyraInventoryManagerComponent::AddItemDefinition] and
    [AddItemInstance] put a newly picked-up weapon into the first free
    slot of the owner's [ULyraQuickBarComponent] (Equipment/, outside
    src/).  Class [SlotService] states the three calls the inventory
    makes; the inventory's theorems hold for every instance.  Instance
    [LyraQuickBar] models Lyra's quick bar: a fixed array of slots of
    item instances and an active slot index, where an assignment only
    fills an empty valid slot and activation only moves to a valid,
    different index (the equip and unequip side effects are not
    modelled). *)

From S2P Require Import Prelude.

Local Open Scope Z_scope.

Module QuickBar.

Class SlotService (QB : Type) := {
  GetNextFreeItemSlot : QB -> Z;
  AddItemToSlot : Z -> nat -> QB -> QB;
  SetActiveSlotIndex : Z -> QB -> QB;
}.

Record ULyraQuickBarComponent := {
  Slots : list (option nat);
  ActiveSlotIndex : Z;
}.

Fixpoint first_free_slot (l : list (option nat)) (i : Z) : Z :=
  match l with
  | [] => -1
  | None :: _ => i
  | Some _ :: l' => first_free_slot l' (i + 1)
  end.

Definition IsValidIndex (q : ULyraQuickBarComponent) (i : Z) : bool :=
  (0 <=? i) && (i <? Z.of_nat (length (Slots q))).

Definition LyraGetNextFreeItemSlot (q : ULyraQuickBarComponent) : Z :=
  first_free_slot (Slots q) 0.

Definition LyraAddItemToSlot (SlotIndex : Z) (Item : nat) (q : ULyraQuickBarComponent)
  : ULyraQuickBarComponent :=
  if IsValidIndex q SlotIndex then
    match Slots q !! Z.to_nat SlotIndex with
    | Some None =>
        {| Slots := <[Z.to_nat SlotIndex := Some Item]> (Slots q);
           ActiveSlotIndex := ActiveSlotIndex q |}
    | _ => q
    end
  else q.

Definition LyraSetActiveSlotIndex (NewIndex : Z) (q : ULyraQuickBarComponent)
  : ULyraQuickBarComponent :=
  if IsValidIndex q NewIndex && negb (ActiveSlotIndex q =? NewIndex) then
    {| Slots := Slots q; ActiveSlotIndex := NewIndex |}
  else q.

#[export] Instance LyraQuickBar : SlotService ULyraQuickBarComponent := {
  GetNextFreeItemSlot := LyraGetNextFreeItemSlot;
  AddItemToSlot := LyraAddItemToSlot;
  SetActiveSlotIndex := LyraSetActiveSlotIndex;
}.

(** The slot the quick bar reports as free is a valid, empty slot. *)
Lemma first_free_slot_spec l i :
  first_free_slot l i = -1 \/
  (exists k, first_free_slot l i = i + Z.of_nat k /\ l !! k = Some None).
Proof.
  revert i. induction l as [|[x|] l IH]; intros i; simpl; [by left| |].
  - destruct (IH (i + 1)) as [H|(k & Hk & Hl)]; [by left|].
    right. exists (S k). split; [lia|done].
  - right. exists 0%nat. split; [lia|done].
Qed.

End QuickBar.
