(* ===== verification/InventoryList.v ===== *)
(** * FLyraInventoryList: the replicated entry array

    Models the methods of [FLyraInventoryList]
    (src/LyraGame/Inventory/LyraInventoryManagerComponent.cpp, lines
    40-169): [AddEntry] with its two [check]s, the creation of the
    instance and the run of the definition's fragments, [RemoveEntry],
    the item queries, and the three fast-array callbacks a client runs
    when the array replicates ([PreReplicatedRemove], [PostReplicatedAdd],
    [PostReplicatedChange]) with the change messages they broadcast.

    The array is a list of entries; a fresh object identity for the new
    instance is passed in by the caller, who owns the allocator.  The
    callbacks index the array with the engine's range check: an index
    out of range is a failed [check]. *)

From S2P Require Import Prelude TagStack InventoryItem.
Import TagStack InventoryItem.

Local Open Scope Z_scope.

Module InventoryList.

(** The new instance of AddEntry, lines 94-108: a fresh object of the
    definition, set up by each non-null fragment in order, then given its
    count and stack-limit tags. *)
Definition RunFragments (frs : list (option ULyraInventoryItemFragment))
    (i : ULyraInventoryItemInstance) : ULyraInventoryItemInstance :=
  fold_left (fun i fr => match fr with
                         | Some f => OnInstanceCreated f i
                         | None => i
                         end) frs i.

Definition CreateInstance (cat : Catalog) (NewObjectId : nat) (d : ItemDefClass)
    (StackCount0 : Z) : ULyraInventoryItemInstance :=
  let inst0 := {| InstanceId := NewObjectId; ItemDef := d; StatTags := Empty;
                  InventoryManagerComponent := false |} in
  let inst1 := RunFragments (Fragments (cat d)) inst0 in
  let inst2 := AddStatTagStack TAG_Lyra_Inventory_Item_Count StackCount0 inst1 in
  AddStatTagStack TAG_Lyra_Inventory_Item_StackCount (GetStackLimit (cat d)) inst2.

(** FLyraInventoryList::AddEntry(ItemDef, StackCount), lines 83-116:
    returns the new instance and the new array. *)
Definition AddEntry (cat : Catalog) (HasAuthority : bool) (NewObjectId : nat)
    (ItemDef0 : option ItemDefClass) (StackCount0 : Z) (Entries : list FLyraInventoryEntry)
  : Result (ULyraInventoryItemInstance * list FLyraInventoryEntry) :=
  match ItemDef0 with
  | None => Failed (CheckFailed "ItemDef != nullptr")
  | Some d =>
      if negb HasAuthority then Failed (CheckFailed "OwningActor->HasAuthority()")
      else
        let inst := CreateInstance cat NewObjectId d StackCount0 in
        let NewEntry := {| Instance := inst; StackCount := StackCount0;
                           LastObservedCount := INDEX_NONE |} in
        Ok (inst, Entries ++ [NewEntry])
  end.

(** FLyraInventoryList::AddEntry(Instance), lines 118-121: [unimplemented()]. *)
Definition AddEntryInstance (Instance0 : ULyraInventoryItemInstance)
    (Entries : list FLyraInventoryEntry) : Result (list FLyraInventoryEntry) :=
  Failed Unimplemented.

(** FLyraInventoryList::RemoveEntry(Instance), lines 123-134: every entry
    holding the instance is removed. *)
Definition RemoveEntry (InstanceId0 : nat) (Entries : list FLyraInventoryEntry)
  : list FLyraInventoryEntry :=
  filter (fun e => entry_id e <> InstanceId0) Entries.

(** GetAllItems, lines 136-148 (every entry holds a live instance). *)
Definition GetAllItems (Entries : list FLyraInventoryEntry) : list ULyraInventoryItemInstance :=
  map Instance Entries.

(** GetAllItemsOfType, lines 150-164. *)
Definition GetAllItemsOfType (cat : Catalog) (Type0 : ELyraItemType)
    (Entries : list FLyraInventoryEntry) : list ULyraInventoryItemInstance :=
  map Instance (filter (fun e => ItemType (cat (entry_def e)) = Type0 /\ 0 < entry_count e) Entries).

(** IsEmpty, lines 166-169. *)
Definition IsEmpty (Entries : list FLyraInventoryEntry) : bool :=
  Z.of_nat (length Entries) <=? 0.

(** BroadcastChangeMessage(Entry, OldCount, NewCount), lines 71-81. *)
Definition BroadcastChangeMessage (e : FLyraInventoryEntry) (OldCount NewCount0 : Z)
  : FLyraInventoryChangeMessage :=
  {| MsgInstance := entry_id e; NewCount := NewCount0; Delta := NewCount0 - OldCount |}.

(** [Entries[Index]] with the array's range check. *)
Definition entry_at (Entries : list FLyraInventoryEntry) (Index : Z) : Result FLyraInventoryEntry :=
  if Index <? 0 then Failed (CheckFailed "IsValidIndex(Index)")
  else match Entries !! Z.to_nat Index with
       | Some e => Ok e
       | None => Failed (CheckFailed "IsValidIndex(Index)")
       end.

Definition set_last_observed (e : FLyraInventoryEntry) (n : Z) : FLyraInventoryEntry :=
  {| Instance := Instance e; StackCount := StackCount e; LastObservedCount := n |}.

(** One replication callback: for each index, read the entry, compute the
    message from it and its new tracker value, or fail. *)
Fixpoint replicated_loop
    (visit : FLyraInventoryEntry -> Result (FLyraInventoryChangeMessage * Z))
    (Indices : list Z) (Entries : list FLyraInventoryEntry)
    (Msgs : list FLyraInventoryChangeMessage)
  : Result (list FLyraInventoryEntry * list FLyraInventoryChangeMessage) :=
  match Indices with
  | [] => Ok (Entries, Msgs)
  | Index :: rest =>
      match entry_at Entries Index with
      | Failed f => Failed f
      | Ok e =>
          match visit e with
          | Failed f => Failed f
          | Ok (m, last) =>
              replicated_loop visit rest
                (<[Z.to_nat Index := set_last_observed e last]> Entries) (Msgs ++ [m])
          end
      end
  end.

(** PreReplicatedRemove, lines 40-48. *)
Definition PreReplicatedRemove (RemovedIndices : list Z) (Entries : list FLyraInventoryEntry) :=
  replicated_loop (fun e => Ok (BroadcastChangeMessage e (StackCount e) 0, 0))
    RemovedIndices Entries [].

(** PostReplicatedAdd, lines 50-58. *)
Definition PostReplicatedAdd (AddedIndices : list Z) (Entries : list FLyraInventoryEntry) :=
  replicated_loop (fun e => Ok (BroadcastChangeMessage e 0 (StackCount e), StackCount e))
    AddedIndices Entries [].

(** PostReplicatedChange, lines 60-69, with its [check] on the tracker. *)
Definition PostReplicatedChange (ChangedIndices : list Z) (Entries : list FLyraInventoryEntry) :=
  replicated_loop (fun e =>
      if LastObservedCount e =? INDEX_NONE
      then Failed (CheckFailed "Stack.LastObservedCount != INDEX_NONE")
      else Ok (BroadcastChangeMessage e (LastObservedCount e) (StackCount e), StackCount e))
    ChangedIndices Entries [].

(** ** Lemmas *)

Lemma RemoveEntry_sublist id l : RemoveEntry id l `sublist_of` l.
Proof. apply sublist_filter. Qed.

Lemma elem_of_RemoveEntry e id l : e ∈ RemoveEntry id l <-> e ∈ l /\ entry_id e <> id.
Proof. unfold RemoveEntry. rewrite list_elem_of_filter. tauto. Qed.

Lemma RemoveEntry_length_lt id l :
  (exists e, e ∈ l /\ entry_id e = id) -> (length (RemoveEntry id l) < length l)%nat.
Proof.
  intros (e & He & Hid). unfold RemoveEntry.
  induction l as [|x l IH]; [set_solver|]. rewrite filter_cons.
  apply elem_of_cons in He as [->|He].
  - rewrite decide_False by congruence.
    pose proof (sublist_length _ _ (sublist_filter (fun e => entry_id e <> id) l)).
    simpl. lia.
  - specialize (IH He). case_decide; simpl; lia.
Qed.

Lemma AddEntry_ok cat auth nid d n l :
  auth = true ->
  exists i, AddEntry cat auth nid (Some d) n l =
            Ok (i, l ++ [{| Instance := i; StackCount := n; LastObservedCount := INDEX_NONE |}]).
Proof. intros ->. eexists. reflexivity. Qed.

End InventoryList.
