(* ===== verification/InventoryData.v ===== *)
(** * Data-only declarations around the inventory

    Module [ConsumeEffects] models the consume-effects fragment of
    src/LyraGame/Inventory/InventoryFragment_ConsumeEffects.h: its
    effects with their magnitudes and its gameplay cue, a fragment that
    keeps the base class's empty [OnInstanceCreated].  Module [SaveGame]
    models the save-game declarations: the save data of an item instance
    (LyraInventoryItemInstance.h), of an inventory entry and list and the
    player's save game (System/SaveGame/LyraSaveGame_Player.h), the
    interface [ILyraSaveGame] (System/SaveGame/ILyraSaveGame.h) as a
    type class, and the fields of [ULyraGameInstance]
    (System/LyraGameInstance.h).  The implementations of the interface
    and of [ExtractSaveData] are not under src/; the quest state and the
    date type are parameters.  Module [InventoryListData] models the
    inline members of [FLyraInventoryList] and the UI message declared
    in LyraInventoryManagerComponent.h. *)

From S2P Require Import Prelude TagStack InventoryItem InventoryList.
From Stdlib Require QArith.
Import TagStack InventoryItem InventoryList.

Module ConsumeEffects.

(** FEffectWithMagnitude, lines 14-29: a gameplay effect class (or
    nullptr), its magnitude and the tag that carries it. *)
Record FEffectWithMagnitude := {
  EffectClass : option nat;
  Magnitude : QArith.QArith_base.Q;
  MagnitudeTag : GameplayTag;
}.

(** UInventoryFragment_ConsumeEffects, lines 34-46. *)
Record UInventoryFragment_ConsumeEffects := {
  OnUseEffectsWithMagnitude : list FEffectWithMagnitude;
  GameplayCueTag : GameplayTag;
}.

(** The fragment as an item fragment: it does not override
    [OnInstanceCreated], whose body in ULyraInventoryItemFragment
    (LyraInventoryItemDefinition.h line 39) is empty. *)
Definition as_fragment (f : UInventoryFragment_ConsumeEffects) : ULyraInventoryItemFragment :=
  {| OnInstanceCreated := fun i => i |}.

(** A consume-effects fragment leaves every instance it is run on
    unchanged. *)
Lemma RunFragments_consume_effects fs frs i :
  RunFragments (map (fun f => Some (as_fragment f)) fs ++ frs) i = RunFragments frs i.
Proof.
  unfold RunFragments. rewrite fold_left_app. f_equal.
  induction fs as [|f fs IH]; [done|]. exact IH.
Qed.

End ConsumeEffects.

Module SaveGame.

(** FLyraInventoryItemInstanceSaveData (LyraInventoryItemInstance.h,
    lines 18-34). *)
Record FLyraInventoryItemInstanceSaveData := {
  ItemDefClassName : string;
  StatTags : FGameplayTagStackContainer;
  InventoryManagerComponentName : string;
}.

(** FLyraInventoryEntrySaveData (LyraSaveGame_Player.h, lines 12-21). *)
Record FLyraInventoryEntrySaveData := {
  InstanceSaveData : FLyraInventoryItemInstanceSaveData;
}.

(** FLyraInventoryListSaveData (LyraSaveGame_Player.h, lines 24-36). *)
Record FLyraInventoryListSaveData := {
  SavedEntries : list FLyraInventoryEntrySaveData;
  OwnerComponentName : string;
}.

Section Quests.
  (** [FQuestSaveStateData] and [FDateTime], declared outside src/. *)
  Context (FQuestSaveStateData FDateTime : Type).

(** ULyraSaveGame_Player (LyraSaveGame_Player.h, lines 41-57); the
    [TMap] of completed quests as an association list in map order. *)
Record ULyraSaveGame_Player := {
  InventoryList : FLyraInventoryListSaveData;
  InventoryEntry : FLyraInventoryEntrySaveData;
  QuestData : FQuestSaveStateData;
  CompletedQuests : list (string * FDateTime);
}.

(** ILyraSaveGame (ILyraSaveGame.h, lines 21-45): what an implementer
    [T] does with the inventory list and the quest state.  A [const&]
    argument is read and the implementer updated; an out-parameter is
    written from the implementer. *)
Class ILyraSaveGame (T : Type) := {
  SaveInventory : list FLyraInventoryEntry -> T -> T;
  LoadInventory : T -> list FLyraInventoryEntry -> list FLyraInventoryEntry;
  SaveQuestState : FQuestSaveStateData -> T -> T;
  LoadQuestState : T -> FQuestSaveStateData -> FQuestSaveStateData;
  SaveCompletedQuestsName : list (string * FDateTime) -> T -> T;
  LoadCompletedQuestsName : T -> list (string * FDateTime) -> list (string * FDateTime);
}.

End Quests.

(** The fields ULyraGameInstance declares (LyraGameInstance.h, lines
    40 and 50); its methods are defined outside src/. *)
Record ULyraGameInstance := {
  SaveGame_Player_SlotName : string;
  DebugTestEncryptionKey : list Byte.byte;
}.

End SaveGame.

Module InventoryListData.

(** FLyraInventoryList as the header declares it (lines 84-157): the
    replicated entries and the owning component ([None]: nullptr). *)
Record FLyraInventoryList := {
  ListEntries : list FLyraInventoryEntry;
  OwnerComponent : option nat;
}.

(** The two constructors, lines 91-99. *)
Definition FLyraInventoryList_new : FLyraInventoryList :=
  {| ListEntries := []; OwnerComponent := None |}.
Definition FLyraInventoryList_of_owner (InOwnerComponent : option nat) : FLyraInventoryList :=
  {| ListEntries := []; OwnerComponent := InOwnerComponent |}.

(** GetEntries and SetEntries, lines 105-113. *)
Definition GetEntries (l : FLyraInventoryList) : list FLyraInventoryEntry := ListEntries l.
Definition SetEntries (InEntries : list FLyraInventoryEntry) (l : FLyraInventoryList) : FLyraInventoryList :=
  {| ListEntries := InEntries; OwnerComponent := OwnerComponent l |}.

(** GetOwnerComponent and SetOwnerComponent, lines 116-125. *)
Definition GetOwnerComponent (l : FLyraInventoryList) : option nat := OwnerComponent l.
Definition SetOwnerComponent (InOwnerComponent : option nat) (l : FLyraInventoryList) : FLyraInventoryList :=
  {| ListEntries := ListEntries l; OwnerComponent := InOwnerComponent |}.

(** FLyraInventoryUIMessage, lines 166-186. *)
Record FLyraInventoryUIMessage := {
  UIItemDef : option ItemDefClass;
  Quantity : Z;
}.

Definition FLyraInventoryUIMessage_new : FLyraInventoryUIMessage :=
  {| UIItemDef := None; Quantity := 0 |}.
Definition FLyraInventoryUIMessage_make (InItemDef : option ItemDefClass) (InQuantity : Z) : FLyraInventoryUIMessage :=
  {| UIItemDef := InItemDef; Quantity := InQuantity |}.

(** The setters change only their field. *)
Lemma SetEntries_GetEntries e l :
  GetEntries (SetEntries e l) = e /\ GetOwnerComponent (SetEntries e l) = GetOwnerComponent l.
Proof. done. Qed.

End InventoryListData.
