(* ===== verification/InventoryReplication.v ===== *)
(** * The inventory list on a replicating client

    [FLyraInventoryList] is a fast array: the server marks the entries
    it writes dirty and a client receives, for each update, the removed
    entries, the new entries and the dirty ones.  The engine
    (FFastArraySerializer, outside src/) then runs the list's three
    callbacks of LyraInventoryManagerComponent.cpp (lines 40-69, file
    [InventoryList]) in this order: [PreReplicatedRemove] on the removed
    entries, still in place; [PostReplicatedAdd] on the new entries,
    appended after the old ones; [PostReplicatedChange] on the dirty
    ones; and last it compacts the array with [RemoveAtSwap] from the
    highest removed index down, which moves the last entry into each
    hole.  [LastObservedCount] is not replicated: an existing entry keeps
    the client's value, a new one starts at [INDEX_NONE] (header line
    81).

    [ReceiveInventoryList] is that receive step.  The theorems show that
    a client whose entries all have their tracker equal to their count
    never fails the [check] of PostReplicatedChange, keeps that
    invariant, ends with the server's entries up to the order the
    compaction gives, and that the deltas it broadcasts for an instance
    add up to the change of its count. *)

From S2P Require Import Prelude TagStack InventoryItem InventoryList.
From Stdlib Require Import Sorted.
Import TagStack InventoryItem InventoryList.

Local Open Scope Z_scope.

Module InventoryReplication.

(** ** The array operations of the engine *)

(** The positions, from [k], of the elements of [l] that satisfy [p],
    in increasing order. *)
Fixpoint positions_from {A} (p : A -> bool) (l : list A) (k : nat) : list nat :=
  match l with
  | [] => []
  | x :: l' => (if p x then [k] else []) ++ positions_from p l' (S k)
  end.

(** [TArray::RemoveAtSwap(Index)]: the last element fills the hole. *)
Definition RemoveAtSwap {A} (Index : nat) (l : list A) : list A :=
  match l !! (length l - 1)%nat with
  | Some y =>
      if bool_decide (Index < length l - 1)%nat
      then <[Index := y]> (take (length l - 1) l)
      else take (length l - 1) l
  | None => l
  end.

(** The compaction: the removed indices, sorted, are taken from the
    highest down, each under [IsValidIndex]. *)
Definition RemoveDeleted {A} (DeleteIndices : list nat) (l : list A) : list A :=
  fold_right (fun Index l => if bool_decide (Index < length l)%nat then RemoveAtSwap Index l else l)
    l DeleteIndices.

(** The elements of [l], placed from position [k], whose position is
    not in [ds]. *)
Fixpoint keep_from {A} (ds : list nat) (k : nat) (l : list A) : list A :=
  match l with
  | [] => []
  | x :: l' => (if bool_decide (k ∈ ds) then [] else [x]) ++ keep_from ds (S k) l'
  end.

(** The entries a callback loop leaves: the tracker of each visited
    position set by [g]. *)
Definition update_at (idx : list nat) (g : FLyraInventoryEntry -> Z) (E : list FLyraInventoryEntry)
  : list FLyraInventoryEntry :=
  imap (fun j e => if bool_decide (j ∈ idx) then set_last_observed e (g e) else e) E.

(** ** The receive step *)

Definition has_id (id : nat) (l : list FLyraInventoryEntry) : bool :=
  bool_decide (id ∈ map entry_id l).

(** The server's entry of an instance. *)
Definition server_entry (Server : list FLyraInventoryEntry) (id : nat) : option FLyraInventoryEntry :=
  find (fun s => Nat.eqb (entry_id s) id) Server.

(** An entry the server removed, one it marked dirty, one it added. *)
Definition is_deleted (Server : list FLyraInventoryEntry) (e : FLyraInventoryEntry) : bool :=
  negb (has_id (entry_id e) Server).

Definition is_changed (Server : list FLyraInventoryEntry) (Dirty : list nat) (e : FLyraInventoryEntry) : bool :=
  has_id (entry_id e) Server && bool_decide (entry_id e ∈ Dirty).

Definition is_new (Client : list FLyraInventoryEntry) (s : FLyraInventoryEntry) : bool :=
  negb (has_id (entry_id s) Client).

(** An existing entry receives the replicated fields of a dirty entry
    ([Instance], [StackCount]) and keeps its [LastObservedCount]. *)
Definition receive_item (Server : list FLyraInventoryEntry) (Dirty : list nat) (e : FLyraInventoryEntry)
  : FLyraInventoryEntry :=
  if bool_decide (entry_id e ∈ Dirty) then
    match server_entry Server (entry_id e) with
    | Some s => {| Instance := Instance s; StackCount := StackCount s;
                   LastObservedCount := LastObservedCount e |}
    | None => e
    end
  else e.

(** A new entry: the replicated fields, and [LastObservedCount] at its
    default [INDEX_NONE]. *)
Definition new_item (s : FLyraInventoryEntry) : FLyraInventoryEntry :=
  {| Instance := Instance s; StackCount := StackCount s; LastObservedCount := INDEX_NONE |}.

(** The positions the engine passes to each callback, and the array
    the callbacks see: the old entries, received, then the new ones. *)
Definition DeleteIndices (Server Client : list FLyraInventoryEntry) : list nat :=
  positions_from (is_deleted Server) Client 0.

Definition NewEntries (Server Client : list FLyraInventoryEntry) : list FLyraInventoryEntry :=
  map new_item (filter (fun s => is_new Client s = true) Server).

Definition AddedIndices (Server Client : list FLyraInventoryEntry) : list nat :=
  seq (length Client) (length (NewEntries Server Client)).

Definition ChangedIndices (Server : list FLyraInventoryEntry) (Dirty : list nat)
    (Client : list FLyraInventoryEntry) : list nat :=
  positions_from (is_changed Server Dirty) Client 0.

Definition ReceivedItems (Server : list FLyraInventoryEntry) (Dirty : list nat)
    (Client : list FLyraInventoryEntry) : list FLyraInventoryEntry :=
  map (receive_item Server Dirty) Client ++ NewEntries Server Client.

(** The client's receive of one update of the server's array [Server],
    with the instances it marked dirty: the three callbacks of the list
    in the engine's order, then the compaction. *)
Definition ReceiveInventoryList (Server : list FLyraInventoryEntry) (Dirty : list nat)
    (Client : list FLyraInventoryEntry)
  : Result (list FLyraInventoryEntry * list FLyraInventoryChangeMessage) :=
  match PreReplicatedRemove (map Z.of_nat (DeleteIndices Server Client)) (ReceivedItems Server Dirty Client) with
  | Failed f => Failed f
  | Ok (Items1, Msgs1) =>
      match PostReplicatedAdd (map Z.of_nat (AddedIndices Server Client)) Items1 with
      | Failed f => Failed f
      | Ok (Items2, Msgs2) =>
          match PostReplicatedChange (map Z.of_nat (ChangedIndices Server Dirty Client)) Items2 with
          | Failed f => Failed f
          | Ok (Items3, Msgs3) =>
              Ok (RemoveDeleted (DeleteIndices Server Client) Items3, Msgs1 ++ Msgs2 ++ Msgs3)
          end
      end
  end.

(** The message each callback sends for an entry. *)
Definition removed_msg (e : FLyraInventoryEntry) := BroadcastChangeMessage e (StackCount e) 0.
Definition added_msg (e : FLyraInventoryEntry) := BroadcastChangeMessage e 0 (StackCount e).
Definition changed_msg (e : FLyraInventoryEntry) := BroadcastChangeMessage e (LastObservedCount e) (StackCount e).

(** The tracker invariant of a client entry: it has observed its count,
    which is not negative. *)
Definition observed (e : FLyraInventoryEntry) : Prop :=
  LastObservedCount e = StackCount e /\ 0 <= StackCount e.

Definition observe (e : FLyraInventoryEntry) : FLyraInventoryEntry :=
  set_last_observed e (StackCount e).

(** What the receive leaves at an existing entry's position. *)
Definition client_after (Server : list FLyraInventoryEntry) (Dirty : list nat) (c : FLyraInventoryEntry)
  : FLyraInventoryEntry :=
  if is_deleted Server c then set_last_observed c 0
  else if is_changed Server Dirty c then observe (receive_item Server Dirty c)
  else c.

(** ** Generic lemmas on positions, compaction and the callback loop *)

Section Arrays.
  Context {A : Type}.
  Implicit Types (l : list A) (ds : list nat).

Lemma elem_of_positions_from (p : A -> bool) l k j :
  j ∈ positions_from p l k <-> (k <= j)%nat /\ exists x, l !! (j - k)%nat = Some x /\ p x = true.
Proof.
  revert k. induction l as [|x l IH]; intros k; cbn.
  - split; [set_solver|]. by intros (_ & ? & ? & _).
  - rewrite elem_of_app, IH.
    assert (Hx : j ∈ (if p x then [k] else []) <-> j = k /\ p x = true)
      by (destruct (p x); [rewrite list_elem_of_singleton|rewrite elem_of_nil]; naive_solver).
    rewrite Hx. split.
    + intros [[-> Hp]|[Hk (y & Hy & Hpy)]].
      * split; [lia|]. rewrite Nat.sub_diag. by exists x.
      * split; [lia|]. exists y. by replace (j - k)%nat with (S (j - S k)) by lia.
    + intros [Hk (y & Hy & Hpy)]. destruct (decide (j = k)) as [->|Hne].
      * left. rewrite Nat.sub_diag in Hy. cbn in Hy. by simplify_eq.
      * right. split; [lia|]. exists y. by replace (j - k)%nat with (S (j - S k)) in Hy by lia.
Qed.

Lemma positions_from_lt (p : A -> bool) l k j :
  j ∈ positions_from p l k -> (k <= j < k + length l)%nat.
Proof.
  rewrite elem_of_positions_from. intros [Hk (x & Hx & _)].
  apply lookup_lt_Some in Hx. lia.
Qed.

Lemma positions_from_sorted (p : A -> bool) l k :
  StronglySorted lt (positions_from p l k).
Proof.
  revert k. induction l as [|x l IH]; intros k; cbn; [constructor|].
  destruct (p x); cbn; [|apply IH]. constructor; [apply IH|].
  apply Forall_forall. intros j Hj%positions_from_lt. lia.
Qed.

Lemma positions_from_NoDup (p : A -> bool) l k : NoDup (positions_from p l k).
Proof.
  revert k. induction l as [|x l IH]; intros k; cbn; [constructor|].
  destruct (p x); cbn; [|apply IH]. constructor; [|apply IH].
  intros Hk%positions_from_lt. lia.
Qed.

(** Reading the array at the positions of [p] in a copy of [l] placed
    from [k], where the copy holds [m x] for each such [x], reads the
    images of the elements of [l] that satisfy [p], in order. *)
Lemma omap_positions_from {B C} (p : A -> bool) (m : A -> C) (h : C -> B) l k (L : list C) :
  (forall j x, l !! j = Some x -> p x = true -> L !! (k + j)%nat = Some (m x)) ->
  omap (fun i => h <$> L !! i) (positions_from p l k) = map (fun x => h (m x)) (filter (fun x => p x = true) l).
Proof.
  revert k. induction l as [|x l IH]; intros k HL; [done|]. cbn [positions_from].
  rewrite filter_cons, omap_app.
  rewrite IH; last first.
  { intros j y Hy Hp. replace (S k + j)%nat with (k + S j)%nat by lia. by apply (HL (S j)). }
  destruct (p x) eqn:Hp; cbn.
  - pose proof (HL 0%nat x eq_refl Hp) as H0. rewrite Nat.add_0_r in H0.
    rewrite H0, decide_True by done. cbn. done.
  - by rewrite decide_False by congruence.
Qed.

Lemma omap_seq {B C} (m : A -> C) (h : C -> B) l k (L : list C) :
  (forall j x, l !! j = Some x -> L !! (k + j)%nat = Some (m x)) ->
  omap (fun i => h <$> L !! i) (seq k (length l)) = map (fun x => h (m x)) l.
Proof.
  revert k. induction l as [|x l IH]; intros k HL; [done|]. cbn [length seq].
  pose proof (HL 0%nat x eq_refl) as H0. rewrite Nat.add_0_r in H0.
  cbn. rewrite H0. cbn. f_equal. apply IH.
  intros j y Hy. replace (S k + j)%nat with (k + S j)%nat by lia. by apply (HL (S j)).
Qed.

Lemma elem_of_positions_0 (p : A -> bool) l j :
  j ∈ positions_from p l 0 <-> exists x, l !! j = Some x /\ p x = true.
Proof. rewrite elem_of_positions_from, Nat.sub_0_r. split; [tauto|]. intros H. split; [lia|done]. Qed.



Lemma keep_from_ext ds ds' k l :
  (forall j, (k <= j < k + length l)%nat -> j ∈ ds <-> j ∈ ds') -> keep_from ds k l = keep_from ds' k l.
Proof.
  revert k. induction l as [|x l IH]; intros k Hds; [done|]. cbn.
  rewrite (IH (S k)); last (intros j Hj; apply Hds; cbn; lia).
  assert (Hk : k ∈ ds <-> k ∈ ds') by (apply Hds; cbn; lia).
  by rewrite (bool_decide_ext _ _ Hk).
Qed.

Lemma keep_from_cons ds k (x : A) l :
  keep_from ds k (x :: l) = (if bool_decide (k ∈ ds) then [] else [x]) ++ keep_from ds (S k) l.
Proof. done. Qed.

Lemma keep_from_nil k l : keep_from [] k l = l.
Proof. revert k. induction l as [|x l IH]; intros k; cbn; [done|]. rewrite bool_decide_false by set_solver. by rewrite IH. Qed.

Lemma keep_from_app ds k l1 l2 :
  keep_from ds k (l1 ++ l2) = keep_from ds k l1 ++ keep_from ds (k + length l1) l2.
Proof.
  revert k. induction l1 as [|x l1 IH]; intros k; cbn; [by rewrite Nat.add_0_r|].
  rewrite IH, <- app_assoc. by rewrite Nat.add_succ_r.
Qed.

Lemma keep_from_none ds k l :
  (forall j, (k <= j < k + length l)%nat -> j ∉ ds) -> keep_from ds k l = l.
Proof.
  intros H. rewrite (keep_from_ext ds []), keep_from_nil; [done|]. intros j Hj. specialize (H j Hj). set_solver.
Qed.


Lemma RemoveAtSwap_snoc i l (y : A) :
  RemoveAtSwap i (l ++ [y]) = if bool_decide (i < length l)%nat then <[i := y]> l else l.
Proof.
  unfold RemoveAtSwap. rewrite length_app, Nat.add_sub. cbn.
  rewrite lookup_app_r, Nat.sub_diag by lia. cbn. rewrite take_app_length. done.
Qed.

(** RemoveAtSwap at the position of [x] keeps the elements before it
    and permutes the ones after it. *)
Lemma RemoveAtSwap_app l1 (x : A) r :
  exists r', RemoveAtSwap (length l1) (l1 ++ x :: r) = l1 ++ r' /\ r' ≡ₚ r.
Proof.
  destruct r as [|y r0] using rev_ind.
  - exists []. rewrite RemoveAtSwap_snoc, bool_decide_false, app_nil_r by lia. done.
  - exists (y :: r0). split; [|apply Permutation_cons_append].
    rewrite app_comm_cons, app_assoc, RemoveAtSwap_snoc, bool_decide_true
      by (rewrite length_app; cbn; lia).
    rewrite <- (Nat.add_0_r (length l1)), insert_app_r. done.
Qed.

(** The compaction of sorted positions, all at least [m], keeps the
    first [m] elements and leaves a permutation of the kept others. *)
Lemma RemoveDeleted_spec ds l m :
  StronglySorted lt ds -> Forall (fun d => m <= d < length l)%nat ds ->
  exists r, RemoveDeleted ds l = take m l ++ r /\ r ≡ₚ keep_from ds m (drop m l).
Proof.
  revert m. induction ds as [|d ds IH]; intros m Hs Hb.
  - exists (drop m l). rewrite take_drop, keep_from_nil. done.
  - inversion Hs as [|? ? Hs' Hlt]; subst. apply Forall_cons in Hb as [Hd Hb].
    destruct (IH (S d) Hs') as (r & Hr & Hp).
    { apply Forall_forall. intros j Hj. rewrite Forall_forall in Hlt, Hb.
      pose proof (Hlt j Hj). pose proof (Hb j Hj). lia. }
    destruct (lookup_lt_is_Some_2 l d ltac:(lia)) as [x Hx].
    assert (Htk : take (S d) l = take d l ++ [x]) by (by erewrite take_S_r).
    assert (Hld : length (take d l) = d) by (rewrite length_take; lia).
    destruct (RemoveAtSwap_app (take d l) x r) as (r' & Hr' & Hp').
    unfold RemoveDeleted in *. cbn [fold_right]. rewrite Hr, Htk, <- app_assoc. cbn [app].
    rewrite bool_decide_true by (rewrite length_app; cbn; lia). rewrite Hld in Hr'. rewrite Hr'.
    exists (drop m (take d l) ++ r'). split.
    { rewrite app_assoc. f_equal. rewrite <- (take_drop m (take d l)) at 1.
      rewrite take_take, Nat.min_l by lia. done. }
    rewrite Hp', Hp.
    assert (Hdl : drop m l = drop m (take d l) ++ x :: drop (S d) l).
    { rewrite <- (take_drop d l) at 1. rewrite drop_app_le by lia. f_equal. by apply drop_S. }
    rewrite Hdl, keep_from_app, (keep_from_none (d :: ds) m); last first.
    { intros j Hj Hin. apply elem_of_cons in Hin as [->|Hin]; [rewrite length_drop in Hj; lia|].
      rewrite Forall_forall in Hlt. pose proof (Hlt j Hin).
      rewrite length_drop in Hj. lia. }
    rewrite length_drop, Hld. replace (m + (d - m))%nat with d by lia.
    cbn [keep_from]. rewrite bool_decide_true by set_solver. cbn.
    rewrite (keep_from_ext (d :: ds) ds (S d)); [done|].
    intros j Hj. rewrite elem_of_cons. split; [|by right]. intros [->|?]; [lia|done].
Qed.

End Arrays.

(** Dropping the positions of [p] keeps the elements that fail [p]. *)
Lemma keep_positions_from {A B} (p : A -> bool) (h : A -> B) l k :
  keep_from (positions_from p l k) k (map h l) = map h (filter (fun x => p x = false) l).
Proof.
  revert k. induction l as [|x l IH]; intros k; [done|]. cbn [map positions_from].
  rewrite keep_from_cons, filter_cons.
  rewrite (keep_from_ext _ (positions_from p l (S k))), IH; last first.
  { intros j Hj. rewrite elem_of_app. split; [|by right]. intros [Hin|Hin]; [|done].
    destruct (p x); [apply list_elem_of_singleton in Hin; lia|set_solver]. }
  assert (Hk : k ∉ positions_from p l (S k)) by (intros Hin%positions_from_lt; lia).
  destruct (p x) eqn:Hp; cbn.
  - rewrite bool_decide_true by set_solver. by rewrite decide_False by congruence.
  - rewrite bool_decide_false by set_solver. by rewrite decide_True.
Qed.

Lemma lookup_update_at idx g E j :
  update_at idx g E !! j =
  (fun e => if bool_decide (j ∈ idx) then set_last_observed e (g e) else e) <$> E !! j.
Proof. apply list_lookup_imap. Qed.

Lemma length_update_at idx g E : length (update_at idx g E) = length E.
Proof. apply length_imap. Qed.

Lemma update_at_nil g E : update_at [] g E = E.
Proof.
  apply list_eq. intros j. rewrite lookup_update_at, bool_decide_false by set_solver.
  by destruct (E !! j).
Qed.

Lemma omap_lookup_ext {B} (f : FLyraInventoryEntry -> B) (idx : list nat) (E E' : list FLyraInventoryEntry) :
  (forall j, j ∈ idx -> E' !! j = E !! j) ->
  omap (fun i => f <$> E' !! i) idx = omap (fun i => f <$> E !! i) idx.
Proof.
  induction idx as [|i idx IH]; intros H; [done|]. cbn.
  rewrite (H i), IH by set_solver. done.
Qed.

(** A callback loop over distinct valid positions whose visit succeeds
    on each visited entry: it sets their trackers and sends one message
    per position, in order. *)
Lemma replicated_loop_ok visit (f : FLyraInventoryEntry -> FLyraInventoryChangeMessage) g idx E M :
  NoDup idx ->
  (forall i, i ∈ idx -> exists e, E !! i = Some e /\ visit e = Ok (f e, g e)) ->
  replicated_loop visit (map Z.of_nat idx) E M =
  Ok (update_at idx g E, M ++ omap (fun i => f <$> E !! i) idx).
Proof.
  revert E M. induction idx as [|i idx IH]; intros E M Hnd Hv; cbn [map replicated_loop].
  - by rewrite update_at_nil, app_nil_r.
  - apply NoDup_cons in Hnd as [Hi Hnd]. destruct (Hv i ltac:(set_solver)) as (e & He & Hve).
    unfold entry_at. replace (Z.of_nat i <? 0) with false by (symmetry; apply Z.ltb_ge; lia).
    rewrite Nat2Z.id, He, Hve.
    pose proof (lookup_lt_Some _ _ _ He) as Hlen.
    rewrite IH; [|done|]; last first.
    { intros j Hj. rewrite list_lookup_insert_ne by set_solver. apply Hv. set_solver. }
    f_equal. f_equal.
    + apply list_eq. intros j. rewrite !lookup_update_at. destruct (decide (j = i)) as [->|Hne].
      * rewrite list_lookup_insert_eq, He by done. cbn.
        by rewrite bool_decide_false, bool_decide_true by set_solver.
      * rewrite list_lookup_insert_ne by done. destruct (E !! j); [cbn|done].
        do 2 case_bool_decide; set_solver.
    + cbn. rewrite He, <- app_assoc. cbn. do 2 f_equal. apply omap_lookup_ext.
      intros j Hj. rewrite list_lookup_insert_ne by set_solver. done.
Qed.

(** ** The receive step, computed *)

Lemma entry_id_unique (l : list FLyraInventoryEntry) x y :
  NoDup (map entry_id l) -> x ∈ l -> y ∈ l -> entry_id x = entry_id y -> x = y.
Proof.
  induction l as [|a l IH]; intros Hnd Hx Hy Heq; [set_solver|].
  cbn in Hnd. apply NoDup_cons in Hnd as [Ha Hnd].
  apply elem_of_cons in Hx as [->|Hx], Hy as [->|Hy]; [done| | |by apply IH].
  - exfalso. apply Ha. rewrite Heq. by apply list_elem_of_fmap_2.
  - exfalso. apply Ha. rewrite <- Heq. by apply list_elem_of_fmap_2.
Qed.

Lemma server_entry_Some S id s : server_entry S id = Some s -> s ∈ S /\ entry_id s = id.
Proof.
  unfold server_entry. intros H. apply find_some in H as [Hin Heq].
  apply Nat.eqb_eq in Heq. split; [by apply list_elem_of_In|done].
Qed.

Lemma server_entry_None S id : id ∉ map entry_id S -> server_entry S id = None.
Proof.
  intros Hid. destruct (server_entry S id) as [s|] eqn:E; [|done].
  apply server_entry_Some in E as [Hin <-]. exfalso. apply Hid. by apply list_elem_of_fmap_2.
Qed.

Lemma server_entry_elem S s : NoDup (map entry_id S) -> s ∈ S -> server_entry S (entry_id s) = Some s.
Proof.
  intros Hnd Hs. destruct (server_entry S (entry_id s)) as [s'|] eqn:E.
  - apply server_entry_Some in E as [Hin Heq]. f_equal. by apply (entry_id_unique S).
  - unfold server_entry in E. eapply find_none in E; [|by apply list_elem_of_In].
    by rewrite Nat.eqb_refl in E.
Qed.

Lemma LastObservedCount_receive S D c :
  LastObservedCount (receive_item S D c) = LastObservedCount c.
Proof. unfold receive_item. case_bool_decide; [|done]. by destruct (server_entry S (entry_id c)). Qed.

Lemma receive_item_deleted S D c : is_deleted S c = true -> receive_item S D c = c.
Proof.
  unfold is_deleted, has_id, receive_item. intros H%negb_true_iff%bool_decide_eq_false.
  case_bool_decide; [|done]. by rewrite server_entry_None.
Qed.

Lemma receive_item_unchanged S D c :
  is_deleted S c = false -> is_changed S D c = false -> receive_item S D c = c.
Proof.
  unfold is_deleted, is_changed, receive_item. intros Hd%negb_false_iff Hc.
  rewrite Hd in Hc. cbn in Hc. by rewrite Hc.
Qed.

(** A dirty entry the server still has takes the server's fields. *)
Lemma receive_item_changed S D c :
  NoDup (map entry_id S) -> is_changed S D c = true ->
  exists s, s ∈ S /\ entry_id s = entry_id c /\
    receive_item S D c = {| Instance := Instance s; StackCount := StackCount s;
                            LastObservedCount := LastObservedCount c |}.
Proof.
  unfold is_changed, has_id. intros Hnd (Hin & Hd)%andb_true_iff.
  apply bool_decide_eq_true in Hin, Hd. apply list_elem_of_fmap in Hin as (s & Hid & Hs).
  exists s. split_and!; [done|done|]. unfold receive_item. rewrite bool_decide_true by done.
  rewrite Hid, server_entry_elem by done. done.
Qed.

Lemma positions_0_at {A} (p : A -> bool) l j x :
  l !! j = Some x -> bool_decide (j ∈ positions_from p l 0) = p x.
Proof.
  intros Hx. destruct (p x) eqn:Hp.
  - apply bool_decide_eq_true, elem_of_positions_0. eauto.
  - apply bool_decide_eq_false. rewrite elem_of_positions_0. intros (y & Hy & Hpy). congruence.
Qed.

Section Receive.
  Variable Server : list FLyraInventoryEntry.
  Variable Dirty : list nat.
  Variable Client : list FLyraInventoryEntry.

Let N := filter (fun s => is_new Client s = true) Server.
Let E1 := update_at (DeleteIndices Server Client) (fun _ => 0) (ReceivedItems Server Dirty Client).
Let E2 := update_at (AddedIndices Server Client) StackCount E1.

Lemma ReceivedItems_old j c :
  Client !! j = Some c -> ReceivedItems Server Dirty Client !! j = Some (receive_item Server Dirty c).
Proof.
  intros Hc. unfold ReceivedItems.
  rewrite lookup_app_l by (rewrite length_map; eapply lookup_lt_Some; eauto).
  by rewrite list_lookup_fmap, Hc.
Qed.

Lemma ReceivedItems_new k s :
  N !! k = Some s -> ReceivedItems Server Dirty Client !! (length Client + k)%nat = Some (new_item s).
Proof.
  intros Hs. unfold ReceivedItems, NewEntries.
  rewrite lookup_app_r by (rewrite length_map; lia).
  rewrite length_map, Nat.add_sub', list_lookup_fmap. fold N. by rewrite Hs.
Qed.

Lemma elem_of_AddedIndices j :
  j ∈ AddedIndices Server Client <-> (length Client <= j < length Client + length N)%nat.
Proof. unfold AddedIndices, NewEntries. rewrite elem_of_seq, length_map. done. Qed.

Lemma DeleteIndices_lt j : j ∈ DeleteIndices Server Client -> (j < length Client)%nat.
Proof. intros Hj%positions_from_lt. lia. Qed.

(** PreReplicatedRemove announces each removed entry with its count
    going to 0. *)
Lemma PreReplicatedRemove_run :
  PreReplicatedRemove (map Z.of_nat (DeleteIndices Server Client)) (ReceivedItems Server Dirty Client) =
  Ok (E1, map removed_msg (filter (fun c => is_deleted Server c = true) Client)).
Proof.
  unfold PreReplicatedRemove. rewrite (replicated_loop_ok _ removed_msg (fun _ => 0)); cycle 1.
  { apply positions_from_NoDup. }
  { intros i (c & Hc & _)%elem_of_positions_0. eexists. split; [by apply ReceivedItems_old|done]. }
  rewrite app_nil_l. f_equal. f_equal. unfold DeleteIndices.
  rewrite (omap_positions_from _ (receive_item Server Dirty)); [|intros j x Hx _; by apply ReceivedItems_old].
  apply map_ext_in. intros x Hx. apply list_elem_of_In, list_elem_of_filter in Hx as [Hd _].
  by rewrite receive_item_deleted.
Qed.

(** PostReplicatedAdd announces each new entry with its count coming
    from 0. *)
Lemma PostReplicatedAdd_run :
  PostReplicatedAdd (map Z.of_nat (AddedIndices Server Client)) E1 =
  Ok (E2, map (fun s => added_msg (new_item s)) N).
Proof.
  assert (HE1 : forall k s, N !! k = Some s -> E1 !! (length Client + k)%nat = Some (new_item s)).
  { intros k s Hs. unfold E1. rewrite lookup_update_at, (ReceivedItems_new k s Hs). cbn.
    rewrite bool_decide_false by (intros ?%DeleteIndices_lt; lia). done. }
  unfold PostReplicatedAdd. rewrite (replicated_loop_ok _ added_msg StackCount); cycle 1.
  { apply NoDup_seq. }
  { intros i Hi. apply elem_of_AddedIndices in Hi.
    destruct (lookup_lt_is_Some_2 N (i - length Client) ltac:(lia)) as [s Hs].
    exists (new_item s). split; [|done]. replace i with (length Client + (i - length Client))%nat by lia.
    by apply HE1. }
  rewrite app_nil_l. f_equal. f_equal. unfold AddedIndices, NewEntries. rewrite length_map. fold N.
  apply omap_seq. intros j x Hx. by apply HE1.
Qed.

Lemma E2_old j c :
  Client !! j = Some c -> is_deleted Server c = false -> E2 !! j = Some (receive_item Server Dirty c).
Proof.
  intros Hc Hd. unfold E2, E1. rewrite !lookup_update_at, (ReceivedItems_old j c) by done. cbn.
  unfold DeleteIndices. rewrite (positions_0_at _ _ _ _ Hc), Hd.
  rewrite bool_decide_false; [done|]. intros ?%elem_of_AddedIndices. apply lookup_lt_Some in Hc. lia.
Qed.

(** On a client whose entries have observed their counts,
    PostReplicatedChange passes its [check] and announces each dirty
    entry going from its old count to the server's. *)
Lemma PostReplicatedChange_run :
  Forall observed Client ->
  PostReplicatedChange (map Z.of_nat (ChangedIndices Server Dirty Client)) E2 =
  Ok (update_at (ChangedIndices Server Dirty Client) StackCount E2,
      map (fun c => changed_msg (receive_item Server Dirty c)) (filter (fun c => is_changed Server Dirty c = true) Client)).
Proof.
  intros Hobs.
  assert (Hnd : forall c, is_changed Server Dirty c = true -> is_deleted Server c = false).
  { unfold is_changed, is_deleted. intros c (-> & _)%andb_true_iff. done. }
  unfold PostReplicatedChange. rewrite (replicated_loop_ok _ changed_msg StackCount); cycle 1.
  { apply positions_from_NoDup. }
  { intros i (c & Hc & Hch)%elem_of_positions_0. exists (receive_item Server Dirty c).
    split; [by apply E2_old, Hnd|]. rewrite Forall_lookup in Hobs. destruct (Hobs i c Hc) as [Hl Hnn].
    cbn. replace (LastObservedCount (receive_item Server Dirty c) =? INDEX_NONE) with false; [done|].
    symmetry. apply Z.eqb_neq. rewrite LastObservedCount_receive. unfold INDEX_NONE. lia. }
  rewrite app_nil_l. f_equal. f_equal. unfold ChangedIndices.
  apply (omap_positions_from _ (receive_item Server Dirty)). intros j x Hx Hch. by apply E2_old, Hnd.
Qed.

(** The array after the callbacks: each old entry as [client_after]
    leaves it, then the new entries with their trackers set. *)
Lemma callbacks_final_items :
  update_at (ChangedIndices Server Dirty Client) StackCount E2 =
  map (client_after Server Dirty) Client ++ map (fun s => observe (new_item s)) N.
Proof.
  apply list_eq. intros j. rewrite lookup_update_at.
  destruct (decide (j < length Client)%nat) as [Hj|Hj].
  - destruct (lookup_lt_is_Some_2 Client j Hj) as [c Hc].
    rewrite lookup_app_l, list_lookup_fmap, Hc by (rewrite length_map; lia). cbn [fmap option_fmap option_map].
    unfold ChangedIndices. rewrite (positions_0_at _ _ _ _ Hc). unfold client_after.
    destruct (is_deleted Server c) eqn:Hd.
    + assert (Hch : is_changed Server Dirty c = false).
      { unfold is_changed, is_deleted in *. apply negb_true_iff in Hd. by rewrite Hd. }
      unfold E2, E1. rewrite !lookup_update_at, (ReceivedItems_old j c Hc). cbn.
      unfold DeleteIndices. rewrite (positions_0_at _ _ _ _ Hc), Hd, Hch, receive_item_deleted by done.
      rewrite bool_decide_false; [done|]. intros ?%elem_of_AddedIndices. lia.
    + rewrite (E2_old j c Hc Hd). cbn. destruct (is_changed Server Dirty c) eqn:Hch; [done|].
      by rewrite receive_item_unchanged.
  - rewrite lookup_app_r by (rewrite length_map; lia). rewrite list_lookup_fmap, length_map.
    rewrite bool_decide_false by (intros Hin%positions_from_lt; lia).
    set (k := (j - length Client)%nat). replace j with (length Client + k)%nat by lia.
    destruct (N !! k) as [s|] eqn:Hs.
    + unfold E2, E1. rewrite !lookup_update_at, (ReceivedItems_new k s Hs). cbn.
      rewrite (bool_decide_false (_ ∈ DeleteIndices _ _)) by (intros ?%DeleteIndices_lt; lia).
      rewrite bool_decide_true; [done|]. apply elem_of_AddedIndices. apply lookup_lt_Some in Hs. lia.
    + apply lookup_ge_None_1 in Hs. rewrite (lookup_ge_None_2 E2); [done|].
      unfold E2, E1. rewrite !length_update_at. unfold ReceivedItems, NewEntries.
      rewrite length_app, !length_map. fold N. lia.
Qed.

(** The receive step on a client whose entries have observed their
    counts, computed: it never fails, and gives the compacted array and
    the messages of the three callbacks in order. *)
Lemma ReceiveInventoryList_run :
  Forall observed Client ->
  ReceiveInventoryList Server Dirty Client =
  Ok (RemoveDeleted (DeleteIndices Server Client)
        (map (client_after Server Dirty) Client ++ map (fun s => observe (new_item s)) N),
      map removed_msg (filter (fun c => is_deleted Server c = true) Client) ++
      map (fun s => added_msg (new_item s)) N ++
      map (fun c => changed_msg (receive_item Server Dirty c))
        (filter (fun c => is_changed Server Dirty c = true) Client)).
Proof.
  intros Hobs. unfold ReceiveInventoryList. rewrite PreReplicatedRemove_run. cbv beta iota.
  rewrite PostReplicatedAdd_run. cbv beta iota.
  rewrite PostReplicatedChange_run by done. cbv beta iota.
  by rewrite callbacks_final_items.
Qed.

End Receive.

(** ** What the client holds and what it is told *)

(** The count of an instance in an array, and the sum of the deltas
    the messages announce for it: what a subscriber adds up. *)
Definition count_of (l : list FLyraInventoryEntry) (id : nat) : Z :=
  sumZ (fun e => if decide (entry_id e = id) then StackCount e else 0) l.

Definition delta_sum (msgs : list FLyraInventoryChangeMessage) (id : nat) : Z :=
  sumZ (fun m => if decide (MsgInstance m = id) then Delta m else 0) msgs.

(** The instances and counts of an array. *)
Definition id_counts (l : list FLyraInventoryEntry) : list (nat * Z) :=
  map (fun e => (entry_id e, StackCount e)) l.

(** The transport's contract: an entry the server holds with another
    count than the client's was marked dirty. *)
Definition dirty_complete (Server : list FLyraInventoryEntry) (Dirty : list nat)
    (Client : list FLyraInventoryEntry) : Prop :=
  forall c s, c ∈ Client -> s ∈ Server -> entry_id c = entry_id s ->
    StackCount c <> StackCount s -> entry_id s ∈ Dirty.

Lemma count_of_id_counts l id :
  count_of l id = sumZ (fun p => if decide (p.1 = id) then p.2 else 0) (id_counts l).
Proof. unfold count_of, id_counts. by rewrite sumZ_map. Qed.

(** Arrays with the same instances and counts, in any order, have the
    same count of every instance. *)
Lemma count_of_perm l1 l2 id : id_counts l1 ≡ₚ id_counts l2 -> count_of l1 id = count_of l2 id.
Proof. intros Hp. rewrite !count_of_id_counts. by rewrite Hp. Qed.

Lemma entry_id_receive S D c : entry_id (receive_item S D c) = entry_id c.
Proof.
  unfold receive_item. case_bool_decide; [|done].
  destruct (server_entry S (entry_id c)) as [s|] eqn:E; [|done].
  by apply server_entry_Some in E as [_ Hid].
Qed.

Lemma entry_id_client_after S D c : entry_id (client_after S D c) = entry_id c.
Proof.
  unfold client_after. destruct (is_deleted S c); [done|].
  destruct (is_changed S D c); [apply entry_id_receive|done].
Qed.

Lemma StackCount_receive S D c :
  StackCount (receive_item S D c) = StackCount c \/ exists s, s ∈ S /\ StackCount (receive_item S D c) = StackCount s.
Proof.
  unfold receive_item. case_bool_decide; [|by left].
  destruct (server_entry S (entry_id c)) as [s|] eqn:E; [|by left].
  apply server_entry_Some in E as [Hs _]. right. by exists s.
Qed.

(** The compacted array holds the entries that were not removed, as the
    callbacks left them, and the new ones, up to order. *)
Lemma RemoveDeleted_received S D C (g : FLyraInventoryEntry -> FLyraInventoryEntry) N :
  RemoveDeleted (DeleteIndices S C) (map (client_after S D) C ++ map g N) ≡ₚ
  map (client_after S D) (filter (fun c => is_deleted S c = false) C) ++ map g N.
Proof.
  destruct (RemoveDeleted_spec (DeleteIndices S C) (map (client_after S D) C ++ map g N) 0)
    as (r & Hr & Hp).
  { apply positions_from_sorted. }
  { apply Forall_forall. intros j Hj%positions_from_lt. rewrite length_app, length_map. lia. }
  rewrite Hr, Hp, take_0, drop_0, app_nil_l. unfold DeleteIndices.
  rewrite keep_from_app, keep_positions_from, keep_from_none; [done|].
  intros j Hj Hin%positions_from_lt. rewrite length_map in Hj. lia.
Qed.

Lemma has_id_spec id l : has_id id l = true <-> exists e, e ∈ l /\ entry_id e = id.
Proof.
  unfold has_id. rewrite bool_decide_eq_true, list_elem_of_In, in_map_iff.
  split; intros (e & He & Hin); exists e; split; try done; by apply list_elem_of_In.
Qed.

Lemma NoDup_ids_filter (P : FLyraInventoryEntry -> Prop) `{!forall x, Decision (P x)} l :
  NoDup (map entry_id l) -> NoDup (map entry_id (filter P l)).
Proof.
  induction l as [|x l IH]; intros Hnd; [constructor|]. cbn in Hnd. apply NoDup_cons in Hnd as [Hx Hnd].
  rewrite filter_cons. case_decide; [|by apply IH]. cbn. constructor; [|by apply IH].
  intros Hin. apply Hx. apply list_elem_of_In, in_map_iff in Hin as (y & Hy & Hin).
  apply list_elem_of_In, list_elem_of_filter in Hin as [_ Hin].
  apply list_elem_of_In, in_map_iff. exists y. split; [done|]. by apply list_elem_of_In.
Qed.

Section Counts.
  Variable Server : list FLyraInventoryEntry.
  Variable Dirty : list nat.
  Variable Client : list FLyraInventoryEntry.
  Hypothesis Hnd_server : NoDup (map entry_id Server).
  Hypothesis Hdirty : dirty_complete Server Dirty Client.

(** An entry both arrays hold is kept and ends with the server's count. *)
Lemma client_after_count c s :
  c ∈ Client -> s ∈ Server -> entry_id c = entry_id s ->
  is_deleted Server c = false /\ StackCount (client_after Server Dirty c) = StackCount s.
Proof.
  intros Hc Hs Hid.
  assert (Hd : is_deleted Server c = false).
  { unfold is_deleted. apply negb_false_iff, has_id_spec. by exists s. }
  split; [done|]. unfold client_after. rewrite Hd.
  destruct (is_changed Server Dirty c) eqn:Hch.
  - destruct (receive_item_changed Server Dirty c Hnd_server Hch) as (s' & Hs' & Hid' & ->). cbn.
    f_equal. apply (entry_id_unique Server); [done..|congruence].
  - unfold is_changed, is_deleted in *. apply negb_false_iff in Hd. rewrite Hd in Hch.
    apply bool_decide_eq_false in Hch. destruct (decide (StackCount c = StackCount s)); [done|].
    exfalso. apply Hch. rewrite Hid. by apply (Hdirty c s).
Qed.

(** The kept entries carry the instances and counts the server holds
    for the instances the client already had. *)
Lemma kept_id_counts :
  NoDup (map entry_id Client) ->
  id_counts (map (client_after Server Dirty) (filter (fun c => is_deleted Server c = false) Client)) ≡ₚ
  id_counts (filter (fun s => ¬ is_new Client s = true) Server).
Proof.
  intros Hnd_client. unfold id_counts. rewrite map_map. apply NoDup_Permutation.
  - apply NoDup_ListNoDup, (NoDup_map_inv fst), NoDup_ListNoDup. rewrite map_map.
    rewrite (map_ext _ entry_id) by (intros c; apply entry_id_client_after). by apply NoDup_ids_filter.
  - apply NoDup_ListNoDup, (NoDup_map_inv fst), NoDup_ListNoDup. rewrite map_map. by apply NoDup_ids_filter.
  - intros [i n]. rewrite !list_elem_of_In, !in_map_iff. split.
    + intros (c & Heq & Hc). apply list_elem_of_In, list_elem_of_filter in Hc as [Hd Hc].
      unfold is_deleted in Hd. apply negb_false_iff, has_id_spec in Hd as (s & Hs & Hid).
      destruct (client_after_count c s Hc Hs (eq_sym Hid)) as [_ Hn].
      exists s. rewrite entry_id_client_after, Hn in Heq. split; [by rewrite Hid|].
      apply list_elem_of_In, list_elem_of_filter. split; [|done].
      unfold is_new. rewrite negb_true_iff, not_false_iff_true, has_id_spec. by exists c.
    + intros (s & Heq & Hs). apply list_elem_of_In, list_elem_of_filter in Hs as [Hn Hs].
      unfold is_new in Hn. rewrite negb_true_iff, not_false_iff_true, has_id_spec in Hn.
      destruct Hn as (c & Hc & Hid). destruct (client_after_count c s Hc Hs Hid) as [Hd Hcnt].
      exists c. rewrite entry_id_client_after, Hcnt, Hid. split; [done|].
      apply list_elem_of_In, list_elem_of_filter. done.
Qed.

End Counts.

(** The array the client holds after a receive, up to order. *)
Definition received_array (Server : list FLyraInventoryEntry) (Dirty : list nat)
    (Client : list FLyraInventoryEntry) : list FLyraInventoryEntry :=
  map (client_after Server Dirty) (filter (fun c => is_deleted Server c = false) Client) ++
  map (fun s => observe (new_item s)) (filter (fun s => is_new Client s = true) Server).

Lemma received_array_observed S D C :
  Forall observed C -> Forall (fun s => 0 <= StackCount s) S -> Forall observed (received_array S D C).
Proof.
  intros HC HS. unfold received_array. apply Forall_app. split; apply Forall_forall.
  - intros e (c & <- & Hc)%list_elem_of_In%in_map_iff. apply list_elem_of_In, list_elem_of_filter in Hc as [Hd Hc].
    rewrite Forall_forall in HC, HS. destruct (HC c Hc) as [Hl Hn].
    unfold client_after. rewrite Hd. destruct (is_changed S D c); [|done].
    split; [done|]. cbn. destruct (StackCount_receive S D c) as [->|(s & Hs & ->)]; [done|]. by apply HS.
  - intros e (s & <- & Hs)%list_elem_of_In%in_map_iff. apply list_elem_of_In, list_elem_of_filter in Hs as [_ Hs].
    rewrite Forall_forall in HS. split; [done|]. cbn. by apply HS.
Qed.

Lemma received_array_id_counts S D C :
  NoDup (map entry_id S) -> NoDup (map entry_id C) -> dirty_complete S D C ->
  id_counts (received_array S D C) ≡ₚ id_counts S.
Proof.
  intros HS HC Hd. unfold received_array.
  transitivity (id_counts (filter (fun s => ¬ is_new C s = true) S ++ filter (fun s => is_new C s = true) S)).
  - unfold id_counts. rewrite !map_app. apply Permutation_app; [by apply kept_id_counts|].
    rewrite map_map. done.
  - apply Permutation_map. rewrite Permutation_app_comm. apply filter_app_complement.
Qed.

Lemma delta_sum_app m1 m2 id : delta_sum (m1 ++ m2) id = delta_sum m1 id + delta_sum m2 id.
Proof. apply sumZ_app. Qed.

Lemma count_of_app l1 l2 id : count_of (l1 ++ l2) id = count_of l1 id + count_of l2 id.
Proof. apply sumZ_app. Qed.

(** The removals and changes announce, for each instance the client
    had, the step from its count to what the client keeps. *)
Lemma deltas_old S D C id :
  Forall observed C ->
  count_of C id + delta_sum (map removed_msg (filter (fun c => is_deleted S c = true) C)) id +
  delta_sum (map (fun c => changed_msg (receive_item S D c)) (filter (fun c => is_changed S D c = true) C)) id =
  count_of (map (client_after S D) (filter (fun c => is_deleted S c = false) C)) id.
Proof.
  induction C as [|c C IH]; intros Hobs; [done|]. apply Forall_cons in Hobs as [[Hl Hn] Hobs].
  specialize (IH Hobs). unfold count_of, delta_sum in *. rewrite !filter_cons.
  pose proof (entry_id_receive S D c) as Hid. pose proof (LastObservedCount_receive S D c) as Hlo.
  unfold client_after in *. destruct (is_deleted S c) eqn:Hd.
  - assert (Hch : is_changed S D c = false).
    { unfold is_changed, is_deleted in *. apply negb_true_iff in Hd. by rewrite Hd. }
    rewrite Hch. repeat case_decide; try congruence; cbn; rewrite ?Hd, ?Hch; repeat case_decide; try congruence; lia.
  - destruct (is_changed S D c) eqn:Hch;
      repeat case_decide; try congruence; cbn; unfold entry_id in *; rewrite ?Hd, ?Hch, ?Hid, ?Hlo; cbn;
      repeat case_decide; try congruence; lia.
Qed.

Lemma deltas_new S C id :
  delta_sum (map (fun s => added_msg (new_item s)) (filter (fun s => is_new C s = true) S)) id =
  count_of (map (fun s => observe (new_item s)) (filter (fun s => is_new C s = true) S)) id.
Proof.
  unfold delta_sum, count_of. rewrite !sumZ_map. apply sumZ_ext. intros s _. cbn. repeat case_decide; try tauto; lia.
Qed.

(** ** Theorems *)

(** C8: Receiving a replicated update keeps the client faithful to the
    server.  When the server's and the client's arrays hold each
    instance once, the client's entries have observed their counts, the
    server's counts are not negative, and every entry whose count
    changed was marked dirty: the client's receive (PreReplicatedRemove,
    PostReplicatedAdd, PostReplicatedChange, then the compaction by
    RemoveAtSwap) never fails the [check] of PostReplicatedChange; its
    entries have observed their counts again; they hold exactly the
    server's instances with the server's counts, in some order; and the
    deltas it broadcasts for each instance add up to the change of its
    count, so a subscriber summing them sees the server's inventory. *)
Theorem ReceiveInventoryList_refines Server Dirty Client :
  NoDup (map entry_id Server) -> NoDup (map entry_id Client) ->
  Forall observed Client -> Forall (fun s => 0 <= StackCount s) Server ->
  dirty_complete Server Dirty Client ->
  exists Client' Msgs, ReceiveInventoryList Server Dirty Client = Ok (Client', Msgs) /\
    Forall observed Client' /\ id_counts Client' ≡ₚ id_counts Server /\
    forall id, count_of Client id + delta_sum Msgs id = count_of Server id.
Proof.
  intros HS HC Hobs Hpos Hd. rewrite ReceiveInventoryList_run by done.
  eexists _, _. split; [reflexivity|].
  pose proof (RemoveDeleted_received Server Dirty Client (fun s => observe (new_item s))
                (filter (fun s => is_new Client s = true) Server)) as Hp.
  fold (received_array Server Dirty Client) in Hp.
  pose proof (received_array_id_counts Server Dirty Client HS HC Hd) as Hm.
  split_and!.
  - rewrite Hp. by apply received_array_observed.
  - unfold id_counts at 1. rewrite Hp. exact Hm.
  - intros id. rewrite !delta_sum_app, <- (count_of_perm _ _ id Hm).
    unfold received_array. rewrite count_of_app.
    pose proof (deltas_old Server Dirty Client id Hobs). pose proof (deltas_new Server Client id). lia.
Qed.

Lemma dirty_complete_all Server Dirty Client :
  (forall s, s ∈ Server -> entry_id s ∈ Dirty) -> dirty_complete Server Dirty Client.
Proof. intros H c s _ Hs _ _. by apply H. Qed.

(** ** A client receiving one update *)

Definition item_ex (id : nat) : ULyraInventoryItemInstance :=
  {| InstanceId := id; ItemDef := 0%nat; StatTags := Empty; InventoryManagerComponent := true |}.

Definition entry_ex (id : nat) (n last : Z) : FLyraInventoryEntry :=
  {| Instance := item_ex id; StackCount := n; LastObservedCount := last |}.

(** The client holds instances 1, 2 and 3; the server dropped 1,
    lowered 2, kept 3 and added 4, and marked all it holds dirty. *)
Definition client_ex : list FLyraInventoryEntry := [entry_ex 1 3 3; entry_ex 2 5 5; entry_ex 3 1 1].
Definition server_ex : list FLyraInventoryEntry := [entry_ex 2 4 (-1); entry_ex 3 1 (-1); entry_ex 4 2 (-1)].
Definition dirty_ex : list nat := [2%nat; 3%nat; 4%nat].

Lemma ReceiveInventoryList_refines_witness :
  exists Client' Msgs, ReceiveInventoryList server_ex dirty_ex client_ex = Ok (Client', Msgs) /\
    Forall observed Client' /\ id_counts Client' ≡ₚ id_counts server_ex /\
    forall id, count_of client_ex id + delta_sum Msgs id = count_of server_ex id.
Proof.
  apply ReceiveInventoryList_refines.
  - vm_compute. repeat constructor; set_solver.
  - vm_compute. repeat constructor; set_solver.
  - repeat constructor; cbn; lia.
  - repeat constructor; cbn; lia.
  - apply dirty_complete_all. intros s Hs. repeat (apply elem_of_cons in Hs as [->|Hs]); [set_solver..|set_solver].
Defined.

(** The compaction moves the last entry into the hole of the removed
    one, and the dirty entry whose count did not change is announced
    with a zero delta. *)
Example ReceiveInventoryList_example :
  exists Client', ReceiveInventoryList server_ex dirty_ex client_ex =
    Ok (Client', [{| MsgInstance := 1; NewCount := 0; Delta := -3 |};
                  {| MsgInstance := 4; NewCount := 2; Delta := 2 |};
                  {| MsgInstance := 2; NewCount := 4; Delta := -1 |};
                  {| MsgInstance := 3; NewCount := 1; Delta := 0 |}]) /\
    id_counts Client' = [(4%nat, 2); (2%nat, 4); (3%nat, 1)].
Proof. vm_compute. eexists. split; reflexivity. Qed.

End InventoryReplication.
