(* ===== verification/InventoryManager.v ===== *)
(** * ULyraInventoryManagerComponent: the inventory's operations

    Models the component methods of
    src/LyraGame/Inventory/LyraInventoryManagerComponent.cpp (lines
    188-518).  The state [InvState] holds what those methods read and
    write: the entry array of [InventoryList], the allocator of new item
    objects, the owner's quick bar (if it has one), the log of
    [FLyraInventoryChangeMessage]s broadcast on
    "Lyra.Inventory.Message.StackChanged" in broadcast order, the
    registered replicated sub-objects, and the three flags the code
    tests (authority, registered sub-object list, ready for
    replication).

    An item instance is a shared object: the code finds it in the array
    and mutates it through the pointer.  The model writes the mutated
    instance back into every entry holding the same object identity
    ([update_instance]); the invariant of [InventoryInvariant] says that
    identities are unique, so this is the one entry the pointer names.

    Every [while] loop is a [Fixpoint] with fuel that fails with
    [OutOfFuel] when the fuel ends; the operations call it with the bound
    proved enough in [InventoryAdd] and [InventoryRemove]. *)

From S2P Require Import Prelude TagStack InventoryItem QuickBar InventoryList.
Import TagStack InventoryItem QuickBar InventoryList.

Local Open Scope Z_scope.

Module InventoryManager.

Section Manager.
  Context {QB : Type} `{SlotService QB}.
  (** The class default objects of the item definitions. *)
  Variable cat : Catalog.

Record InvState := {
  Entries : list FLyraInventoryEntry;
  NextObjectId : nat;
  QuickBarComp : option QB;
  Messages : list FLyraInventoryChangeMessage;
  ReplicatedSubObjects : list nat;
  HasAuthority : bool;
  UsingRegisteredSubObjectList : bool;
  ReadyForReplication : bool;
}.

Definition set_entries (l : list FLyraInventoryEntry) (s : InvState) : InvState :=
  {| Entries := l; NextObjectId := NextObjectId s; QuickBarComp := QuickBarComp s;
     Messages := Messages s; ReplicatedSubObjects := ReplicatedSubObjects s;
     HasAuthority := HasAuthority s;
     UsingRegisteredSubObjectList := UsingRegisteredSubObjectList s;
     ReadyForReplication := ReadyForReplication s |}.

Definition set_next_id (n : nat) (s : InvState) : InvState :=
  {| Entries := Entries s; NextObjectId := n; QuickBarComp := QuickBarComp s;
     Messages := Messages s; ReplicatedSubObjects := ReplicatedSubObjects s;
     HasAuthority := HasAuthority s;
     UsingRegisteredSubObjectList := UsingRegisteredSubObjectList s;
     ReadyForReplication := ReadyForReplication s |}.

Definition set_quickbar (q : option QB) (s : InvState) : InvState :=
  {| Entries := Entries s; NextObjectId := NextObjectId s; QuickBarComp := q;
     Messages := Messages s; ReplicatedSubObjects := ReplicatedSubObjects s;
     HasAuthority := HasAuthority s;
     UsingRegisteredSubObjectList := UsingRegisteredSubObjectList s;
     ReadyForReplication := ReadyForReplication s |}.

Definition push_message (m : FLyraInventoryChangeMessage) (s : InvState) : InvState :=
  {| Entries := Entries s; NextObjectId := NextObjectId s; QuickBarComp := QuickBarComp s;
     Messages := Messages s ++ [m]; ReplicatedSubObjects := ReplicatedSubObjects s;
     HasAuthority := HasAuthority s;
     UsingRegisteredSubObjectList := UsingRegisteredSubObjectList s;
     ReadyForReplication := ReadyForReplication s |}.

Definition set_subobjects (l : list nat) (s : InvState) : InvState :=
  {| Entries := Entries s; NextObjectId := NextObjectId s; QuickBarComp := QuickBarComp s;
     Messages := Messages s; ReplicatedSubObjects := l;
     HasAuthority := HasAuthority s;
     UsingRegisteredSubObjectList := UsingRegisteredSubObjectList s;
     ReadyForReplication := ReadyForReplication s |}.

(** Writing a mutated instance back through its pointer. *)
Definition update_instance (i : ULyraInventoryItemInstance) (l : list FLyraInventoryEntry)
  : list FLyraInventoryEntry :=
  map (fun e => if decide (entry_id e = InstanceId i)
                then {| Instance := i; StackCount := StackCount e;
                        LastObservedCount := LastObservedCount e |}
                else e) l.

(** ** Queries (pure functions of the array) *)

(** CanAddItemDefinition, lines 188-201. *)
Definition CanAddItemDefinition (d : ItemDefClass) (l : list FLyraInventoryEntry) : bool :=
  existsb (fun e => bool_decide (entry_def e = d)) l.

(** The number of items of definition [d] the array holds: the exact sum
    of the counts of its stacks.  This is the quantity the properties
    speak of; the code computes it in an [int32]. *)
Definition item_total (d : ItemDefClass) (l : list FLyraInventoryEntry) : Z :=
  sumZ (fun e => if decide (entry_def e = d) then entry_count e else 0) l.

(** GetTotalItemCount, lines 372-389: the [int32] accumulator [ItemCount]
    starts at 0 and wraps at every [+=] of line 383. *)
Definition GetTotalItemCount (d : ItemDefClass) (l : list FLyraInventoryEntry) : Z :=
  fold_left (fun ItemCount e =>
               if decide (entry_def e = d) then wrap32 (ItemCount + entry_count e)
               else ItemCount) l 0.

(** FindFirstItemStackByDefinition, lines 391-407. *)
Definition FindFirstItemStackByDefinition (d : ItemDefClass) (l : list FLyraInventoryEntry)
  : option ULyraInventoryItemInstance :=
  Instance <$> first_where (fun e => bool_decide (entry_def e = d)) l.

(** FindFirstItemStackByDefinition_NotFull, lines 409-431. *)
Definition FindFirstItemStackByDefinition_NotFull (d : ItemDefClass) (l : list FLyraInventoryEntry)
  : option ULyraInventoryItemInstance :=
  Instance <$> first_where (fun e => bool_decide (entry_def e = d) && (entry_count e <? entry_limit e)) l.

(** GetTotalItemCountByDefinition, lines 433-450: the number of stacks. *)
Definition GetTotalItemCountByDefinition (d : ItemDefClass) (l : list FLyraInventoryEntry) : Z :=
  sumZ (fun e => if decide (entry_def e = d) then 1 else 0) l.

(** ** Effects *)

(** SaveInventory and LoadInventory, lines 500-506: empty bodies. *)
Definition SaveInventory : ST InvState unit := st_ret tt.
Definition LoadInventory : ST InvState unit := st_ret tt.

(** BroadcastStackChanged, lines 508-518: the new count is read from the
    instance. *)
Definition BroadcastStackChanged (i : ULyraInventoryItemInstance) (ChangeDelta : Z)
  : ST InvState unit :=
  st_modify (push_message {| MsgInstance := InstanceId i;
                             NewCount := GetStatTagStackCount i TAG_Lyra_Inventory_Item_Count;
                             Delta := ChangeDelta |}).

(** The weapon pick-up block of AddItemDefinition, lines 221-233. *)
Definition AutoSlotWeapon (i : ULyraInventoryItemInstance) : ST InvState unit :=
  s <- st_get ;;
  if decide (ItemType (cat (ItemDef i)) = LIT_Weapon) then
    match QuickBarComp s with
    | Some qb =>
        let FreeSlotIndex := GetNextFreeItemSlot qb in
        if FreeSlotIndex =? INDEX_NONE then st_ret tt
        else st_put (set_quickbar
               (Some (SetActiveSlotIndex FreeSlotIndex
                        (AddItemToSlot FreeSlotIndex (InstanceId i) qb))) s)
    | None => st_ret tt
    end
  else st_ret tt.

(** AddReplicatedSubObject / RemoveReplicatedSubObject. *)
Definition AddReplicatedSubObject (id : nat) : ST InvState unit :=
  st_modify (fun s => set_subobjects (ReplicatedSubObjects s ++ [id]) s).
Definition RemoveReplicatedSubObject (id : nat) : ST InvState unit :=
  st_modify (fun s => set_subobjects (filter (fun x => x <> id) (ReplicatedSubObjects s)) s).

(** RemoveItemInstance, lines 272-289: the message always says
    NewCount 0 and Delta -1. *)
Definition RemoveItemInstance (id : nat) : ST InvState unit :=
  st_modify (push_message {| MsgInstance := id; NewCount := 0; Delta := -1 |}) ;;;
  st_modify (fun s => set_entries (RemoveEntry id (Entries s)) s) ;;;
  s <- st_get ;;
  if UsingRegisteredSubObjectList s then RemoveReplicatedSubObject id else st_ret tt.

(** ReadyForReplication, lines 481-498. *)
Definition ReadyForReplicationHook : ST InvState unit :=
  s <- st_get ;;
  if UsingRegisteredSubObjectList s
  then st_put (set_subobjects (ReplicatedSubObjects s ++ map entry_id (Entries s)) s)
  else st_ret tt.

(** ** Construction, queries and replication of the component *)

(** The constructor, lines 174-179: an empty [InventoryList] owned by the
    component ([InventoryList(this)], so [check(OwnerComponent)] of
    AddEntry holds), replicated by default.  Authority and the
    registered sub-object list are the owner's. *)
Definition ULyraInventoryManagerComponent_new (auth registered : bool) : InvState :=
  {| Entries := []; NextObjectId := 0; QuickBarComp := None; Messages := [];
     ReplicatedSubObjects := []; HasAuthority := auth;
     UsingRegisteredSubObjectList := registered; ReadyForReplication := false |}.

(** GetAllItems and GetAllItemsOfType of the component, lines 361-370:
    those of its list. *)
Definition InventoryGetAllItems (s : InvState) : list ULyraInventoryItemInstance :=
  GetAllItems (Entries s).

Definition InventoryGetAllItemsOfType (ItemType0 : ELyraItemType) (s : InvState)
  : list ULyraInventoryItemInstance :=
  GetAllItemsOfType cat ItemType0 (Entries s).

(** ReplicateSubobjects, lines 521-536: [SuperWroteSomething] is what the
    parent wrote, [ReplicateSubobject] what the channel reports for an
    instance; every entry's instance is replicated, in order (the guard
    [Instance && IsValid(Instance)] of line 529 holds: an entry of the
    model always holds a live instance).  The result is [WroteSomething]
    with the instances handed to the channel. *)
Definition ReplicateSubobjects (SuperWroteSomething : bool) (ReplicateSubobject : nat -> bool)
    (s : InvState) : bool * list nat :=
  fold_left (fun '(WroteSomething, sent) e =>
               (WroteSomething || ReplicateSubobject (entry_id e), sent ++ [entry_id e]))
            (Entries s) (SuperWroteSomething, []).

(** ReplicateSubobjects hands every instance of the array to the channel
    once, in order, and writes something exactly when the parent or one
    of those replications did. *)
Lemma ReplicateSubobjects_spec b ch s :
  ReplicateSubobjects b ch s = (b || existsb ch (map entry_id (Entries s)), map entry_id (Entries s)).
Proof.
  unfold ReplicateSubobjects.
  assert (Hfold : forall l b0 sent,
    fold_left (fun '(WroteSomething, sent) e =>
                 (WroteSomething || ch (entry_id e), sent ++ [entry_id e])) l (b0, sent) =
    (b0 || existsb ch (map entry_id l), sent ++ map entry_id l)).
  { induction l as [|e l IH]; intros b0 sent; cbn.
    - by rewrite orb_false_r, app_nil_r.
    - rewrite IH, <- app_assoc, orb_assoc. done. }
  apply Hfold.
Qed.

(** The [int32] count is the exact count wrapped once. *)
Lemma GetTotalItemCount_wrap d l : GetTotalItemCount d l = wrap32 (item_total d l).
Proof.
  unfold GetTotalItemCount, item_total.
  assert (Hacc : forall a, fold_left (fun ItemCount e =>
            if decide (entry_def e = d) then wrap32 (ItemCount + entry_count e)
            else ItemCount) l (wrap32 a) =
          wrap32 (a + sumZ (fun e => if decide (entry_def e = d) then entry_count e else 0) l)).
  { induction l as [|e l IH]; intros a; cbn [fold_left sumZ].
    - f_equal; lia.
    - case_decide.
      + rewrite wrap32_add_l, IH. f_equal; lia.
      + rewrite IH. f_equal; lia. }
  apply (Hacc 0).
Qed.

(** While the exact count fits an [int32], the code's count is exact. *)
Lemma GetTotalItemCount_exact d l :
  - 2 ^ 31 <= item_total d l < 2 ^ 31 -> GetTotalItemCount d l = item_total d l.
Proof. intros. rewrite GetTotalItemCount_wrap. by apply wrap32_id. Qed.

End Manager.

End InventoryManager.
