(* ===== verification/InventoryInvariant.v ===== *)
(** * The inventory's invariant and the lemmas on its array

    [inv s]: object identities in the array are distinct and below the
    allocator, and every instance's tag container is well formed.
    [limits_ok cat s]: every entry's stack-limit tag is its
    definition's stack limit and its count does not exceed it.

    The lemmas here give the effect of the array edits the component
    makes (writing an instance back, removing an entry, appending a new
    one) on the exact item counts ([item_total]), and
    show that the edits keep the invariants.  The operations' theorems
    in [InventoryAdd] and [InventoryRemove] are assembled from them. *)

From S2P Require Import Prelude TagStack InventoryItem QuickBar InventoryList InventoryManager.
Import TagStack InventoryItem QuickBar InventoryList InventoryManager.

Local Open Scope Z_scope.

Module InventoryInvariant.

Section Invariant.
  Context {QB : Type} `{SlotService QB}.
  Variable cat : Catalog.

Definition ids_ok (l : list FLyraInventoryEntry) (next : nat) : Prop :=
  NoDup (map entry_id l) /\ Forall (fun e => (entry_id e < next)%nat) l.

Definition tags_ok (l : list FLyraInventoryEntry) : Prop :=
  Forall (fun e => wf (StatTags (Instance e))) l.

Definition inv (s : @InvState QB) : Prop :=
  ids_ok (Entries s) (NextObjectId s) /\ tags_ok (Entries s).

Definition limits_ok (l : list FLyraInventoryEntry) : Prop :=
  Forall (fun e => entry_count e <= entry_limit e /\
                   entry_limit e = GetStackLimit (cat (entry_def e))) l.

(** The count of one definition held by the array. *)
Abbreviation total d l := (item_total d l).
Abbreviation State := (@InvState QB).

(** ** Sums over an array with distinct identities *)

Lemma sumZ_unique_id (g : FLyraInventoryEntry -> Z) (l : list FLyraInventoryEntry) e0 :
  NoDup (map entry_id l) -> e0 ∈ l ->
  sumZ (fun e => if decide (entry_id e = entry_id e0) then g e else 0) l = g e0.
Proof.
  induction l as [|x l IH]; simpl; [set_solver|]. intros Hnd Hin.
  apply NoDup_cons in Hnd as [Hnin Hnd].
  apply elem_of_cons in Hin as [->|Hin].
  - rewrite decide_True by done.
    rewrite (sumZ_ext _ (fun _ => 0)); [|].
    + clear. induction l; simpl; lia.
    + intros y Hy. rewrite decide_False; [done|]. intros Heq. apply Hnin.
      rewrite <- Heq. apply list_elem_of_In, in_map, list_elem_of_In, Hy.
  - rewrite decide_False; [rewrite IH; auto|].
    intros Heq. apply Hnin. rewrite Heq. apply list_elem_of_In, in_map, list_elem_of_In, Hin.
Qed.

Definition with_instance (i : ULyraInventoryItemInstance) (e : FLyraInventoryEntry) :=
  {| Instance := i; StackCount := StackCount e; LastObservedCount := LastObservedCount e |}.

Lemma sumZ_update_instance (f : FLyraInventoryEntry -> Z) i l :
  sumZ f (update_instance i l) =
  sumZ f l + sumZ (fun e => if decide (entry_id e = InstanceId i)
                            then f (with_instance i e) - f e else 0) l.
Proof.
  induction l as [|e l IH]; simpl; [done|]. rewrite IH.
  case_decide; simpl; unfold with_instance; lia.
Qed.

(** Writing back an instance of the same identity and definition changes
    its definition's total by the change of its count. *)
Lemma total_update_instance d i l e0 :
  NoDup (map entry_id l) -> e0 ∈ l -> entry_id e0 = InstanceId i ->
  ItemDef i = entry_def e0 ->
  total d (update_instance i l) =
  total d l + (if decide (entry_def e0 = d)
               then GetStatTagStackCount i TAG_Lyra_Inventory_Item_Count - entry_count e0
               else 0).
Proof.
  intros Hnd Hin Hid Hdef. unfold item_total.
  rewrite sumZ_update_instance. f_equal.
  rewrite <- Hid.
  rewrite (sumZ_unique_id (fun e => (if decide (entry_def (with_instance i e) = d)
      then entry_count (with_instance i e) else 0) -
      (if decide (entry_def e = d) then entry_count e else 0)) l e0 Hnd Hin).
  unfold with_instance, entry_def, entry_count in *. simpl. rewrite Hdef.
  case_decide; lia.
Qed.

(** Removing the entries of one identity takes its count out of the total. *)
Lemma total_RemoveEntry d l e0 :
  NoDup (map entry_id l) -> e0 ∈ l ->
  total d (RemoveEntry (entry_id e0) l) =
  total d l - (if decide (entry_def e0 = d) then entry_count e0 else 0).
Proof.
  intros Hnd Hin. unfold item_total, RemoveEntry.
  rewrite sumZ_filter.
  assert (forall l', sumZ (fun e => if decide (entry_def e = d) then entry_count e else 0) l' =
     sumZ (fun e => if decide (entry_id e <> entry_id e0) then
                      (if decide (entry_def e = d) then entry_count e else 0) else 0) l' +
     sumZ (fun e => if decide (entry_id e = entry_id e0) then
                      (if decide (entry_def e = d) then entry_count e else 0) else 0) l') as ->.
  { intros l'. induction l' as [|x l' IH]; simpl; [done|]. rewrite IH.
    repeat case_decide; simpl; try lia; tauto. }
  rewrite (sumZ_unique_id _ l e0 Hnd Hin). lia.
Qed.

Lemma total_app d l1 l2 : total d (l1 ++ l2) = total d l1 + total d l2.
Proof. apply sumZ_app. Qed.

Lemma total_nonneg d l : tags_ok l -> 0 <= total d l.
Proof.
  intros Ht. apply sumZ_nonneg. intros e He. case_decide; [|lia].
  apply GetStatTagStackCount_nonneg. unfold tags_ok in Ht. rewrite Forall_forall in Ht. by apply Ht.
Qed.

(** ** The array edits keep the invariant *)

Lemma map_entry_id_update_instance i l : map entry_id (update_instance i l) = map entry_id l.
Proof.
  induction l as [|e l IH]; simpl; [done|]. rewrite IH.
  case_decide; unfold entry_id in *; simpl; congruence.
Qed.

Lemma ids_ok_update_instance i l n : ids_ok l n -> ids_ok (update_instance i l) n.
Proof.
  intros [Hnd HF]. split; [by rewrite map_entry_id_update_instance|].
  apply Forall_forall. intros e He%list_elem_of_In.
  unfold update_instance in He. apply in_map_iff in He as [x [<- Hx]].
  pose proof (proj1 (List.Forall_forall _ _) HF x Hx).
  case_decide; unfold entry_id in *; simpl; congruence || done.
Qed.

Lemma tags_ok_update_instance i l :
  wf (StatTags i) -> tags_ok l -> tags_ok (update_instance i l).
Proof.
  intros Hi HF. apply Forall_forall. intros e He%list_elem_of_In.
  apply in_map_iff in He as [x [<- Hx]].
  pose proof (proj1 (List.Forall_forall _ _) HF x Hx).
  case_decide; done.
Qed.

Lemma Forall_update_instance (P : FLyraInventoryEntry -> Prop) i l :
  Forall P l ->
  (forall e, e ∈ l -> entry_id e = InstanceId i -> P (with_instance i e)) ->
  Forall P (update_instance i l).
Proof.
  intros HF Hnew. apply List.Forall_forall. intros e He.
  apply in_map_iff in He as [x [<- Hx]].
  case_decide as Hid.
  - apply Hnew; [by apply list_elem_of_In|done].
  - exact (proj1 (List.Forall_forall _ _) HF x Hx).
Qed.

Lemma Forall_RemoveEntry (P : FLyraInventoryEntry -> Prop) id l :
  Forall P l -> Forall P (RemoveEntry id l).
Proof.
  rewrite !List.Forall_forall. intros HF e He. apply HF.
  apply (proj2 (list_elem_of_In _ _)), elem_of_RemoveEntry in He.
  apply list_elem_of_In. tauto.
Qed.

Lemma NoDup_RemoveEntry id l :
  NoDup (map entry_id l) -> NoDup (map entry_id (RemoveEntry id l)).
Proof.
  unfold RemoveEntry. induction l as [|e l IH]; simpl; [done|].
  intros Hnd. apply NoDup_cons in Hnd as [Hnin Hnd].
  rewrite filter_cons. case_decide; simpl; auto.
  constructor; auto. intros Hin. apply Hnin.
  apply list_elem_of_In in Hin. apply list_elem_of_In.
  apply in_map_iff in Hin as [x [<- Hx]]. apply in_map.
  apply list_elem_of_In, list_elem_of_filter in Hx. apply list_elem_of_In. tauto.
Qed.

Lemma ids_ok_RemoveEntry id l n : ids_ok l n -> ids_ok (RemoveEntry id l) n.
Proof. intros [Hnd HF]. split; [by apply NoDup_RemoveEntry|by apply Forall_RemoveEntry]. Qed.

Lemma tags_ok_RemoveEntry id l : tags_ok l -> tags_ok (RemoveEntry id l).
Proof. apply Forall_RemoveEntry. Qed.

Lemma limits_ok_RemoveEntry id l : limits_ok l -> limits_ok (RemoveEntry id l).
Proof. apply Forall_RemoveEntry. Qed.

Lemma entry_id_inj l e1 e2 :
  NoDup (map entry_id l) -> e1 ∈ l -> e2 ∈ l -> entry_id e1 = entry_id e2 -> e1 = e2.
Proof.
  induction l as [|x l IH]; simpl; [set_solver|]. intros Hnd H1 H2 Heq.
  apply NoDup_cons in Hnd as [Hnin Hnd].
  assert (Hx : forall e, e ∈ l -> entry_id e <> entry_id x).
  { intros e He Hx. apply Hnin. rewrite <- Hx. apply list_elem_of_In, in_map, list_elem_of_In, He. }
  apply elem_of_cons in H1 as [->|H1]; apply elem_of_cons in H2 as [->|H2]; auto.
  - exfalso. by apply (Hx e2).
  - exfalso. by apply (Hx e1).
Qed.

Lemma RemoveEntry_absent id l :
  (forall e, e ∈ l -> entry_id e <> id) -> RemoveEntry id l = l.
Proof.
  unfold RemoveEntry. induction l as [|x l IH]; intros Hl; [done|].
  rewrite filter_cons, decide_True by (apply Hl; set_solver).
  f_equal. apply IH. intros e He. apply Hl. set_solver.
Qed.

Lemma length_RemoveEntry_unique l e0 :
  NoDup (map entry_id l) -> e0 ∈ l ->
  length (RemoveEntry (entry_id e0) l) = (length l - 1)%nat.
Proof.
  induction l as [|x l IH]; simpl; [set_solver|]. intros Hnd Hin.
  apply NoDup_cons in Hnd as [Hnin Hnd].
  assert (Hx : forall e, e ∈ l -> entry_id e <> entry_id x).
  { intros e He Heq. apply Hnin. rewrite <- Heq. apply list_elem_of_In, in_map, list_elem_of_In, He. }
  unfold RemoveEntry in *. rewrite filter_cons.
  apply elem_of_cons in Hin as [Heq|Hin].
  - subst x. rewrite decide_False by tauto. fold (RemoveEntry (entry_id e0) l).
    rewrite RemoveEntry_absent by done. lia.
  - rewrite decide_True by (intros Heq; by apply (Hx e0)).
    simpl. rewrite IH by done. destruct l; [set_solver|simpl; lia].
Qed.

(** The instance found by a search is the instance of an entry. *)
Lemma first_where_entry p l i :
  Instance <$> first_where p l = Some i ->
  exists e0, e0 ∈ l /\ Instance e0 = i /\ p e0 = true.
Proof.
  destruct (first_where p l) as [e0|] eqn:E; [|done]. intros [= <-].
  apply first_where_Some in E as (l1 & l2 & -> & Hp & _).
  exists e0. split; [set_solver|auto].
Qed.

(** ** New instances *)

(** What the inventory needs of an item definition's fragments: they keep
    the instance's identity, class and well-formed tags, and do not touch
    the count and stack-limit tags. *)
Definition FragmentsPreserve : Prop :=
  forall d f, Some f ∈ Fragments (cat d) -> forall i,
    InstanceId (OnInstanceCreated f i) = InstanceId i /\
    ItemDef (OnInstanceCreated f i) = ItemDef i /\
    (wf (StatTags i) -> wf (StatTags (OnInstanceCreated f i))) /\
    GetStatTagStackCount (OnInstanceCreated f i) TAG_Lyra_Inventory_Item_Count =
      GetStatTagStackCount i TAG_Lyra_Inventory_Item_Count /\
    GetStatTagStackCount (OnInstanceCreated f i) TAG_Lyra_Inventory_Item_StackCount =
      GetStatTagStackCount i TAG_Lyra_Inventory_Item_StackCount.

Lemma RunFragments_spec d frs i :
  FragmentsPreserve -> (forall fr, fr ∈ frs -> fr ∈ Fragments (cat d)) ->
  let i' := RunFragments frs i in
  InstanceId i' = InstanceId i /\ ItemDef i' = ItemDef i /\
  (wf (StatTags i) -> wf (StatTags i')) /\
  GetStatTagStackCount i' TAG_Lyra_Inventory_Item_Count =
    GetStatTagStackCount i TAG_Lyra_Inventory_Item_Count /\
  GetStatTagStackCount i' TAG_Lyra_Inventory_Item_StackCount =
    GetStatTagStackCount i TAG_Lyra_Inventory_Item_StackCount.
Proof.
  intros Hfr. revert i. induction frs as [|[f|] frs IH]; intros i Hsub; simpl; [split_and!; auto|..].
  - destruct (Hfr d f (Hsub (Some f) ltac:(set_solver)) i) as (H1 & H2 & H3 & H4 & H5).
    destruct (IH (OnInstanceCreated f i)) as (G1 & G2 & G3 & G4 & G5);
      [intros; apply Hsub; set_solver|].
    split_and!; congruence || auto.
  - apply IH. intros; apply Hsub; set_solver.
Qed.

Lemma CreateInstance_spec nid d n :
  FragmentsPreserve -> 0 < n -> 1 <= GetStackLimit (cat d) ->
  let i := CreateInstance cat nid d n in
  InstanceId i = nid /\ ItemDef i = d /\ wf (StatTags i) /\
  GetStatTagStackCount i TAG_Lyra_Inventory_Item_Count = n /\
  GetStatTagStackCount i TAG_Lyra_Inventory_Item_StackCount = GetStackLimit (cat d).
Proof.
  intros Hfr Hn Hl. unfold CreateInstance.
  set (i0 := {| InstanceId := nid; ItemDef := d; StatTags := Empty; InventoryManagerComponent := false |}).
  destruct (RunFragments_spec d (Fragments (cat d)) i0 Hfr ltac:(done)) as (H1 & H2 & H3 & H4 & H5).
  set (i1 := RunFragments (Fragments (cat d)) i0) in *.
  assert (Hw1 : wf (StatTags i1)) by (apply H3, wf_Empty).
  assert (Hw2 : wf (StatTags (AddStatTagStack TAG_Lyra_Inventory_Item_Count n i1))) by auto with lyra.
  assert (H0 : forall t, GetStatTagStackCount i0 t = 0) by (intros; apply GetStackCount_Empty).
  split_and!.
  - simpl. by rewrite H1.
  - simpl. by rewrite H2.
  - auto with lyra.
  - rewrite GetStatTagStackCount_Add_other by (done || apply count_tags_differ).
    rewrite GetStatTagStackCount_Add_same by (done || lia). rewrite H4, H0. lia.
  - rewrite GetStatTagStackCount_Add_same by (done || lia).
    rewrite GetStatTagStackCount_Add_other by (done || discriminate). rewrite H5, H0. lia.
Qed.

(** ** Appending a fresh entry *)

Lemma update_instance_absent i l :
  (forall e, e ∈ l -> entry_id e <> InstanceId i) -> update_instance i l = l.
Proof.
  induction l as [|e l IH]; simpl; intros Hl; [done|].
  rewrite decide_False by (apply Hl; set_solver). f_equal. apply IH. intros; apply Hl; set_solver.
Qed.

Lemma update_instance_app i l1 l2 :
  update_instance i (l1 ++ l2) = update_instance i l1 ++ update_instance i l2.
Proof. apply map_app. Qed.

Lemma ids_ok_fresh l n e :
  ids_ok l n -> entry_id e = n -> ids_ok (l ++ [e]) (S n).
Proof.
  intros [Hnd HF] Hid. split.
  - rewrite map_app. apply NoDup_app. repeat split; [done| |apply NoDup_singleton].
    intros x Hx Hy. apply list_elem_of_singleton in Hy. subst x.
    apply list_elem_of_In, in_map_iff in Hx as [y [Hy Hin]].
    pose proof (proj1 (List.Forall_forall _ _) HF y Hin). simpl in *. lia.
  - apply Forall_app. split; [|constructor; [lia|done]].
    eapply Forall_impl; [exact HF|]. intros; simpl in *; lia.
Qed.

(** ** Steps and searches shared by the operations *)

Lemma RemoveItemInstance_step id (s : State) :
  exists s', RemoveItemInstance id s = Ok (tt, s') /\
    Entries s' = RemoveEntry id (Entries s) /\ NextObjectId s' = NextObjectId s.
Proof.
  unfold RemoveItemInstance, RemoveReplicatedSubObject. st_unfold. simpl.
  destruct (UsingRegisteredSubObjectList s); eexists; eauto.
Qed.

(** The instance a search returns belongs to an entry of the array. *)
Lemma FindFirst_entry d l i :
  FindFirstItemStackByDefinition d l = Some i ->
  exists e0, e0 ∈ l /\ Instance e0 = i /\ entry_def e0 = d.
Proof.
  intros (e0 & Hin & Hi & Hp)%first_where_entry.
  exists e0. split; [done|split; [done|]]. by apply bool_decide_eq_true in Hp.
Qed.

(** A positive total has a first stack. *)
Lemma FindFirst_total_pos d l :
  0 < item_total d l -> exists i, FindFirstItemStackByDefinition d l = Some i.
Proof.
  unfold FindFirstItemStackByDefinition, item_total.
  induction l as [|e l IH]; simpl; [lia|].
  case_bool_decide as Hd; simpl; [eauto|].
  rewrite decide_False by done. intros Hpos. apply IH. lia.
Qed.

Lemma FindNotFull_entry d l i :
  FindFirstItemStackByDefinition_NotFull d l = Some i ->
  exists e0, e0 ∈ l /\ Instance e0 = i /\ entry_def e0 = d /\ entry_count e0 < entry_limit e0.
Proof.
  intros (e0 & Hin & Hi & Hp)%first_where_entry.
  apply andb_true_iff in Hp as [Hd Hlt].
  apply bool_decide_eq_true in Hd. apply Z.ltb_lt in Hlt. eauto.
Qed.

Lemma entry_wf (s : State) e : inv s -> e ∈ Entries s -> wf (StatTags (Instance e)).
Proof.
  intros [_ Ht] He. exact (proj1 (List.Forall_forall _ _) Ht e (proj1 (list_elem_of_In _ _) He)).
Qed.

Lemma AutoSlotWeapon_step (i : ULyraInventoryItemInstance) (s : State) :
  exists s', AutoSlotWeapon cat i s = Ok (tt, s') /\ Entries s' = Entries s /\
    NextObjectId s' = NextObjectId s /\ HasAuthority s' = HasAuthority s.
Proof.
  unfold AutoSlotWeapon. st_simpl.
  destruct (decide _); [destruct (QuickBarComp s) as [qb|]; [destruct (_ =? _)|]|];
    eexists; split_and!; reflexivity.
Qed.

Lemma AddEntry_auth nid d n l :
  AddEntry cat true nid (Some d) n l =
  Ok (CreateInstance cat nid d n,
      l ++ [{| Instance := CreateInstance cat nid d n; StackCount := n;
               LastObservedCount := INDEX_NONE |}]).
Proof. reflexivity. Qed.

End Invariant.

End InventoryInvariant.
