(* ===== verification/InventoryRemove.v ===== *)
(** * Removing items: RemoveItemDefinition and ConsumeItemsByDefinition

    The two removal methods of [ULyraInventoryManagerComponent]
    (src/LyraGame/Inventory/LyraInventoryManagerComponent.cpp, lines
    291-330 and 452-479) and their theorems: removal takes exactly the
    requested items when enough are held, terminating within its fuel
    bound (each round lowers the count still to remove or the number of
    entries), and fails with no effect at all when too few are held;
    of the two, only ConsumeItemsByDefinition checks the owner's
    authority. *)

From S2P Require Import Prelude TagStack InventoryItem QuickBar InventoryList InventoryManager InventoryInvariant.
Import TagStack InventoryItem QuickBar InventoryList InventoryManager InventoryInvariant.

Local Open Scope Z_scope.

Module InventoryRemove.

Section Remove.
  Context {QB : Type} `{SlotService QB}.
  Variable cat : Catalog.

Abbreviation total d s := (item_total d (Entries s)).
Abbreviation State := (@InvState QB).

(** The loop of RemoveItemDefinition, lines 297-324.  [false] is the
    early [return false] of the safety check. *)
Fixpoint RemoveItemDefinition_loop (fuel : nat) (d : ItemDefClass) (NumberToRemove : Z)
  : ST State bool :=
  if NumberToRemove >? 0 then
    match fuel with
    | O => st_fail OutOfFuel
    | S fuel' =>
        s <- st_get ;;
        match FindFirstItemStackByDefinition d (Entries s) with
        | None => st_ret false
        | Some i =>
            let ItemCount := GetStatTagStackCount i TAG_Lyra_Inventory_Item_Count in
            let ItemsToRemove := Z.min ItemCount NumberToRemove in
            (if ItemCount <=? 1 then RemoveItemInstance (InstanceId i)
             else
               let i' := RemoveStatTagStack TAG_Lyra_Inventory_Item_Count ItemsToRemove i in
               st_put (set_entries (update_instance i' (Entries s)) s) ;;;
               BroadcastStackChanged i' (- NumberToRemove)) ;;;
            RemoveItemDefinition_loop fuel' d (NumberToRemove - ItemsToRemove)
        end
    end
  else st_ret true.

(** RemoveItemDefinition, lines 291-330. *)
Definition RemoveItemDefinition (d : ItemDefClass) (NumberToRemove : Z) : ST State bool :=
  s <- st_get ;;
  if NumberToRemove <=? GetTotalItemCount d (Entries s) then
    ok <- RemoveItemDefinition_loop (S (Z.to_nat NumberToRemove + length (Entries s))) d NumberToRemove ;;
    if ok then SaveInventory ;;; st_ret true else st_ret false
  else st_ret false.

(** The loop of ConsumeItemsByDefinition, lines 462-474: each round
    removes a whole stack. *)
Fixpoint ConsumeItems_loop (fuel : nat) (d : ItemDefClass) (TotalConsumed NumToConsume : Z)
  : ST State (option Z) :=
  if TotalConsumed <? NumToConsume then
    match fuel with
    | O => st_fail OutOfFuel
    | S fuel' =>
        s <- st_get ;;
        match FindFirstItemStackByDefinition d (Entries s) with
        | Some i =>
            BroadcastStackChanged i (-1) ;;;
            st_modify (fun s => set_entries (RemoveEntry (InstanceId i) (Entries s)) s) ;;;
            ConsumeItems_loop fuel' d (TotalConsumed + 1) NumToConsume
        | None => st_ret None
        end
    end
  else st_ret (Some TotalConsumed).

(** ConsumeItemsByDefinition, lines 452-479. *)
Definition ConsumeItemsByDefinition (d : ItemDefClass) (NumToConsume : Z) : ST State bool :=
  s <- st_get ;;
  if negb (HasAuthority s) then st_ret false
  else
    r <- ConsumeItems_loop (S (Z.to_nat NumToConsume)) d 0 NumToConsume ;;
    match r with
    | None => st_ret false
    | Some TotalConsumed => SaveInventory ;;; st_ret (TotalConsumed =? NumToConsume)
    end.

(** ** Theorems *)

(** One round of the removal loop, on either branch. *)
Lemma remove_round d N (s : State) i :
  inv s -> 0 < N -> FindFirstItemStackByDefinition d (Entries s) = Some i ->
  let c := GetStatTagStackCount i TAG_Lyra_Inventory_Item_Count in
  exists s1,
    (if c <=? 1 then RemoveItemInstance (InstanceId i)
     else st_put (set_entries (update_instance
              (RemoveStatTagStack TAG_Lyra_Inventory_Item_Count (Z.min c N) i) (Entries s)) s) ;;;
          BroadcastStackChanged (RemoveStatTagStack TAG_Lyra_Inventory_Item_Count (Z.min c N) i)
            (- N)) s = Ok (tt, s1) /\
    inv s1 /\ NextObjectId s1 = NextObjectId s /\
    total d s1 = total d s - Z.min c N /\
    (forall d', d' <> d -> total d' s1 = total d' s) /\
    (limits_ok cat (Entries s) -> limits_ok cat (Entries s1)) /\
    (length (Entries s1) + (if (c <=? 1)%Z then 1 else 0) = length (Entries s))%nat.
Proof.
  intros [[Hnd Hlt] Htags] HN Hf c.
  destruct (FindFirst_entry _ _ _ Hf) as (e0 & Hin & Hi & Hd).
  assert (Hwf : wf (StatTags i)).
  { subst i. exact (proj1 (List.Forall_forall _ _) Htags e0 (proj1 (list_elem_of_In _ _) Hin)). }
  pose proof (GetStatTagStackCount_nonneg i TAG_Lyra_Inventory_Item_Count Hwf).
  assert (Hc : entry_count e0 = c) by (subst i; done).
  destruct (Z.leb_spec c 1) as [Hle|Hgt].
  - destruct (RemoveItemInstance_step (InstanceId i) s) as (s1 & Hs1 & He & Hn).
    exists s1. rewrite Hs1. split; [done|]. unfold inv. rewrite He, Hn. subst i.
    change (InstanceId (Instance e0)) with (entry_id e0). split; [split; [apply ids_ok_RemoveEntry; by split|by apply tags_ok_RemoveEntry]|].
    split; [done|]. split; [|split; [|split]].
    + rewrite (total_RemoveEntry d (Entries s) e0 Hnd Hin), decide_True by done. lia.
    + intros d' Hd'. rewrite (total_RemoveEntry d' (Entries s) e0 Hnd Hin), decide_False by congruence. lia.
    + apply limits_ok_RemoveEntry.
    + rewrite (length_RemoveEntry_unique _ e0 Hnd Hin).
      destruct (Entries s); [set_solver|simpl; lia].
  - set (i' := RemoveStatTagStack TAG_Lyra_Inventory_Item_Count (Z.min c N) i).
    assert (Hc' : GetStatTagStackCount i' TAG_Lyra_Inventory_Item_Count = c - Z.min c N).
    { unfold i'. rewrite GetStatTagStackCount_Remove_same by (done || lia). lia. }
    eexists. split; [reflexivity|]. unfold inv. simpl.
    assert (Hid : entry_id e0 = InstanceId i') by (subst i; done).
    assert (Hdef : ItemDef i' = entry_def e0) by (subst i; done).
    split; [split; [apply ids_ok_update_instance; by split|]|].
    { apply tags_ok_update_instance; [by apply RemoveStatTagStack_wf|done]. }
    split; [done|]. split; [|split; [|split]].
    + rewrite (total_update_instance d i' (Entries s) e0 Hnd Hin Hid Hdef), decide_True by done. lia.
    + intros d' Hd'. rewrite (total_update_instance d' i' (Entries s) e0 Hnd Hin Hid Hdef),
        decide_False by congruence. lia.
    + intros Hlim. apply Forall_update_instance; [done|].
      intros e He Hide. pose proof (proj1 (List.Forall_forall _ _) Hlim e (proj1 (list_elem_of_In _ _) He)) as [Hcl Hll].
      assert (e = e0) as ->.
      { apply (entry_id_inj (Entries s)); auto; congruence. }
      unfold entry_count, entry_limit, entry_def, with_instance in *. simpl in *.
      rewrite Hc'. unfold i'.
      rewrite GetStatTagStackCount_Remove_other by (done || apply count_tags_differ).
      subst i. split; [lia|done].
    + unfold update_instance. rewrite length_map. lia.
Qed.

(** The removal loop, given enough fuel and enough items, returns [true]
    having taken exactly [N] items of [d]. *)
Lemma RemoveItemDefinition_loop_spec d fuel N (s : State) :
  inv s -> 0 <= N <= total d s ->
  (Z.to_nat N + length (Entries s) < fuel)%nat ->
  exists s', RemoveItemDefinition_loop fuel d N s = Ok (true, s') /\
    inv s' /\ NextObjectId s' = NextObjectId s /\
    total d s' = total d s - N /\
    (forall d', d' <> d -> total d' s' = total d' s) /\
    (limits_ok cat (Entries s) -> limits_ok cat (Entries s')).
Proof.
  revert N s. induction fuel as [|fuel IH]; intros N s Hinv HN Hfuel; [lia|].
  cbn [RemoveItemDefinition_loop].
  destruct (Z.gtb_spec N 0) as [HN0|HN0].
  - destruct (FindFirst_total_pos d (Entries s) ltac:(lia)) as [i Hf].
    rewrite (st_bind_ok st_get _ s s s) by reflexivity. rewrite Hf. cbv beta iota zeta.
    pose proof (remove_round d N s i Hinv HN0 Hf) as Hr. cbv zeta in Hr.
    destruct Hr as (s1 & Hs1 & Hinv1 & Hn1 & Ht1 & Ho1 & Hl1 & Hlen1).
    rewrite (st_bind_ok _ _ s tt s1 Hs1).
    set (c := GetStatTagStackCount i TAG_Lyra_Inventory_Item_Count) in *.
    assert (Hc0 : 0 <= c).
    { destruct (FindFirst_entry _ _ _ Hf) as (e0 & Hin & <- & _).
      apply GetStatTagStackCount_nonneg. destruct Hinv as [_ Ht].
      exact (proj1 (List.Forall_forall _ _) Ht e0 (proj1 (list_elem_of_In _ _) Hin)). }
    destruct (IH (N - Z.min c N) s1) as (s' & Hs' & Hinv' & Hn' & Ht' & Ho' & Hl');
      [done|lia|destruct (Z.leb_spec c 1); lia|].
    exists s'. split; [done|]. split; [done|]. split; [congruence|].
    split; [lia|]. split; [intros; rewrite Ho', Ho1 by done; done|auto].
  - exists s. split; [reflexivity|]. split; [done|]. split; [done|]. split; [lia|]. auto.
Qed.

(** On a well-formed state the count the code checks at line 295 is
    the held count while that fits an [int32], and never above it. *)
Lemma GetTotalItemCount_inv d (s : State) :
  inv s -> total d s < 2 ^ 31 -> GetTotalItemCount d (Entries s) = total d s.
Proof.
  intros [_ Ht] Hlt. pose proof (total_nonneg d _ Ht).
  apply GetTotalItemCount_exact. lia.
Qed.

Lemma GetTotalItemCount_le d (s : State) :
  inv s -> GetTotalItemCount d (Entries s) <= total d s.
Proof.
  intros [_ Ht]. pose proof (total_nonneg d _ Ht).
  rewrite GetTotalItemCount_wrap. apply wrap32_le. lia.
Qed.

(** RemoveItemDefinition of a non-positive number changes nothing,
    whatever its check answers. *)
Lemma RemoveItemDefinition_nonpos d N (s : State) :
  N <= 0 -> exists b, RemoveItemDefinition d N s = Ok (b, s).
Proof.
  intros HN. unfold RemoveItemDefinition. st_unfold.
  destruct (N <=? GetTotalItemCount d (Entries s)); [|by eexists].
  cbn [RemoveItemDefinition_loop]. destruct (Z.gtb_spec N 0); [lia|]. st_unfold. by eexists.
Qed.

(** RemoveItemDefinition with at most the held items runs its loop to
    the end: it returns [true] with exactly [N] items removed. *)
Lemma RemoveItemDefinition_run d N (s : State) :
  inv s -> total d s < 2 ^ 31 -> 0 <= N <= total d s ->
  exists s', RemoveItemDefinition d N s = Ok (true, s') /\
    total d s' = total d s - N /\
    (forall d', d' <> d -> total d' s' = total d' s) /\
    inv s' /\ (limits_ok cat (Entries s) -> limits_ok cat (Entries s')).
Proof.
  intros Hinv Hmax HN. unfold RemoveItemDefinition.
  rewrite (st_bind_ok st_get _ s s s) by reflexivity.
  rewrite GetTotalItemCount_inv by done.
  destruct (Z.leb_spec N (total d s)) as [_|]; [|lia].
  destruct (RemoveItemDefinition_loop_spec d (S (Z.to_nat N + length (Entries s))) N s Hinv HN
              ltac:(lia)) as (s' & Hs' & Hinv' & _ & Ht' & Ho' & Hl').
  rewrite (st_bind_ok _ _ s true s' Hs').
  exists s'. auto.
Qed.

(** C1: RemoveItemDefinition, when the definition holds at least [N >= 0]
    items and its count fits the [int32] of GetTotalItemCount, returns
    [true], removes exactly [N] of them, leaves every other definition's
    total unchanged and keeps the invariants. *)
Theorem RemoveItemDefinition_removes_exactly d N (s : State) :
  inv s -> total d s < 2 ^ 31 -> 0 <= N <= total d s ->
  exists s', RemoveItemDefinition d N s = Ok (true, s') /\
    total d s' = total d s - N /\
    (forall d', d' <> d -> total d' s' = total d' s) /\
    inv s' /\ (limits_ok cat (Entries s) -> limits_ok cat (Entries s')).
Proof. apply RemoveItemDefinition_run. Qed.

(** C2: RemoveItemDefinition asked for more items than the definition
    holds returns [false] and changes nothing: no entry, no message.  The
    [int32] count the code checks never exceeds the held count (it wraps
    only downwards when the held count is above INT_MAX), so this holds
    whatever the count. *)
Theorem RemoveItemDefinition_atomic_failure d N (s : State) :
  inv s -> total d s < N -> RemoveItemDefinition d N s = Ok (false, s).
Proof.
  intros Hinv HN. unfold RemoveItemDefinition. st_unfold.
  pose proof (GetTotalItemCount_le d s Hinv).
  destruct (Z.leb_spec N (GetTotalItemCount d (Entries s))); [lia|done].
Qed.

(** C3: Only ConsumeItemsByDefinition checks the owner's authority.  On a
    component whose owner has no authority (a client's copy),
    ConsumeItemsByDefinition refuses with no effect, as the single-writer
    rule asks of every mutator; RemoveItemDefinition has no such check
    and removes [0 < N] held items from the client's copy (whose count
    fits the [int32] of GetTotalItemCount), reporting success. *)
Theorem RemoveItemDefinition_ignores_authority d N (s : State) :
  HasAuthority s = false -> inv s -> total d s < 2 ^ 31 -> 0 < N <= total d s ->
  ConsumeItemsByDefinition d N s = Ok (false, s) /\
  exists s', RemoveItemDefinition d N s = Ok (true, s') /\ total d s' = total d s - N.
Proof.
  intros Ha Hinv Hmax HN. split.
  - unfold ConsumeItemsByDefinition. st_unfold. by rewrite Ha.
  - destruct (RemoveItemDefinition_run d N s Hinv Hmax ltac:(lia)) as (s' & Hs' & Ht & _).
    by exists s'.
Qed.

End Remove.

End InventoryRemove.
