(* ===== verification/InventoryAdd.v ===== *)
(** * Adding items: AddItemDefinition and AddItemInstance

    The adding methods of [ULyraInventoryManagerComponent]
    (src/LyraGame/Inventory/LyraInventoryManagerComponent.cpp, lines
    203-270 and 332-360) and their theorems.  AddItemDefinition first
    tops up the existing stacks of the definition that have room, then
    creates stacks of at most the stack limit.  With a positive stack
    limit both loops end within their fuel bound (each round places at
    least one item), exactly the requested items are added and no stack
    exceeds its limit; with a limit of zero or less the second loop never
    ends.  Adding then removing the same amount restores the total. *)

From S2P Require Import Prelude TagStack InventoryItem QuickBar InventoryList InventoryManager InventoryInvariant InventoryRemove.
Import TagStack InventoryItem QuickBar InventoryList InventoryManager InventoryInvariant InventoryRemove.

Local Open Scope Z_scope.

Module InventoryAdd.

Section Add.
  Context {QB : Type} `{SlotService QB}.
  Variable cat : Catalog.

Abbreviation total d s := (item_total d (Entries s)).
Abbreviation State := (@InvState QB).

(** AddItemToFirstAvailableStack, lines 332-360: top up the first stack
    of the definition that is not full, as long as items remain.  The
    stack found has room ([AvailableSpace > 0]), so [0 < ItemsToAdd <=
    StackCount] and the [int32] subtraction of line 353 cannot wrap. *)
Fixpoint AddItemToFirstAvailableStack_loop (fuel : nat) (d : ItemDefClass) (StackCount0 : Z)
  : ST State Z :=
  if StackCount0 >? 0 then
    match fuel with
    | O => st_fail OutOfFuel
    | S fuel' =>
        s <- st_get ;;
        match FindFirstItemStackByDefinition_NotFull d (Entries s) with
        | Some i =>
            let ItemCount := GetStatTagStackCount i TAG_Lyra_Inventory_Item_Count in
            let MaxStackCount := GetStatTagStackCount i TAG_Lyra_Inventory_Item_StackCount in
            let AvailableSpace := MaxStackCount - ItemCount in
            let ItemsToAdd := Z.min StackCount0 AvailableSpace in
            st_put (set_entries (update_instance
                       (AddStatTagStack TAG_Lyra_Inventory_Item_Count ItemsToAdd i) (Entries s)) s) ;;;
            AddItemToFirstAvailableStack_loop fuel' d (StackCount0 - ItemsToAdd)
        | None => st_ret StackCount0
        end
    end
  else st_ret StackCount0.

Definition AddItemToFirstAvailableStack (d : ItemDefClass) (StackCount0 : Z) : ST State Z :=
  AddItemToFirstAvailableStack_loop (S (Z.to_nat StackCount0)) d StackCount0.

(** The second loop of AddItemDefinition, lines 213-234: make new stacks
    of at most the stack limit until every item is placed.  [Result0] is
    the last instance created.  [StackCount -= ItemsToAdd] (line 219) is
    an [int32] subtraction: with a negative stack limit it grows the
    count until it wraps. *)
Fixpoint AddNewStacks_loop (fuel : nat) (d : ItemDefClass) (StackCount0 : Z)
    (Result0 : option ULyraInventoryItemInstance) : ST State (option ULyraInventoryItemInstance) :=
  if StackCount0 >? 0 then
    match fuel with
    | O => st_fail OutOfFuel
    | S fuel' =>
        let ItemsToAdd := Z.min StackCount0 (GetStackLimit (cat d)) in
        s <- st_get ;;
        match AddEntry cat (HasAuthority s) (NextObjectId s) (Some d) ItemsToAdd (Entries s) with
        | Failed f => st_fail f
        | Ok (i, l) =>
            let i' := SetInventoryManagerComponent i in
            st_put (set_next_id (S (NextObjectId s)) (set_entries (update_instance i' l) s)) ;;;
            BroadcastStackChanged i' ItemsToAdd ;;;
            AutoSlotWeapon cat i' ;;;
            AddNewStacks_loop fuel' d (wrap32 (StackCount0 - ItemsToAdd)) (Some i')
        end
    end
  else st_ret Result0.

(** AddItemDefinition, lines 203-245; [None] is a nullptr class. *)
Definition AddItemDefinition (ItemDef0 : option ItemDefClass) (StackCount0 : Z)
  : ST State (option ULyraInventoryItemInstance) :=
  r <- match ItemDef0 with
       | None => st_ret None
       | Some d =>
           s <- st_get ;;
           rest <- (if CanAddItemDefinition d (Entries s)
                    then AddItemToFirstAvailableStack d StackCount0
                    else st_ret StackCount0) ;;
           r <- AddNewStacks_loop (S (Z.to_nat rest)) d rest None ;;
           s' <- st_get ;;
           match r with
           | Some i =>
               if UsingRegisteredSubObjectList s' && ReadyForReplication s'
               then AddReplicatedSubObject (InstanceId i) ;;; st_ret r
               else st_ret r
           | None => st_ret r
           end
       end ;;
  SaveInventory ;;;
  st_ret r.

(** AddItemInstance, lines 247-270: the list's [AddEntry(Instance)] is
    [unimplemented()]. *)
Definition AddItemInstance (i : ULyraInventoryItemInstance) : ST State unit :=
  let i' := SetInventoryManagerComponent i in
  s <- st_get ;;
  match AddEntryInstance i' (Entries s) with
  | Failed f => st_fail f
  | Ok l =>
      st_put (set_entries l s) ;;;
      s1 <- st_get ;;
      (if decide (ItemType (cat (ItemDef i')) = LIT_Weapon) then
         match QuickBarComp s1 with
         | Some qb =>
             if GetNextFreeItemSlot qb =? INDEX_NONE then st_ret tt
             else st_put (set_quickbar
                    (Some (AddItemToSlot (GetNextFreeItemSlot qb) (InstanceId i') qb)) s1)
         | None => st_ret tt
         end
       else st_ret tt) ;;;
      s2 <- st_get ;;
      (if UsingRegisteredSubObjectList s2 && ReadyForReplication s2
       then AddReplicatedSubObject (InstanceId i') else st_ret tt) ;;;
      SaveInventory
  end.

(** ** Theorems *)

(** One round of AddItemToFirstAvailableStack: the first stack with room
    gets [k >= 1] items, never more than its room. *)
Lemma topup_round d N (s : State) i :
  inv s -> limits_ok cat (Entries s) -> 0 < N ->
  FindFirstItemStackByDefinition_NotFull d (Entries s) = Some i ->
  let k := Z.min N (GetStatTagStackCount i TAG_Lyra_Inventory_Item_StackCount -
                    GetStatTagStackCount i TAG_Lyra_Inventory_Item_Count) in
  let s1 := set_entries (update_instance (AddStatTagStack TAG_Lyra_Inventory_Item_Count k i)
                           (Entries s)) s in
  1 <= k <= N /\ inv s1 /\ limits_ok cat (Entries s1) /\
  total d s1 = total d s + k /\ (forall d', d' <> d -> total d' s1 = total d' s).
Proof.
  intros Hinv Hlim HN Hf k s1.
  destruct (FindNotFull_entry _ _ _ Hf) as (e0 & Hin & Hi & Hd & Hroom).
  pose proof (entry_wf s e0 Hinv Hin) as Hwf. rewrite Hi in Hwf.
  destruct Hinv as [[Hnd Hlt] Htags].
  assert (Hk : 1 <= k <= N) by (subst i; unfold k, entry_count, entry_limit in *; lia).
  set (i' := AddStatTagStack TAG_Lyra_Inventory_Item_Count k i) in *.
  assert (Hc' : GetStatTagStackCount i' TAG_Lyra_Inventory_Item_Count =
                GetStatTagStackCount i TAG_Lyra_Inventory_Item_Count + k).
  { unfold i'. rewrite GetStatTagStackCount_Add_same by (done || lia). done. }
  assert (Hl' : GetStatTagStackCount i' TAG_Lyra_Inventory_Item_StackCount =
                GetStatTagStackCount i TAG_Lyra_Inventory_Item_StackCount).
  { unfold i'. by rewrite GetStatTagStackCount_Add_other by (done || discriminate). }
  assert (Hid : entry_id e0 = InstanceId i') by (subst i; done).
  assert (Hdef : ItemDef i' = entry_def e0) by (subst i; done).
  split; [done|]. unfold s1, inv. simpl.
  split_and!.
  - by apply ids_ok_update_instance.
  - apply tags_ok_update_instance; [by apply AddStatTagStack_wf|done].
  - apply Forall_update_instance; [done|]. intros e He Hide.
    assert (e = e0) as -> by (apply (entry_id_inj (Entries s)); auto; congruence).
    unfold entry_count, entry_limit, entry_def, with_instance in *. simpl.
    rewrite Hc', Hl'. pose proof (proj1 (List.Forall_forall _ _) Hlim e0
      (proj1 (list_elem_of_In _ _) Hin)) as [_ Heq]. subst i.
    unfold entry_count, entry_limit, entry_def in *. split; [unfold k in *; lia|done].
  - rewrite (total_update_instance d i' (Entries s) e0 Hnd Hin Hid Hdef), decide_True by done.
    subst i. unfold entry_count in *. lia.
  - intros d' Hd'. rewrite (total_update_instance d' i' (Entries s) e0 Hnd Hin Hid Hdef),
      decide_False by congruence. lia.
Qed.

(** AddItemToFirstAvailableStack terminates within its fuel and moves
    [N - rest] items into existing stacks of [d]. *)
Lemma AddItemToFirstAvailableStack_loop_spec d fuel N (s : State) :
  inv s -> limits_ok cat (Entries s) -> 0 <= N -> (Z.to_nat N < fuel)%nat ->
  exists rest s', AddItemToFirstAvailableStack_loop fuel d N s = Ok (rest, s') /\
    0 <= rest <= N /\ total d s' = total d s + (N - rest) /\
    (forall d', d' <> d -> total d' s' = total d' s) /\
    inv s' /\ limits_ok cat (Entries s') /\
    NextObjectId s' = NextObjectId s /\ HasAuthority s' = HasAuthority s.
Proof.
  revert N s. induction fuel as [|fuel IH]; intros N s Hinv Hlim HN Hfuel; [lia|].
  cbn [AddItemToFirstAvailableStack_loop].
  destruct (Z.gtb_spec N 0) as [HN0|HN0].
  - st_simpl.
    destruct (FindFirstItemStackByDefinition_NotFull d (Entries s)) as [i|] eqn:Hf.
    + cbv zeta. st_simpl.
      destruct (topup_round d N s i Hinv Hlim HN0 Hf) as (Hk & Hinv1 & Hlim1 & Ht1 & Ho1).
      match goal with |- context [AddItemToFirstAvailableStack_loop fuel d (N - ?k) ?s1] =>
        destruct (IH (N - k) s1 Hinv1 Hlim1 ltac:(lia) ltac:(lia))
          as (rest & s' & Hs' & Hr & Ht' & Ho' & Hinv' & Hlim' & Hn' & Ha') end.
      rewrite Hs'. exists rest, s'. split_and!; auto; try lia;
        first [intros d' Hd'; rewrite Ho', Ho1 by done; done | by rewrite Hn' | by rewrite Ha'].
    + exists N, s. split_and!; auto; lia.
  - exists N, s. split_and!; auto; lia.
Qed.

(** One round of the new-stack loop: a fresh stack of [k] items. *)
Lemma newstack_round d N k (s : State) :
  FragmentsPreserve cat -> inv s -> limits_ok cat (Entries s) ->
  1 <= GetStackLimit (cat d) -> 0 < N -> k = Z.min N (GetStackLimit (cat d)) ->
  let i' := SetInventoryManagerComponent (CreateInstance cat (NextObjectId s) d k) in
  let s1 := set_next_id (S (NextObjectId s)) (set_entries (update_instance i'
              (Entries s ++ [{| Instance := CreateInstance cat (NextObjectId s) d k;
                                StackCount := k; LastObservedCount := INDEX_NONE |}])) s) in
  1 <= k <= N /\ inv s1 /\ limits_ok cat (Entries s1) /\
  total d s1 = total d s + k /\ (forall d', d' <> d -> total d' s1 = total d' s).
Proof.
  intros Hfr Hinv Hlim Hl HN Hk i' s1.
  destruct (CreateInstance_spec cat (NextObjectId s) d k Hfr ltac:(lia) Hl)
    as (H1 & H2 & H3 & H4 & H5).
  destruct Hinv as [[Hnd Hlt] Htags].
  assert (Hfresh : update_instance i' (Entries s ++ [{| Instance := CreateInstance cat (NextObjectId s) d k;
      StackCount := k; LastObservedCount := INDEX_NONE |}]) =
      Entries s ++ [{| Instance := i'; StackCount := k; LastObservedCount := INDEX_NONE |}]).
  { rewrite update_instance_app, update_instance_absent.
    - simpl. rewrite decide_True by (unfold entry_id; simpl; done). done.
    - intros e He. pose proof (proj1 (List.Forall_forall _ _) Hlt e (proj1 (list_elem_of_In _ _) He)).
      unfold i'. cbn [InstanceId SetInventoryManagerComponent]. rewrite H1. simpl in *. lia. }
  assert (Hc : forall t, GetStatTagStackCount i' t =
                 GetStatTagStackCount (CreateInstance cat (NextObjectId s) d k) t) by done.
  assert (Hd' : ItemDef i' = d) by (unfold i'; cbn [ItemDef SetInventoryManagerComponent]; exact H2).
  assert (Hi' : InstanceId i' = NextObjectId s)
    by (unfold i'; cbn [InstanceId SetInventoryManagerComponent]; exact H1).
  assert (Hw' : wf (StatTags i')) by (unfold i'; cbn [StatTags SetInventoryManagerComponent]; exact H3).
  clearbody i'.
  unfold s1, inv, limits_ok. cbn [Entries NextObjectId set_next_id set_entries]. rewrite Hfresh.
  split; [lia|]. split_and!.
  - apply ids_ok_fresh; [by split|]. exact Hi'.
  - apply Forall_app. split; [done|]. constructor; [exact Hw'|constructor].
  - apply Forall_app. split; [done|]. constructor; [|constructor].
    unfold entry_count, entry_limit, entry_def. cbn [Instance].
    rewrite !Hc, H4, H5, Hd'. lia.
  - rewrite total_app. unfold item_total at 2. cbn [sumZ].
    unfold entry_def, entry_count. cbn [Instance]. rewrite Hd', decide_True by done.
    rewrite Hc, H4. lia.
  - intros d0 Hd0. rewrite total_app. unfold item_total at 2. cbn [sumZ].
    unfold entry_def. cbn [Instance]. rewrite Hd', decide_False by congruence. lia.
Qed.

(** The new-stack loop terminates within its fuel when the stack limit is
    positive and places all [N] items. *)
Lemma AddNewStacks_loop_spec d fuel N r (s : State) :
  FragmentsPreserve cat -> inv s -> limits_ok cat (Entries s) -> HasAuthority s = true ->
  1 <= GetStackLimit (cat d) -> 0 <= N < 2 ^ 31 -> (Z.to_nat N < fuel)%nat ->
  exists r' s', AddNewStacks_loop fuel d N r s = Ok (r', s') /\
    total d s' = total d s + N /\ (forall d', d' <> d -> total d' s' = total d' s) /\
    inv s' /\ limits_ok cat (Entries s').
Proof.
  intros Hfr. revert N r s. induction fuel as [|fuel IH]; intros N r s Hinv Hlim Ha Hl HN Hfuel; [lia|].
  cbn [AddNewStacks_loop].
  destruct (Z.gtb_spec N 0) as [HN0|HN0]; [|exists r, s; split_and!; auto; lia].
  cbv zeta. st_simpl. rewrite Ha, AddEntry_auth. cbv beta iota. st_simpl.
  unfold BroadcastStackChanged. st_simpl.
  match goal with |- context [st_bind (AutoSlotWeapon cat ?i) _ ?s2] =>
    destruct (AutoSlotWeapon_step cat i s2) as (s3 & Hs3 & He3 & Hn3 & Ha3) end.
  rewrite (st_bind_ok _ _ _ tt s3 Hs3).
  destruct (newstack_round d N _ s Hfr Hinv Hlim Hl HN0 eq_refl) as (Hk & Hinv1 & Hlim1 & Ht1 & Ho1).
  set (k := Z.min N (GetStackLimit (cat d))) in *.
  rewrite (wrap32_id (N - k)) by lia.
  destruct (IH (N - k) (Some (SetInventoryManagerComponent (CreateInstance cat (NextObjectId s) d k))) s3)
    as (r' & s' & Hs' & Ht' & Ho' & Hinv' & Hlim'); simpl in *.
  - unfold inv. rewrite He3, Hn3. exact Hinv1.
  - rewrite He3. exact Hlim1.
  - by rewrite Ha3.
  - done.
  - lia.
  - lia.
  - exists r', s'. split; [done|]. rewrite He3 in Ht', Ho'. split_and!; auto; [lia|].
    intros d' Hd'. rewrite Ho', Ho1 by done. done.
Qed.

(** One round of the new-stack loop on a component with authority: it
    goes on with the wrapped count [StackCount - min(StackCount, limit)]
    from a state that still has authority. *)
Lemma AddNewStacks_loop_round d fuel N r (s : State) :
  HasAuthority s = true -> 0 < N ->
  exists r1 s1, HasAuthority s1 = true /\
    AddNewStacks_loop (S fuel) d N r s =
    AddNewStacks_loop fuel d (wrap32 (N - Z.min N (GetStackLimit (cat d)))) r1 s1.
Proof.
  intros Ha HN. cbn [AddNewStacks_loop]. destruct (Z.gtb_spec N 0) as [_|]; [|lia].
  cbv zeta. st_simpl. rewrite Ha, AddEntry_auth. cbv beta iota. st_simpl.
  unfold BroadcastStackChanged. st_simpl.
  match goal with |- context [st_bind (AutoSlotWeapon cat ?i) _ ?s2] =>
    destruct (AutoSlotWeapon_step cat i s2) as (s3 & Hs3 & _ & _ & Ha3) end.
  rewrite (st_bind_ok _ _ _ tt s3 Hs3).
  eexists _, s3. split; [by rewrite Ha3|reflexivity].
Qed.

(** Divergence: with a stack limit of zero, a round places no item and
    leaves the count as it was, so the loop runs out of any fuel. *)
Lemma AddNewStacks_loop_diverges d fuel N r (s : State) :
  HasAuthority s = true -> GetStackLimit (cat d) = 0 -> 0 < N < 2 ^ 31 ->
  AddNewStacks_loop fuel d N r s = Failed OutOfFuel.
Proof.
  revert r s. induction fuel as [|fuel IH]; intros r s Ha Hl HN.
  - cbn [AddNewStacks_loop]. destruct (Z.gtb_spec N 0); [reflexivity|lia].
  - destruct (AddNewStacks_loop_round d fuel N r s Ha ltac:(lia)) as (r1 & s1 & Ha1 & ->).
    rewrite Hl, Z.min_r, Z.sub_0_r, wrap32_id by lia. by apply IH.
Qed.

(** The whole of AddItemDefinition for a definition with a positive
    stack limit: it returns, adds exactly [N] items and keeps the
    invariants. *)
Lemma AddItemDefinition_spec d N (s : State) :
  FragmentsPreserve cat -> inv s -> limits_ok cat (Entries s) -> HasAuthority s = true ->
  1 <= GetStackLimit (cat d) -> 0 <= N < 2 ^ 31 ->
  exists r s', AddItemDefinition (Some d) N s = Ok (r, s') /\
    total d s' = total d s + N /\ (forall d', d' <> d -> total d' s' = total d' s) /\
    inv s' /\ limits_ok cat (Entries s').
Proof.
  intros Hfr Hinv Hlim Ha Hl HN. unfold AddItemDefinition. st_simpl.
  assert (Htop : exists rest s1,
            (if CanAddItemDefinition d (Entries s) then AddItemToFirstAvailableStack d N
             else st_ret N) s = Ok (rest, s1) /\
            0 <= rest <= N /\ total d s1 = total d s + (N - rest) /\
            (forall d', d' <> d -> total d' s1 = total d' s) /\
            inv s1 /\ limits_ok cat (Entries s1) /\ HasAuthority s1 = true).
  { destruct (CanAddItemDefinition d (Entries s)).
    - destruct (AddItemToFirstAvailableStack_loop_spec d (S (Z.to_nat N)) N s Hinv Hlim ltac:(lia) ltac:(lia))
        as (rest & s1 & Hs1 & Hr & Ht & Ho & Hinv1 & Hlim1 & _ & Ha1).
      exists rest, s1. split_and!; auto; try lia; congruence.
    - exists N, s. split_and!; auto; lia. }
  destruct Htop as (rest & s1 & Hs1 & Hr & Ht1 & Ho1 & Hinv1 & Hlim1 & Ha1).
  rewrite (st_bind_ok _ _ _ _ _ Hs1).
  destruct (AddNewStacks_loop_spec d (S (Z.to_nat rest)) rest None s1 Hfr Hinv1 Hlim1 Ha1 Hl
              ltac:(lia) ltac:(lia)) as (r & s2 & Hs2 & Ht2 & Ho2 & Hinv2 & Hlim2).
  st_simpl. rewrite (st_bind_ok _ _ _ _ _ Hs2). st_simpl.
  unfold SaveInventory, AddReplicatedSubObject.
  destruct r as [i|]; [destruct (_ && _)|]; st_simpl;
    eexists _, _; (split; [reflexivity|]); cbn [Entries set_subobjects];
    split_and!; auto; try lia;
    intros d' Hd'; rewrite Ho2, Ho1 by done; done.
Qed.

(** C4: AddItemDefinition of [N >= 0] items ([N] an [int32], the type of
    its [StackCount] parameter) of a definition whose stack limit is
    positive returns, puts exactly [N] more items of it into the
    inventory, changes no other definition's total and keeps the
    invariant. *)
Theorem AddItemDefinition_adds_exactly d N (s : State) :
  FragmentsPreserve cat -> inv s -> limits_ok cat (Entries s) -> HasAuthority s = true ->
  1 <= GetStackLimit (cat d) -> 0 <= N < 2 ^ 31 ->
  exists r s', AddItemDefinition (Some d) N s = Ok (r, s') /\
    total d s' = total d s + N /\ (forall d', d' <> d -> total d' s' = total d' s) /\ inv s'.
Proof.
  intros. destruct (AddItemDefinition_spec d N s) as (r & s' & ? & ? & ? & ? & _); auto.
  exists r, s'. auto.
Qed.

(** C7: after AddItemDefinition no stack holds more items than its item
    definition's stack limit. *)
Theorem AddItemDefinition_respects_stack_limit d N (s : State) :
  FragmentsPreserve cat -> inv s -> limits_ok cat (Entries s) -> HasAuthority s = true ->
  1 <= GetStackLimit (cat d) -> 0 <= N < 2 ^ 31 ->
  exists r s', AddItemDefinition (Some d) N s = Ok (r, s') /\
    forall e, e ∈ Entries s' -> entry_count e <= GetStackLimit (cat (entry_def e)).
Proof.
  intros. destruct (AddItemDefinition_spec d N s) as (r & s' & Hs' & _ & _ & _ & Hlim'); auto.
  exists r, s'. split; [done|]. intros e He.
  destruct (proj1 (List.Forall_forall _ _) Hlim' e (proj1 (list_elem_of_In _ _) He)). lia.
Qed.

(** C5: adding [N] items and then removing [N] items of the same
    definition brings its total back to where it was, as long as the
    total after the addition fits the [int32] of GetTotalItemCount. *)
Theorem add_then_remove_conserves_total d N (s : State) :
  FragmentsPreserve cat -> inv s -> limits_ok cat (Entries s) -> HasAuthority s = true ->
  1 <= GetStackLimit (cat d) -> 0 <= N -> total d s + N < 2 ^ 31 ->
  exists r s1 s2, AddItemDefinition (Some d) N s = Ok (r, s1) /\
    RemoveItemDefinition d N s1 = Ok (true, s2) /\ total d s2 = total d s.
Proof.
  intros Hfr Hinv Hlim Ha Hl HN Hmax.
  pose proof (total_nonneg d (Entries s) (proj2 Hinv)).
  destruct (AddItemDefinition_spec d N s) as (r & s1 & Hs1 & Ht1 & _ & Hinv1 & _); auto; [lia|].
  destruct (RemoveItemDefinition_run cat d N s1 Hinv1 ltac:(lia) ltac:(lia))
    as (s2 & Hs2 & Ht2 & _).
  exists r, s1, s2. split_and!; [done|done|lia].
Qed.

(** C15: with a stack limit of 0 (the value of an unset [StackLimit]),
    AddItemDefinition of a positive [int32] count never returns: no stack
    has room, so the top-up loop leaves the count and the state as they
    were, and the new-stack loop entered there runs out of every fuel
    (each round adds an empty stack and leaves the count unchanged); the
    call with the model's fuel faults. *)
Theorem AddItemDefinition_diverges_zero_limit d N (s : State) :
  inv s -> limits_ok cat (Entries s) -> HasAuthority s = true ->
  GetStackLimit (cat d) = 0 -> 0 < N < 2 ^ 31 ->
  (forall fuel r, AddNewStacks_loop fuel d N r s = Failed OutOfFuel) /\
  AddItemDefinition (Some d) N s = Failed OutOfFuel.
Proof.
  intros Hinv Hlim Ha Hl HN.
  assert (Hloop : forall fuel r, AddNewStacks_loop fuel d N r s = Failed OutOfFuel)
    by (intros; by apply AddNewStacks_loop_diverges).
  split; [exact Hloop|]. unfold AddItemDefinition. st_simpl.
  assert (Hnone : FindFirstItemStackByDefinition_NotFull d (Entries s) = None).
  { destruct (FindFirstItemStackByDefinition_NotFull d (Entries s)) as [i|] eqn:Hf; [|done].
    destruct (FindNotFull_entry _ _ _ Hf) as (e0 & Hin & <- & Hd & Hroom).
    destruct (proj1 (List.Forall_forall _ _) Hlim e0 (proj1 (list_elem_of_In _ _) Hin)) as [_ Heq].
    pose proof (GetStatTagStackCount_nonneg (Instance e0) TAG_Lyra_Inventory_Item_Count
      (entry_wf s e0 Hinv Hin)).
    unfold entry_count in *. rewrite Heq, Hd in Hroom. lia. }
  assert (Htop : (if CanAddItemDefinition d (Entries s) then AddItemToFirstAvailableStack d N
                  else st_ret N) s = Ok (N, s)).
  { destruct (CanAddItemDefinition d (Entries s)); [|done].
    unfold AddItemToFirstAvailableStack. cbn [AddItemToFirstAvailableStack_loop].
    destruct (Z.gtb_spec N 0); [|lia]. st_simpl. by rewrite Hnone. }
  rewrite (st_bind_ok _ _ _ _ _ Htop).
  st_simpl. by rewrite (st_bind_failed _ _ _ _ (Hloop _ None)).
Qed.

(** C16: with a negative stack limit the new-stack loop ends: each round
    adds a stack of [limit] (negative) items and the [int32] count
    [StackCount - limit] grows until it passes INT_MAX and wraps to a
    negative value, which stops the loop (the limit is an [int32]).  A fuel above
    [2^31 - StackCount] rounds is enough. *)
Theorem AddNewStacks_loop_negative_limit_ends d fuel N r (s : State) :
  HasAuthority s = true -> - 2 ^ 31 <= GetStackLimit (cat d) < 0 -> 0 < N < 2 ^ 31 ->
  (Z.to_nat (2 ^ 31 - N) < fuel)%nat ->
  exists r' s', AddNewStacks_loop fuel d N r s = Ok (r', s').
Proof.
  revert N r s. induction fuel as [|fuel IH]; intros N r s Ha Hl HN Hfuel; [lia|].
  destruct (AddNewStacks_loop_round d fuel N r s Ha ltac:(lia)) as (r1 & s1 & Ha1 & ->).
  rewrite Z.min_r by lia. set (L := GetStackLimit (cat d)) in *.
  destruct (Z.ltb_spec (N - L) (2 ^ 31)).
  - rewrite wrap32_id by lia. apply IH; auto; lia.
  - rewrite wrap32_over by lia.
    destruct fuel; cbn [AddNewStacks_loop];
      (destruct (Z.gtb_spec (N - L - 2 ^ 32) 0); [lia|]); eexists _, _; reflexivity.
Qed.

End Add.

End InventoryAdd.
