(* ===== verification/InventoryExamples.v ===== *)
(** * Inventory runs on a concrete catalog

    A catalog of three item definitions (a potion stacking to 3, a sword
    stacking to 1, and an item whose [StackLimit] was left at 0), an
    empty inventory with a three-slot quick bar, and the states the
    component reaches from it, and a catalog whose only definition has a
    [StackLimit] of -1.  The runs show, by evaluation, what the
    code broadcasts and stores; the witnesses apply the general theorems
    of [InventoryAdd] and [InventoryRemove] to these states. *)

From S2P Require Import Prelude TagStack InventoryItem QuickBar InventoryList InventoryManager InventoryInvariant InventoryRemove InventoryAdd.
Import TagStack InventoryItem QuickBar InventoryList InventoryManager InventoryInvariant InventoryRemove InventoryAdd.

Local Open Scope Z_scope.

Module InventoryExamples.

Definition Potion : ULyraInventoryItemDefinition :=
  {| DisplayName := "Potion"; ItemType := LIT_Consumable; StackLimit := 3; Fragments := [] |}.
Definition Sword : ULyraInventoryItemDefinition :=
  {| DisplayName := "Sword"; ItemType := LIT_Weapon; StackLimit := 1; Fragments := [] |}.
Definition Unset : ULyraInventoryItemDefinition :=
  {| DisplayName := "Unset"; ItemType := LIT_Miscellaneous; StackLimit := 0; Fragments := [] |}.

Definition PotionClass : ItemDefClass := 0%nat.
Definition SwordClass : ItemDefClass := 1%nat.
Definition UnsetClass : ItemDefClass := 2%nat.

Definition cat_ex : Catalog :=
  fun d => match d with 0%nat => Potion | 1%nat => Sword | _ => Unset end.

Abbreviation State := (@InvState ULyraQuickBarComponent).

Definition s_empty : State :=
  {| Entries := []; NextObjectId := 100;
     QuickBarComp := Some {| Slots := [None; None; None]; ActiveSlotIndex := -1 |};
     Messages := []; ReplicatedSubObjects := []; HasAuthority := true;
     UsingRegisteredSubObjectList := true; ReadyForReplication := true |}.

(** The state of a run, or the start state if the run faulted. *)
Definition after {A} (r : Result (A * State)) (s0 : State) : State :=
  match r with Ok (_, s) => s | Failed _ => s0 end.

(** Five potions picked up into the empty inventory: stacks of 3 and 2. *)
Definition s_potions : State := after (AddItemDefinition cat_ex (Some PotionClass) 5 s_empty) s_empty.

(** ** The catalog and the start state satisfy the invariants *)

Lemma cat_ex_fragments : FragmentsPreserve cat_ex.
Proof. intros d f Hf. destruct d as [|[|d]]; simpl in Hf; set_solver. Qed.

Lemma inv_s_empty : inv s_empty.
Proof. split; [split; constructor|constructor]. Qed.

Lemma limits_s_empty : limits_ok cat_ex (Entries s_empty).
Proof. constructor. Qed.

Lemma inv_s_potions : inv s_potions /\ limits_ok cat_ex (Entries s_potions).
Proof.
  destruct (AddItemDefinition_spec cat_ex PotionClass 5 s_empty cat_ex_fragments inv_s_empty
              limits_s_empty eq_refl ltac:(simpl; lia) ltac:(lia))
    as (r & s' & Hs' & _ & _ & Hinv & Hlim).
  unfold s_potions. rewrite Hs'. auto.
Qed.

Example s_potions_stacks :
  map (fun e => (entry_id e, entry_count e, entry_limit e)) (Entries s_potions) =
  [(100%nat, 3, 3); (101%nat, 2, 3)].
Proof. vm_compute. reflexivity. Qed.

(** ** Witnesses of the general theorems *)

Lemma RemoveItemDefinition_removes_exactly_witness :
  inv s_potions /\ item_total PotionClass (Entries s_potions) < 2 ^ 31 /\
  0 <= 4 <= item_total PotionClass (Entries s_potions) /\
  exists s', RemoveItemDefinition PotionClass 4 s_potions = Ok (true, s') /\
    item_total PotionClass (Entries s') = item_total PotionClass (Entries s_potions) - 4.
Proof.
  assert (Hinv : inv s_potions) by apply inv_s_potions.
  assert (Ht : 0 <= 4 <= item_total PotionClass (Entries s_potions)) by (vm_compute; split; discriminate).
  assert (Hm : item_total PotionClass (Entries s_potions) < 2 ^ 31) by (vm_compute; reflexivity).
  split; [exact Hinv|split; [exact Hm|split; [exact Ht|]]].
  destruct (RemoveItemDefinition_removes_exactly cat_ex PotionClass 4 s_potions Hinv Hm Ht)
    as (s' & Hs' & Ht' & _). exists s'. split; [exact Hs'|exact Ht'].
Defined.

(** The same five potions in a client's copy of the component. *)
Definition s_client : State :=
  {| Entries := Entries s_potions; NextObjectId := NextObjectId s_potions;
     QuickBarComp := QuickBarComp s_potions; Messages := Messages s_potions;
     ReplicatedSubObjects := ReplicatedSubObjects s_potions; HasAuthority := false;
     UsingRegisteredSubObjectList := UsingRegisteredSubObjectList s_potions;
     ReadyForReplication := ReadyForReplication s_potions |}.

Lemma RemoveItemDefinition_ignores_authority_witness :
  HasAuthority s_client = false /\ inv s_client /\
  item_total PotionClass (Entries s_client) < 2 ^ 31 /\ 0 < 2 <= item_total PotionClass (Entries s_client) /\
  ConsumeItemsByDefinition PotionClass 2 s_client = Ok (false, s_client) /\
  exists s', RemoveItemDefinition PotionClass 2 s_client = Ok (true, s') /\
    item_total PotionClass (Entries s') = item_total PotionClass (Entries s_client) - 2.
Proof.
  assert (Hinv : inv s_client) by exact (proj1 inv_s_potions).
  assert (Ht : 0 < 2 <= item_total PotionClass (Entries s_client)) by (vm_compute; split; reflexivity || discriminate).
  assert (Hm : item_total PotionClass (Entries s_client) < 2 ^ 31) by (vm_compute; reflexivity).
  split; [reflexivity|split; [exact Hinv|split; [exact Hm|split; [exact Ht|]]]].
  exact (RemoveItemDefinition_ignores_authority cat_ex PotionClass 2 s_client eq_refl Hinv Hm Ht).
Defined.

Lemma RemoveItemDefinition_atomic_failure_witness :
  inv s_potions /\ item_total PotionClass (Entries s_potions) < 10 /\
  RemoveItemDefinition PotionClass 10 s_potions = Ok (false, s_potions).
Proof.
  assert (Hinv : inv s_potions) by apply inv_s_potions.
  assert (Ht : item_total PotionClass (Entries s_potions) < 10) by (vm_compute; reflexivity).
  split; [exact Hinv|split; [exact Ht|]].
  exact (RemoveItemDefinition_atomic_failure PotionClass 10 s_potions Hinv Ht).
Defined.

Lemma AddItemDefinition_adds_exactly_witness :
  FragmentsPreserve cat_ex /\ inv s_potions /\ 1 <= GetStackLimit (cat_ex PotionClass) /\
  exists r s', AddItemDefinition cat_ex (Some PotionClass) 4 s_potions = Ok (r, s') /\
    item_total PotionClass (Entries s') = item_total PotionClass (Entries s_potions) + 4.
Proof.
  destruct inv_s_potions as [Hinv Hlim].
  assert (Hl : 1 <= GetStackLimit (cat_ex PotionClass)) by (vm_compute; discriminate).
  split; [exact cat_ex_fragments|split; [exact Hinv|split; [exact Hl|]]].
  destruct (AddItemDefinition_adds_exactly cat_ex PotionClass 4 s_potions cat_ex_fragments Hinv Hlim
              eq_refl Hl ltac:(lia)) as (r & s' & Hs' & Ht' & _).
  exists r, s'. split; [exact Hs'|exact Ht'].
Defined.

Lemma AddItemDefinition_respects_stack_limit_witness :
  FragmentsPreserve cat_ex /\ limits_ok cat_ex (Entries s_potions) /\
  exists r s', AddItemDefinition cat_ex (Some PotionClass) 7 s_potions = Ok (r, s') /\
    forall e, e ∈ Entries s' -> entry_count e <= GetStackLimit (cat_ex (entry_def e)).
Proof.
  destruct inv_s_potions as [Hinv Hlim].
  split; [exact cat_ex_fragments|split; [exact Hlim|]].
  exact (AddItemDefinition_respects_stack_limit cat_ex PotionClass 7 s_potions cat_ex_fragments
           Hinv Hlim eq_refl ltac:(vm_compute; discriminate) ltac:(lia)).
Defined.

Lemma add_then_remove_conserves_total_witness :
  FragmentsPreserve cat_ex /\ inv s_potions /\
  item_total PotionClass (Entries s_potions) + 6 < 2 ^ 31 /\
  exists r s1 s2, AddItemDefinition cat_ex (Some PotionClass) 6 s_potions = Ok (r, s1) /\
    RemoveItemDefinition PotionClass 6 s1 = Ok (true, s2) /\
    item_total PotionClass (Entries s2) = item_total PotionClass (Entries s_potions).
Proof.
  destruct inv_s_potions as [Hinv Hlim].
  assert (Hm : item_total PotionClass (Entries s_potions) + 6 < 2 ^ 31) by (vm_compute; reflexivity).
  split; [exact cat_ex_fragments|split; [exact Hinv|split; [exact Hm|]]].
  exact (add_then_remove_conserves_total cat_ex PotionClass 6 s_potions cat_ex_fragments
           Hinv Hlim eq_refl ltac:(vm_compute; discriminate) ltac:(lia) Hm).
Defined.

Lemma AddItemDefinition_diverges_zero_limit_witness :
  GetStackLimit (cat_ex UnsetClass) = 0 /\
  AddItemDefinition cat_ex (Some UnsetClass) 1 s_potions = Failed OutOfFuel.
Proof.
  destruct inv_s_potions as [Hinv Hlim].
  assert (Hl : GetStackLimit (cat_ex UnsetClass) = 0) by reflexivity.
  split; [exact Hl|].
  exact (proj2 (AddItemDefinition_diverges_zero_limit cat_ex UnsetClass 1 s_potions
           Hinv Hlim eq_refl Hl ltac:(lia))).
Defined.

(** A definition whose [StackLimit] is -1. *)
Definition Negative : ULyraInventoryItemDefinition :=
  {| DisplayName := "Negative"; ItemType := LIT_Miscellaneous; StackLimit := -1; Fragments := [] |}.

Definition cat_negative : Catalog := fun _ => Negative.

(** One item short of INT_MAX: one round adds a stack of -1 items and
    the count wraps from 2^31 to INT_MIN. *)
Lemma AddNewStacks_loop_negative_limit_ends_witness :
  - 2 ^ 31 <= GetStackLimit (cat_negative PotionClass) < 0 /\
  exists r' s', AddNewStacks_loop cat_negative 2 PotionClass (2 ^ 31 - 1) None s_empty = Ok (r', s').
Proof.
  assert (Hl : - 2 ^ 31 <= GetStackLimit (cat_negative PotionClass) < 0)
    by (vm_compute; split; [discriminate|reflexivity]).
  split; [exact Hl|].
  exact (AddNewStacks_loop_negative_limit_ends cat_negative PotionClass 2 (2 ^ 31 - 1) None s_empty
           eq_refl Hl ltac:(lia) ltac:(vm_compute; lia)).
Defined.

(** ** What the code broadcasts and stores *)

(** The change messages of one call. *)
Definition new_messages (s0 s1 : State) : list (nat * Z * Z) :=
  map (fun m => (MsgInstance m, NewCount m, Delta m)) (drop (length (Messages s0)) (Messages s1)).

(** Removing 4 potions from stacks of 3 and 2 broadcasts deltas -4,
    -1 and -1: the first reports the whole request instead of the 3 items
    taken from that stack, and the emptied stack is announced a second
    time; the deltas add up to -6 while the total fell by 4. *)
Theorem RemoveItemDefinition_deltas_disagree_with_removal :
  exists s', RemoveItemDefinition PotionClass 4 s_potions = Ok (true, s') /\
    new_messages s_potions s' = [(100%nat, 0, -4); (100%nat, 0, -1); (101%nat, 1, -1)] /\
    item_total PotionClass (Entries s') = item_total PotionClass (Entries s_potions) - 4.
Proof. eexists. split; [vm_compute; reflexivity|]. vm_compute. split; reflexivity. Qed.

(** Removing exactly the 3 potions of the first stack leaves that
    stack in the array with a count of 0, and it is still counted as a
    stack by GetTotalItemCountByDefinition. *)
Theorem RemoveItemDefinition_leaves_empty_stack :
  exists s', RemoveItemDefinition PotionClass 3 s_potions = Ok (true, s') /\
    map entry_count (Entries s') = [0; 2] /\
    GetTotalItemCountByDefinition PotionClass (Entries s') = 2.
Proof. eexists. split; [vm_compute; reflexivity|]. vm_compute. split; reflexivity. Qed.

(** Picking up one potion tops up the stack of 2: no change message
    is broadcast, the call returns nullptr, and the entry's
    [StackCount] field keeps the 2 it was created with. *)
Theorem AddItemDefinition_topup_is_silent :
  exists s', AddItemDefinition cat_ex (Some PotionClass) 1 s_potions = Ok (None, s') /\
    new_messages s_potions s' = [] /\
    map (fun e => (entry_count e, StackCount e)) (Entries s') = [(3, 3); (3, 2)].
Proof. eexists. split; [vm_compute; reflexivity|]. vm_compute. split; reflexivity. Qed.

(** Consuming one potion removes a whole stack of 3. *)
Theorem ConsumeItemsByDefinition_removes_whole_stack :
  exists s', ConsumeItemsByDefinition PotionClass 1 s_potions = Ok (true, s') /\
    item_total PotionClass (Entries s') = item_total PotionClass (Entries s_potions) - 3.
Proof. eexists. split; [vm_compute; reflexivity|]. vm_compute. reflexivity. Qed.

(** Picking up two swords creates two stacks, puts both in the quick
    bar, but registers only the second instance as a replicated
    sub-object. *)
Theorem AddItemDefinition_registers_last_instance_only :
  exists r s', AddItemDefinition cat_ex (Some SwordClass) 2 s_empty = Ok (r, s') /\
    map entry_id (Entries s') = [100%nat; 101%nat] /\ ReplicatedSubObjects s' = [101%nat] /\
    option_map Slots (QuickBarComp s') = Some [Some 100%nat; Some 101%nat; None].
Proof. eexists _, _. split; [vm_compute; reflexivity|]. vm_compute. split_and!; reflexivity. Qed.

End InventoryExamples.
