(* ===== verification/AbilityCost.v ===== *)
(** * ULyraAbilityCost_InventoryItem: an ability cost paid in inventory items

    Models src/LyraGame/AbilitySystem/Abilities/LyraAbilityCost_InventoryItem.cpp
    against the inventory of [InventoryManager]: [CheckCost] asks the
    controller's inventory whether the cost can be paid, [ApplyCost]
    pays it with [RemoveItemDefinition].  The number of items is the
    [int32] product [Quantity * AbilityLevel] ([wrap32]), converted to a
    [float] and truncated back ([float32_of_int], [TruncToInt]).

    What the ability system gives the two calls (the controller and its
    inventory component, the ability level, the authority of the actor)
    is [FAbilityActorInfo]. *)

From S2P Require Import Prelude TagStack InventoryItem QuickBar InventoryList InventoryManager InventoryInvariant InventoryRemove InventoryAdd InventoryExamples.
Import TagStack InventoryItem QuickBar InventoryList InventoryManager InventoryInvariant InventoryRemove InventoryAdd InventoryExamples.

Local Open Scope Z_scope.

Module AbilityCost.

Definition TAG_ABILITY_FAIL_ITEMCOST : GameplayTag := "Ability.ActivateFail.Cost".

Record ULyraAbilityCost_InventoryItem := {
  Quantity : Z;
  ItemDefinition : ItemDefClass;
  FailureTag : GameplayTag;
}.

(** The constructor, lines 14-18: one item, the cost failure tag. *)
Definition ULyraAbilityCost_InventoryItem_new (d : ItemDefClass) : ULyraAbilityCost_InventoryItem :=
  {| Quantity := 1; ItemDefinition := d; FailureTag := TAG_ABILITY_FAIL_ITEMCOST |}.

(** What the calls read from the ability and its actor: whether the
    controller exists and has an inventory component, the ability
    level, and the actor's network authority. *)
Record FAbilityActorInfo := {
  ControllerHasInventory : bool;
  AbilityLevel : Z;
  IsNetAuthority : bool;
}.

(** GetQuantityAtLevel, lines 63-66: an [int32] product. *)
Definition GetQuantityAtLevel (c : ULyraAbilityCost_InventoryItem) (Level : Z) : Z :=
  wrap32 (Quantity c * Level).

(** [FMath::TruncToInt((float)GetQuantityAtLevel(AbilityLevel))]. *)
Definition NumItemsToConsume (c : ULyraAbilityCost_InventoryItem) (Level : Z) : Z :=
  TruncToInt (float32_of_int (GetQuantityAtLevel c Level)).

Section Cost.
  Context {QB : Type}.

(** CheckCost, lines 20-42: the answer, and the tags added to
    [OptionalRelevantTags] when the caller passed a container. *)
Definition CheckCost (c : ULyraAbilityCost_InventoryItem) (info : FAbilityActorInfo)
    (inv : @InvState QB) (OptionalRelevantTags : option (list GameplayTag))
  : bool * option (list GameplayTag) :=
  if ControllerHasInventory info then
    let N := NumItemsToConsume c (AbilityLevel info) in
    let Stacks := GetTotalItemCountByDefinition (ItemDefinition c) (Entries inv) in
    let bCanApplyCost := Quantity c <=? Stacks in
    let tags :=
      match OptionalRelevantTags with
      | Some l => if negb bCanApplyCost && IsValid (FailureTag c) then Some (l ++ [FailureTag c])
                  else Some l
      | None => None
      end in
    (N <=? Stacks, tags)
  else (false, OptionalRelevantTags).

(** ApplyCost, lines 44-61: the result of RemoveItemDefinition is
    ignored. *)
Definition ApplyCost (c : ULyraAbilityCost_InventoryItem) (info : FAbilityActorInfo)
  : ST (@InvState QB) unit :=
  if IsNetAuthority info && ControllerHasInventory info then
    RemoveItemDefinition (ItemDefinition c) (NumItemsToConsume c (AbilityLevel info)) ;;; st_ret tt
  else st_ret tt.

End Cost.

(** ** Theorems *)

(** The item count is exact for small costs: when [Quantity *
    AbilityLevel] has magnitude below 2^24, the [int32] product does not
    wrap and the round trip through [float] is exact, so the cost
    consumes exactly [Quantity * AbilityLevel] items. *)
Theorem NumItemsToConsume_exact c Level :
  Z.abs (Quantity c * Level) < 2 ^ 24 -> NumItemsToConsume c Level = Quantity c * Level.
Proof.
  intros Hq. unfold NumItemsToConsume, GetQuantityAtLevel.
  rewrite wrap32_id by lia. rewrite float32_of_int_small by lia. apply TruncToInt_id. lia.
Qed.

Lemma stacks_le_total d (l : list FLyraInventoryEntry) :
  Forall (fun e => 1 <= entry_count e) l ->
  GetTotalItemCountByDefinition d l <= item_total d l.
Proof.
  rewrite Forall_forall. intros Hc. apply sumZ_le. intros e He. specialize (Hc e He).
  case_decide; lia.
Qed.

(** A cost whose [int32] product is not positive consumes no item:
    the [float] rounding keeps the sign and [TruncToInt] maps a
    non-positive value to a non-positive one. *)
Lemma NumItemsToConsume_nonpos c Level :
  GetQuantityAtLevel c Level <= 0 -> NumItemsToConsume c Level <= 0.
Proof.
  unfold NumItemsToConsume. generalize (GetQuantityAtLevel c Level). intros n Hn.
  assert (Hf : float32_of_int n <= 0).
  { unfold float32_of_int. cbv zeta. destruct (Z.abs n <? 2 ^ 24); [lia|].
    assert (He : 0 <= 2 ^ (Z.log2 (Z.abs n) - 23)) by (apply Z.pow_nonneg; lia).
    assert (Hq : 0 <= Z.abs n / 2 ^ (Z.log2 (Z.abs n) - 23)) by (apply Z_div_nonneg_nonneg; lia).
    destruct (_ || _); destruct (Z.sgn_spec n) as [[? ->]|[[? ->]|[? ->]]]; nia. }
  unfold TruncToInt. destruct (_ && _); lia.
Qed.

Lemma GetTotalItemCountByDefinition_nonneg d l : 0 <= GetTotalItemCountByDefinition d l.
Proof. apply sumZ_nonneg. intros e _. case_decide; lia. Qed.

Section Pays.
  Context {QB : Type} `{SlotService QB}.

(** C23: CheckCost is sound for ApplyCost when no stack is empty: if the
    inventory holds no zero-count entry, the held count fits the [int32]
    of GetTotalItemCount, the cost is small (no overflow, exact in
    [float]) and CheckCost accepts, then ApplyCost on the authority
    removes exactly [Quantity * AbilityLevel] items of the definition. *)
Theorem CheckCost_then_ApplyCost_pays c info (s : @InvState QB) tags :
  inv s -> Forall (fun e => 1 <= entry_count e) (Entries s) ->
  item_total (ItemDefinition c) (Entries s) < 2 ^ 31 ->
  ControllerHasInventory info = true -> IsNetAuthority info = true ->
  0 <= Quantity c * AbilityLevel info < 2 ^ 24 ->
  fst (CheckCost c info s tags) = true ->
  exists s', ApplyCost c info s = Ok (tt, s') /\
    item_total (ItemDefinition c) (Entries s') =
    item_total (ItemDefinition c) (Entries s) - Quantity c * AbilityLevel info.
Proof.
  intros Hinv Hpos Hmax Hc Ha Hq Hcheck.
  assert (HN : NumItemsToConsume c (AbilityLevel info) = Quantity c * AbilityLevel info)
    by (apply NumItemsToConsume_exact; lia).
  unfold CheckCost in Hcheck. rewrite Hc, HN in Hcheck. cbn in Hcheck. apply Z.leb_le in Hcheck.
  pose proof (stacks_le_total (ItemDefinition c) _ Hpos).
  unfold ApplyCost. rewrite Ha, Hc, HN. cbn [andb].
  destruct (RemoveItemDefinition_run (fun _ => Potion) (ItemDefinition c)
              (Quantity c * AbilityLevel info) s Hinv Hmax ltac:(lia)) as (s' & Hs' & Ht & _).
  exists s'. rewrite (st_bind_ok _ _ _ _ _ Hs'). split; [reflexivity|exact Ht].
Qed.

(** C39: [int32] overflow makes a cost free: a positive cost
    [Quantity * AbilityLevel] whose [int32] product wraps to zero or
    less is accepted by CheckCost on every inventory, and ApplyCost pays
    it by changing nothing. *)
Theorem overflowing_cost_is_free c info (s : @InvState QB) tags :
  ControllerHasInventory info = true ->
  GetQuantityAtLevel c (AbilityLevel info) <= 0 < Quantity c * AbilityLevel info ->
  fst (CheckCost c info s tags) = true /\ ApplyCost c info s = Ok (tt, s).
Proof.
  intros Hc Hq. pose proof (NumItemsToConsume_nonpos c (AbilityLevel info) (proj1 Hq)).
  split.
  - unfold CheckCost. rewrite Hc. cbn. apply Z.leb_le.
    pose proof (GetTotalItemCountByDefinition_nonneg (ItemDefinition c) (Entries s)). lia.
  - unfold ApplyCost. destruct (IsNetAuthority info && ControllerHasInventory info); [|done].
    destruct (RemoveItemDefinition_nonpos (ItemDefinition c) _ s ltac:(eassumption)) as (b & Hb).
    by rewrite (st_bind_ok _ _ _ _ _ Hb).
Qed.

End Pays.

(** ** Runs on the inventories of [InventoryExamples] *)

(** One stack of 3 potions. *)
Definition s_one_stack : State := after (AddItemDefinition cat_ex (Some PotionClass) 3 s_empty) s_empty.

(** Seven potions picked up (stacks 3, 3, 1), then 3 and 3 removed:
    the entries left hold 0 and 1 potions. *)
Definition s_seven : State := after (AddItemDefinition cat_ex (Some PotionClass) 7 s_empty) s_empty.
Definition s_drained : State :=
  let s1 := after (RemoveItemDefinition PotionClass 3 s_seven) s_seven in
  after (RemoveItemDefinition PotionClass 3 s1) s1.

Definition potion_cost (q : Z) : ULyraAbilityCost_InventoryItem :=
  {| Quantity := q; ItemDefinition := PotionClass; FailureTag := TAG_ABILITY_FAIL_ITEMCOST |}.

Definition server_info (Level : Z) : FAbilityActorInfo :=
  {| ControllerHasInventory := true; AbilityLevel := Level; IsNetAuthority := true |}.

(** CheckCost counts stacks, not items: with one stack of 3 potions
    a cost of 2 potions is refused (and the failure tag reported)
    although 3 potions are held. *)
Example CheckCost_refuses_payable_cost :
  item_total PotionClass (Entries s_one_stack) = 3 /\
  CheckCost (potion_cost 2) (server_info 1) s_one_stack (Some []) =
    (false, Some [TAG_ABILITY_FAIL_ITEMCOST]).
Proof. split; vm_compute; reflexivity. Qed.

(** With the zero-count entry RemoveItemDefinition leaves behind
    (entries of 0 and 1 potions), CheckCost accepts a cost of 2 potions
    but ApplyCost removes nothing, its RemoveItemDefinition failing
    silently: the ability is activated without paying. *)
Example CheckCost_accepts_unpayable_cost :
  map entry_count (Entries s_drained) = [0; 1] /\
  fst (CheckCost (potion_cost 2) (server_info 1) s_drained (Some [])) = true /\
  ApplyCost (potion_cost 2) (server_info 1) s_drained = Ok (tt, s_drained).
Proof. split_and!; vm_compute; reflexivity. Qed.

(** The conversion to [float] rounds above 2^24: a cost of
    16777217 items consumes 16777216. *)
Example float_rounding_of_large_cost :
  NumItemsToConsume (potion_cost 16777217) 1 = 16777216.
Proof. vm_compute. reflexivity. Qed.

Lemma NumItemsToConsume_exact_witness :
  Z.abs (Quantity (potion_cost 3) * 5) < 2 ^ 24 /\ NumItemsToConsume (potion_cost 3) 5 = 15.
Proof.
  assert (Hq : Z.abs (Quantity (potion_cost 3) * 5) < 2 ^ 24) by (vm_compute; reflexivity).
  split; [exact Hq|]. exact (NumItemsToConsume_exact (potion_cost 3) 5 Hq).
Defined.

Lemma CheckCost_then_ApplyCost_pays_witness :
  item_total PotionClass (Entries s_potions) < 2 ^ 31 /\
  fst (CheckCost (potion_cost 2) (server_info 1) s_potions None) = true /\
  exists s', ApplyCost (potion_cost 2) (server_info 1) s_potions = Ok (tt, s') /\
    item_total PotionClass (Entries s') = item_total PotionClass (Entries s_potions) - 2.
Proof.
  assert (Hc : fst (CheckCost (potion_cost 2) (server_info 1) s_potions None) = true)
    by (vm_compute; reflexivity).
  assert (Hpos : Forall (fun e => 1 <= entry_count e) (Entries s_potions))
    by (vm_compute; repeat constructor; intro; discriminate).
  assert (Hm : item_total PotionClass (Entries s_potions) < 2 ^ 31) by (vm_compute; reflexivity).
  split; [exact Hm|split; [exact Hc|]].
  exact (CheckCost_then_ApplyCost_pays (potion_cost 2) (server_info 1) s_potions None
           (proj1 inv_s_potions) Hpos Hm eq_refl eq_refl ltac:(cbn; lia) Hc).
Defined.

(** Quantity 65536 at level 32768: the [int32] product wraps to -2^31. *)
Lemma overflowing_cost_is_free_witness :
  GetQuantityAtLevel (potion_cost 65536) 32768 <= 0 < 65536 * 32768 /\
  fst (CheckCost (potion_cost 65536) (server_info 32768) s_empty None) = true /\
  ApplyCost (potion_cost 65536) (server_info 32768) s_empty = Ok (tt, s_empty).
Proof.
  assert (Hq : GetQuantityAtLevel (potion_cost 65536) 32768 <= 0 < 65536 * 32768)
    by (vm_compute; split; [discriminate|reflexivity]).
  split; [exact Hq|].
  exact (overflowing_cost_is_free (potion_cost 65536) (server_info 32768) s_empty None eq_refl Hq).
Defined.

End AbilityCost.
