(* ===== verification/ManaSet.v ===== *)
(** * ULyraManaSet: the mana attribute set and its clamp-and-notify hooks

    Models src/LyraGame/AbilitySystem/Attributes/LyraManaSet.cpp: the four
    attributes (Mana, MaxMana and the meta attributes Healing and
    Damage), the flag [bOutOfMana] and the two values saved before an
    effect executes; the clamp [ClampAttribute] and the hooks the
    ability system calls ([PreAttributeBaseChange],
    [PreAttributeChange], [PostAttributeChange],
    [Pre/PostGameplayEffectExecute]) and the client's [OnRep_Mana] and
    [OnRep_MaxMana].

    The [float]s of the source are rationals [Q]: the model has neither
    rounding nor infinities nor NaN.  Every comparison is written the way
    the source writes it ([X < Min ? Min : ...] for [FMath::Clamp],
    [!=] on floats as [Qeq_bool]).

    The ability system's side of an instant gameplay effect (Engine
    plugin GameplayAbilities, not under src/) is modelled from its
    documented order of calls: [PreGameplayEffectExecute], then the
    modifier on the attribute's base value, which runs
    [PreAttributeBaseChange], [PreAttributeChange] and
    [PostAttributeChange], then [PostGameplayEffectExecute].  No
    duration effect is active, so an attribute's current value is its
    base value.  The delegates [OnManaChanged], [OnMaxManaChanged],
    [OnOutOfMana] and the verb message are outputs appended to a log in
    the order they are broadcast. *)

From S2P Require Import Prelude.
From Stdlib Require Import QArith Qminmax Lqa.

Module ManaSet.

Local Open Scope Q_scope.

(** ** Floats and the engine's math *)

Definition Qltb (x y : Q) : bool := negb (Qle_bool y x).

(** FMath::Clamp: [X < Min ? Min : X < Max ? X : Max]. *)
Definition FMath_Clamp (X Min Max : Q) : Q :=
  if Qltb X Min then Min else if Qltb X Max then X else Max.

(** FMath::Max: [A >= B ? A : B]. *)
Definition FMath_Max (A B : Q) : Q := if Qle_bool B A then A else B.

(** ** Tags *)


Definition TAG_Gameplay_Damage_Mana : GameplayTag := "Gameplay.Damage.Mana".
Definition TAG_Gameplay_DamageImmunity_Mana : GameplayTag := "Gameplay.DamageImmunity.Mana".
Definition TAG_Lyra_Damage_Mana_Message : GameplayTag := "Lyra.DamageMana.Message".
(** Tags of LyraGameplayTags and LyraHealthSet (outside src/). *)
Definition TAG_Gameplay_DamageSelfDestruct : GameplayTag := "Gameplay.Damage.SelfDestruct".
Definition TAG_Lyra_Damage_Message : GameplayTag := "Lyra.Damage.Message".
Definition Cheat_GodMode : GameplayTag := "Cheat.GodMode".
Definition Cheat_UnlimitedMana : GameplayTag := "Cheat.UnlimitedMana".

(** [HasTagExact]: the container holds the tag itself. *)
Definition HasTagExact (Tags : list GameplayTag) (t : GameplayTag) : bool :=
  bool_decide (t ∈ Tags).

(** [HasMatchingGameplayTag]: the owner holds the tag or one of its
    children ("A.B" matches a held "A.B.C"). *)
Definition MatchesTag (held t : GameplayTag) : bool :=
  bool_decide (held = t) || String.prefix (t +:+ ".") held.
Definition HasMatchingGameplayTag (Tags : list GameplayTag) (t : GameplayTag) : bool :=
  existsb (fun held => MatchesTag held t) Tags.

(** ** The attribute set *)

Inductive FGameplayAttribute := ManaAttr | MaxManaAttr | HealingAttr | DamageAttr.

#[export] Instance FGameplayAttribute_eq_dec : EqDecision FGameplayAttribute.
Proof. solve_decision. Defined.

Inductive EGameplayModOp := Additive | Multiplicitive | Division | Override.

Record ULyraManaSet := {
  Mana : Q;
  MaxMana : Q;
  Healing : Q;
  Damage : Q;
  bOutOfMana : bool;
  MaxManaBeforeAttributeChange : Q;
  ManaBeforeAttributeChange : Q;
}.

(** The constructor, lines 20-27 (the meta attributes start at 0). *)
Definition ULyraManaSet_new : ULyraManaSet :=
  {| Mana := 100; MaxMana := 100; Healing := 0; Damage := 0; bOutOfMana := false;
     MaxManaBeforeAttributeChange := 0; ManaBeforeAttributeChange := 0 |}.

(** [FGameplayAttribute::GetNumericValue] and the base-value write. *)
Definition get_attr (a : FGameplayAttribute) (s : ULyraManaSet) : Q :=
  match a with
  | ManaAttr => Mana s | MaxManaAttr => MaxMana s
  | HealingAttr => Healing s | DamageAttr => Damage s
  end.

Definition set_attr (a : FGameplayAttribute) (v : Q) (s : ULyraManaSet) : ULyraManaSet :=
  {| Mana := match a with ManaAttr => v | _ => Mana s end;
     MaxMana := match a with MaxManaAttr => v | _ => MaxMana s end;
     Healing := match a with HealingAttr => v | _ => Healing s end;
     Damage := match a with DamageAttr => v | _ => Damage s end;
     bOutOfMana := bOutOfMana s;
     MaxManaBeforeAttributeChange := MaxManaBeforeAttributeChange s;
     ManaBeforeAttributeChange := ManaBeforeAttributeChange s |}.

Definition set_out_of_mana (b : bool) (s : ULyraManaSet) : ULyraManaSet :=
  {| Mana := Mana s; MaxMana := MaxMana s; Healing := Healing s; Damage := Damage s;
     bOutOfMana := b;
     MaxManaBeforeAttributeChange := MaxManaBeforeAttributeChange s;
     ManaBeforeAttributeChange := ManaBeforeAttributeChange s |}.

Definition save_before (s : ULyraManaSet) : ULyraManaSet :=
  {| Mana := Mana s; MaxMana := MaxMana s; Healing := Healing s; Damage := Damage s;
     bOutOfMana := bOutOfMana s;
     MaxManaBeforeAttributeChange := MaxMana s;
     ManaBeforeAttributeChange := Mana s |}.

(** ClampAttribute, lines 220-232. *)
Definition ClampAttribute (a : FGameplayAttribute) (NewValue : Q) (s : ULyraManaSet) : Q :=
  match a with
  | ManaAttr => FMath_Clamp NewValue 0 (MaxMana s)
  | MaxManaAttr => FMath_Max NewValue 1
  | _ => NewValue
  end.

(** PreAttributeBaseChange and PreAttributeChange, lines 184-196: the
    parent class's hooks do nothing. *)
Definition PreAttributeBaseChange (a : FGameplayAttribute) (NewValue : Q) (s : ULyraManaSet) : Q :=
  ClampAttribute a NewValue s.
Definition PreAttributeChange (a : FGameplayAttribute) (NewValue : Q) (s : ULyraManaSet) : Q :=
  ClampAttribute a NewValue s.

(** ** Outputs: the delegates and the verb message *)

Inductive AttributeEventKind := OnManaChanged | OnMaxManaChanged | OnOutOfMana.

#[export] Instance AttributeEventKind_eq_dec : EqDecision AttributeEventKind.
Proof. solve_decision. Defined.

(** The arguments of an [FLyraAttributeEvent] broadcast: instigator,
    causer, whether an effect spec is passed, magnitude, old and new
    value.  Actors are object identities. *)
Record FLyraAttributeEvent := {
  EvKind : AttributeEventKind;
  EvInstigator : option nat;
  EvCauser : option nat;
  EvHasSpec : bool;
  EvMagnitude : Q;
  EvOldValue : Q;
  EvNewValue : Q;
}.

Record FLyraVerbMessage := {
  Verb : GameplayTag;
  MsgInstigator : option nat;
  MsgTarget : nat;
  MsgMagnitude : Q;
}.

Inductive ManaOutput :=
  | AttrEvent (e : FLyraAttributeEvent)
  | VerbMessage (m : FLyraVerbMessage).

Definition is_out_of_mana (o : ManaOutput) : bool :=
  match o with
  | AttrEvent e => match EvKind e with OnOutOfMana => true | _ => false end
  | VerbMessage _ => false
  end.

(** What one application of a modifier tells the hooks:
    [FGameplayEffectModCallbackData]. *)
Record FGameplayEffectModCallbackData := {
  EvaluatedAttribute : FGameplayAttribute;
  ModifierOp : EGameplayModOp;
  Magnitude : Q;
  DynamicAssetTags : list GameplayTag;
  TargetTags : list GameplayTag;
  OriginalInstigator : option nat;
  EffectCauser : option nat;
}.

(** The set, the owner's ability system and the output log. *)
Record ManaWorld := {
  MSet : ULyraManaSet;
  HasASC : bool;
  OwningActor : nat;
  Outputs : list ManaOutput;
}.

Definition with_set (f : ULyraManaSet -> ULyraManaSet) (w : ManaWorld) : ManaWorld :=
  {| MSet := f (MSet w); HasASC := HasASC w; OwningActor := OwningActor w; Outputs := Outputs w |}.

Definition emit (o : ManaOutput) : ST ManaWorld unit :=
  st_modify (fun w => {| MSet := MSet w; HasASC := HasASC w; OwningActor := OwningActor w;
                         Outputs := Outputs w ++ [o] |}).

Definition emit_event (k : AttributeEventKind) (inst causer : option nat) (spec : bool)
    (mag old new : Q) : ST ManaWorld unit :=
  emit (AttrEvent {| EvKind := k; EvInstigator := inst; EvCauser := causer; EvHasSpec := spec;
                     EvMagnitude := mag; EvOldValue := old; EvNewValue := new |}).

(** ** The engine's writes to an attribute

    [FAggregator::StaticExecModOnBaseValue]: a division by (nearly) zero
    leaves the value unchanged; the model tests exact zero. *)
Definition StaticExecModOnBaseValue (Base : Q) (op : EGameplayModOp) (Mag : Q) : Q :=
  match op with
  | Additive => Base + Mag
  | Multiplicitive => Base * Mag
  | Division => if Qeq_bool Mag 0 then Base else Base / Mag
  | Override => Mag
  end.

(** [FActiveGameplayEffectsContainer::SetAttributeBaseValue] with no
    aggregator: [PreAttributeBaseChange] on the new base value, then the
    current value is written through [PreAttributeChange] and followed
    by [PostAttributeChange(Attribute, OldValue, NewValue)].  The post
    hook is a parameter: it is the set's own [PostAttributeChange], which
    itself writes through this function. *)
Definition SetAttributeBaseValue (post : FGameplayAttribute -> Q -> Q -> ST ManaWorld unit)
    (a : FGameplayAttribute) (NewBase : Q) : ST ManaWorld unit :=
  w <- st_get ;;
  let s := MSet w in
  let Base := PreAttributeBaseChange a NewBase s in
  let OldValue := get_attr a s in
  let NewValue := PreAttributeChange a Base s in
  st_put (with_set (set_attr a NewValue) w) ;;;
  post a OldValue NewValue.

(** [ApplyModToAttribute(Attribute, Op, Magnitude)]. *)
Definition ApplyModToAttribute (post : FGameplayAttribute -> Q -> Q -> ST ManaWorld unit)
    (a : FGameplayAttribute) (op : EGameplayModOp) (Mag : Q) : ST ManaWorld unit :=
  w <- st_get ;;
  SetAttributeBaseValue post a (StaticExecModOnBaseValue (get_attr a (MSet w)) op Mag).

(** PostAttributeChange, lines 198-218.  Lowering MaxMana below Mana
    overrides Mana through the ability system, which calls this hook
    again for Mana; that inner call does not recurse, so a depth of 2
    is enough (theorem [ExecuteMod_spec]: the pipeline never fails). *)
Fixpoint PostAttributeChange_aux (depth : nat) (a : FGameplayAttribute) (OldValue NewValue : Q)
  : ST ManaWorld unit :=
  match depth with
  | O => st_fail OutOfFuel
  | S depth' =>
      (if decide (a = MaxManaAttr) then
         w <- st_get ;;
         if Qltb NewValue (Mana (MSet w)) then
           st_check (HasASC w) "LyraASC" ;;;
           ApplyModToAttribute (PostAttributeChange_aux depth') ManaAttr Override NewValue
         else st_ret tt
       else st_ret tt) ;;;
      w <- st_get ;;
      if bOutOfMana (MSet w) && Qltb 0 (Mana (MSet w))
      then st_put (with_set (set_out_of_mana false) w)
      else st_ret tt
  end.

Definition PostAttributeChange : FGameplayAttribute -> Q -> Q -> ST ManaWorld unit :=
  PostAttributeChange_aux 2.

(** [UAbilitySystemComponent::SetNumericAttributeBase], used by the
    ATTRIBUTE_ACCESSORS setters [SetMana], [SetDamage], [SetHealing]:
    without an ability system the setter's [ensure] fails and nothing is
    written. *)
Definition SetNumericAttributeBase (a : FGameplayAttribute) (v : Q) : ST ManaWorld unit :=
  w <- st_get ;;
  if HasASC w then SetAttributeBaseValue PostAttributeChange a v else st_ret tt.

Section Hooks.
  (** [UE_BUILD_SHIPPING]: the cheat tags are tested only when false. *)
  Variable UE_BUILD_SHIPPING : bool.

(** PreGameplayEffectExecute, lines 67-105.  [false] aborts the effect's
    modifier; the write of 0 into the data's magnitude is not observed
    after that. *)
Definition PreGameplayEffectExecute (Data : FGameplayEffectModCallbackData) : ST ManaWorld bool :=
  let bIsDamageFromSelfDestruct := HasTagExact (DynamicAssetTags Data) TAG_Gameplay_DamageSelfDestruct in
  if bool_decide (EvaluatedAttribute Data = DamageAttr) && Qltb 0 (Magnitude Data) &&
     HasMatchingGameplayTag (TargetTags Data) TAG_Gameplay_DamageImmunity_Mana &&
     negb bIsDamageFromSelfDestruct
  then st_ret false
  else if bool_decide (EvaluatedAttribute Data = DamageAttr) && Qltb 0 (Magnitude Data) &&
          negb UE_BUILD_SHIPPING &&
          HasMatchingGameplayTag (TargetTags Data) Cheat_GodMode && negb bIsDamageFromSelfDestruct
  then st_ret false
  else st_modify (with_set save_before) ;;; st_ret true.

(** The floor of Mana in PostGameplayEffectExecute, lines 111-121. *)
Definition MinimumMana (Data : FGameplayEffectModCallbackData) : Q :=
  if negb UE_BUILD_SHIPPING &&
     negb (HasTagExact (DynamicAssetTags Data) TAG_Gameplay_DamageSelfDestruct) &&
     (HasMatchingGameplayTag (TargetTags Data) Cheat_GodMode ||
      HasMatchingGameplayTag (TargetTags Data) Cheat_UnlimitedMana)
  then 1 else 0.

(** PostGameplayEffectExecute, lines 107-182. *)
Definition PostGameplayEffectExecute (Data : FGameplayEffectModCallbackData) : ST ManaWorld unit :=
  let Min := MinimumMana Data in
  let Instigator := OriginalInstigator Data in
  let Causer := EffectCauser Data in
  (match EvaluatedAttribute Data with
   | DamageAttr =>
       (if Qltb 0 (Magnitude Data) then
          w <- st_get ;;
          emit (VerbMessage {| Verb := TAG_Lyra_Damage_Message; MsgInstigator := Causer;
                               MsgTarget := OwningActor w; MsgMagnitude := Magnitude Data |})
        else st_ret tt) ;;;
       w <- st_get ;;
       SetNumericAttributeBase ManaAttr
         (FMath_Clamp (Mana (MSet w) - Damage (MSet w)) Min (MaxMana (MSet w))) ;;;
       SetNumericAttributeBase DamageAttr 0
   | HealingAttr =>
       w <- st_get ;;
       SetNumericAttributeBase ManaAttr
         (FMath_Clamp (Mana (MSet w) + Healing (MSet w)) Min (MaxMana (MSet w))) ;;;
       SetNumericAttributeBase HealingAttr 0
   | ManaAttr =>
       w <- st_get ;;
       SetNumericAttributeBase ManaAttr (FMath_Clamp (Mana (MSet w)) Min (MaxMana (MSet w)))
   | MaxManaAttr =>
       w <- st_get ;;
       emit_event OnMaxManaChanged Instigator Causer true (Magnitude Data)
         (MaxManaBeforeAttributeChange (MSet w)) (MaxMana (MSet w))
   end) ;;;
  w <- st_get ;;
  (if negb (Qeq_bool (Mana (MSet w)) (ManaBeforeAttributeChange (MSet w))) then
     emit_event OnManaChanged Instigator Causer true (Magnitude Data)
       (ManaBeforeAttributeChange (MSet w)) (Mana (MSet w))
   else st_ret tt) ;;;
  w <- st_get ;;
  (if Qle_bool (Mana (MSet w)) 0 && negb (bOutOfMana (MSet w)) then
     emit_event OnOutOfMana Instigator Causer true (Magnitude Data)
       (ManaBeforeAttributeChange (MSet w)) (Mana (MSet w))
   else st_ret tt) ;;;
  st_modify (fun w => with_set (set_out_of_mana (Qle_bool (Mana (MSet w)) 0)) w).

(** The ability system executing one modifier of an instant effect
    ([FActiveGameplayEffectsContainer::InternalExecuteMod]). *)
Definition ExecuteMod (Data : FGameplayEffectModCallbackData) : ST ManaWorld unit :=
  ok <- PreGameplayEffectExecute Data ;;
  if ok then
    ApplyModToAttribute PostAttributeChange (EvaluatedAttribute Data) (ModifierOp Data) (Magnitude Data) ;;;
    PostGameplayEffectExecute Data
  else st_ret tt.

End Hooks.

(** ** Replication on a client *)

(** OnRep_Mana, lines 37-56: no instigator and no effect spec. *)
Definition OnRep_Mana (OldValue : Q) : ST ManaWorld unit :=
  w <- st_get ;;
  let CurrentMana := Mana (MSet w) in
  let EstimatedMagnitude := CurrentMana - OldValue in
  emit_event OnManaChanged None None false EstimatedMagnitude OldValue CurrentMana ;;;
  (if negb (bOutOfMana (MSet w)) && Qle_bool CurrentMana 0 then
     emit_event OnOutOfMana None None false EstimatedMagnitude OldValue CurrentMana
   else st_ret tt) ;;;
  st_modify (with_set (set_out_of_mana (Qle_bool CurrentMana 0))).

(** OnRep_MaxMana, lines 58-65. *)
Definition OnRep_MaxMana (OldValue : Q) : ST ManaWorld unit :=
  w <- st_get ;;
  emit_event OnMaxManaChanged None None false (MaxMana (MSet w) - OldValue) OldValue (MaxMana (MSet w)).

(** The replication of a new server value of Mana: the engine writes the
    property, then calls the notify with the old value (REPNOTIFY_Always). *)
Definition ReplicateMana (v : Q) : ST ManaWorld unit :=
  w <- st_get ;;
  let Old := Mana (MSet w) in
  st_put (with_set (set_attr ManaAttr v) w) ;;;
  OnRep_Mana Old.

Definition ReplicateMaxMana (v : Q) : ST ManaWorld unit :=
  w <- st_get ;;
  let Old := MaxMana (MSet w) in
  st_put (with_set (set_attr MaxManaAttr v) w) ;;;
  OnRep_MaxMana Old.

(** A client receiving successive server values of Mana, each delivered
    with its notify. *)
Fixpoint ReplicateMana_seq (vs : list Q) : ST ManaWorld unit :=
  match vs with
  | [] => st_ret tt
  | v :: vs' => ReplicateMana v ;;; ReplicateMana_seq vs'
  end.

(** The reference edge counter: how many times a sequence of values
    falls to 0 or below, starting from the flag [out]. *)
Fixpoint falling_edges (out : bool) (vs : list Q) : nat :=
  match vs with
  | [] => 0
  | v :: vs' => (if negb out && Qle_bool v 0 then 1 else 0) + falling_edges (Qle_bool v 0) vs'
  end%nat.

Definition is_mana_changed (o : ManaOutput) : bool :=
  match o with
  | AttrEvent e => match EvKind e with OnManaChanged => true | _ => false end
  | VerbMessage _ => false
  end.

(** ** Comparisons on [Q] as specifications *)

Lemma Qltb_spec x y : BoolSpec (x < y) (y <= x) (Qltb x y).
Proof.
  unfold Qltb. destruct (Qle_bool y x) eqn:E; constructor.
  - now apply Qle_bool_iff.
  - apply Qnot_le_lt. intros Hle. apply Qle_bool_iff in Hle. congruence.
Qed.

Lemma Qle_bool_spec x y : BoolSpec (x <= y) (y < x) (Qle_bool x y).
Proof.
  destruct (Qle_bool x y) eqn:E; constructor.
  - now apply Qle_bool_iff.
  - apply Qnot_le_lt. intros Hle. apply Qle_bool_iff in Hle. congruence.
Qed.

Lemma Qeq_bool_spec x y : BoolSpec (x == y) (~ x == y) (Qeq_bool x y).
Proof.
  destruct (Qeq_bool x y) eqn:E; constructor.
  - now apply Qeq_bool_iff.
  - intros Heq. apply Qeq_bool_iff in Heq. congruence.
Qed.

(** Split the goal on every float comparison it contains. *)
Ltac qcase :=
  repeat match goal with
  | |- context [Qltb ?x ?y] => destruct (Qltb_spec x y)
  | |- context [Qle_bool ?x ?y] => destruct (Qle_bool_spec x y)
  | |- context [Qeq_bool ?x ?y] => destruct (Qeq_bool_spec x y)
  end.

Lemma FMath_Clamp_bounds X Min Max : Min <= Max -> Min <= FMath_Clamp X Min Max <= Max.
Proof. intros. unfold FMath_Clamp. qcase; lra. Qed.

Lemma FMath_Clamp_spec X Min Max : Min <= Max ->
  FMath_Clamp X Min Max == Qmax Min (Qmin X Max).
Proof.
  intros. unfold FMath_Clamp.
  qcase; repeat first [rewrite Q.min_l by lra | rewrite Q.min_r by lra
                      | rewrite Q.max_l by lra | rewrite Q.max_r by lra]; lra.
Qed.

Lemma FMath_Clamp_cases X Min Max :
  (X < Min /\ FMath_Clamp X Min Max = Min) \/
  (Min <= X < Max /\ FMath_Clamp X Min Max = X) \/
  (Min <= X /\ Max <= X /\ FMath_Clamp X Min Max = Max).
Proof. unfold FMath_Clamp. qcase; auto. Qed.

Lemma FMath_Clamp_idem x M : 0 < M -> FMath_Clamp (FMath_Clamp x 0 M) 0 M = FMath_Clamp x 0 M.
Proof.
  intros. destruct (FMath_Clamp_cases x 0 M) as [[? ->]|[[[? ?] ->]|[? [? ->]]]];
    unfold FMath_Clamp; qcase; first [done | lra].
Qed.

Lemma FMath_Max_cases A B : (B <= A /\ FMath_Max A B = A) \/ (A < B /\ FMath_Max A B = B).
Proof. unfold FMath_Max. qcase; auto. Qed.

(** Replace each clamp by one of its three outcomes, each [Max] by one of
    its two, then split on the remaining comparisons and close by linear
    arithmetic. *)
Ltac clamp_case x lo hi :=
  let Hc := fresh "Hc" in
  destruct (FMath_Clamp_cases x lo hi) as [[? Hc]|[[[? ?] Hc]|[? [? Hc]]]]; rewrite Hc in *; clear Hc.
Ltac max_case x y :=
  let Hc := fresh "Hc" in
  destruct (FMath_Max_cases x y) as [[? Hc]|[? Hc]]; rewrite Hc in *; clear Hc.
Ltac clamp_cases :=
  repeat match goal with
  | |- context [FMath_Clamp ?x ?lo ?hi] => clamp_case x lo hi
  | H : context [FMath_Clamp ?x ?lo ?hi] |- _ => clamp_case x lo hi
  | |- context [FMath_Max ?x ?y] => max_case x y
  | H : context [FMath_Max ?x ?y] |- _ => max_case x y
  end.

Ltac q_solve := repeat rewrite FMath_Clamp_idem by lra; clamp_cases; qcase; first [reflexivity | lra | exfalso; lra | done].

(** ** The effect of one attribute write, as a function of the set *)

(** The part of PostAttributeChange that every attribute runs. *)
Definition post_tail (s : ULyraManaSet) : ULyraManaSet :=
  if bOutOfMana s && Qltb 0 (Mana s) then set_out_of_mana false s else s.

(** The value stored by a write: both clamp hooks, on the same set. *)
Definition clamped (a : FGameplayAttribute) (v : Q) (s : ULyraManaSet) : Q :=
  PreAttributeChange a (PreAttributeBaseChange a v s) s.

Definition write_plain (a : FGameplayAttribute) (v : Q) (s : ULyraManaSet) : ULyraManaSet :=
  post_tail (set_attr a (clamped a v s) s).

(** A write through the ability system, the override of Mana by a lower
    MaxMana included. *)
Definition write (a : FGameplayAttribute) (v : Q) (s : ULyraManaSet) : ULyraManaSet :=
  match a with
  | MaxManaAttr =>
      let nv := clamped MaxManaAttr v s in
      let s1 := set_attr MaxManaAttr nv s in
      post_tail (if Qltb nv (Mana s1) then write_plain ManaAttr nv s1 else s1)
  | _ => write_plain a v s
  end.

Create Rewrite HintDb mana_rw.

Lemma PostAttributeChange_aux_S d a o n :
  PostAttributeChange_aux (S d) a o n =
  ((if decide (a = MaxManaAttr) then
      w <- st_get ;;
      if Qltb n (Mana (MSet w)) then
        st_check (HasASC w) "LyraASC" ;;;
        ApplyModToAttribute (PostAttributeChange_aux d) ManaAttr Override n
      else st_ret tt
    else st_ret tt) ;;;
   w <- st_get ;;
   if bOutOfMana (MSet w) && Qltb 0 (Mana (MSet w))
   then st_put (with_set (set_out_of_mana false) w)
   else st_ret tt).
Proof. reflexivity. Qed.

Lemma PostAttributeChange_other d a o n w :
  a <> MaxManaAttr -> PostAttributeChange_aux (S d) a o n w = Ok (tt, with_set post_tail w).
Proof.
  intros Ha. cbn [PostAttributeChange_aux]. rewrite decide_False by done. st_simpl.
  unfold with_set, post_tail. cbv beta. destruct (_ && _); [done|by destruct w].
Qed.

Lemma SetAttributeBaseValue_other d a v w :
  a <> MaxManaAttr ->
  SetAttributeBaseValue (PostAttributeChange_aux (S d)) a v w = Ok (tt, with_set (write_plain a v) w).
Proof.
  intros Ha. unfold SetAttributeBaseValue. st_simpl.
  rewrite (PostAttributeChange_other d) by done. reflexivity.
Qed.

Lemma SetAttributeBaseValue_write a v w :
  HasASC w = true ->
  SetAttributeBaseValue PostAttributeChange a v w = Ok (tt, with_set (write a v) w).
Proof.
  intros HASC. destruct (decide (a = MaxManaAttr)) as [->|Ha].
  - destruct w as [s asc own outs]; cbn in HASC; subst asc.
    unfold SetAttributeBaseValue, PostAttributeChange. st_simpl.
    rewrite PostAttributeChange_aux_S, decide_True by done. st_simpl.
    unfold write, clamped, with_set; cbn [MSet HasASC OwningActor Outputs].
    set (nv := PreAttributeChange MaxManaAttr (PreAttributeBaseChange MaxManaAttr v s) s).
    change (Mana (set_attr MaxManaAttr nv s)) with (Mana s).
    destruct (Qltb nv (Mana s)).
    + unfold st_check, ApplyModToAttribute. cbv beta iota. st_simpl.
      erewrite st_bind_ok; [|apply (SetAttributeBaseValue_other 0); done].
      st_simpl. cbn [MSet with_set StaticExecModOnBaseValue get_attr].
      unfold post_tail at 1. destruct (bOutOfMana _ && Qltb 0 (Mana _)); reflexivity.
    + st_simpl. cbn [MSet]. unfold post_tail.
      destruct (bOutOfMana _ && Qltb 0 (Mana _)); reflexivity.
  - unfold write. rewrite (SetAttributeBaseValue_other 1) by done.
    destruct a; done.
Qed.

Lemma st_bind_SetNumericAttributeBase {B} a v (k : unit -> ST ManaWorld B) w :
  HasASC w = true ->
  st_bind (SetNumericAttributeBase a v) k w = k tt (with_set (write a v) w).
Proof.
  intros HASC. unfold SetNumericAttributeBase. st_simpl. rewrite HASC.
  now rewrite (st_bind_ok _ _ _ _ _ (SetAttributeBaseValue_write a v w HASC)).
Qed.

Lemma st_bind_SetAttributeBaseValue {B} a v (k : unit -> ST ManaWorld B) w :
  HasASC w = true ->
  st_bind (SetAttributeBaseValue PostAttributeChange a v) k w = k tt (with_set (write a v) w).
Proof. intros HASC. now rewrite (st_bind_ok _ _ _ _ _ (SetAttributeBaseValue_write a v w HASC)). Qed.

(** Run a computation of the set symbolically: every write goes through
    [write], every broadcast is appended to the log. *)
Ltac mana_run :=
  repeat first
    [ progress st_simpl
    | rewrite st_bind_SetNumericAttributeBase by (cbn [HasASC with_set]; assumption)
    | rewrite st_bind_SetAttributeBaseValue by (cbn [HasASC with_set]; assumption)
    | progress unfold emit_event, emit, ApplyModToAttribute ].

Ltac mana_branch :=
  repeat (mana_run; cbn [MSet Outputs OwningActor HasASC with_set];
          try match goal with |- context [st_bind (if ?c then _ else _) _ _] => destruct c end).

(** ** What a write changes *)

Lemma post_tail_fields s :
  Mana (post_tail s) = Mana s /\ MaxMana (post_tail s) = MaxMana s /\
  Healing (post_tail s) = Healing s /\ Damage (post_tail s) = Damage s /\
  ManaBeforeAttributeChange (post_tail s) = ManaBeforeAttributeChange s /\
  MaxManaBeforeAttributeChange (post_tail s) = MaxManaBeforeAttributeChange s /\
  bOutOfMana (post_tail s) = bOutOfMana s && negb (Qltb 0 (Mana s)).
Proof. unfold post_tail. destruct (bOutOfMana s) eqn:E, (Qltb 0 (Mana s)); cbn; rewrite ?E; repeat split. Qed.

Lemma Mana_post_tail s : Mana (post_tail s) = Mana s.
Proof. apply post_tail_fields. Qed.
Lemma MaxMana_post_tail s : MaxMana (post_tail s) = MaxMana s.
Proof. apply post_tail_fields. Qed.
Lemma Healing_post_tail s : Healing (post_tail s) = Healing s.
Proof. apply post_tail_fields. Qed.
Lemma Damage_post_tail s : Damage (post_tail s) = Damage s.
Proof. apply post_tail_fields. Qed.
Lemma ManaBefore_post_tail s : ManaBeforeAttributeChange (post_tail s) = ManaBeforeAttributeChange s.
Proof. apply post_tail_fields. Qed.
Lemma MaxManaBefore_post_tail s :
  MaxManaBeforeAttributeChange (post_tail s) = MaxManaBeforeAttributeChange s.
Proof. apply post_tail_fields. Qed.
Lemma bOutOfMana_post_tail s : bOutOfMana (post_tail s) = bOutOfMana s && negb (Qltb 0 (Mana s)).
Proof. apply post_tail_fields. Qed.

#[export] Hint Rewrite Mana_post_tail MaxMana_post_tail Healing_post_tail Damage_post_tail
  ManaBefore_post_tail MaxManaBefore_post_tail : mana_rw.

(** Bounds of the stored attributes: [0 <= Mana <= MaxMana] and [1 <= MaxMana]. *)
Definition mana_bounds (s : ULyraManaSet) : Prop := 0 <= Mana s <= MaxMana s /\ 1 <= MaxMana s.

(** The new values of a write: the clamp applied twice, with the
    override of Mana when MaxMana falls below it. *)
Lemma write_values a v s :
  Mana (write a v s) =
    match a with
    | ManaAttr => clamped ManaAttr v s
    | MaxManaAttr => if Qltb (clamped MaxManaAttr v s) (Mana s)
                     then FMath_Clamp (FMath_Clamp (clamped MaxManaAttr v s) 0 (clamped MaxManaAttr v s))
                            0 (clamped MaxManaAttr v s)
                     else Mana s
    | _ => Mana s
    end /\
  MaxMana (write a v s) = match a with MaxManaAttr => clamped MaxManaAttr v s | _ => MaxMana s end /\
  Healing (write a v s) = match a with HealingAttr => v | _ => Healing s end /\
  Damage (write a v s) = match a with DamageAttr => v | _ => Damage s end /\
  ManaBeforeAttributeChange (write a v s) = ManaBeforeAttributeChange s /\
  MaxManaBeforeAttributeChange (write a v s) = MaxManaBeforeAttributeChange s.
Proof.
  destruct a; unfold write, write_plain; autorewrite with mana_rw; cbn; try (repeat split; fail).
  destruct (Qltb _ (Mana s)); autorewrite with mana_rw; cbn; repeat split.
Qed.

Lemma Mana_write a v s : Mana (write a v s) =
    match a with
    | ManaAttr => clamped ManaAttr v s
    | MaxManaAttr => if Qltb (clamped MaxManaAttr v s) (Mana s)
                     then FMath_Clamp (FMath_Clamp (clamped MaxManaAttr v s) 0 (clamped MaxManaAttr v s))
                            0 (clamped MaxManaAttr v s)
                     else Mana s
    | _ => Mana s
    end.
Proof. apply write_values. Qed.
Lemma MaxMana_write a v s :
  MaxMana (write a v s) = match a with MaxManaAttr => clamped MaxManaAttr v s | _ => MaxMana s end.
Proof. apply write_values. Qed.
Lemma Healing_write a v s : Healing (write a v s) = match a with HealingAttr => v | _ => Healing s end.
Proof. apply write_values. Qed.
Lemma Damage_write a v s : Damage (write a v s) = match a with DamageAttr => v | _ => Damage s end.
Proof. apply write_values. Qed.
Lemma ManaBefore_write a v s : ManaBeforeAttributeChange (write a v s) = ManaBeforeAttributeChange s.
Proof. apply write_values. Qed.
Lemma MaxManaBefore_write a v s :
  MaxManaBeforeAttributeChange (write a v s) = MaxManaBeforeAttributeChange s.
Proof. apply write_values. Qed.

(** The flag is only ever cleared by a write, and only when Mana ends
    above 0. *)
Lemma bOutOfMana_write a v s :
  bOutOfMana (write a v s) = bOutOfMana s && negb (Qltb 0 (Mana (write a v s))).
Proof.
  destruct a; unfold write, write_plain; rewrite ?bOutOfMana_post_tail; autorewrite with mana_rw;
    cbn; try reflexivity.
  destruct (Qltb _ (Mana s)); rewrite ?bOutOfMana_post_tail; autorewrite with mana_rw; cbn;
    [|reflexivity].
  destruct (bOutOfMana s), (Qltb 0 _); reflexivity.
Qed.

#[export] Hint Rewrite Mana_write MaxMana_write Healing_write Damage_write ManaBefore_write
  MaxManaBefore_write : mana_rw.

Lemma write_bounds a v s : mana_bounds s -> mana_bounds (write a v s).
Proof.
  unfold mana_bounds. intros Hb. destruct (write_values a v s) as (HM & HX & _).
  rewrite HM, HX. unfold clamped, PreAttributeChange, PreAttributeBaseChange, ClampAttribute.
  destruct a; cbn; unfold FMath_Clamp, FMath_Max; qcase; lra.
Qed.

(** The invariant of the set between two effects: the bounds, the meta
    attributes consumed, and the flag telling whether Mana is at 0. *)
Definition mana_inv (s : ULyraManaSet) : Prop :=
  mana_bounds s /\ Healing s == 0 /\ Damage s == 0 /\ bOutOfMana s = Qle_bool (Mana s) 0.

(** ** The whole execution of one modifier as a function of the set *)

(** Express every field of the set after a sequence of writes by the
    clamps of the first one's fields. *)
Ltac mana_fields :=
  repeat (rewrite ?bOutOfMana_write; autorewrite with mana_rw;
          unfold clamped, PreAttributeChange, PreAttributeBaseChange, ClampAttribute;
          cbn -[write write_plain FMath_Clamp FMath_Max Qltb Qle_bool]).

Section Execute.
  Variable UE_BUILD_SHIPPING : bool.

(** When PreGameplayEffectExecute refuses the modifier. *)
Definition Rejected (Data : FGameplayEffectModCallbackData) : bool :=
  let sd := HasTagExact (DynamicAssetTags Data) TAG_Gameplay_DamageSelfDestruct in
  bool_decide (EvaluatedAttribute Data = DamageAttr) && Qltb 0 (Magnitude Data) &&
  ((HasMatchingGameplayTag (TargetTags Data) TAG_Gameplay_DamageImmunity_Mana && negb sd) ||
   (negb UE_BUILD_SHIPPING && HasMatchingGameplayTag (TargetTags Data) Cheat_GodMode && negb sd)).

(** The set after the modifier itself, and after the attribute branch of
    PostGameplayEffectExecute. *)
Definition after_mod (Data : FGameplayEffectModCallbackData) (s : ULyraManaSet) : ULyraManaSet :=
  let s0 := save_before s in
  write (EvaluatedAttribute Data)
    (StaticExecModOnBaseValue (get_attr (EvaluatedAttribute Data) s0) (ModifierOp Data) (Magnitude Data)) s0.

Definition post_branch (Min : Q) (a : FGameplayAttribute) (s : ULyraManaSet) : ULyraManaSet :=
  match a with
  | DamageAttr => write DamageAttr 0 (write ManaAttr (FMath_Clamp (Mana s - Damage s) Min (MaxMana s)) s)
  | HealingAttr => write HealingAttr 0 (write ManaAttr (FMath_Clamp (Mana s + Healing s) Min (MaxMana s)) s)
  | ManaAttr => write ManaAttr (FMath_Clamp (Mana s) Min (MaxMana s)) s
  | MaxManaAttr => s
  end.

Definition after_post (Data : FGameplayEffectModCallbackData) (s : ULyraManaSet) : ULyraManaSet :=
  post_branch (MinimumMana UE_BUILD_SHIPPING Data) (EvaluatedAttribute Data) (after_mod Data s).

Definition attr_event (k : AttributeEventKind) (Data : FGameplayEffectModCallbackData) (old new : Q) :=
  AttrEvent {| EvKind := k; EvInstigator := OriginalInstigator Data; EvCauser := EffectCauser Data;
               EvHasSpec := true; EvMagnitude := Magnitude Data; EvOldValue := old; EvNewValue := new |}.

(** The broadcasts of PostGameplayEffectExecute, in order. *)
Definition post_outputs (Data : FGameplayEffectModCallbackData) (own : nat) (s : ULyraManaSet)
  : list ManaOutput :=
  let s1 := after_mod Data s in
  let s2 := after_post Data s in
  (if bool_decide (EvaluatedAttribute Data = DamageAttr) && Qltb 0 (Magnitude Data) then
     [VerbMessage {| Verb := TAG_Lyra_Damage_Message; MsgInstigator := EffectCauser Data;
                     MsgTarget := own; MsgMagnitude := Magnitude Data |}]
   else []) ++
  (if bool_decide (EvaluatedAttribute Data = MaxManaAttr) then
     [attr_event OnMaxManaChanged Data (MaxManaBeforeAttributeChange s1) (MaxMana s1)]
   else []) ++
  (if negb (Qeq_bool (Mana s2) (ManaBeforeAttributeChange s2)) then
     [attr_event OnManaChanged Data (ManaBeforeAttributeChange s2) (Mana s2)]
   else []) ++
  (if Qle_bool (Mana s2) 0 && negb (bOutOfMana s2) then
     [attr_event OnOutOfMana Data (ManaBeforeAttributeChange s2) (Mana s2)]
   else []).

Definition exec_world (Data : FGameplayEffectModCallbackData) (w : ManaWorld) : ManaWorld :=
  if Rejected Data then w
  else
    let s2 := after_post Data (MSet w) in
    {| MSet := set_out_of_mana (Qle_bool (Mana s2) 0) s2; HasASC := HasASC w;
       OwningActor := OwningActor w;
       Outputs := Outputs w ++ post_outputs Data (OwningActor w) (MSet w) |}.

Lemma PreGameplayEffectExecute_spec Data w :
  PreGameplayEffectExecute UE_BUILD_SHIPPING Data w =
  if Rejected Data then Ok (false, w) else Ok (true, with_set save_before w).
Proof.
  unfold PreGameplayEffectExecute, Rejected.
  destruct (bool_decide _), (Qltb _ _), (HasMatchingGameplayTag _ TAG_Gameplay_DamageImmunity_Mana),
    (HasTagExact _ _), UE_BUILD_SHIPPING, (HasMatchingGameplayTag _ Cheat_GodMode); reflexivity.
Qed.

(** The modifier's execution is this function of the world: it never
    faults when the owner has its ability system. *)
Lemma ExecuteMod_spec Data w :
  HasASC w = true -> ExecuteMod UE_BUILD_SHIPPING Data w = Ok (tt, exec_world Data w).
Proof.
  intros HASC. unfold ExecuteMod, exec_world.
  pose proof (PreGameplayEffectExecute_spec Data w) as HP.
  destruct (Rejected Data); rewrite (st_bind_ok _ _ _ _ _ HP); [done|].
  cbv beta iota. mana_run. unfold PostGameplayEffectExecute, post_outputs, after_post, after_mod.
  destruct (EvaluatedAttribute Data) eqn:Ha; cbn [post_branch]; mana_branch.
  all: unfold st_modify, with_set; cbn [MSet HasASC OwningActor Outputs].
  all: rewrite ?bool_decide_true, ?bool_decide_false by done; cbn [andb orb negb app].
  all: rewrite <- ?app_assoc, ?app_nil_r; reflexivity.
Qed.

Lemma after_post_inv Data s :
  mana_inv s ->
  mana_bounds (after_post Data s) /\ Healing (after_post Data s) == 0 /\ Damage (after_post Data s) == 0.
Proof.
  intros (Hb & Hh & Hd & _).
  assert (Hb0 : mana_bounds (save_before s)) by exact Hb.
  unfold after_post, after_mod. destruct (EvaluatedAttribute Data); cbn [post_branch];
    split_and!; repeat apply write_bounds; try done;
    autorewrite with mana_rw; cbn; auto; reflexivity.
Qed.

Lemma exec_world_inv Data w : mana_inv (MSet w) -> mana_inv (MSet (exec_world Data w)).
Proof.
  intros Hinv. unfold exec_world. destruct (Rejected Data); [done|]. cbn [MSet].
  destruct (after_post_inv Data _ Hinv) as (Hb & Hh & Hd).
  split_and!; cbn; try done.
Qed.

Lemma MinimumMana_cases Data :
  MinimumMana UE_BUILD_SHIPPING Data = 0 \/ MinimumMana UE_BUILD_SHIPPING Data = 1.
Proof. unfold MinimumMana. destruct (_ && _ && _); auto. Qed.

Lemma ManaBefore_after_post Data s :
  ManaBeforeAttributeChange (after_post Data s) = Mana s.
Proof.
  unfold after_post, after_mod. destruct (EvaluatedAttribute Data); cbn [post_branch];
    rewrite ?ManaBefore_write; reflexivity.
Qed.

Lemma count_post_outputs Data own s :
  count_if is_out_of_mana (post_outputs Data own s) =
  (if Qle_bool (Mana (after_post Data s)) 0 && negb (bOutOfMana (after_post Data s)) then 1 else 0)%nat.
Proof. unfold post_outputs. rewrite !count_if_app. repeat case_match; reflexivity. Qed.

(** Mana reaches 0 in an execution exactly when the flag was clear
    before and Mana was above 0. *)
Lemma out_flag_after_post Data s :
  mana_inv s ->
  Qle_bool (Mana (after_post Data s)) 0 && negb (bOutOfMana (after_post Data s)) =
  Qltb 0 (Mana s) && Qle_bool (Mana (after_post Data s)) 0.
Proof.
  intros ((H0 & H1) & _ & _ & Hf).
  unfold after_post, after_mod.
  generalize (StaticExecModOnBaseValue (get_attr (EvaluatedAttribute Data) (save_before s))
               (ModifierOp Data) (Magnitude Data)); intros v.
  destruct (MinimumMana_cases Data) as [->| ->];
  destruct (EvaluatedAttribute Data); cbn [post_branch]; mana_fields; rewrite Hf; q_solve.
Qed.

End Execute.

Lemma ReplicateMana_step v w :
  exists w', ReplicateMana v w = Ok (tt, w') /\ bOutOfMana (MSet w') = Qle_bool v 0 /\
    count_if is_out_of_mana (Outputs w') =
      (count_if is_out_of_mana (Outputs w) +
       if negb (bOutOfMana (MSet w)) && Qle_bool v 0 then 1 else 0)%nat /\
    count_if is_mana_changed (Outputs w') = S (count_if is_mana_changed (Outputs w)).
Proof.
  unfold ReplicateMana, OnRep_Mana, emit_event, emit. st_simpl. cbn.
  destruct (negb (bOutOfMana (MSet w)) && Qle_bool v 0); st_simpl; eexists; (split; [reflexivity|]);
    cbn; rewrite ?count_if_app; cbn; split_and!; first [reflexivity | lia].
Qed.

(** C21: On a client, OnOutOfMana is broadcast once per fall of the
    replicated Mana to 0 or below ([falling_edges]), and OnManaChanged
    once per replicated value. *)
Theorem ReplicateMana_seq_edges vs w :
  exists w', ReplicateMana_seq vs w = Ok (tt, w') /\
    count_if is_out_of_mana (Outputs w') =
      (count_if is_out_of_mana (Outputs w) + falling_edges (bOutOfMana (MSet w)) vs)%nat /\
    count_if is_mana_changed (Outputs w') =
      (count_if is_mana_changed (Outputs w) + length vs)%nat.
Proof.
  revert w. induction vs as [|v vs IH]; intros w; cbn [ReplicateMana_seq].
  - exists w. cbn. split_and!; [done|lia|lia].
  - destruct (ReplicateMana_step v w) as (w1 & Hs & Hf & Ho & Hc).
    destruct (IH w1) as (w2 & Hs2 & Ho2 & Hc2).
    exists w2. rewrite (st_bind_ok _ _ _ _ _ Hs). split; [done|]. cbn [falling_edges length].
    rewrite Hf in Ho2. lia.
Qed.

(** ** Theorems of the attribute set *)

Section Theorems.
  Variable UE_BUILD_SHIPPING : bool.

Lemma exec_world_fields Data w :
  Rejected UE_BUILD_SHIPPING Data = false ->
  MSet (exec_world UE_BUILD_SHIPPING Data w) =
    set_out_of_mana (Qle_bool (Mana (after_post UE_BUILD_SHIPPING Data (MSet w))) 0)
      (after_post UE_BUILD_SHIPPING Data (MSet w)) /\
  Outputs (exec_world UE_BUILD_SHIPPING Data w) =
    Outputs w ++ post_outputs UE_BUILD_SHIPPING Data (OwningActor w) (MSet w).
Proof. intros Hr. unfold exec_world. rewrite Hr. done. Qed.

(** C9: Executing any modifier of an instant gameplay effect on the
    set (any attribute, operation and magnitude) returns without fault
    when the owner has its ability system, the nested
    PostAttributeChange included, and keeps the invariant: 0 <= Mana <=
    MaxMana, 1 <= MaxMana, the meta attributes Healing and Damage back
    at 0, and bOutOfMana true exactly when Mana <= 0. *)
Theorem ExecuteMod_preserves_inv Data w :
  HasASC w = true -> mana_inv (MSet w) ->
  exists w', ExecuteMod UE_BUILD_SHIPPING Data w = Ok (tt, w') /\ mana_inv (MSet w').
Proof. intros. eexists. split; [by apply ExecuteMod_spec|]. by apply exec_world_inv. Qed.

(** C10: OnOutOfMana is edge-triggered: one execution broadcasts it once
    when Mana goes from above 0 to 0 or below, and never otherwise (in
    particular never again while Mana stays at 0). *)
Theorem ExecuteMod_out_of_mana_edge Data w w' :
  HasASC w = true -> mana_inv (MSet w) -> ExecuteMod UE_BUILD_SHIPPING Data w = Ok (tt, w') ->
  exists new, Outputs w' = Outputs w ++ new /\
    count_if is_out_of_mana new =
      (if Qltb 0 (Mana (MSet w)) && Qle_bool (Mana (MSet w')) 0 then 1 else 0)%nat.
Proof.
  intros HASC Hinv Hex. rewrite ExecuteMod_spec in Hex by done. injection Hex as <-.
  destruct (Rejected UE_BUILD_SHIPPING Data) eqn:Hr.
  - exists []. unfold exec_world. rewrite Hr, app_nil_r. split; [done|].
    cbn. qcase; first [reflexivity | exfalso; lra].
  - destruct (exec_world_fields Data w Hr) as [HM HO].
    eexists. split; [exact HO|]. rewrite HM, count_post_outputs, out_flag_after_post by done.
    reflexivity.
Qed.

(** C11: Damage (the contract ApplyDamageOrHeal of the design): an
    accepted additive damage modifier of magnitude [m] sets Mana to
    [FMath::Clamp(Mana - m, MinimumMana, MaxMana)], leaves MaxMana,
    consumes the Damage meta attribute, and broadcasts, in this order,
    the damage verb message when [m > 0], OnManaChanged when Mana
    changed, and OnOutOfMana when Mana fell from above 0 to 0 or below. *)
Theorem ExecuteMod_damage Data w :
  HasASC w = true -> mana_inv (MSet w) ->
  EvaluatedAttribute Data = DamageAttr -> ModifierOp Data = Additive ->
  Rejected UE_BUILD_SHIPPING Data = false ->
  exists w', ExecuteMod UE_BUILD_SHIPPING Data w = Ok (tt, w') /\
    Mana (MSet w') == FMath_Clamp (Mana (MSet w) - Magnitude Data)
                        (MinimumMana UE_BUILD_SHIPPING Data) (MaxMana (MSet w)) /\
    MaxMana (MSet w') = MaxMana (MSet w) /\ Damage (MSet w') == 0 /\
    Outputs w' = Outputs w ++
      (if Qltb 0 (Magnitude Data) then
         [VerbMessage {| Verb := TAG_Lyra_Damage_Message; MsgInstigator := EffectCauser Data;
                         MsgTarget := OwningActor w; MsgMagnitude := Magnitude Data |}]
       else []) ++
      (if negb (Qeq_bool (Mana (MSet w')) (Mana (MSet w))) then
         [attr_event OnManaChanged Data (Mana (MSet w)) (Mana (MSet w'))] else []) ++
      (if Qltb 0 (Mana (MSet w)) && Qle_bool (Mana (MSet w')) 0 then
         [attr_event OnOutOfMana Data (Mana (MSet w)) (Mana (MSet w'))] else []).
Proof.
  intros HASC Hinv Ha Hop Hr. pose proof Hinv as ((H0 & H1) & _ & Hd & _).
  eexists. split; [by apply ExecuteMod_spec|].
  destruct (exec_world_fields Data w Hr) as [-> ->]. cbn [Mana MaxMana Damage set_out_of_mana].
  split_and!.
  - unfold after_post, after_mod. rewrite Ha, Hop. cbn [post_branch StaticExecModOnBaseValue].
    destruct (MinimumMana_cases UE_BUILD_SHIPPING Data) as [-> | ->]; mana_fields; q_solve.
  - unfold after_post, after_mod. rewrite Ha. cbn [post_branch]. mana_fields. reflexivity.
  - unfold after_post, after_mod. rewrite Ha. cbn [post_branch]. mana_fields. reflexivity.
  - unfold post_outputs. rewrite out_flag_after_post, !ManaBefore_after_post by done. rewrite Ha.
    rewrite bool_decide_true, bool_decide_false by done. reflexivity.
Qed.

(** Healing: an additive healing modifier of magnitude [m] sets Mana to
    [FMath::Clamp(Mana + m, MinimumMana, MaxMana)], consumes the Healing
    meta attribute and broadcasts at most OnManaChanged and
    OnOutOfMana. *)
Lemma ExecuteMod_heal Data w :
  HasASC w = true -> mana_inv (MSet w) ->
  EvaluatedAttribute Data = HealingAttr -> ModifierOp Data = Additive ->
  exists w', ExecuteMod UE_BUILD_SHIPPING Data w = Ok (tt, w') /\
    Mana (MSet w') == FMath_Clamp (Mana (MSet w) + Magnitude Data)
                        (MinimumMana UE_BUILD_SHIPPING Data) (MaxMana (MSet w)) /\
    MaxMana (MSet w') = MaxMana (MSet w) /\ Healing (MSet w') == 0 /\
    Outputs w' = Outputs w ++
      (if negb (Qeq_bool (Mana (MSet w')) (Mana (MSet w))) then
         [attr_event OnManaChanged Data (Mana (MSet w)) (Mana (MSet w'))] else []) ++
      (if Qltb 0 (Mana (MSet w)) && Qle_bool (Mana (MSet w')) 0 then
         [attr_event OnOutOfMana Data (Mana (MSet w)) (Mana (MSet w'))] else []).
Proof.
  intros HASC Hinv Ha Hop. pose proof Hinv as ((H0 & H1) & Hh & _ & _).
  assert (Hr : Rejected UE_BUILD_SHIPPING Data = false).
  { unfold Rejected. rewrite Ha, bool_decide_false by done. reflexivity. }
  eexists. split; [by apply ExecuteMod_spec|].
  destruct (exec_world_fields Data w Hr) as [-> ->]. cbn [Mana MaxMana Healing set_out_of_mana].
  split_and!.
  - unfold after_post, after_mod. rewrite Ha, Hop. cbn [post_branch StaticExecModOnBaseValue].
    destruct (MinimumMana_cases UE_BUILD_SHIPPING Data) as [-> | ->]; mana_fields; q_solve.
  - unfold after_post, after_mod. rewrite Ha. cbn [post_branch]. mana_fields. reflexivity.
  - unfold after_post, after_mod. rewrite Ha. cbn [post_branch]. mana_fields. reflexivity.
  - unfold post_outputs. rewrite out_flag_after_post, !ManaBefore_after_post by done. rewrite Ha.
    rewrite !bool_decide_false by done. reflexivity.
Qed.

(** C18: Damage immunity: a positive damage modifier on a target holding
    "Gameplay.DamageImmunity.Mana", not marked as self-destruct, is
    refused by PreGameplayEffectExecute: nothing changes and nothing is
    broadcast. *)
Theorem ExecuteMod_immune_damage_ignored Data w :
  EvaluatedAttribute Data = DamageAttr -> 0 < Magnitude Data ->
  HasMatchingGameplayTag (TargetTags Data) TAG_Gameplay_DamageImmunity_Mana = true ->
  HasTagExact (DynamicAssetTags Data) TAG_Gameplay_DamageSelfDestruct = false ->
  ExecuteMod UE_BUILD_SHIPPING Data w = Ok (tt, w).
Proof.
  intros Ha Hm Hi Hsd. pose proof (PreGameplayEffectExecute_spec UE_BUILD_SHIPPING Data w) as HP.
  assert (Hr : Rejected UE_BUILD_SHIPPING Data = true).
  { unfold Rejected. rewrite Ha, Hi, Hsd, bool_decide_true by done.
    destruct (Qltb_spec 0 (Magnitude Data)); [reflexivity|lra]. }
  rewrite Hr in HP. unfold ExecuteMod. by rewrite (st_bind_ok _ _ _ _ _ HP).
Qed.

(** C20: The unlimited-mana cheat: outside shipping builds, on a target
    holding "Cheat.UnlimitedMana", an effect on Mana, Healing or Damage
    that is not a self-destruct either is refused or leaves Mana at 1 or
    more. *)
Theorem ExecuteMod_unlimited_mana_floor Data w w' :
  UE_BUILD_SHIPPING = false ->
  HasMatchingGameplayTag (TargetTags Data) Cheat_UnlimitedMana = true ->
  HasTagExact (DynamicAssetTags Data) TAG_Gameplay_DamageSelfDestruct = false ->
  EvaluatedAttribute Data <> MaxManaAttr -> HasASC w = true -> mana_inv (MSet w) ->
  ExecuteMod UE_BUILD_SHIPPING Data w = Ok (tt, w') -> w' = w \/ 1 <= Mana (MSet w').
Proof.
  intros Hship Hu Hsd Ha HASC Hinv Hex. pose proof Hinv as ((H0 & H1) & _ & _ & _).
  rewrite ExecuteMod_spec in Hex by done. injection Hex as <-.
  destruct (Rejected UE_BUILD_SHIPPING Data) eqn:Hr; [left; unfold exec_world; by rewrite Hr|right].
  destruct (exec_world_fields Data w Hr) as [-> _]. cbn [Mana set_out_of_mana].
  assert (Hmin : MinimumMana UE_BUILD_SHIPPING Data = 1).
  { unfold MinimumMana. rewrite Hship, Hsd, Hu, orb_true_r. reflexivity. }
  unfold after_post, after_mod. rewrite Hmin.
  destruct (EvaluatedAttribute Data); [| done | |]; cbn [post_branch];
    match goal with |- context [StaticExecModOnBaseValue ?b ?o ?m] =>
      generalize (StaticExecModOnBaseValue b o m); intros v end;
    mana_fields; q_solve.
Qed.

(** C19: Self-destruct bypasses every protection: a damage modifier
    marked "Gameplay.Damage.SelfDestruct" whose magnitude is at least the
    current Mana takes Mana to 0 and sets bOutOfMana, whatever immunity,
    god-mode or unlimited-mana tags the target holds. *)
Theorem ExecuteMod_self_destruct_depletes Data w :
  EvaluatedAttribute Data = DamageAttr -> ModifierOp Data = Additive ->
  HasTagExact (DynamicAssetTags Data) TAG_Gameplay_DamageSelfDestruct = true ->
  Mana (MSet w) <= Magnitude Data -> HasASC w = true -> mana_inv (MSet w) ->
  exists w', ExecuteMod UE_BUILD_SHIPPING Data w = Ok (tt, w') /\
    Mana (MSet w') == 0 /\ bOutOfMana (MSet w') = true.
Proof.
  intros Ha Hop Hsd Hm HASC Hinv. pose proof Hinv as ((H0 & H1) & _ & Hd & _).
  assert (Hr : Rejected UE_BUILD_SHIPPING Data = false).
  { unfold Rejected. rewrite Hsd, !andb_false_r. reflexivity. }
  assert (Hmin : MinimumMana UE_BUILD_SHIPPING Data = 0).
  { unfold MinimumMana. rewrite Hsd, andb_false_r. reflexivity. }
  destruct (ExecuteMod_damage Data w HASC Hinv Ha Hop Hr) as (w' & Hex & HM & _).
  exists w'. split; [done|]. rewrite Hmin in HM.
  assert (Hz : Mana (MSet w') == 0) by (rewrite HM; clamp_cases; lra).
  split; [done|]. rewrite ExecuteMod_spec in Hex by done. injection Hex as <-.
  destruct (exec_world_fields Data w Hr) as [Hw _]. rewrite Hw in Hz |- *. cbn in Hz |- *.
  destruct (Qle_bool_spec (Mana (after_post UE_BUILD_SHIPPING Data (MSet w))) 0); [done|lra].
Qed.

(** C17: Lowering MaxMana below Mana: an override of MaxMana to [v] with
    [1 <= v < Mana] forces Mana down to [v] through the ability system
    (PostAttributeChange), and PostGameplayEffectExecute broadcasts
    OnMaxManaChanged and then OnManaChanged. *)
Theorem ExecuteMod_lower_max_overrides_mana Data w :
  EvaluatedAttribute Data = MaxManaAttr -> ModifierOp Data = Override ->
  1 <= Magnitude Data -> Magnitude Data < Mana (MSet w) ->
  HasASC w = true -> mana_inv (MSet w) ->
  exists w', ExecuteMod UE_BUILD_SHIPPING Data w = Ok (tt, w') /\
    Mana (MSet w') == Magnitude Data /\ MaxMana (MSet w') == Magnitude Data /\
    Outputs w' = Outputs w ++
      [attr_event OnMaxManaChanged Data (MaxMana (MSet w)) (MaxMana (MSet w'));
       attr_event OnManaChanged Data (Mana (MSet w)) (Mana (MSet w'))].
Proof.
  intros Ha Hop Hv1 Hv2 HASC Hinv. pose proof Hinv as ((H0 & H1) & _ & _ & _).
  assert (Hr : Rejected UE_BUILD_SHIPPING Data = false).
  { unfold Rejected. rewrite Ha, bool_decide_false by done. reflexivity. }
  eexists. split; [by apply ExecuteMod_spec|].
  destruct (exec_world_fields Data w Hr) as [-> ->]. cbn [Mana MaxMana set_out_of_mana].
  assert (HM : Mana (after_post UE_BUILD_SHIPPING Data (MSet w)) == Magnitude Data /\
               MaxMana (after_post UE_BUILD_SHIPPING Data (MSet w)) == Magnitude Data).
  { unfold after_post, after_mod. rewrite Ha, Hop. cbn [post_branch StaticExecModOnBaseValue].
    mana_fields. split; q_solve. }
  destruct HM as [HM HX]. split_and!; [done|done|].
  unfold post_outputs. rewrite out_flag_after_post, !ManaBefore_after_post by done.
  rewrite Ha, !bool_decide_false, bool_decide_true by done.
  assert (Hp : after_post UE_BUILD_SHIPPING Data (MSet w) = after_mod Data (MSet w)).
  { unfold after_post. rewrite Ha. reflexivity. }
  assert (Hb : MaxManaBeforeAttributeChange (after_mod Data (MSet w)) = MaxMana (MSet w)).
  { unfold after_mod. rewrite MaxManaBefore_write. reflexivity. }
  rewrite Hp in *. rewrite Hb. cbn [app].
  destruct (Qeq_bool_spec (Mana (after_mod Data (MSet w))) (Mana (MSet w))); [lra|].
  destruct (Qltb_spec 0 (Mana (MSet w))); [|lra].
  destruct (Qle_bool_spec (Mana (after_mod Data (MSet w))) 0); [lra|].
  reflexivity.
Qed.

End Theorems.

(** ** The scenarios of the design, evaluated *)

Definition w_full : ManaWorld :=
  {| MSet := ULyraManaSet_new; HasASC := true; OwningActor := 7; Outputs := [] |}.

(** A damage execution from actor 1 through causer 2. *)
Definition damage_data (m : Q) : FGameplayEffectModCallbackData :=
  {| EvaluatedAttribute := DamageAttr; ModifierOp := Additive; Magnitude := m;
     DynamicAssetTags := []; TargetTags := []; OriginalInstigator := Some 1%nat;
     EffectCauser := Some 2%nat |}.

(** Scenario 1: on a fresh set (Mana = MaxMana = 100), damage 30
    leaves Mana at 70 and broadcasts the damage verb message, then one
    OnManaChanged (100 to 70) and no OnOutOfMana.  The verb message is
    tagged "Lyra.Damage.Message", the health set's tag, and not the
    "Lyra.DamageMana.Message" tag this file declares. *)
Example scenario_damage_30 :
  exists w', ExecuteMod false (damage_data 30) w_full = Ok (tt, w') /\ Mana (MSet w') = 70 /\
    Outputs w' = [VerbMessage {| Verb := TAG_Lyra_Damage_Message; MsgInstigator := Some 2%nat;
                                 MsgTarget := 7%nat; MsgMagnitude := 30 |};
                  attr_event OnManaChanged (damage_data 30) 100 70] /\
    TAG_Lyra_Damage_Message <> TAG_Lyra_Damage_Mana_Message.
Proof. eexists. split; [vm_compute; reflexivity|]. split_and!; [vm_compute; reflexivity..|done]. Qed.

(** Scenario 2: damage 150 on the fresh set clamps Mana to 0 and
    broadcasts the verb message, one OnManaChanged and one OnOutOfMana. *)
Example scenario_damage_150 :
  exists w', ExecuteMod false (damage_data 150) w_full = Ok (tt, w') /\ Mana (MSet w') = 0 /\
    bOutOfMana (MSet w') = true /\
    Outputs w' = [VerbMessage {| Verb := TAG_Lyra_Damage_Message; MsgInstigator := Some 2%nat;
                                 MsgTarget := 7%nat; MsgMagnitude := 150 |};
                  attr_event OnManaChanged (damage_data 150) 100 0;
                  attr_event OnOutOfMana (damage_data 150) 100 0].
Proof. eexists. split; [vm_compute; reflexivity|]. split_and!; vm_compute; reflexivity. Qed.

(** ** Witnesses: the theorems applied to concrete sets *)

(** Decide a closed comparison of rationals by evaluation. *)
Ltac q_eval := vm_compute; first [reflexivity | intro; discriminate | discriminate].

Definition with_tags (target dynamic : list GameplayTag) (d : FGameplayEffectModCallbackData)
  : FGameplayEffectModCallbackData :=
  {| EvaluatedAttribute := EvaluatedAttribute d; ModifierOp := ModifierOp d; Magnitude := Magnitude d;
     DynamicAssetTags := dynamic; TargetTags := target; OriginalInstigator := OriginalInstigator d;
     EffectCauser := EffectCauser d |}.

Definition override_max (v : Q) : FGameplayEffectModCallbackData :=
  {| EvaluatedAttribute := MaxManaAttr; ModifierOp := Override; Magnitude := v;
     DynamicAssetTags := []; TargetTags := []; OriginalInstigator := None; EffectCauser := None |}.

Lemma ExecuteMod_preserves_inv_witness :
  HasASC w_full = true /\ mana_inv (MSet w_full) /\
  exists w', ExecuteMod false (damage_data 30) w_full = Ok (tt, w') /\ mana_inv (MSet w').
Proof.
  assert (Hi : mana_inv (MSet w_full)) by (unfold mana_inv, mana_bounds; split_and!; q_eval).
  split; [reflexivity|split; [exact Hi|]].
  exact (ExecuteMod_preserves_inv false (damage_data 30) w_full eq_refl Hi).
Defined.

Lemma ExecuteMod_out_of_mana_edge_witness :
  exists w', ExecuteMod false (damage_data 150) w_full = Ok (tt, w') /\
    HasASC w_full = true /\ mana_inv (MSet w_full) /\
    exists new, Outputs w' = Outputs w_full ++ new /\
      count_if is_out_of_mana new =
        (if Qltb 0 (Mana (MSet w_full)) && Qle_bool (Mana (MSet w')) 0 then 1 else 0)%nat.
Proof.
  assert (Hi : mana_inv (MSet w_full)) by (unfold mana_inv, mana_bounds; split_and!; q_eval).
  eexists. assert (Hx : ExecuteMod false (damage_data 150) w_full = Ok (tt, _)) by (vm_compute; reflexivity).
  split; [exact Hx|split; [reflexivity|split; [exact Hi|]]].
  exact (ExecuteMod_out_of_mana_edge false (damage_data 150) w_full _ eq_refl Hi Hx).
Defined.

Lemma ExecuteMod_damage_witness :
  HasASC w_full = true /\ mana_inv (MSet w_full) /\
  EvaluatedAttribute (damage_data 30) = DamageAttr /\ ModifierOp (damage_data 30) = Additive /\
  Rejected false (damage_data 30) = false /\
  exists w', ExecuteMod false (damage_data 30) w_full = Ok (tt, w') /\
    Mana (MSet w') == FMath_Clamp (Mana (MSet w_full) - 30) (MinimumMana false (damage_data 30))
                        (MaxMana (MSet w_full)).
Proof.
  assert (Hi : mana_inv (MSet w_full)) by (unfold mana_inv, mana_bounds; split_and!; q_eval).
  split_and!; [reflexivity|exact Hi|reflexivity|reflexivity|reflexivity|].
  destruct (ExecuteMod_damage false (damage_data 30) w_full eq_refl Hi eq_refl eq_refl eq_refl)
    as (w' & Hx & HM & _). exists w'. split; [exact Hx|exact HM].
Defined.

Lemma ExecuteMod_immune_damage_ignored_witness :
  let d := with_tags [TAG_Gameplay_DamageImmunity_Mana] [] (damage_data 30) in
  HasMatchingGameplayTag (TargetTags d) TAG_Gameplay_DamageImmunity_Mana = true /\
  ExecuteMod false d w_full = Ok (tt, w_full).
Proof.
  cbv zeta. split; [reflexivity|].
  apply ExecuteMod_immune_damage_ignored; [reflexivity|q_eval|reflexivity|reflexivity].
Defined.

Lemma ExecuteMod_unlimited_mana_floor_witness :
  let d := with_tags [Cheat_UnlimitedMana] [] (damage_data 150) in
  exists w', ExecuteMod false d w_full = Ok (tt, w') /\ (w' = w_full \/ 1 <= Mana (MSet w')).
Proof.
  cbv zeta. assert (Hi : mana_inv (MSet w_full)) by (unfold mana_inv, mana_bounds; split_and!; q_eval).
  eexists. assert (Hx : ExecuteMod false (with_tags [Cheat_UnlimitedMana] [] (damage_data 150)) w_full
                        = Ok (tt, _)) by (vm_compute; reflexivity).
  split; [exact Hx|].
  exact (ExecuteMod_unlimited_mana_floor false (with_tags [Cheat_UnlimitedMana] [] (damage_data 150))
           w_full _ eq_refl eq_refl eq_refl ltac:(discriminate) eq_refl Hi Hx).
Defined.

Lemma ExecuteMod_self_destruct_depletes_witness :
  let d := with_tags [Cheat_GodMode; TAG_Gameplay_DamageImmunity_Mana]
             [TAG_Gameplay_DamageSelfDestruct] (damage_data 100) in
  Mana (MSet w_full) <= Magnitude d /\
  exists w', ExecuteMod false d w_full = Ok (tt, w') /\ Mana (MSet w') == 0 /\ bOutOfMana (MSet w') = true.
Proof.
  cbv zeta. assert (Hi : mana_inv (MSet w_full)) by (unfold mana_inv, mana_bounds; split_and!; q_eval).
  assert (Hm : Mana (MSet w_full) <= 100) by q_eval.
  split; [exact Hm|].
  exact (ExecuteMod_self_destruct_depletes false
           (with_tags [Cheat_GodMode; TAG_Gameplay_DamageImmunity_Mana]
              [TAG_Gameplay_DamageSelfDestruct] (damage_data 100))
           w_full eq_refl eq_refl eq_refl Hm eq_refl Hi).
Defined.

Lemma ExecuteMod_lower_max_overrides_mana_witness :
  1 <= 40 /\ 40 < Mana (MSet w_full) /\
  exists w', ExecuteMod true (override_max 40) w_full = Ok (tt, w') /\
    Mana (MSet w') == 40 /\ MaxMana (MSet w') == 40.
Proof.
  assert (Hi : mana_inv (MSet w_full)) by (unfold mana_inv, mana_bounds; split_and!; q_eval).
  assert (H1 : 1 <= 40) by q_eval. assert (H2 : 40 < Mana (MSet w_full)) by q_eval.
  split; [exact H1|split; [exact H2|]].
  destruct (ExecuteMod_lower_max_overrides_mana true (override_max 40) w_full eq_refl eq_refl H1 H2
              eq_refl Hi) as (w' & Hx & HM & HX & _).
  exists w'. split_and!; assumption.
Defined.

End ManaSet.
