(* ===== verification/ManaComponent.v ===== *)
(** * ULyraManaComponent: the death state machine and the relay of the mana set

    Models src/LyraGame/Character/LyraManaComponent.cpp.  The component
    holds a pointer to its owner's ability system, the mana set found on
    it (whose three delegates it subscribes to), and the replicated
    [DeathState].  [ManaActor] puts the component beside the mana set of
    [ManaSet] that lives on the same ability system: an operation of the
    set run through [on_set] is followed, synchronously and in order, by
    the component's handlers for each delegate the set broadcast, as the
    engine's multicast delegates do.

    The outputs of the component are its own delegates (OnManaChanged,
    OnMaxManaChanged, OnDeathStarted, OnDeathFinished), the verb message
    "Lyra.OutOfMana.Message", the owner's ForceNetUpdate, and the log
    lines (UE_LOG warnings and errors, failed [ensure]s), in order.
    [check(Owner)] is a [check] of the model: the operation fails. *)

From S2P Require Import Prelude ManaSet.
From Stdlib Require Import QArith Lqa.
Import ManaSet.

Module ManaComponent.

Local Open Scope Q_scope.

(** ** Data *)

(** ELyraDeathState (LyraHealthComponent.h, outside src/): a [uint8]
    enumeration compared by its order. *)
Inductive ELyraDeathState := NotDead | DeathStarted | DeathFinished.

#[export] Instance ELyraDeathState_eq_dec : EqDecision ELyraDeathState.
Proof. solve_decision. Defined.

Definition death_rank (d : ELyraDeathState) : nat :=
  match d with NotDead => 0 | DeathStarted => 1 | DeathFinished => 2 end.

(** [==] on the enumeration. *)
Definition death_eqb (d1 d2 : ELyraDeathState) : bool := Nat.eqb (death_rank d1) (death_rank d2).

Definition TAG_Lyra_OutOfMana_Message : GameplayTag := "Lyra.OutOfMana.Message".
Definition Status_Death_Dying : GameplayTag := "Status.Death.Dying".
Definition Status_Death_Dead : GameplayTag := "Status.Death.Dead".
Definition TAG_Gameplay_FellOutOfWorld : GameplayTag := "Gameplay.Damage.FellOutOfWorld".

Inductive ManaCompOutput :=
  | CompManaChanged (OldValue NewValue : Q) (Instigator : option nat)
  | CompMaxManaChanged (OldValue NewValue : Q) (Instigator : option nat)
  | DeathStartedEvent (OwningActor : nat)
  | DeathFinishedEvent (OwningActor : nat)
  | OutOfManaMessage (Instigator : option nat) (Target : nat)
  | ForceNetUpdate (OwningActor : nat)
  | LogWarning (what : string)
  | LogError (what : string)
  | EnsureFailed (what : string).

Record ULyraManaComponent := {
  AbilitySystemComponent : option nat;
  (** [ManaSet != nullptr]: the set was found and its delegates bound. *)
  ManaSetBound : bool;
  DeathState : ELyraDeathState;
  Owner : option nat;
  (** Loose tag counts set on the ability system. *)
  DyingCount : Z;
  DeadCount : Z;
  CompOutputs : list ManaCompOutput;
}.

(** The component, the mana set of its ability system, and whether that
    ability system has a mana set at all. *)
Record ManaActor := {
  Comp : ULyraManaComponent;
  SetW : ManaWorld;
  ASCHasManaSet : bool;
}.

(** The constructor, lines 26-37. *)
Definition ULyraManaComponent_new (owner : option nat) : ULyraManaComponent :=
  {| AbilitySystemComponent := None; ManaSetBound := false; DeathState := NotDead;
     Owner := owner; DyingCount := 0; DeadCount := 0; CompOutputs := [] |}.

Definition set_comp (f : ULyraManaComponent -> ULyraManaComponent) : ST ManaActor unit :=
  st_modify (fun a => let '{| Comp := c; SetW := w; ASCHasManaSet := h |} := a in
                      {| Comp := f c; SetW := w; ASCHasManaSet := h |}).

(** Field updates of the component; each matches the record once. *)
Definition with_outputs (l : list ManaCompOutput) (c : ULyraManaComponent) : ULyraManaComponent :=
  let '{| AbilitySystemComponent := asc; ManaSetBound := b; DeathState := d; Owner := o;
          DyingCount := dy; DeadCount := de |} := c in
  {| AbilitySystemComponent := asc; ManaSetBound := b; DeathState := d; Owner := o;
     DyingCount := dy; DeadCount := de; CompOutputs := l |}.

Definition emit_comp (o : ManaCompOutput) : ST ManaActor unit :=
  set_comp (fun c => with_outputs (CompOutputs c ++ [o]) c).

Definition set_death_state (d : ELyraDeathState) (c : ULyraManaComponent) : ULyraManaComponent :=
  let '{| AbilitySystemComponent := asc; ManaSetBound := b; Owner := o;
          DyingCount := dy; DeadCount := de; CompOutputs := outs |} := c in
  {| AbilitySystemComponent := asc; ManaSetBound := b; DeathState := d; Owner := o;
     DyingCount := dy; DeadCount := de; CompOutputs := outs |}.

Definition set_binding (asc : option nat) (bound : bool) (c : ULyraManaComponent) : ULyraManaComponent :=
  let '{| DeathState := d; Owner := o; DyingCount := dy; DeadCount := de; CompOutputs := outs |} := c in
  {| AbilitySystemComponent := asc; ManaSetBound := bound; DeathState := d; Owner := o;
     DyingCount := dy; DeadCount := de; CompOutputs := outs |}.

Definition set_counts (dying dead : Z) (c : ULyraManaComponent) : ULyraManaComponent :=
  let '{| AbilitySystemComponent := asc; ManaSetBound := b; DeathState := d; Owner := o;
          CompOutputs := outs |} := c in
  {| AbilitySystemComponent := asc; ManaSetBound := b; DeathState := d; Owner := o;
     DyingCount := dying; DeadCount := dead; CompOutputs := outs |}.

(** ** Queries, lines 117-138 *)

Definition GetMana (a : ManaActor) : Q :=
  if ManaSetBound (Comp a) then Mana (MSet (SetW a)) else 0.

Definition GetMaxMana (a : ManaActor) : Q :=
  if ManaSetBound (Comp a) then MaxMana (MSet (SetW a)) else 0.

Definition GetManaNormalized (a : ManaActor) : Q :=
  if ManaSetBound (Comp a) then
    let m := Mana (MSet (SetW a)) in
    let M := MaxMana (MSet (SetW a)) in
    if Qltb 0 M then m / M else 0
  else 0.

Definition IsDeadOrDying (a : ManaActor) : bool := Nat.ltb 0 (death_rank (DeathState (Comp a))).

(** ** The handlers of the set's delegates, lines 140-174 *)

(** HandleManaChanged, HandleMaxManaChanged and HandleOutOfMana (a server
    build): what the component broadcasts when the set broadcasts [o]. *)
Definition HandleSetOutput (c : ULyraManaComponent) (o : ManaOutput) : list ManaCompOutput :=
  match o with
  | AttrEvent e =>
      match EvKind e with
      | OnManaChanged => [CompManaChanged (EvOldValue e) (EvNewValue e) (EvInstigator e)]
      | OnMaxManaChanged => [CompMaxManaChanged (EvOldValue e) (EvNewValue e) (EvInstigator e)]
      | OnOutOfMana =>
          match AbilitySystemComponent c with
          | Some asc => if EvHasSpec e then [OutOfManaMessage (EvInstigator e) asc] else []
          | None => []
          end
      end
  | VerbMessage _ => []
  end.

(** Run an operation of the mana set, then the bound handlers on what it
    broadcast. *)
Definition on_set (m : ST ManaWorld unit) : ST ManaActor unit :=
  fun a =>
    match m (SetW a) with
    | Failed f => Failed f
    | Ok (_, w') =>
        let fresh := drop (length (Outputs (SetW a))) (Outputs w') in
        let relayed := if ManaSetBound (Comp a) then flat_map (HandleSetOutput (Comp a)) fresh else [] in
        Ok (tt, {| Comp := with_outputs (CompOutputs (Comp a) ++ relayed) (Comp a);
                   SetW := w'; ASCHasManaSet := ASCHasManaSet a |})
    end.

(** ** Initialization, lines 46-115 *)

(** ClearGameplayTags: its body is commented out. *)
Definition ClearGameplayTags : ST ManaActor unit := st_ret tt.

Definition InitializeWithAbilitySystem (InASC : option nat) : ST ManaActor unit :=
  a <- st_get ;;
  st_check (not_null (Owner (Comp a))) "Owner" ;;;
  match AbilitySystemComponent (Comp a) with
  | Some _ => emit_comp (LogError "already been initialized with an ability system")
  | None =>
      set_comp (set_binding InASC false) ;;;
      match InASC with
      | None => emit_comp (LogError "Cannot initialize health component with NULL ability system")
      | Some _ =>
          if negb (ASCHasManaSet a) then
            emit_comp (LogError "Cannot initialize health component with NULL health set")
          else
            set_comp (set_binding InASC true) ;;;
            a1 <- st_get ;;
            on_set (SetNumericAttributeBase ManaAttr (MaxMana (MSet (SetW a1)))) ;;;
            ClearGameplayTags ;;;
            a2 <- st_get ;;
            emit_comp (CompManaChanged (GetMana a2) (GetMana a2) None) ;;;
            emit_comp (CompMaxManaChanged (GetMana a2) (GetMana a2) None)
      end
  end.

Definition UninitializeFromAbilitySystem : ST ManaActor unit :=
  ClearGameplayTags ;;;
  set_comp (set_binding None false).

(** OnUnregister, lines 46-51. *)
Definition OnUnregister : ST ManaActor unit := UninitializeFromAbilitySystem.

(** ** The death sequence, lines 176-263 *)

Definition owner_of (a : ManaActor) : nat := default 0%nat (Owner (Comp a)).

Definition StartDeath : ST ManaActor unit :=
  a <- st_get ;;
  if negb (death_eqb (DeathState (Comp a)) NotDead) then st_ret tt
  else
    set_comp (set_death_state DeathStarted) ;;;
    (match AbilitySystemComponent (Comp a) with
     | Some _ => set_comp (fun c => set_counts 1 (DeadCount c) c)
     | None => st_ret tt
     end) ;;;
    st_check (not_null (Owner (Comp a))) "Owner" ;;;
    emit_comp (DeathStartedEvent (owner_of a)) ;;;
    emit_comp (ForceNetUpdate (owner_of a)).

Definition FinishDeath : ST ManaActor unit :=
  a <- st_get ;;
  if negb (death_eqb (DeathState (Comp a)) DeathStarted) then st_ret tt
  else
    set_comp (set_death_state DeathFinished) ;;;
    (match AbilitySystemComponent (Comp a) with
     | Some _ => set_comp (fun c => set_counts (DyingCount c) 1 c)
     | None => st_ret tt
     end) ;;;
    st_check (not_null (Owner (Comp a))) "Owner" ;;;
    emit_comp (DeathFinishedEvent (owner_of a)) ;;;
    emit_comp (ForceNetUpdate (owner_of a)).

(** OnRep_DeathState, lines 176-219: the replicated value is put back
    and the transitions are replayed through StartDeath and FinishDeath. *)
Definition OnRep_DeathState (OldDeathState : ELyraDeathState) : ST ManaActor unit :=
  a <- st_get ;;
  let NewDeathState := DeathState (Comp a) in
  set_comp (set_death_state OldDeathState) ;;;
  if Nat.ltb (death_rank NewDeathState) (death_rank OldDeathState) then
    emit_comp (LogWarning "Predicted past server death state")
  else
    (match OldDeathState, NewDeathState with
     | NotDead, DeathStarted => StartDeath
     | NotDead, DeathFinished => StartDeath ;;; FinishDeath
     | NotDead, _ => emit_comp (LogError "Invalid death transition")
     | DeathStarted, DeathFinished => FinishDeath
     | DeathStarted, _ => emit_comp (LogError "Invalid death transition")
     | DeathFinished, _ => st_ret tt
     end) ;;;
    a' <- st_get ;;
    if death_eqb (DeathState (Comp a')) NewDeathState then st_ret tt
    else emit_comp (EnsureFailed "Death transition failed").

(** The replication of a new server value of DeathState: the property is
    written and the notify called with the old value when it changed. *)
Definition ReplicateDeathState (v : ELyraDeathState) : ST ManaActor unit :=
  a <- st_get ;;
  let Old := DeathState (Comp a) in
  if death_eqb v Old then st_ret tt
  else set_comp (set_death_state v) ;;; OnRep_DeathState Old.

(** ** Self-destruct, lines 265-297 *)

Section SelfDestruct.
  Variable UE_BUILD_SHIPPING : bool.
  (** ULyraGameData::DamageGameplayEffect_SetByCaller (game data, outside
      src/): whether the asset is found, and whether its modifier is an
      additive one on this set's Damage with the SetByCaller magnitude. *)
  Variable DamageGE_Found : bool.
  Variable DamageGE_OnManaSet : bool.
  (** The tags the owner's ability system holds. *)
  Variable OwnedTags : list GameplayTag.

(** The modifier the self-destruct effect applies to the mana set. *)
Definition self_destruct_data (a : ManaActor) (bFellOutOfWorld : bool) : FGameplayEffectModCallbackData :=
  {| EvaluatedAttribute := DamageAttr; ModifierOp := Additive; Magnitude := GetMaxMana a;
     DynamicAssetTags := TAG_Gameplay_DamageSelfDestruct ::
                           (if bFellOutOfWorld then [TAG_Gameplay_FellOutOfWorld] else []);
     TargetTags := OwnedTags; OriginalInstigator := Owner (Comp a); EffectCauser := Owner (Comp a) |}.

Definition DamageSelfDestruct (bFellOutOfWorld : bool) : ST ManaActor unit :=
  a <- st_get ;;
  if death_eqb (DeathState (Comp a)) NotDead && not_null (AbilitySystemComponent (Comp a))
  then
    if negb DamageGE_Found then emit_comp (LogError "DamageSelfDestruct failed: unable to find gameplay effect")
    else if DamageGE_OnManaSet then on_set (ExecuteMod UE_BUILD_SHIPPING (self_destruct_data a bFellOutOfWorld))
    else st_ret tt
  else st_ret tt.

End SelfDestruct.

(** ** The death events of the log *)

Fixpoint death_log (l : list ManaCompOutput) : list ELyraDeathState :=
  match l with
  | [] => []
  | DeathStartedEvent _ :: l' => DeathStarted :: death_log l'
  | DeathFinishedEvent _ :: l' => DeathFinished :: death_log l'
  | _ :: l' => death_log l'
  end.

(** The events the death sequence has broadcast once it reached [d]. *)
Definition death_trace (d : ELyraDeathState) : list ELyraDeathState :=
  firstn (death_rank d) [DeathStarted; DeathFinished].

(** What a call may do to the death sequence: move it forward, broadcast
    the events of the transitions it makes, and keep the owner. *)
Definition death_effect (a a' : ManaActor) : Prop :=
  (death_rank (DeathState (Comp a)) <= death_rank (DeathState (Comp a')))%nat /\
  death_log (CompOutputs (Comp a')) =
    death_log (CompOutputs (Comp a)) ++
      drop (death_rank (DeathState (Comp a))) (death_trace (DeathState (Comp a'))) /\
  Owner (Comp a') = Owner (Comp a).

Lemma death_log_app l1 l2 : death_log (l1 ++ l2) = death_log l1 ++ death_log l2.
Proof. induction l1 as [|o l1 IH]; [done|]. destruct o; cbn; rewrite ?IH; done. Qed.

Lemma death_log_relay c l : death_log (flat_map (HandleSetOutput c) l) = [].
Proof.
  induction l as [|o l IH]; [done|]. cbn. rewrite death_log_app, IH, app_nil_r.
  destruct o as [e|]; [|done]. cbn.
  destruct (EvKind e); [done|done|]. destruct (AbilitySystemComponent c), (EvHasSpec e); done.
Qed.

Lemma drop_trace_self d : drop (death_rank d) (death_trace d) = [].
Proof. by destruct d. Qed.

Lemma death_effect_refl a : death_effect a a.
Proof. split_and!; [lia| |done]. by rewrite drop_trace_self, app_nil_r. Qed.

Lemma death_effect_trans a1 a2 a3 : death_effect a1 a2 -> death_effect a2 a3 -> death_effect a1 a3.
Proof.
  intros (H12 & L12 & O12) (H23 & L23 & O23). split_and!; [lia| |congruence].
  rewrite L23, L12, <- app_assoc. f_equal.
  destruct (DeathState (Comp a1)), (DeathState (Comp a2)), (DeathState (Comp a3));
    cbn in *; first [lia | reflexivity].
Qed.

Lemma on_set_death_effect m a a' : on_set m a = Ok (tt, a') -> death_effect a a'.
Proof.
  destruct a as [[asc b ds own dy de outs] w h].
  unfold on_set. cbn. destruct (m w) as [[[] w']|f]; [|discriminate]. intros H.
  injection H as <-. split_and!; cbn; [lia| |done].
  rewrite drop_trace_self, death_log_app.
  destruct b; [rewrite death_log_relay|]; cbn; by rewrite ?app_nil_r.
Qed.

Ltac death_finish :=
  unfold death_effect, with_outputs, set_binding, set_death_state, set_counts; cbn;
  rewrite ?death_log_app, ?drop_trace_self; cbn;
  split_and!; first [lia | done | rewrite ?app_nil_r, <- ?app_assoc; reflexivity].

Lemma StartDeath_effect a a' : StartDeath a = Ok (tt, a') -> death_effect a a'.
Proof.
  destruct a as [[asc b ds own dy de outs] w h].
  unfold StartDeath; destruct ds, asc, own; cbn; intros H; try discriminate;
    injection H as <-; death_finish.
Qed.

Lemma FinishDeath_effect a a' : FinishDeath a = Ok (tt, a') -> death_effect a a'.
Proof.
  destruct a as [[asc b ds own dy de outs] w h].
  unfold FinishDeath; destruct ds, asc, own; cbn; intros H; try discriminate;
    injection H as <-; death_finish.
Qed.

Lemma ReplicateDeathState_effect v a a' : ReplicateDeathState v a = Ok (tt, a') -> death_effect a a'.
Proof.
  destruct a as [[asc b ds own dy de outs] w h].
  unfold ReplicateDeathState, OnRep_DeathState, StartDeath, FinishDeath;
    destruct v, ds, asc, own; cbn; intros H; try discriminate; injection H as <-; death_finish.
Qed.

(** ** Every call the component receives *)

Section Calls.
  Variable UE_BUILD_SHIPPING : bool.
  Variable DamageGE_Found : bool.
  Variable DamageGE_OnManaSet : bool.
  Variable OwnedTags : list GameplayTag.

Inductive ManaCall :=
  | CallInitialize (InASC : option nat)
  | CallUninitialize
  | CallStartDeath
  | CallFinishDeath
  | CallReplicateDeathState (v : ELyraDeathState)
  | CallDamageSelfDestruct (bFellOutOfWorld : bool)
  | CallApplyEffect (Data : FGameplayEffectModCallbackData)
  | CallReplicateMana (v : Q).

Definition run_call (c : ManaCall) : ST ManaActor unit :=
  match c with
  | CallInitialize asc => InitializeWithAbilitySystem asc
  | CallUninitialize => UninitializeFromAbilitySystem
  | CallStartDeath => StartDeath
  | CallFinishDeath => FinishDeath
  | CallReplicateDeathState v => ReplicateDeathState v
  | CallDamageSelfDestruct b =>
      DamageSelfDestruct UE_BUILD_SHIPPING DamageGE_Found DamageGE_OnManaSet OwnedTags b
  | CallApplyEffect d => on_set (ExecuteMod UE_BUILD_SHIPPING d)
  | CallReplicateMana v => on_set (ReplicateMana v)
  end.

(** One call that returns, and the actors reachable from [a0] by calls. *)
Inductive comp_step : ManaActor -> ManaActor -> Prop :=
  | comp_step_call c a a' : run_call c a = Ok (tt, a') -> comp_step a a'.

Inductive reachable_from (a0 : ManaActor) : ManaActor -> Prop :=
  | reachable_refl : reachable_from a0 a0
  | reachable_step a a' : reachable_from a0 a -> comp_step a a' -> reachable_from a0 a'.

End Calls.

Lemma InitializeWithAbilitySystem_effect InASC a a' :
  InitializeWithAbilitySystem InASC a = Ok (tt, a') -> death_effect a a'.
Proof.
  destruct a as [[asc b ds own dy de outs] w h].
  unfold InitializeWithAbilitySystem, ClearGameplayTags, emit_comp, set_comp, st_modify;
    destruct own, asc, InASC, h; cbn; intros H; try discriminate;
    try (injection H as <-; death_finish).
  apply st_bind_ok_inv in H as ([] & a1 & H1 & H2). apply on_set_death_effect in H1.
  cbn in H2. injection H2 as <-. eapply death_effect_trans; [exact H1|].
  destruct a1 as [[] ? ?]. death_finish.
Qed.

Lemma DamageSelfDestruct_effect ship found onset tags b a a' :
  DamageSelfDestruct ship found onset tags b a = Ok (tt, a') -> death_effect a a'.
Proof.
  destruct a as [[asc b0 ds own dy de outs] w h].
  unfold DamageSelfDestruct. cbn. destruct (_ && _); [|intros H; injection H as <-; apply death_effect_refl].
  destruct found; cbn; [|intros H; injection H as <-; death_finish].
  destruct onset; [apply on_set_death_effect|intros H; injection H as <-; apply death_effect_refl].
Qed.

Lemma run_call_effect ship found onset tags c a a' :
  run_call ship found onset tags c a = Ok (tt, a') -> death_effect a a'.
Proof.
  destruct c; cbn.
  - apply InitializeWithAbilitySystem_effect.
  - destruct a as [[] ? ?]. unfold UninitializeFromAbilitySystem, ClearGameplayTags.
    intros H. injection H as <-. death_finish.
  - apply StartDeath_effect.
  - apply FinishDeath_effect.
  - apply ReplicateDeathState_effect.
  - apply DamageSelfDestruct_effect.
  - apply on_set_death_effect.
  - apply on_set_death_effect.
Qed.

Lemma trace_extend d d' :
  (death_rank d <= death_rank d')%nat -> death_trace d ++ drop (death_rank d) (death_trace d') = death_trace d'.
Proof. destruct d, d'; cbn; first [lia | reflexivity]. Qed.

Definition is_failure (o : ManaCompOutput) : bool :=
  match o with LogError _ | EnsureFailed _ => true | _ => false end.

Definition is_out_of_mana_message (o : ManaCompOutput) : bool :=
  match o with OutOfManaMessage _ _ => true | _ => false end.

(** ** Theorems of the component *)

(** C13: Death monotonicity: no call the component receives (initialize,
    uninitialize, StartDeath, FinishDeath, a replicated DeathState, a
    self-destruct, an effect or a replicated Mana) moves DeathState
    backwards. *)
Theorem death_state_monotone ship found onset tags a a' :
  comp_step ship found onset tags a a' ->
  (death_rank (DeathState (Comp a)) <= death_rank (DeathState (Comp a')))%nat.
Proof. intros S. inversion S as [c a1 a2 Hc]; subst. apply (run_call_effect _ _ _ _ _ _ _ Hc). Qed.

(** C12: From a component that is alive and has broadcast no death event,
    every reachable component has broadcast exactly the death events of
    the transitions it made, in order: none while NotDead, OnDeathStarted
    once DeathStarted, then OnDeathFinished once DeathFinished (so
    StartDeath and FinishDeath broadcast at most once each). *)
Theorem death_events_follow_state ship found onset tags a0 a :
  DeathState (Comp a0) = NotDead -> death_log (CompOutputs (Comp a0)) = [] ->
  reachable_from ship found onset tags a0 a ->
  death_log (CompOutputs (Comp a)) = death_trace (DeathState (Comp a)).
Proof.
  intros H0 L0 R. induction R as [|a a' R IH S]; [by rewrite L0, H0|].
  inversion S as [c a1 a2 Hc]; subst a1 a2.
  destruct (run_call_effect _ _ _ _ _ _ _ Hc) as (Hr & L & _).
  rewrite L, IH. by apply trace_extend.
Qed.

(** C14: Reconciliation of a replicated DeathState [v] with the local one
    [old]: when [v] is ahead the transitions in between are replayed
    (StartDeath, then FinishDeath) and their events broadcast, so the
    state becomes [v]; when [v] is behind the local state is kept and a
    warning logged; no error is logged and the final [ensure] holds. *)
Theorem ReplicateDeathState_reconciles v a o :
  Owner (Comp a) = Some o ->
  exists a', ReplicateDeathState v a = Ok (tt, a') /\
    DeathState (Comp a') =
      (if Nat.ltb (death_rank v) (death_rank (DeathState (Comp a))) then DeathState (Comp a) else v) /\
    death_log (CompOutputs (Comp a')) =
      death_log (CompOutputs (Comp a)) ++ drop (death_rank (DeathState (Comp a))) (death_trace v) /\
    count_if is_failure (CompOutputs (Comp a')) = count_if is_failure (CompOutputs (Comp a)).
Proof.
  destruct a as [[asc b ds own dy de outs] w h]; cbn. intros ->.
  unfold ReplicateDeathState, OnRep_DeathState, StartDeath, FinishDeath.
  destruct v, ds, asc; cbn; eexists; (split; [reflexivity|]); cbn;
    rewrite ?death_log_app, ?count_if_app; cbn; split_and!; try reflexivity;
    rewrite ?app_nil_r, <- ?app_assoc; first [reflexivity | lia].
Qed.

(** Calling StartDeath twice on a living component broadcasts
    OnDeathStarted once. *)
Theorem StartDeath_twice_broadcasts_once a o :
  DeathState (Comp a) = NotDead -> Owner (Comp a) = Some o ->
  exists a', (StartDeath ;;; StartDeath) a = Ok (tt, a') /\ DeathState (Comp a') = DeathStarted /\
    CompOutputs (Comp a') = CompOutputs (Comp a) ++ [DeathStartedEvent o; ForceNetUpdate o].
Proof.
  destruct a as [[asc b ds own dy de outs] w h]; cbn. intros -> ->.
  unfold StartDeath. destruct asc; cbn; eexists; (split; [reflexivity|]); cbn;
    rewrite <- ?app_assoc; split; reflexivity.
Qed.

(** GetManaNormalized stays in [0, 1] when the set satisfies its
    bounds (and is 0 without a set). *)
Theorem GetManaNormalized_bounds a :
  mana_bounds (MSet (SetW a)) -> 0 <= GetManaNormalized a <= 1.
Proof.
  intros (Hm & HM). unfold GetManaNormalized. destruct (ManaSetBound (Comp a)); [|lra].
  cbv zeta. destruct (Qltb_spec 0 (MaxMana (MSet (SetW a)))); [|lra]. split.
  - apply Qle_shift_div_l; [done|]. lra.
  - apply Qle_shift_div_r; [done|]. lra.
Qed.

Definition has_spec (o : ManaOutput) : bool :=
  match o with AttrEvent e => EvHasSpec e | VerbMessage _ => false end.

Lemma relay_count c asc l :
  AbilitySystemComponent c = Some asc ->
  count_if is_out_of_mana_message (flat_map (HandleSetOutput c) l) =
  count_if (fun o => is_out_of_mana o && has_spec o) l.
Proof.
  intros Hasc. induction l as [|o l IH]; [done|]. cbn. rewrite count_if_app, IH. f_equal.
  destruct o as [e|]; [|done]. cbn. rewrite Hasc. destruct (EvKind e); [done|done|].
  by destruct (EvHasSpec e).
Qed.

Lemma post_outputs_have_spec ship Data own s :
  count_if (fun o => is_out_of_mana o && has_spec o) (post_outputs ship Data own s) =
  count_if is_out_of_mana (post_outputs ship Data own s).
Proof. unfold post_outputs. rewrite !count_if_app. repeat case_match; reflexivity. Qed.

(** C22: With the component bound to its mana set on an ability system,
    an effect broadcasts the "Lyra.OutOfMana.Message" verb message once
    when it takes Mana from above 0 to 0 or below, and never otherwise. *)
Theorem ApplyEffect_out_of_mana_message ship Data a a' asc :
  AbilitySystemComponent (Comp a) = Some asc -> ManaSetBound (Comp a) = true ->
  HasASC (SetW a) = true -> mana_inv (MSet (SetW a)) ->
  on_set (ExecuteMod ship Data) a = Ok (tt, a') ->
  count_if is_out_of_mana_message (CompOutputs (Comp a')) =
    (count_if is_out_of_mana_message (CompOutputs (Comp a)) +
     if Qltb 0 (Mana (MSet (SetW a))) && Qle_bool (Mana (MSet (SetW a'))) 0 then 1 else 0)%nat.
Proof.
  destruct a as [c w h]; cbn. intros Hasc Hb HASC Hinv. unfold on_set. cbn.
  rewrite ExecuteMod_spec by done. intros H. injection H as <-.
  destruct c as [asc0 b0 ds o dy de outs]; cbn in *; subst b0.
  rewrite count_if_app, (relay_count _ asc) by done. f_equal.
  unfold exec_world. destruct (Rejected ship Data) eqn:Hr; cbn.
  - rewrite drop_all. cbn. destruct (Qltb_spec 0 (Mana (MSet w)));
      destruct (Qle_bool_spec (Mana (MSet w)) 0); first [reflexivity | lra].
  - rewrite drop_app_length, post_outputs_have_spec, count_post_outputs, out_flag_after_post by done.
    reflexivity.
Qed.

(** ** Witnesses *)

(** A living component of actor 7, bound to the fresh mana set of the
    ability system 5. *)
Definition a_alive : ManaActor :=
  {| Comp := {| AbilitySystemComponent := Some 5%nat; ManaSetBound := true; DeathState := NotDead;
                Owner := Some 7%nat; DyingCount := 0; DeadCount := 0; CompOutputs := [] |};
     SetW := w_full; ASCHasManaSet := true |}.

(** The actor after a call, or the same actor if the call faults. *)
Definition after_call (c : ManaCall) (a : ManaActor) : ManaActor :=
  match run_call false true true [] c a with Ok (_, a') => a' | Failed _ => a end.

Lemma death_state_monotone_witness :
  comp_step false true true [] a_alive (after_call CallStartDeath a_alive) /\
  (death_rank (DeathState (Comp a_alive)) <=
   death_rank (DeathState (Comp (after_call CallStartDeath a_alive))))%nat.
Proof.
  assert (S : comp_step false true true [] a_alive (after_call CallStartDeath a_alive))
    by (apply (comp_step_call _ _ _ _ CallStartDeath); vm_compute; reflexivity).
  split; [exact S|exact (death_state_monotone _ _ _ _ _ _ S)].
Defined.

Lemma death_events_follow_state_witness :
  let a := after_call CallFinishDeath (after_call CallStartDeath a_alive) in
  reachable_from false true true [] a_alive a /\ DeathState (Comp a) = DeathFinished /\
  death_log (CompOutputs (Comp a)) = death_trace (DeathState (Comp a)).
Proof.
  cbv zeta.
  assert (R : reachable_from false true true [] a_alive
                (after_call CallFinishDeath (after_call CallStartDeath a_alive))).
  { eapply reachable_step; [eapply reachable_step; [apply reachable_refl|]|].
    - apply (comp_step_call _ _ _ _ CallStartDeath). vm_compute. reflexivity.
    - apply (comp_step_call _ _ _ _ CallFinishDeath). vm_compute. reflexivity. }
  split; [exact R|split; [vm_compute; reflexivity|]].
  exact (death_events_follow_state _ _ _ _ a_alive _ eq_refl eq_refl R).
Defined.

Lemma ReplicateDeathState_reconciles_witness :
  Owner (Comp a_alive) = Some 7%nat /\
  exists a', ReplicateDeathState DeathFinished a_alive = Ok (tt, a') /\ DeathState (Comp a') = DeathFinished.
Proof.
  split; [reflexivity|].
  destruct (ReplicateDeathState_reconciles DeathFinished a_alive 7 eq_refl) as (a' & Hx & Hd & _).
  exists a'. split; [exact Hx|exact Hd].
Defined.

Lemma StartDeath_twice_broadcasts_once_witness :
  DeathState (Comp a_alive) = NotDead /\
  exists a', (StartDeath ;;; StartDeath) a_alive = Ok (tt, a') /\
    CompOutputs (Comp a') = [DeathStartedEvent 7; ForceNetUpdate 7].
Proof.
  split; [reflexivity|].
  destruct (StartDeath_twice_broadcasts_once a_alive 7 eq_refl eq_refl) as (a' & Hx & _ & Ho).
  exists a'. split; [exact Hx|exact Ho].
Defined.

Lemma GetManaNormalized_bounds_witness :
  mana_bounds (MSet (SetW a_alive)) /\ 0 <= GetManaNormalized a_alive <= 1.
Proof.
  assert (Hb : mana_bounds (MSet (SetW a_alive))) by (unfold mana_bounds; split_and!; q_eval).
  split; [exact Hb|exact (GetManaNormalized_bounds a_alive Hb)].
Defined.

Lemma ApplyEffect_out_of_mana_message_witness :
  exists a', on_set (ExecuteMod false (damage_data 150)) a_alive = Ok (tt, a') /\
    mana_inv (MSet (SetW a_alive)) /\
    count_if is_out_of_mana_message (CompOutputs (Comp a')) = 1%nat.
Proof.
  assert (Hi : mana_inv (MSet (SetW a_alive))) by (unfold mana_inv, mana_bounds; split_and!; q_eval).
  exists (after_call (CallApplyEffect (damage_data 150)) a_alive).
  assert (Hx : on_set (ExecuteMod false (damage_data 150)) a_alive =
               Ok (tt, after_call (CallApplyEffect (damage_data 150)) a_alive))
    by (vm_compute; reflexivity).
  split; [exact Hx|split; [exact Hi|]].
  rewrite (ApplyEffect_out_of_mana_message false (damage_data 150) a_alive _ 5 eq_refl eq_refl eq_refl Hi Hx).
  vm_compute. reflexivity.
Defined.

End ManaComponent.
