(* ===== verification/HealManaExecution.v ===== *)
(** * ULyraCombatSet and ULyraHealManaExecution: healing mana

    [CombatSet] models the four base attributes of
    src/LyraGame/AbilitySystem/Attributes/LyraCombatSet.cpp (all 0 at
    construction) and their replication: sent to the owning client
    only, each update notified to the ability system with the value it
    replaces, even when unchanged.
    [HealManaExecution] models
    src/LyraGame/AbilitySystem/Executions/LyraHealManaExecution.cpp: the
    execution captures the source's BaseHealMana (snapshotted) and
    outputs one additive Healing modifier of [max(0, BaseHealMana)] when
    it is positive.  The ability system then executes each output
    modifier on the target's mana set ([ManaSet.ExecuteMod]).

    The damage counterpart ULyraDamageManaExecution is declared in
    LyraDamageManaExecution.h but has no implementation under src/. *)

From S2P Require Import Prelude ManaSet.
From Stdlib Require Import QArith Lqa.
Import ManaSet.

Module CombatSet.

Local Open Scope Q_scope.

Record ULyraCombatSet := {
  BaseDamage : Q;
  BaseDamageMana : Q;
  BaseHeal : Q;
  BaseHealMana : Q;
}.

(** The constructor, lines 13-19. *)
Definition ULyraCombatSet_new : ULyraCombatSet :=
  {| BaseDamage := 0; BaseDamageMana := 0; BaseHeal := 0; BaseHealMana := 0 |}.

(** ** Replication to the owning client *)

Inductive CombatAttribute := BaseDamageAttr | BaseDamageManaAttr | BaseHealAttr | BaseHealManaAttr.

#[export] Instance CombatAttribute_eq_dec : EqDecision CombatAttribute.
Proof. solve_decision. Defined.

Definition get_combat_attr (a : CombatAttribute) (c : ULyraCombatSet) : Q :=
  match a with
  | BaseDamageAttr => BaseDamage c
  | BaseDamageManaAttr => BaseDamageMana c
  | BaseHealAttr => BaseHeal c
  | BaseHealManaAttr => BaseHealMana c
  end.

Definition set_combat_attr (a : CombatAttribute) (v : Q) (c : ULyraCombatSet) : ULyraCombatSet :=
  let '{| BaseDamage := d; BaseDamageMana := dm; BaseHeal := h; BaseHealMana := hm |} := c in
  match a with
  | BaseDamageAttr => {| BaseDamage := v; BaseDamageMana := dm; BaseHeal := h; BaseHealMana := hm |}
  | BaseDamageManaAttr => {| BaseDamage := d; BaseDamageMana := v; BaseHeal := h; BaseHealMana := hm |}
  | BaseHealAttr => {| BaseDamage := d; BaseDamageMana := dm; BaseHeal := v; BaseHealMana := hm |}
  | BaseHealManaAttr => {| BaseDamage := d; BaseDamageMana := dm; BaseHeal := h; BaseHealMana := v |}
  end.

(** What [GAMEPLAYATTRIBUTE_REPNOTIFY] tells the ability system
    component: the attribute, its old and its replicated value. *)
Record CombatRepNotify := {
  RepAttribute : CombatAttribute;
  RepOldValue : Q;
  RepNewValue : Q;
}.

(** A client's copy of the set and the notifies its ability system
    received. *)
Record CombatClient := {
  CSet : ULyraCombatSet;
  CNotifies : list CombatRepNotify;
}.

(** The four OnRep notifies, lines 32-50: each forwards the attribute's
    old and current value. *)
Definition OnRep_Combat (a : CombatAttribute) (OldValue : Q) : ST CombatClient unit :=
  st_modify (fun c =>
    {| CSet := CSet c;
       CNotifies := CNotifies c ++ [{| RepAttribute := a; RepOldValue := OldValue;
                                      RepNewValue := get_combat_attr a (CSet c) |}] |}).

Definition OnRep_BaseDamage := OnRep_Combat BaseDamageAttr.
Definition OnRep_BaseDamageMana := OnRep_Combat BaseDamageManaAttr.
Definition OnRep_BaseHeal := OnRep_Combat BaseHealAttr.
Definition OnRep_BaseHealMana := OnRep_Combat BaseHealManaAttr.

Definition OnRep (a : CombatAttribute) : Q -> ST CombatClient unit :=
  match a with
  | BaseDamageAttr => OnRep_BaseDamage
  | BaseDamageManaAttr => OnRep_BaseDamageMana
  | BaseHealAttr => OnRep_BaseHeal
  | BaseHealManaAttr => OnRep_BaseHealMana
  end.

(** GetLifetimeReplicatedProps, lines 21-30: every attribute is sent to
    the owner only ([COND_OwnerOnly]), and the notify runs on every
    update, changed or not ([REPNOTIFY_Always]). *)
Definition ReplicateCombat (IsOwner : bool) (a : CombatAttribute) (v : Q) : ST CombatClient unit :=
  if IsOwner then
    c <- st_get ;;
    let Old := get_combat_attr a (CSet c) in
    st_put {| CSet := set_combat_attr a v (CSet c); CNotifies := CNotifies c |} ;;;
    OnRep a Old
  else st_ret tt.

Fixpoint ReplicateCombat_seq (IsOwner : bool) (us : list (CombatAttribute * Q)) : ST CombatClient unit :=
  match us with
  | [] => st_ret tt
  | (a, v) :: us' => ReplicateCombat IsOwner a v ;;; ReplicateCombat_seq IsOwner us'
  end.

(** The set after the updates, and the notifies they give. *)
Definition apply_updates (us : list (CombatAttribute * Q)) (c : ULyraCombatSet) : ULyraCombatSet :=
  fold_left (fun c '(a, v) => set_combat_attr a v c) us c.

Fixpoint update_notifies (c : ULyraCombatSet) (us : list (CombatAttribute * Q)) : list CombatRepNotify :=
  match us with
  | [] => []
  | (a, v) :: us' =>
      {| RepAttribute := a; RepOldValue := get_combat_attr a c; RepNewValue := v |}
        :: update_notifies (set_combat_attr a v c) us'
  end.

Lemma get_set_combat_attr a b v c :
  get_combat_attr a (set_combat_attr b v c) = if decide (a = b) then v else get_combat_attr a c.
Proof. destruct c, a, b; reflexivity. Qed.

(** One update on the owner: the attribute is written, then notified
    with the value it replaced. *)
Lemma ReplicateCombat_owner a v cl :
  ReplicateCombat true a v cl =
  Ok (tt, {| CSet := set_combat_attr a v (CSet cl);
             CNotifies := CNotifies cl ++ [{| RepAttribute := a; RepOldValue := get_combat_attr a (CSet cl);
                                              RepNewValue := v |}] |}).
Proof. destruct cl as [[] n], a; reflexivity. Qed.

(** On the owner, each update writes its attribute and notifies it once
    with the value it replaces, unchanged values included; on any other
    client nothing changes. *)
Lemma ReplicateCombat_seq_spec IsOwner us cl :
  ReplicateCombat_seq IsOwner us cl =
  Ok (tt, if IsOwner
          then {| CSet := apply_updates us (CSet cl);
                  CNotifies := CNotifies cl ++ update_notifies (CSet cl) us |}
          else cl).
Proof.
  revert cl. induction us as [|[a v] us IH]; intros cl; cbn [ReplicateCombat_seq].
  - destruct IsOwner, cl; cbn; [by rewrite app_nil_r|done].
  - destruct IsOwner.
    + rewrite (st_bind_ok _ _ _ _ _ (ReplicateCombat_owner a v cl)), IH. cbn. by rewrite <- app_assoc.
    + exact (IH cl).
Qed.

End CombatSet.

Module HealManaExecution.

Import CombatSet.
Local Open Scope Q_scope.

(** [FGameplayModifierEvaluatedData]: an output modifier. *)
Record FGameplayModifierEvaluatedData := {
  ModAttribute : FGameplayAttribute;
  ModOp : EGameplayModOp;
  ModMagnitude : Q;
}.

(** Execute_Implementation, lines 33-56 (a server build): the captured
    BaseHealMana of the source's combat set, or 0 when the source has
    none and the capture fails. *)
Definition Execute_Implementation (Source : option ULyraCombatSet) : list FGameplayModifierEvaluatedData :=
  let BaseHeal := match Source with Some cs => BaseHealMana cs | None => 0 end in
  let HealingDone := FMath_Max 0 BaseHeal in
  if Qltb 0 HealingDone
  then [{| ModAttribute := HealingAttr; ModOp := Additive; ModMagnitude := HealingDone |}]
  else [].

(** The effect spec's context: its dynamic tags, the target's tags, the
    instigator and the causer. *)
Record FEffectContext := {
  CtxDynamicTags : list GameplayTag;
  CtxTargetTags : list GameplayTag;
  CtxInstigator : option nat;
  CtxCauser : option nat;
}.

Definition mod_data (ctx : FEffectContext) (m : FGameplayModifierEvaluatedData)
  : FGameplayEffectModCallbackData :=
  {| EvaluatedAttribute := ModAttribute m; ModifierOp := ModOp m; Magnitude := ModMagnitude m;
     DynamicAssetTags := CtxDynamicTags ctx; TargetTags := CtxTargetTags ctx;
     OriginalInstigator := CtxInstigator ctx; EffectCauser := CtxCauser ctx |}.

(** The ability system executing the output modifiers in order. *)
Fixpoint ApplyOutputModifiers (ship : bool) (ctx : FEffectContext)
    (mods : list FGameplayModifierEvaluatedData) : ST ManaWorld unit :=
  match mods with
  | [] => st_ret tt
  | m :: mods' => ExecuteMod ship (mod_data ctx m) ;;; ApplyOutputModifiers ship ctx mods'
  end.

(** A heal-mana effect from a source with the given combat set. *)
Definition HealManaEffect (ship : bool) (ctx : FEffectContext) (Source : option ULyraCombatSet)
  : ST ManaWorld unit :=
  ApplyOutputModifiers ship ctx (Execute_Implementation Source).

(** The output modifier of a positive heal. *)
Definition heal_modifier (h : Q) : FGameplayModifierEvaluatedData :=
  {| ModAttribute := HealingAttr; ModOp := Additive; ModMagnitude := h |}.

(** C24: A heal-mana effect never lowers Mana and keeps the set's
    invariant: with a source whose BaseHealMana is [h], Mana becomes
    [FMath::Clamp(Mana + h, MinimumMana, MaxMana)] when [h > 0] and is
    unchanged otherwise. *)
Theorem HealManaEffect_heals ship ctx cs w :
  HasASC w = true -> mana_inv (MSet w) ->
  exists w', HealManaEffect ship ctx (Some cs) w = Ok (tt, w') /\ mana_inv (MSet w') /\
    Mana (MSet w) <= Mana (MSet w') /\
    Mana (MSet w') ==
      (if Qltb 0 (BaseHealMana cs)
       then FMath_Clamp (Mana (MSet w) + BaseHealMana cs)
              (MinimumMana ship (mod_data ctx (heal_modifier (BaseHealMana cs)))) (MaxMana (MSet w))
       else Mana (MSet w)).
Proof.
  intros HASC Hinv. pose proof Hinv as ((H0 & H1) & _).
  unfold HealManaEffect, Execute_Implementation, FMath_Max.
  destruct (Qle_bool_spec (BaseHealMana cs) 0) as [Hh|Hh].
  - destruct (Qltb_spec 0 0); [lra|]. destruct (Qltb_spec 0 (BaseHealMana cs)); [lra|].
    exists w. cbn. split_and!; [reflexivity|exact Hinv|lra|reflexivity].
  - destruct (Qltb_spec 0 (BaseHealMana cs)); [|lra]. cbn [ApplyOutputModifiers].
    destruct (ExecuteMod_heal ship (mod_data ctx (heal_modifier (BaseHealMana cs))) w HASC Hinv
                eq_refl eq_refl) as (w' & Hx & HM & _).
    exists w'. rewrite (st_bind_ok _ _ _ _ _ Hx). cbn in HM.
    assert (Hinv' : mana_inv (MSet w')).
    { rewrite ExecuteMod_spec in Hx by done. injection Hx as <-. by apply exec_world_inv. }
    split_and!; [reflexivity|exact Hinv'| |exact HM].
    rewrite HM. destruct (MinimumMana_cases ship (mod_data ctx (heal_modifier (BaseHealMana cs))))
      as [-> | ->]; clamp_cases; lra.
Qed.

Lemma HealManaEffect_heals_witness :
  let ctx := {| CtxDynamicTags := []; CtxTargetTags := []; CtxInstigator := None; CtxCauser := None |} in
  let w := {| MSet := {| Mana := 40; MaxMana := 100; Healing := 0; Damage := 0; bOutOfMana := false;
                         MaxManaBeforeAttributeChange := 100; ManaBeforeAttributeChange := 100 |};
              HasASC := true; OwningActor := 7; Outputs := [] |} in
  let cs := {| BaseDamage := 0; BaseDamageMana := 0; BaseHeal := 0; BaseHealMana := 25 |} in
  mana_inv (MSet w) /\
  exists w', HealManaEffect false ctx (Some cs) w = Ok (tt, w') /\ Mana (MSet w') == 65.
Proof.
  cbv zeta.
  match goal with |- mana_inv (MSet ?w) /\ _ =>
    assert (Hi : mana_inv (MSet w)) by (unfold mana_inv, mana_bounds; split_and!; q_eval) end.
  split; [exact Hi|].
  match goal with |- exists w', HealManaEffect false ?ctx (Some ?cs) ?w = _ /\ _ =>
    destruct (HealManaEffect_heals false ctx cs w eq_refl Hi) as (w' & Hx & _ & _ & HM) end.
  exists w'. split; [exact Hx|]. rewrite HM. q_eval.
Defined.

End HealManaExecution.
