(* ===== verification/MeleeWeapon.v ===== *)
(** * ULyraMeleeWeaponInstance: the melee collision window and its trace loop

    Models src/LyraGame/Weapons/LyraMeleeWeaponInstance.cpp with the anim
    notifies that drive it (Weapons/MeleeCollisionHandler) and the melee
    ability (Weapons/LyraGameplayAbility_MeleeWeapon.cpp).  The weapon
    keeps, per colliding component of its spawned actors, the sockets
    to trace from and the actors already hit; while collision is active
    a recurring timer runs [TraceCheckLoop], which sweeps a sphere from
    each socket's location at the previous tick
    ([LastFrameSocketLocations], a [gmap] keyed by
    [GenerateUniqueSocketName]) to its location now, and reports each
    new actor hit through [OnWeaponHit].

    The engine is split in two: [MeleeStatic] holds what does not change
    while the weapon lives (component names, actor classes and the class
    hierarchy, the owning pawn, whether a world exists), and
    [MeleeFrame] what the world looks like at one call (socket
    locations, the result of the physics sweep, the controller).  The
    timer is the flag [TimerSet]: the engine fires [TraceCheckLoop] only
    while it is set.  Component liveness ([IsValid]) is the engine's
    list [Destroyed].  FName comparisons are exact string comparisons
    (the engine's are case-insensitive), and the debug drawing is not
    modelled. *)

From S2P Require Import Prelude.
From stdpp Require Import gmap.
From Stdlib Require Import QArith Lqa.

Module MeleeWeapon.

Definition FName := string.
Definition NAME_None : FName := "None".
Definition ActorId := nat.
Definition ComponentId := nat.
Definition ActorClass := nat.

Record FVector := { VX : Q; VY : Q; VZ : Q }.

Definition TAG_MeleeWeaponHit : string := "GameplayEvent.Montage.Hit".
Definition TAG_WeaponAttackBlocked : string := "Ability.Weapon.NoAttack".

(** [TArray::Contains] on actor pointers. *)
Definition Contains (l : list ActorId) (a : ActorId) : bool := existsb (Nat.eqb a) l.

(** ** Data (LyraMeleeWeaponInstance.h) *)

Record FLyraDamageValues := { BaseDamage : Q; MaxDamage : Q }.

(** [FMath::RandRange(BaseDamage, MaxDamage)] with the engine's draw
    [FRand] in [0, 1). *)
Definition GetRandomDamageValue (d : FLyraDamageValues) (FRand : Q) : Q :=
  BaseDamage d + (MaxDamage d - BaseDamage d) * FRand.

Record FLyraCollidingComponent := {
  CollidingComponent : ComponentId;
  Sockets : list FName;
  HitActors : list ActorId;
}.

(** The two-argument constructor: a component without sockets traces
    from its own location ([NAME_None]). *)
Definition FLyraCollidingComponent_new (c : ComponentId) (InSockets : list FName)
  : FLyraCollidingComponent :=
  {| CollidingComponent := c;
     Sockets := match InSockets with [] => [NAME_None] | _ => InSockets end;
     HitActors := [] |}.

Definition set_hit_actors (l : list ActorId) (c : FLyraCollidingComponent) : FLyraCollidingComponent :=
  {| CollidingComponent := CollidingComponent c; Sockets := Sockets c; HitActors := l |}.

Record FHitResult := {
  HitActor : option ActorId;
  HitComponent : ComponentId;
  HitLocation : FVector;
}.

(** The gameplay event [OnWeaponHit_Implementation] sends to the pawn. *)
Record FGameplayEventData := {
  EvInstigator : option ActorId;
  EvTarget : option ActorId;
  EvTargetData : FHitResult;
}.

(** What the instance does that others see: [OnWeaponHit] called with
    the hit and the colliding component, whose native implementation
    sends [Payload] to [Pawn] under [EventTag]; the broadcast of
    [OnEquipmentUnequipped]. *)
Inductive MeleeOutput :=
  | OnWeaponHit (Component : ComponentId) (Hit : FHitResult)
      (Pawn : ActorId) (EventTag : string) (Payload : FGameplayEventData)
  | OnEquipmentUnequipped.

(** The configuration: the UPROPERTYs set in the editor, with the
    constructor's defaults in [ULyraMeleeWeaponInstance_config]. *)
Record MeleeConfig := {
  bTraceComplex : bool;
  TraceRadius : Q;
  TraceCheckInterval : Q;
  IgnoredClasses : list ActorClass;
  IgnoredCollisionProfileNames : list FName;
  ObjectTypesToCollideWith : list nat;
  IgnoredActors : list ActorId;
  WeaponDamage : FLyraDamageValues;
  MaterialDamageMultiplier : gmap string Q;
}.

(** The constructor, lines 26-32 ([ObjectTypeQuery3] is the pawn type). *)
Definition ULyraMeleeWeaponInstance_config (Ignored : list ActorClass) (Profiles : list FName)
    (Actors : list ActorId) (Damage : FLyraDamageValues) (Mult : gmap string Q) : MeleeConfig :=
  {| bTraceComplex := false; TraceRadius := 1 # 10; TraceCheckInterval := 1 # 40;
     IgnoredClasses := Ignored; IgnoredCollisionProfileNames := Profiles;
     ObjectTypesToCollideWith := [3%nat]; IgnoredActors := Actors;
     WeaponDamage := Damage; MaterialDamageMultiplier := Mult |}.

(** The debug shapes the instance draws when [bDebug] is set. *)
Inductive DebugDraw :=
  | DrawDebugSphere (Center : FVector) (Radius : Q) (Segments : nat) (Color : string)
      (bPersistentLines : bool) (LifeTime : Q)
  | DrawDebugCylinder (TraceStart TraceEnd : FVector) (Radius : Q) (Segments : nat) (Color : string)
      (bPersistentLines : bool) (LifeTime : Q).

(** DrawHitSphere, lines 279-286: nothing without a world; the sphere is
    at least 8 units wide. *)
Definition DrawHitSphere (cfg : MeleeConfig) (HasWorld : bool) (Location : FVector) : option DebugDraw :=
  if HasWorld then
    let Radius := if Qle_bool 8 (TraceRadius cfg) then TraceRadius cfg else 8 in
    Some (DrawDebugSphere Location Radius 12 "Green" false 5)
  else None.

(** DrawDebugTrace, lines 288-294. *)
Definition DrawDebugTrace (cfg : MeleeConfig) (HasWorld : bool) (TraceStart TraceEnd : FVector)
  : option DebugDraw :=
  if HasWorld then Some (DrawDebugCylinder TraceStart TraceEnd (TraceRadius cfg) 12 "Red" false 5)
  else None.

(** The mutable state of the instance, with the engine's timer and
    component liveness. *)
Record MeleeState := {
  ActiveCollidingComponents : list FLyraCollidingComponent;
  bIsCollisionActivated : bool;
  bCanPerformTrace : bool;
  TimerSet : bool;
  LastFrameSocketLocations : gmap FName FVector;
  Destroyed : list ComponentId;
  MeleeOutputs : list MeleeOutput;
}.

Definition MeleeState_new : MeleeState :=
  {| ActiveCollidingComponents := []; bIsCollisionActivated := false; bCanPerformTrace := false;
     TimerSet := false; LastFrameSocketLocations := ∅; Destroyed := []; MeleeOutputs := [] |}.

(** Field updates, written as matches so that they compute well. *)
Definition set_comps (l : list FLyraCollidingComponent) (s : MeleeState) : MeleeState :=
  let '{| bIsCollisionActivated := a; bCanPerformTrace := t; TimerSet := ts;
          LastFrameSocketLocations := m; Destroyed := d; MeleeOutputs := o |} := s in
  {| ActiveCollidingComponents := l; bIsCollisionActivated := a; bCanPerformTrace := t;
     TimerSet := ts; LastFrameSocketLocations := m; Destroyed := d; MeleeOutputs := o |}.

Definition set_flags (a t ts : bool) (s : MeleeState) : MeleeState :=
  let '{| ActiveCollidingComponents := l; LastFrameSocketLocations := m; Destroyed := d;
          MeleeOutputs := o |} := s in
  {| ActiveCollidingComponents := l; bIsCollisionActivated := a; bCanPerformTrace := t;
     TimerSet := ts; LastFrameSocketLocations := m; Destroyed := d; MeleeOutputs := o |}.

Definition set_locations (m : gmap FName FVector) (s : MeleeState) : MeleeState :=
  let '{| ActiveCollidingComponents := l; bIsCollisionActivated := a; bCanPerformTrace := t;
          TimerSet := ts; Destroyed := d; MeleeOutputs := o |} := s in
  {| ActiveCollidingComponents := l; bIsCollisionActivated := a; bCanPerformTrace := t;
     TimerSet := ts; LastFrameSocketLocations := m; Destroyed := d; MeleeOutputs := o |}.

Definition set_destroyed (d : list ComponentId) (s : MeleeState) : MeleeState :=
  let '{| ActiveCollidingComponents := l; bIsCollisionActivated := a; bCanPerformTrace := t;
          TimerSet := ts; LastFrameSocketLocations := m; MeleeOutputs := o |} := s in
  {| ActiveCollidingComponents := l; bIsCollisionActivated := a; bCanPerformTrace := t;
     TimerSet := ts; LastFrameSocketLocations := m; Destroyed := d; MeleeOutputs := o |}.

Definition emit_melee (x : MeleeOutput) : ST MeleeState unit :=
  st_modify (fun s =>
    let '{| ActiveCollidingComponents := l; bIsCollisionActivated := a; bCanPerformTrace := t;
            TimerSet := ts; LastFrameSocketLocations := m; Destroyed := d; MeleeOutputs := o |} := s in
    {| ActiveCollidingComponents := l; bIsCollisionActivated := a; bCanPerformTrace := t;
       TimerSet := ts; LastFrameSocketLocations := m; Destroyed := d; MeleeOutputs := o ++ [x] |}).

(** ** The engine *)

Record MeleeStatic := {
  GetName : ComponentId -> string;
  GetClass : ActorId -> ActorClass;
  IsChildOf : ActorClass -> ActorClass -> bool;
  GetPawn : ActorId;
  HasWorld : bool;
}.

Record MeleeFrame := {
  GetComponentLocation : ComponentId -> FVector;
  GetSocketLocation_raw : ComponentId -> FName -> FVector;
  GetCollisionProfileName : ComponentId -> FName;
  (** [SphereTraceMultiForObjects(Start, End, ActorsToIgnore)]: whether
      something was hit, and the hits. *)
  SphereTraceMultiForObjects : FVector -> FVector -> list ActorId -> bool * list FHitResult;
  GetController : option ActorId;
}.

(** ** The operations *)

Section Ops.
  Variable cfg : MeleeConfig.
  Variable es : MeleeStatic.

(** FLyraCollidingComponent::GetSocketLocation, lines 14-24. *)
Definition GetSocketLocation (f : MeleeFrame) (c : FLyraCollidingComponent) (SocketName : FName) : FVector :=
  if String.eqb SocketName NAME_None then GetComponentLocation f (CollidingComponent c)
  else GetSocketLocation_raw f (CollidingComponent c) SocketName.

(** GenerateUniqueSocketName, lines 273-277: the component's name
    followed by the socket's. *)
Definition GenerateUniqueSocketName (c : ComponentId) (Socket : FName) : FName :=
  String.append (GetName es c) Socket.

(** [IsValid(Component.CollidingComponent)]. *)
Definition IsValid (s : MeleeState) (c : FLyraCollidingComponent) : bool :=
  negb (Contains (Destroyed s) (CollidingComponent c)).

(** IsIgnoredClass and IsIgnoredProfileName, lines 110-123. *)
Definition IsIgnoredClass (Cls : ActorClass) : bool :=
  existsb (IsChildOf es Cls) (IgnoredClasses cfg).

Definition IsIgnoredProfileName (ProfileName : FName) : bool :=
  existsb (String.eqb ProfileName) (IgnoredCollisionProfileNames cfg).

(** OnWeaponHit_Implementation, lines 262-271. *)
Definition OnWeaponHit_Implementation (f : MeleeFrame) (hr : FHitResult) (Component : ComponentId)
  : ST MeleeState unit :=
  emit_melee (OnWeaponHit Component hr (GetPawn es) TAG_MeleeWeaponHit
                {| EvInstigator := GetController f; EvTarget := HitActor hr; EvTargetData := hr |}).

(** ProcessHitResult, lines 242-260: a new actor, not of an ignored
    class and not hit through an ignored collision profile, is recorded
    in the component's [HitActors] and reported. *)
Definition ProcessHitResult (f : MeleeFrame) (hr : FHitResult) (c : FLyraCollidingComponent)
  : ST MeleeState FLyraCollidingComponent :=
  match HitActor hr with
  | Some a =>
      if negb (Contains (HitActors c) a) && negb (IsIgnoredClass (GetClass es a))
         && negb (IsIgnoredProfileName (GetCollisionProfileName f (HitComponent hr)))
      then OnWeaponHit_Implementation f hr (CollidingComponent c) ;;;
           st_ret (set_hit_actors (HitActors c ++ [a]) c)
      else st_ret c
  | None => st_ret c
  end.

Fixpoint ProcessHitResults (f : MeleeFrame) (hs : list FHitResult) (c : FLyraCollidingComponent)
  : ST MeleeState FLyraCollidingComponent :=
  match hs with
  | [] => st_ret c
  | hr :: hs' => c' <- ProcessHitResult f hr c ;; ProcessHitResults f hs' c'
  end.

(** HandleComponent, lines 209-240: one sweep per socket, from its
    location at the last tick to its location now, ignoring the actors
    this component already hit, the pawn and [IgnoredActors].
    Dereferencing the [Find] of a missing key is a fault. *)
Fixpoint HandleSockets (f : MeleeFrame) (socks : list FName) (c : FLyraCollidingComponent)
  : ST MeleeState FLyraCollidingComponent :=
  match socks with
  | [] => st_ret c
  | SocketName :: socks' =>
      s <- st_get ;;
      match LastFrameSocketLocations s !! GenerateUniqueSocketName (CollidingComponent c) SocketName with
      | None => st_fail (CheckFailed "LastFrameSocketLocations.Find")
      | Some StartTrace =>
          let EndTrace := GetSocketLocation f c SocketName in
          let WantedIgnoredActors := HitActors c ++ [GetPawn es] ++ IgnoredActors cfg in
          let '(WasHit, HitResults) := SphereTraceMultiForObjects f StartTrace EndTrace WantedIgnoredActors in
          c' <- (if WasHit then ProcessHitResults f HitResults c else st_ret c) ;;
          HandleSockets f socks' c'
      end
  end.

Definition HandleComponent (f : MeleeFrame) (c : FLyraCollidingComponent) : ST MeleeState FLyraCollidingComponent :=
  HandleSockets f (Sockets c) c.

(** PerformTraceCheck, lines 198-207: each valid component, updated in
    place. *)
Fixpoint PerformTraceCheck_loop (f : MeleeFrame) (cs : list FLyraCollidingComponent)
  : ST MeleeState (list FLyraCollidingComponent) :=
  match cs with
  | [] => st_ret []
  | c :: cs' =>
      s <- st_get ;;
      c' <- (if IsValid s c then HandleComponent f c else st_ret c) ;;
      cs'' <- PerformTraceCheck_loop f cs' ;;
      st_ret (c' :: cs'')
  end.

Definition PerformTraceCheck (f : MeleeFrame) : ST MeleeState unit :=
  s <- st_get ;;
  cs <- PerformTraceCheck_loop f (ActiveCollidingComponents s) ;;
  st_modify (set_comps cs).

(** UpdateSocketLocations, lines 176-196: [TMap::Add] replaces the
    value of a key already present. *)
Definition UpdateComponentLocations (f : MeleeFrame) (m : gmap FName FVector) (c : FLyraCollidingComponent)
  : gmap FName FVector :=
  foldl (fun m SocketName =>
           <[GenerateUniqueSocketName (CollidingComponent c) SocketName := GetSocketLocation f c SocketName]> m)
        m (Sockets c).

Definition UpdateSocketLocations (f : MeleeFrame) : ST MeleeState unit :=
  st_modify (fun s =>
    set_locations (foldl (fun m c => if IsValid s c then UpdateComponentLocations f m c else m)
                         (LastFrameSocketLocations s) (ActiveCollidingComponents s)) s).

(** TraceCheckLoop, lines 165-174: no sweep on the first tick after
    activation, which only records the socket locations. *)
Definition TraceCheckLoop (f : MeleeFrame) : ST MeleeState unit :=
  s <- st_get ;;
  (if bCanPerformTrace s then PerformTraceCheck f else st_ret tt) ;;;
  UpdateSocketLocations f ;;;
  st_modify (fun s => set_flags (bIsCollisionActivated s) true (TimerSet s) s).

(** ClearHitActors, lines 157-163. *)
Definition ClearHitActors : ST MeleeState unit :=
  st_modify (fun s => set_comps (map (set_hit_actors []) (ActiveCollidingComponents s)) s).

(** ActivateCollision, lines 125-140: one tick at once, then the
    recurring timer. *)
Definition ActivateCollision (f : MeleeFrame) : ST MeleeState unit :=
  s <- st_get ;;
  if negb (bIsCollisionActivated s) then
    st_modify (fun s => set_flags true (bCanPerformTrace s) (TimerSet s) s) ;;;
    ClearHitActors ;;;
    (if HasWorld es then
       TraceCheckLoop f ;;;
       st_modify (fun s => set_flags (bIsCollisionActivated s) (bCanPerformTrace s) true s)
     else st_ret tt)
  else st_ret tt.

(** DeactivateCollision, lines 142-155. *)
Definition DeactivateCollision : ST MeleeState unit :=
  s <- st_get ;;
  if bIsCollisionActivated s then
    st_modify (fun s => set_flags false false (if HasWorld es then false else TimerSet s) s)
  else st_ret tt.

(** OnEquipped, lines 46-70: for each spawned actor, its primitive
    component (if any) with that component's socket names; only a
    component with sockets is added. *)
Definition equipped_components (SpawnedActors : list (option (ComponentId * list FName)))
  : list FLyraCollidingComponent :=
  flat_map (fun a => match a with
                     | Some (pc, (_ :: _) as SocketNames) => [FLyraCollidingComponent_new pc SocketNames]
                     | _ => []
                     end) SpawnedActors.

Definition OnEquipped (SpawnedActors : list (option (ComponentId * list FName))) : ST MeleeState unit :=
  st_modify (fun s => set_comps (ActiveCollidingComponents s ++ equipped_components SpawnedActors) s).

(** OnUnequipped, lines 72-79. *)
Definition OnUnequipped : ST MeleeState unit :=
  emit_melee OnEquipmentUnequipped ;;;
  st_modify (set_comps []).

(** The ability-source interface, lines 81-108: the physical material
    is [Some Tags] when it is a [UPhysicalMaterialWithTags]. *)
Definition GetDistanceAttenuation (Distance : Q) : Q := 1.

Definition GetPhysicalMaterialAttenuation (PhysicalMaterial : option (list string)) : Q :=
  match PhysicalMaterial with
  | Some Tags =>
      foldl (fun CombinedMultiplier MaterialTag =>
               match MaterialDamageMultiplier cfg !! MaterialTag with
               | Some m => CombinedMultiplier * m
               | None => CombinedMultiplier
               end) 1 Tags
  | None => 1
  end.

Definition GetWeaponBaseDamage (FRand : Q) : Q := GetRandomDamageValue (WeaponDamage cfg) FRand.

(** ** The anim notifies (MeleeCollisionHandler)

    Each notify follows mesh, owner pawn, controller, quick bar and
    equipped item, and acts only when the whole chain leads to this
    melee weapon. *)
Record NotifyContext := {
  HasMeshComp : bool;
  OwnerIsPawn : bool;
  PawnHasController : bool;
  ControllerHasQuickBar : bool;
  EquippedIsThisWeapon : bool;
}.

Definition ResolveEquippedMeleeWeapon (n : NotifyContext) : bool :=
  HasMeshComp n && OwnerIsPawn n && PawnHasController n && ControllerHasQuickBar n && EquippedIsThisWeapon n.

(** ULyraActivateCollisionNotifyWindow::NotifyBegin and NotifyEnd,
    LyraActivateCollisionNotifyWindow.cpp lines 15-34 and 36-54. *)
Definition NotifyBegin (f : MeleeFrame) (n : NotifyContext) : ST MeleeState unit :=
  if ResolveEquippedMeleeWeapon n then ActivateCollision f else st_ret tt.

Definition NotifyEnd (n : NotifyContext) : ST MeleeState unit :=
  if ResolveEquippedMeleeWeapon n then DeactivateCollision else st_ret tt.

(** ULyraClearHitActorsNotify::Notify, LyraClearHitActorsNotify.cpp
    lines 14-32. *)
Definition ClearHitActorsNotify (n : NotifyContext) : ST MeleeState unit :=
  if ResolveEquippedMeleeWeapon n then ClearHitActors else st_ret tt.

(** ** The calls an equipped weapon receives *)

Inductive MeleeCall :=
  | CallNotifyBegin (n : NotifyContext)
  | CallNotifyEnd (n : NotifyContext)
  | CallClearHitActorsNotify (n : NotifyContext)
  | CallTimer
  | CallDestroyComponent (c : ComponentId)
  | CallOnUnequipped.

(** The engine fires the timer only while it is set; a destroyed
    component is no longer valid. *)
Definition run_melee (f : MeleeFrame) (call : MeleeCall) : ST MeleeState unit :=
  match call with
  | CallNotifyBegin n => NotifyBegin f n
  | CallNotifyEnd n => NotifyEnd n
  | CallClearHitActorsNotify n => ClearHitActorsNotify n
  | CallTimer => s <- st_get ;; if TimerSet s then TraceCheckLoop f else st_ret tt
  | CallDestroyComponent c => st_modify (fun s => set_destroyed (Destroyed s ++ [c]) s)
  | CallOnUnequipped => OnUnequipped
  end.

Inductive melee_step : MeleeState -> MeleeState -> Prop :=
  | MeleeStep f call s s' : run_melee f call s = Ok (tt, s') -> melee_step s s'.

(** A sequence of calls, each with the world at its time. *)
Fixpoint run_seq (fcs : list (MeleeFrame * MeleeCall)) : ST MeleeState unit :=
  match fcs with
  | [] => st_ret tt
  | (f, call) :: fcs' => run_melee f call ;;; run_seq fcs'
  end.

(** The calls of a swing after the window opened: timer ticks, the end
    of the window, components destroyed. *)
Definition window_call (call : MeleeCall) : bool :=
  match call with
  | CallTimer | CallNotifyEnd _ | CallDestroyComponent _ => true
  | _ => false
  end.

(** A state the equipment manager's lifecycle reaches: a fresh instance
    equipped with the components of its spawned actors, then any
    sequence of calls. *)
Definition reached (SpawnedActors : list (option (ComponentId * list FName)))
    (fcs : list (MeleeFrame * MeleeCall)) (s : MeleeState) : Prop :=
  (OnEquipped SpawnedActors ;;; run_seq fcs) MeleeState_new = Ok (tt, s).

Definition is_begin (call : MeleeCall) : bool :=
  match call with CallNotifyBegin _ => true | _ => false end.

End Ops.

(** ** ULyraGameplayAbility_MeleeWeapon (LyraGameplayAbility_MeleeWeapon.cpp) *)

(** The ability's class defaults: the tags that block its activation. *)
Record ULyraGameplayAbility_MeleeWeapon := {
  SourceBlockedTags : list string;
}.

(** [FGameplayTagContainer::AddTag]: a tag already present is not added
    again. *)
Definition AddTag (Tag : string) (Tags : list string) : list string :=
  if bool_decide (Tag ∈ Tags) then Tags else Tags ++ [Tag].

(** The constructor, lines 13-17: the parent's blocked tags with
    [TAG_WeaponAttackBlocked]. *)
Definition ULyraGameplayAbility_MeleeWeapon_new (SuperSourceBlockedTags : list string)
  : ULyraGameplayAbility_MeleeWeapon :=
  {| SourceBlockedTags := AddTag TAG_WeaponAttackBlocked SuperSourceBlockedTags |}.

(** The equipment instance an ability is associated with: its identity
    and whether its class derives from ULyraMeleeWeaponInstance. *)
Record AssociatedEquipment := {
  EquipmentId : nat;
  IsMeleeWeaponInstance : bool;
}.

(** GetWeaponInstance, lines 19-22: [Cast] gives nullptr for missing
    equipment and for equipment of another class. *)
Definition GetWeaponInstance (Equipment : option AssociatedEquipment) : option AssociatedEquipment :=
  match Equipment with
  | Some e => if IsMeleeWeaponInstance e then Some e else None
  | None => None
  end.

(** CanActivateAbility, lines 24-43: the parent's answer, refused with
    an error log when the associated equipment is not a melee weapon. *)
Definition CanActivateAbility (SuperResult HasMeleeWeaponInstance : bool) : bool * list string :=
  if SuperResult then
    if HasMeleeWeaponInstance then (true, [])
    else (false, ["Weapon ability cannot be activated because there is no associated ranged weapon"])
  else (false, []).

(** The ability can be activated exactly when the parent allows it and
    the associated equipment is a melee weapon; the error is logged only
    when the parent allowed it. *)
Lemma CanActivateAbility_GetWeaponInstance SuperResult Equipment :
  CanActivateAbility SuperResult (bool_decide (is_Some (GetWeaponInstance Equipment)))
  = (SuperResult && match Equipment with Some e => IsMeleeWeaponInstance e | None => false end,
     if SuperResult && negb (match Equipment with Some e => IsMeleeWeaponInstance e | None => false end)
     then ["Weapon ability cannot be activated because there is no associated ranged weapon"] else []).
Proof.
  destruct SuperResult, Equipment as [[i []]|]; cbn; rewrite ?bool_decide_true, ?bool_decide_false;
    try done; by intros [].
Qed.

(** The hit sphere is drawn with the trace radius, raised to 8 when it
    is smaller. *)
Lemma DrawHitSphere_radius cfg Location :
  exists Radius, DrawHitSphere cfg true Location = Some (DrawDebugSphere Location Radius 12 "Green" false 5) /\
    (8 <= Radius)%Q /\ (TraceRadius cfg <= Radius)%Q /\ (Radius == 8 \/ Radius = TraceRadius cfg)%Q.
Proof.
  unfold DrawHitSphere. destruct (Qle_bool 8 (TraceRadius cfg)) eqn:Hr; eexists; split_and!; try reflexivity.
  - by apply Qle_bool_iff.
  - apply Qle_refl.
  - by right.
  - apply Qle_refl.
  - apply Qlt_le_weak, Qnot_le_lt. intros H. apply Qle_bool_iff in H. congruence.
  - left. reflexivity.
Qed.

(** The constructor adds the blocking tag once, keeps the parent's tags
    and their order. *)
Lemma ULyraGameplayAbility_MeleeWeapon_new_blocked Tags :
  TAG_WeaponAttackBlocked ∈ SourceBlockedTags (ULyraGameplayAbility_MeleeWeapon_new Tags) /\
  prefix Tags (SourceBlockedTags (ULyraGameplayAbility_MeleeWeapon_new Tags)) /\
  (NoDup Tags -> NoDup (SourceBlockedTags (ULyraGameplayAbility_MeleeWeapon_new Tags))).
Proof.
  unfold ULyraGameplayAbility_MeleeWeapon_new, AddTag; cbn. case_bool_decide as Hin.
  - split_and!; [done|done|done].
  - split_and!; [set_solver|by eexists|].
    intros Hnd. apply NoDup_app. split_and!; [done| |apply NoDup_singleton]. set_solver.
Qed.

(** The ability's scope lock and the end requests deferred under it;
    [Ended] is what the parent class's EndAbility records. *)
Record MeleeAbilityState := {
  ScopeLockCount : nat;
  WaitingToExecute : list (bool * bool);
  Ended : option bool;
}.

(** EndAbility, lines 52-66. *)
Definition EndAbility (IsEndAbilityValid bReplicateEndAbility bWasCancelled : bool)
  : ST MeleeAbilityState unit :=
  if IsEndAbilityValid then
    a <- st_get ;;
    if Nat.ltb 0 (ScopeLockCount a) then
      st_put {| ScopeLockCount := ScopeLockCount a;
                WaitingToExecute := WaitingToExecute a ++ [(bReplicateEndAbility, bWasCancelled)];
                Ended := Ended a |}
    else
      st_put {| ScopeLockCount := ScopeLockCount a; WaitingToExecute := WaitingToExecute a;
                Ended := Some bWasCancelled |}
  else st_ret tt.

(** ** Hits and their bookkeeping *)

(** The actors [OnWeaponHit] reported for component [comp]. *)
Definition hit_target (comp : ComponentId) (o : MeleeOutput) : list ActorId :=
  match o with
  | OnWeaponHit c _ _ _ p =>
      if Nat.eqb c comp then match EvTarget p with Some a => [a] | None => [] end else []
  | OnEquipmentUnequipped => []
  end.

Definition hits_of (comp : ComponentId) (o : list MeleeOutput) : list ActorId :=
  flat_map (hit_target comp) o.

Definition add_outputs (o : list MeleeOutput) (s : MeleeState) : MeleeState :=
  let '{| ActiveCollidingComponents := l; bIsCollisionActivated := a; bCanPerformTrace := t;
          TimerSet := ts; LastFrameSocketLocations := m; Destroyed := d; MeleeOutputs := o0 |} := s in
  {| ActiveCollidingComponents := l; bIsCollisionActivated := a; bCanPerformTrace := t;
     TimerSet := ts; LastFrameSocketLocations := m; Destroyed := d; MeleeOutputs := o0 ++ o |}.

(** A component after a tick: same component and sockets, the actors it
    reported appended to [HitActors], without duplicates if there were
    none. *)
Definition comp_ext (o : list MeleeOutput) (c c' : FLyraCollidingComponent) : Prop :=
  CollidingComponent c' = CollidingComponent c /\ Sockets c' = Sockets c /\
  HitActors c' = HitActors c ++ hits_of (CollidingComponent c) o /\
  (NoDup (HitActors c) -> NoDup (HitActors c')).

Section Hits.
  Variable cfg : MeleeConfig.
  Variable es : MeleeStatic.

(** A hit result the sweep returned with the pawn and [IgnoredActors]
    among the actors to ignore. *)
Definition from_trace (f : MeleeFrame) (hr : FHitResult) : Prop :=
  exists st en ign, hr ∈ snd (SphereTraceMultiForObjects f st en ign) /\
    GetPawn es ∈ ign /\ IgnoredActors cfg ⊆ ign.

(** A reported hit: on one of [ids], sent to the pawn under the hit
    tag, on an actor of a class not ignored, through a profile not
    ignored, returned by a sweep of one of [frames]. *)
Definition good_hit (frames : list MeleeFrame) (ids : list ComponentId) (o : MeleeOutput) : Prop :=
  match o with
  | OnWeaponHit comp hr pawn tag p =>
      comp ∈ ids /\ pawn = GetPawn es /\ tag = TAG_MeleeWeaponHit /\ EvTarget p = HitActor hr /\
      exists a, HitActor hr = Some a /\ IsIgnoredClass cfg es (GetClass es a) = false /\
        exists f, f ∈ frames /\
          IsIgnoredProfileName cfg (GetCollisionProfileName f (HitComponent hr)) = false /\
          from_trace f hr
  | OnEquipmentUnequipped => False
  end.

(** The invariant of an equipped weapon: once a tick has run, every
    socket of every valid component has its last location recorded;
    the components are distinct and none has hit an actor twice; the
    timer is set, and a tick has run, only while collision is active
    (and the timer only when a world exists). *)
Definition locs_ok (s : MeleeState) : Prop :=
  bCanPerformTrace s = true ->
  forall c, c ∈ ActiveCollidingComponents s -> IsValid s c = true ->
  forall sk, sk ∈ Sockets c ->
  is_Some (LastFrameSocketLocations s !! GenerateUniqueSocketName es (CollidingComponent c) sk).

(** A sweep that never returns an actor it was told to ignore. *)
Definition trace_honours_ignores (f : MeleeFrame) : Prop :=
  forall st en ign hr a, hr ∈ snd (SphereTraceMultiForObjects f st en ign) -> HitActor hr = Some a -> a ∉ ign.

Definition melee_inv (s : MeleeState) : Prop :=
  locs_ok s /\ NoDup (map CollidingComponent (ActiveCollidingComponents s)) /\
  Forall (fun c => NoDup (HitActors c)) (ActiveCollidingComponents s) /\
  (TimerSet s = true -> bIsCollisionActivated s = true /\ HasWorld es = true) /\
  (bCanPerformTrace s = true -> bIsCollisionActivated s = true).

End Hits.

(** ** Lemmas on the bookkeeping *)

Lemma Contains_false l a : Contains l a = false -> a ∉ l.
Proof.
  unfold Contains. intros H Hin. apply list_elem_of_In in Hin.
  assert (existsb (Nat.eqb a) l = true) as Ht by (apply existsb_exists; exists a; split; [done|apply Nat.eqb_refl]).
  congruence.
Qed.

Lemma hits_of_app comp o1 o2 : hits_of comp (o1 ++ o2) = hits_of comp o1 ++ hits_of comp o2.
Proof. apply flat_map_app. Qed.

Lemma add_outputs_nil s : add_outputs [] s = s.
Proof. destruct s; cbn; by rewrite app_nil_r. Qed.

Lemma add_outputs_app o1 o2 s : add_outputs o2 (add_outputs o1 s) = add_outputs (o1 ++ o2) s.
Proof. destruct s; cbn; by rewrite app_assoc. Qed.

Lemma emit_melee_add x s : emit_melee x s = Ok (tt, add_outputs [x] s).
Proof. by destruct s. Qed.

(** What adding outputs keeps. *)
Lemma add_outputs_fields o s :
  ActiveCollidingComponents (add_outputs o s) = ActiveCollidingComponents s /\
  bIsCollisionActivated (add_outputs o s) = bIsCollisionActivated s /\
  bCanPerformTrace (add_outputs o s) = bCanPerformTrace s /\
  TimerSet (add_outputs o s) = TimerSet s /\
  LastFrameSocketLocations (add_outputs o s) = LastFrameSocketLocations s /\
  Destroyed (add_outputs o s) = Destroyed s /\
  MeleeOutputs (add_outputs o s) = MeleeOutputs s ++ o.
Proof. by destruct s. Qed.

Lemma comp_ext_nil c : comp_ext [] c c.
Proof. unfold comp_ext. cbn. rewrite app_nil_r. auto. Qed.

Lemma comp_ext_trans o1 o2 c c1 c2 :
  comp_ext o1 c c1 -> comp_ext o2 c1 c2 -> comp_ext (o1 ++ o2) c c2.
Proof.
  intros (E1 & S1 & H1 & N1) (E2 & S2 & H2 & N2). unfold comp_ext.
  split_and!; [congruence|congruence|by rewrite H2, H1, E1, hits_of_app, app_assoc|auto].
Qed.

(** Outputs of other components do not count for [comp]. *)
Lemma comp_ext_app_other o1 o2 c c' :
  comp_ext o1 c c' -> hits_of (CollidingComponent c) o2 = [] -> comp_ext (o1 ++ o2) c c'.
Proof.
  intros (E & S & H & N) Ho. unfold comp_ext. by rewrite hits_of_app, Ho, app_nil_r.
Qed.

Lemma comp_ext_other_app o1 o2 c c' :
  hits_of (CollidingComponent c) o1 = [] -> comp_ext o2 c c' -> comp_ext (o1 ++ o2) c c'.
Proof. intros Ho (E & S & H & N). unfold comp_ext. by rewrite hits_of_app, Ho. Qed.

Section HitLemmas.
  Variable cfg : MeleeConfig.
  Variable es : MeleeStatic.

Lemma good_hit_mono frames frames' ids ids' o :
  frames ⊆ frames' -> ids ⊆ ids' -> good_hit cfg es frames ids o -> good_hit cfg es frames' ids' o.
Proof.
  intros Hf Hi. destruct o as [comp hr pawn tag p|]; [|done]. cbn.
  intros (Hc & Hp & Ht & He & a & Ha & Hcl & f & Hin & Hpr & Htr). split_and!; [set_solver|done..|].
  exists a. split_and!; [done|done|]. exists f. split_and!; [set_solver|done|done].
Qed.

Lemma hits_of_good_other frames ids o comp :
  Forall (good_hit cfg es frames ids) o -> comp ∉ ids -> hits_of comp o = [].
Proof.
  induction 1 as [|x o Hx _ IH]; intros Hn; [done|].
  change (hit_target comp x ++ hits_of comp o = []). rewrite IH by done. rewrite app_nil_r.
  destruct x as [c hr pawn tag p|]; [|done]. cbn in Hx |- *. destruct Hx as (Hc & _).
  destruct (Nat.eqb_spec c comp); [subst; done|done].
Qed.

(** ProcessHitResult on a hit the sweep returned. *)
Lemma ProcessHitResult_spec f hr c s :
  from_trace cfg es f hr ->
  exists c' o, ProcessHitResult cfg es f hr c s = Ok (c', add_outputs o s) /\ comp_ext o c c' /\
    Forall (good_hit cfg es [f] [CollidingComponent c]) o.
Proof.
  intros Htr. unfold ProcessHitResult.
  destruct (HitActor hr) as [a|] eqn:Ha;
    [|exists c, []; rewrite add_outputs_nil; split_and!; [done|apply comp_ext_nil|constructor]].
  destruct (Contains (HitActors c) a) eqn:Hc; cbn [negb andb];
    [exists c, []; rewrite add_outputs_nil; split_and!; [done|apply comp_ext_nil|constructor]|].
  destruct (IsIgnoredClass cfg es (GetClass es a)) eqn:Hcl; cbn [negb andb];
    [exists c, []; rewrite add_outputs_nil; split_and!; [done|apply comp_ext_nil|constructor]|].
  destruct (IsIgnoredProfileName cfg (GetCollisionProfileName f (HitComponent hr))) eqn:Hpr; cbn [negb andb];
    [exists c, []; rewrite add_outputs_nil; split_and!; [done|apply comp_ext_nil|constructor]|].
  eexists _, [OnWeaponHit (CollidingComponent c) hr (GetPawn es) TAG_MeleeWeaponHit
                {| EvInstigator := GetController f; EvTarget := HitActor hr; EvTargetData := hr |}].
  unfold OnWeaponHit_Implementation. rewrite (st_bind_ok _ _ _ _ _ (emit_melee_add _ s)).
  split_and!; [reflexivity| |].
  - unfold comp_ext. cbn. rewrite Nat.eqb_refl, Ha. split_and!; [done..|].
    intros Hn. apply NoDup_app. split_and!; [done| |apply NoDup_singleton].
    intros x Hx ->%list_elem_of_singleton. by apply (Contains_false _ _ Hc).
  - apply Forall_singleton. cbn. split_and!; [set_solver|done..|]. exists a. split_and!; [done|done|].
    exists f. split_and!; [set_solver|done|done].
Qed.

(** The hits of one sweep, in order. *)
Lemma ProcessHitResults_spec f hs c s :
  Forall (from_trace cfg es f) hs ->
  exists c' o, ProcessHitResults cfg es f hs c s = Ok (c', add_outputs o s) /\ comp_ext o c c' /\
    Forall (good_hit cfg es [f] [CollidingComponent c]) o.
Proof.
  revert c s. induction hs as [|hr hs IH]; intros c s Hf.
  - exists c, []. rewrite add_outputs_nil. split_and!; [done|apply comp_ext_nil|constructor].
  - inversion Hf as [|? ? Hhr Hhs]; subst. cbn [ProcessHitResults].
    destruct (ProcessHitResult_spec f hr c s Hhr) as (c1 & o1 & Hr1 & E1 & G1).
    rewrite (st_bind_ok _ _ _ _ _ Hr1).
    destruct (IH c1 (add_outputs o1 s) Hhs) as (c2 & o2 & Hr2 & E2 & G2).
    exists c2, (o1 ++ o2). rewrite Hr2, add_outputs_app. split_and!; [done|by eapply comp_ext_trans|].
    destruct E1 as (Hid & _). rewrite Hid in G2. by apply Forall_app.
Qed.

(** One component's sweeps, when every socket's last location is recorded. *)
Lemma HandleSockets_spec f socks c s :
  (forall sk, sk ∈ socks ->
     is_Some (LastFrameSocketLocations s !! GenerateUniqueSocketName es (CollidingComponent c) sk)) ->
  exists c' o, HandleSockets cfg es f socks c s = Ok (c', add_outputs o s) /\ comp_ext o c c' /\
    Forall (good_hit cfg es [f] [CollidingComponent c]) o.
Proof.
  revert c s. induction socks as [|sk socks IH]; intros c s Hk.
  - exists c, []. rewrite add_outputs_nil. split_and!; [done|apply comp_ext_nil|constructor].
  - cbn [HandleSockets]. rewrite st_bind_get.
    destruct (Hk sk ltac:(set_solver)) as [StartTrace Hv]. rewrite Hv.
    destruct (SphereTraceMultiForObjects f StartTrace (GetSocketLocation f c sk)
                (HitActors c ++ [GetPawn es] ++ IgnoredActors cfg)) as [WasHit HitResults] eqn:Hs.
    assert (H1 : exists c1 o1,
      (if WasHit then ProcessHitResults cfg es f HitResults c else st_ret c) s = Ok (c1, add_outputs o1 s) /\
      comp_ext o1 c c1 /\ Forall (good_hit cfg es [f] [CollidingComponent c]) o1).
    { destruct WasHit; [|exists c, []; rewrite add_outputs_nil; split_and!; [done|apply comp_ext_nil|constructor]].
      apply ProcessHitResults_spec. apply Forall_forall. intros hr Hhr.
      exists StartTrace, (GetSocketLocation f c sk), (HitActors c ++ [GetPawn es] ++ IgnoredActors cfg).
      rewrite Hs. split_and!; [done|set_solver|set_solver]. }
    destruct H1 as (c1 & o1 & Hr1 & E1 & G1). rewrite (st_bind_ok _ _ _ _ _ Hr1).
    destruct E1 as [Hid E1'].
    destruct (IH c1 (add_outputs o1 s)) as (c2 & o2 & Hr2 & E2 & G2).
    { intros sk' Hsk'. rewrite Hid. destruct (add_outputs_fields o1 s) as (_ & _ & _ & _ & -> & _).
      apply Hk. set_solver. }
    exists c2, (o1 ++ o2). rewrite Hr2, add_outputs_app. split_and!; [done|by eapply comp_ext_trans; [split|]|].
    rewrite Hid in G2. by apply Forall_app.
Qed.

Lemma comp_ext_prepend o1 o2 cs cs' :
  Forall (fun c => hits_of (CollidingComponent c) o1 = []) cs ->
  Forall2 (comp_ext o2) cs cs' -> Forall2 (comp_ext (o1 ++ o2)) cs cs'.
Proof.
  intros Hn H2. induction H2 as [|c c' cs cs' Hc _ IH]; [constructor|].
  inversion Hn; subst. constructor; [by apply comp_ext_other_app|by apply IH].
Qed.

Lemma comp_ext_ids o cs cs' :
  Forall2 (comp_ext o) cs cs' -> map CollidingComponent cs' = map CollidingComponent cs.
Proof. induction 1 as [|c c' cs cs' (E & _) _ IH]; [done|]. cbn. by rewrite E, IH. Qed.

(** The sweeps of all valid components, each updated in place. *)
Lemma PerformTraceCheck_loop_spec f cs s :
  NoDup (map CollidingComponent cs) ->
  (forall c, c ∈ cs -> IsValid s c = true -> forall sk, sk ∈ Sockets c ->
     is_Some (LastFrameSocketLocations s !! GenerateUniqueSocketName es (CollidingComponent c) sk)) ->
  exists cs' o, PerformTraceCheck_loop cfg es f cs s = Ok (cs', add_outputs o s) /\
    Forall2 (comp_ext o) cs cs' /\ Forall (good_hit cfg es [f] (map CollidingComponent cs)) o.
Proof.
  revert s. induction cs as [|c cs IH]; intros s Hnd Hk.
  - exists [], []. rewrite add_outputs_nil. split_and!; [done|constructor|constructor].
  - cbn [PerformTraceCheck_loop]. rewrite st_bind_get. apply NoDup_cons in Hnd as [Hnin Hnd].
    assert (H1 : exists c1 o1,
      (if IsValid s c then HandleComponent cfg es f c else st_ret c) s = Ok (c1, add_outputs o1 s) /\
      comp_ext o1 c c1 /\ Forall (good_hit cfg es [f] [CollidingComponent c]) o1).
    { destruct (IsValid s c) eqn:Hv;
        [|exists c, []; rewrite add_outputs_nil; split_and!; [done|apply comp_ext_nil|constructor]].
      apply HandleSockets_spec. intros sk Hsk. apply Hk; [set_solver|done|done]. }
    destruct H1 as (c1 & o1 & Hr1 & E1 & G1). rewrite (st_bind_ok _ _ _ _ _ Hr1).
    destruct (add_outputs_fields o1 s) as (_ & _ & _ & _ & HL & HD & _).
    destruct (IH (add_outputs o1 s) Hnd) as (cs2 & o2 & Hr2 & E2 & G2).
    { intros c' Hc' Hv sk Hsk. rewrite HL. apply Hk; [set_solver| |done].
      unfold IsValid in *. by rewrite HD in Hv. }
    rewrite (st_bind_ok _ _ _ _ _ Hr2). exists (c1 :: cs2), (o1 ++ o2). rewrite add_outputs_app.
    split_and!; [done| |].
    + constructor.
      * apply comp_ext_app_other; [done|]. eapply hits_of_good_other; [exact G2|done].
      * apply comp_ext_prepend; [|done]. apply Forall_forall. intros c' Hc'.
        eapply hits_of_good_other; [exact G1|]. intros Heq%list_elem_of_singleton.
        apply Hnin. rewrite <- Heq. by apply (list_elem_of_fmap_2 CollidingComponent).
    + apply Forall_app. split.
      * eapply Forall_impl; [exact G1|]. intros x. apply good_hit_mono; set_solver.
      * eapply Forall_impl; [exact G2|]. intros x. apply good_hit_mono; set_solver.
Qed.

(** Recording socket locations: keys already present stay, and every
    socket of every valid component gets its key. *)
Lemma foldl_insert_is_Some {A} (g : FName -> FName) (v : FName -> A) (l : list FName) (m : gmap FName A) k :
  is_Some (m !! k) \/ (exists x, x ∈ l /\ k = g x) ->
  is_Some (foldl (fun m x => <[g x := v x]> m) m l !! k).
Proof.
  revert m. induction l as [|x l IH]; intros m Hk; cbn.
  - destruct Hk as [Hk|(x & Hx & _)]; [done|set_solver].
  - apply IH. destruct Hk as [Hk|(y & Hy & ->)].
    + left. apply lookup_insert_is_Some'. by right.
    + apply elem_of_cons in Hy as [->|Hy]; [left; apply lookup_insert_is_Some'; by left|right; eauto].
Qed.

Lemma UpdateSocketLocations_keys f (valid : FLyraCollidingComponent -> bool) cs m k :
  is_Some (m !! k) \/
  (exists c sk, c ∈ cs /\ valid c = true /\ sk ∈ Sockets c /\
     k = GenerateUniqueSocketName es (CollidingComponent c) sk) ->
  is_Some (foldl (fun m c => if valid c then UpdateComponentLocations es f m c else m) m cs !! k).
Proof.
  revert m. induction cs as [|c cs IH]; intros m Hk; cbn.
  - destruct Hk as [Hk|(c & sk & Hc & _)]; [done|set_solver].
  - apply IH. destruct Hk as [Hk|(c' & sk & Hc' & Hv & Hsk & ->)].
    + left. destruct (valid c); [|done]. apply foldl_insert_is_Some. by left.
    + apply elem_of_cons in Hc' as [->|Hc']; [|right; eauto 10].
      left. rewrite Hv. apply foldl_insert_is_Some. right. eauto.
Qed.

Lemma comp_ext_refl cs : Forall2 (comp_ext []) cs cs.
Proof. induction cs; constructor; [apply comp_ext_nil|done]. Qed.

Lemma comp_ext_nodup o cs cs' :
  Forall2 (comp_ext o) cs cs' -> Forall (fun c => NoDup (HitActors c)) cs ->
  Forall (fun c => NoDup (HitActors c)) cs'.
Proof.
  induction 1 as [|c c' cs cs' (_ & _ & _ & N) _ IH]; intros Hn; [constructor|].
  inversion Hn; subst. constructor; auto.
Qed.

Lemma comp_ext_compose o1 o2 cs cs1 cs2 :
  Forall2 (comp_ext o1) cs cs1 -> Forall2 (comp_ext o2) cs1 cs2 -> Forall2 (comp_ext (o1 ++ o2)) cs cs2.
Proof.
  intros H1. revert cs2. induction H1 as [|c c1 cs cs1 E1 _ IH]; intros cs2 H2; inversion H2; subst;
    constructor; [by eapply comp_ext_trans|by apply IH].
Qed.

(** One tick of the trace loop, under the invariant: it does not fault,
    keeps the invariant, and its hits are the ones each component
    appended to [HitActors]. *)
Lemma TraceCheckLoop_spec f s :
  melee_inv es s -> bIsCollisionActivated s = true ->
  exists s' o, TraceCheckLoop cfg es f s = Ok (tt, s') /\ melee_inv es s' /\
    MeleeOutputs s' = MeleeOutputs s ++ o /\
    Forall2 (comp_ext o) (ActiveCollidingComponents s) (ActiveCollidingComponents s') /\
    Forall (good_hit cfg es [f] (map CollidingComponent (ActiveCollidingComponents s))) o /\
    bIsCollisionActivated s' = bIsCollisionActivated s /\ TimerSet s' = TimerSet s /\
    Destroyed s' = Destroyed s /\ bCanPerformTrace s' = true /\
    (bCanPerformTrace s = false -> o = []).
Proof.
  destruct s as [cs act can ts m d out]. intros (Hl & Hnd & Hha & Ht & Hca) Ha.
  cbn in Hl, Hnd, Hha, Ht, Hca, Ha.
  unfold TraceCheckLoop. rewrite st_bind_get. cbn [bCanPerformTrace].
  assert (H1 : exists cs' o,
    (if can then PerformTraceCheck cfg es f else st_ret tt) (Build_MeleeState cs act can ts m d out) =
      Ok (tt, Build_MeleeState cs' act can ts m d (out ++ o)) /\
    Forall2 (comp_ext o) cs cs' /\ Forall (good_hit cfg es [f] (map CollidingComponent cs)) o /\
    (can = false -> o = [])).
  { destruct can.
    - unfold PerformTraceCheck. rewrite st_bind_get. cbn [ActiveCollidingComponents].
      destruct (PerformTraceCheck_loop_spec f cs (Build_MeleeState cs act true ts m d out) Hnd)
        as (cs' & o & Hr & E & G); [by apply Hl|].
      rewrite (st_bind_ok _ _ _ _ _ Hr). by exists cs', o.
    - exists cs, []. rewrite app_nil_r. split_and!; [done|apply comp_ext_refl|constructor|done]. }
  destruct H1 as (cs' & o & Hr & E & G & Hnil). rewrite (st_bind_ok _ _ _ _ _ Hr).
  eexists _, o. split; [reflexivity|]. unfold melee_inv, locs_ok. cbn.
  split_and!; [|by rewrite (comp_ext_ids _ _ _ E)|by eapply comp_ext_nodup|done..].
  intros _ c Hc Hv sk Hsk. apply UpdateSocketLocations_keys. right. eauto 10.
Qed.

End HitLemmas.

(** ** The calls on the invariant *)

Lemma map_id_set_hit l cs :
  map CollidingComponent (map (set_hit_actors l) cs) = map CollidingComponent cs.
Proof. induction cs as [|c cs IH]; cbn; congruence. Qed.

Lemma comp_ext_nil_cleared cs cs' :
  Forall2 (comp_ext []) (map (set_hit_actors []) cs) cs' -> Forall (fun c => HitActors c = []) cs'.
Proof.
  revert cs'. induction cs as [|c cs IH]; intros cs' H; inversion H as [|x c' y cs'' (_ & _ & Hh & _) Ht]; subst;
    constructor; [by rewrite Hh|by apply IH].
Qed.

Section Steps.
  Variable cfg : MeleeConfig.
  Variable es : MeleeStatic.

Lemma ClearHitActors_spec s :
  melee_inv es s ->
  exists s', ClearHitActors s = Ok (tt, s') /\ melee_inv es s' /\
    ActiveCollidingComponents s' = map (set_hit_actors []) (ActiveCollidingComponents s) /\
    MeleeOutputs s' = MeleeOutputs s /\ bIsCollisionActivated s' = bIsCollisionActivated s /\
    bCanPerformTrace s' = bCanPerformTrace s /\ TimerSet s' = TimerSet s /\ Destroyed s' = Destroyed s.
Proof.
  destruct s as [cs act can ts m d out]. intros (Hl & Hnd & Hha & Ht & Hca).
  eexists. split; [reflexivity|]. unfold melee_inv, locs_ok in *; cbn in *.
  split_and!; try done.
  - intros Hcan c Hc Hv sk Hsk. apply list_elem_of_fmap in Hc as (c0 & -> & Hc0).
    exact (Hl Hcan c0 Hc0 Hv sk Hsk).
  - by rewrite map_id_set_hit.
  - apply Forall_forall. intros c Hc. apply list_elem_of_fmap in Hc as (c0 & -> & _). constructor.
Qed.

Lemma DeactivateCollision_spec s :
  melee_inv es s ->
  exists s', DeactivateCollision es s = Ok (tt, s') /\ melee_inv es s' /\
    ActiveCollidingComponents s' = ActiveCollidingComponents s /\ MeleeOutputs s' = MeleeOutputs s /\
    bIsCollisionActivated s' = false /\ bCanPerformTrace s' = false /\ TimerSet s' = false /\
    Destroyed s' = Destroyed s.
Proof.
  destruct s as [cs act can ts m d out]. intros Hinv. pose proof Hinv as (Hl & Hnd & Hha & Ht & Hca).
  cbn in Ht, Hca. unfold DeactivateCollision. rewrite st_bind_get. cbn [bIsCollisionActivated].
  destruct act.
  - assert (Hts : (if HasWorld es then false else ts) = false).
    { destruct (HasWorld es); [done|]. destruct ts; [by destruct (Ht eq_refl)|done]. }
    eexists. split; [reflexivity|]. cbn. rewrite Hts. unfold melee_inv, locs_ok in *; cbn in *.
    split_and!; done.
  - destruct ts; [by destruct (Ht eq_refl)|]. destruct can; [by discriminate Hca|].
    by eexists.
Qed.

(** Activation: from an inactive weapon, no hit is reported, every
    component's [HitActors] is emptied, and with a world the first tick
    has recorded the socket locations and the timer is set. *)
Lemma ActivateCollision_spec f s :
  melee_inv es s ->
  exists s', ActivateCollision cfg es f s = Ok (tt, s') /\ melee_inv es s' /\
    (bIsCollisionActivated s = false ->
       MeleeOutputs s' = MeleeOutputs s /\ Forall (fun c => HitActors c = []) (ActiveCollidingComponents s') /\
       map CollidingComponent (ActiveCollidingComponents s') =
         map CollidingComponent (ActiveCollidingComponents s) /\
       bIsCollisionActivated s' = true /\ TimerSet s' = HasWorld es /\ bCanPerformTrace s' = HasWorld es).
Proof.
  destruct s as [cs act can ts m d out]. intros Hinv. pose proof Hinv as (Hl & Hnd & Hha & Ht & Hca).
  cbn in Ht, Hca. unfold ActivateCollision. rewrite st_bind_get. cbn [bIsCollisionActivated negb].
  destruct act; [exists (Build_MeleeState cs true can ts m d out); split_and!; done|].
  destruct ts; [by destruct (Ht eq_refl)|]. destruct can; [by discriminate Hca|].
  cbn [negb]. rewrite st_bind_modify. cbn [set_flags].
  destruct (ClearHitActors_spec (Build_MeleeState cs true false false m d out)) as (s2 & Hr2 & Hi2 & Hc2 & Ho2 & Ha2 & Hp2 & Ht2 & Hd2).
  { unfold melee_inv, locs_ok in *; cbn in *. split_and!; done. }
  rewrite (st_bind_ok _ _ _ _ _ Hr2). cbn in Hc2, Ho2, Ha2, Hp2, Ht2.
  destruct (HasWorld es) eqn:Hw.
  - destruct (TraceCheckLoop_spec cfg es f s2 Hi2 Ha2)
      as (s3 & o & Hr3 & Hi3 & Ho3 & E3 & _ & Ha3 & Ht3 & _ & Hp3 & Hnil).
    specialize (Hnil Hp2). subst o. rewrite (st_bind_ok _ _ _ _ _ Hr3). rewrite Hc2 in E3.
    destruct s3 as [cs3 act3 can3 ts3 m3 d3 out3]. cbn in Ho3, Ha3, Ht3, Hp3 |- *.
    subst act3 ts3 can3 out3. rewrite Ha2, Ho2, app_nil_r.
    eexists. split; [reflexivity|].
    destruct Hi3 as (Hl3 & Hnd3 & Hha3 & _ & _). unfold melee_inv, locs_ok in *; cbn in *.
    split.
    + split_and!; try done. all: intros; by split.
    + intros _. split_and!; [done|by eapply comp_ext_nil_cleared|
        by rewrite (comp_ext_ids _ _ _ E3), map_id_set_hit|done..].
  - exists s2. split_and!; [done|done|]. intros _. cbn. rewrite Ho2, Ha2, Ht2, Hp2, Hc2, map_id_set_hit.
    split_and!; [done| |done..].
    apply Forall_forall. intros c Hc. by apply list_elem_of_fmap in Hc as (c0 & -> & _).
Qed.

Lemma Contains_app_false l x a : Contains (l ++ [x]) a = false -> Contains l a = false.
Proof. unfold Contains. rewrite existsb_app. intros H. by apply orb_false_elim in H as [H _]. Qed.

Lemma timer_active s : melee_inv es s -> TimerSet s = true -> bIsCollisionActivated s = true.
Proof. intros (_ & _ & _ & Ht & _) H. by destruct (Ht H). Qed.

(** Every call keeps the invariant and does not fault. *)
Lemma run_melee_inv f call s :
  melee_inv es s -> exists s', run_melee cfg es f call s = Ok (tt, s') /\ melee_inv es s'.
Proof.
  intros Hinv. destruct call as [n|n|n| |c|]; cbn [run_melee].
  - unfold NotifyBegin. destruct (ResolveEquippedMeleeWeapon n); [|by exists s].
    destruct (ActivateCollision_spec f s Hinv) as (s' & ? & ? & _). eauto.
  - unfold NotifyEnd. destruct (ResolveEquippedMeleeWeapon n); [|by exists s].
    destruct (DeactivateCollision_spec s Hinv) as (s' & ? & ? & _). eauto.
  - unfold ClearHitActorsNotify. destruct (ResolveEquippedMeleeWeapon n); [|by exists s].
    destruct (ClearHitActors_spec s Hinv) as (s' & ? & ? & _). eauto.
  - rewrite st_bind_get. destruct (TimerSet s) eqn:Ht; [|by exists s].
    destruct (TraceCheckLoop_spec cfg es f s Hinv) as (s' & o & ? & ? & _); [by apply timer_active|]. eauto.
  - destruct s as [cs act can ts m d out]. eexists. split; [reflexivity|].
    destruct Hinv as (Hl & Hnd & Hha & Ht & Hca). unfold melee_inv, locs_ok in *; cbn in *.
    split_and!; try done. intros Hc c' Hc' Hv sk Hsk. apply Hl; [done|done| |done].
    unfold IsValid in *. cbn in *. apply negb_true_iff in Hv. apply negb_true_iff.
    by eapply Contains_app_false.
  - destruct s as [cs act can ts m d out]. eexists. split; [reflexivity|].
    destruct Hinv as (Hl & Hnd & Hha & Ht & Hca). unfold melee_inv, locs_ok in *; cbn in *.
    split_and!; try done. all: first [by constructor | set_solver].
Qed.

(** A call of the open window: its hits are the ones the components
    append to [HitActors], and all come from this call's sweeps. *)
Lemma window_step f call s :
  window_call call = true -> melee_inv es s ->
  exists s' o, run_melee cfg es f call s = Ok (tt, s') /\ melee_inv es s' /\
    MeleeOutputs s' = MeleeOutputs s ++ o /\
    Forall2 (comp_ext o) (ActiveCollidingComponents s) (ActiveCollidingComponents s') /\
    Forall (good_hit cfg es [f] (map CollidingComponent (ActiveCollidingComponents s))) o.
Proof.
  intros Hw Hinv. destruct call as [n|n|n| |c|]; try discriminate Hw; cbn [run_melee].
  - unfold NotifyEnd. destruct (ResolveEquippedMeleeWeapon n);
      [|exists s, []; rewrite app_nil_r; split_and!; [done|done|done|apply comp_ext_refl|constructor]].
    destruct (DeactivateCollision_spec s Hinv) as (s' & Hr & Hi & Hc & Ho & _).
    exists s', []. rewrite app_nil_r, Hc. split_and!; [done|done|done|apply comp_ext_refl|constructor].
  - rewrite st_bind_get. destruct (TimerSet s) eqn:Ht;
      [|exists s, []; rewrite app_nil_r; split_and!; [done|done|done|apply comp_ext_refl|constructor]].
    destruct (TraceCheckLoop_spec cfg es f s Hinv) as (s' & o & ? & ? & ? & ? & ? & _); [by apply timer_active|].
    exists s', o. eauto.
  - destruct (run_melee_inv f (CallDestroyComponent c) s Hinv) as (s' & Hr & Hi).
    exists s', []. cbn [run_melee] in Hr. destruct s. injection Hr as <-. cbn. rewrite app_nil_r.
    split_and!; [done|done|done|apply comp_ext_refl|constructor].
Qed.

(** A whole open window: the hits of all its calls. *)
Lemma window_spec fcs s :
  Forall (fun fc => window_call (snd fc) = true) fcs -> melee_inv es s ->
  exists s' o, run_seq cfg es fcs s = Ok (tt, s') /\ melee_inv es s' /\
    MeleeOutputs s' = MeleeOutputs s ++ o /\
    Forall2 (comp_ext o) (ActiveCollidingComponents s) (ActiveCollidingComponents s') /\
    Forall (good_hit cfg es (map fst fcs) (map CollidingComponent (ActiveCollidingComponents s))) o.
Proof.
  revert s. induction fcs as [|[f call] fcs IH]; intros s Hw Hinv.
  - exists s, []. rewrite app_nil_r. split_and!; [done|done|done|apply comp_ext_refl|constructor].
  - inversion Hw as [|? ? Hc Hws]; subst. cbn [run_seq].
    destruct (window_step f call s Hc Hinv) as (s1 & o1 & Hr1 & Hi1 & Ho1 & E1 & G1).
    rewrite (st_bind_ok _ _ _ _ _ Hr1).
    destruct (IH s1 Hws Hi1) as (s2 & o2 & Hr2 & Hi2 & Ho2 & E2 & G2).
    exists s2, (o1 ++ o2). rewrite Ho2, Ho1, app_assoc. split_and!; [done|done|done|by eapply comp_ext_compose|].
    rewrite (comp_ext_ids _ _ _ E1) in G2. apply Forall_app. split.
    + eapply Forall_impl; [exact G1|]. intros x. apply good_hit_mono; set_solver.
    + eapply Forall_impl; [exact G2|]. intros x. apply good_hit_mono; set_solver.
Qed.

Lemma run_seq_inv fcs s :
  melee_inv es s -> exists s', run_seq cfg es fcs s = Ok (tt, s') /\ melee_inv es s'.
Proof.
  revert s. induction fcs as [|[f call] fcs IH]; intros s Hinv; [by exists s|]. cbn [run_seq].
  destruct (run_melee_inv f call s Hinv) as (s1 & Hr1 & Hi1). rewrite (st_bind_ok _ _ _ _ _ Hr1). auto.
Qed.

Lemma equipped_components_fresh sp : Forall (fun c => HitActors c = []) (equipped_components sp).
Proof.
  induction sp as [|[[pc [|sk socks]]|] sp IH]; cbn; [constructor|done|constructor; [done|exact IH]|done].
Qed.

Lemma OnEquipped_inv sp :
  NoDup (map CollidingComponent (equipped_components sp)) ->
  exists s0, OnEquipped sp MeleeState_new = Ok (tt, s0) /\ melee_inv es s0.
Proof.
  intros Hnd. eexists. split; [reflexivity|]. unfold melee_inv, locs_ok. cbn.
  split_and!; [done|done| |done|done].
  eapply Forall_impl; [apply equipped_components_fresh|]. intros c ->. constructor.
Qed.

Lemma reached_inv sp fcs s :
  NoDup (map CollidingComponent (equipped_components sp)) -> reached cfg es sp fcs s -> melee_inv es s.
Proof.
  intros Hnd Hr. destruct (OnEquipped_inv sp Hnd) as (s0 & H0 & Hi0). unfold reached in Hr.
  rewrite (st_bind_ok _ _ _ _ _ H0) in Hr.
  destruct (run_seq_inv fcs s0 Hi0) as (s' & Hs' & Hi'). congruence.
Qed.

Lemma comp_ext_nodup_hits o cs cs' :
  Forall2 (comp_ext o) cs cs' -> Forall (fun c => NoDup (HitActors c)) cs ->
  Forall (fun c => NoDup (HitActors c ++ hits_of (CollidingComponent c) o)) cs.
Proof.
  induction 1 as [|c c' cs cs' (_ & _ & Hh & N) _ IH]; intros Hn; [constructor|].
  inversion Hn; subst. constructor; [rewrite <- Hh; auto|auto].
Qed.

(** While the window is closed, the calls that do not open it keep it
    closed and report no hit. *)
Lemma closed_step f call s :
  is_begin call = false -> melee_inv es s -> bIsCollisionActivated s = false ->
  exists s' o, run_melee cfg es f call s = Ok (tt, s') /\ melee_inv es s' /\
    bIsCollisionActivated s' = false /\ MeleeOutputs s' = MeleeOutputs s ++ o /\
    forall comp, hits_of comp o = [].
Proof.
  intros Hb Hinv Ha. destruct call as [n|n|n| |c|]; try discriminate Hb; cbn [run_melee].
  - unfold NotifyEnd. destruct (ResolveEquippedMeleeWeapon n); [|exists s, []; by rewrite app_nil_r].
    destruct (DeactivateCollision_spec s Hinv) as (s' & Hr & Hi & _ & Ho & Ha' & _).
    exists s', []. by rewrite app_nil_r.
  - unfold ClearHitActorsNotify. destruct (ResolveEquippedMeleeWeapon n); [|exists s, []; by rewrite app_nil_r].
    destruct (ClearHitActors_spec s Hinv) as (s' & Hr & Hi & _ & Ho & Ha' & _).
    exists s', []. rewrite app_nil_r. split_and!; try congruence. done.
  - rewrite st_bind_get. destruct (TimerSet s) eqn:Ht; [|exists s, []; by rewrite app_nil_r].
    by rewrite (timer_active s Hinv Ht) in Ha.
  - destruct (run_melee_inv f (CallDestroyComponent c) s Hinv) as (s' & Hr & Hi).
    exists s', []. cbn [run_melee] in Hr. destruct s. injection Hr as <-. cbn in *. by rewrite !app_nil_r.
  - destruct (run_melee_inv f CallOnUnequipped s Hinv) as (s' & Hr & Hi).
    exists s', [OnEquipmentUnequipped]. cbn [run_melee] in Hr. destruct s. injection Hr as <-. by cbn in *.
Qed.

Lemma closed_seq fcs s :
  Forall (fun fc => is_begin (snd fc) = false) fcs -> melee_inv es s -> bIsCollisionActivated s = false ->
  exists s' o, run_seq cfg es fcs s = Ok (tt, s') /\ MeleeOutputs s' = MeleeOutputs s ++ o /\
    forall comp, hits_of comp o = [].
Proof.
  revert s. induction fcs as [|[f call] fcs IH]; intros s Hb Hinv Ha; [exists s, []; by rewrite app_nil_r|].
  inversion Hb as [|? ? Hb1 Hbs]; subst. cbn [run_seq].
  destruct (closed_step f call s Hb1 Hinv Ha) as (s1 & o1 & Hr1 & Hi1 & Ha1 & Ho1 & Hh1).
  rewrite (st_bind_ok _ _ _ _ _ Hr1).
  destruct (IH s1 Hbs Hi1 Ha1) as (s2 & o2 & Hr2 & Ho2 & Hh2).
  exists s2, (o1 ++ o2). rewrite Ho2, Ho1, app_assoc. split_and!; [done|done|].
  intros comp. by rewrite hits_of_app, Hh1, Hh2.
Qed.

Lemma good_hit_comp frames cs x :
  good_hit cfg es frames (map CollidingComponent cs) x ->
  exists c, c ∈ cs /\ hit_target (CollidingComponent c) x <> [].
Proof.
  destruct x as [comp hr pawn tag p|]; [|done]. cbn. intros (Hc & _ & _ & He & a & Ha & _).
  apply list_elem_of_fmap in Hc as (c & -> & Hc). exists c. split; [done|].
  rewrite Nat.eqb_refl, He, Ha. discriminate.
Qed.

End Steps.

(** ** Theorems *)

Section Theorems.
  Variable cfg : MeleeConfig.
  Variable es : MeleeStatic.

(** C25: The trace loop never dereferences a missing socket location:
    a weapon equipped with distinct colliding components and then
    driven by any sequence of anim notifies, timer ticks, component
    destructions and the unequip runs every call without a fault. *)
Theorem melee_calls_never_fault sp fcs :
  NoDup (map CollidingComponent (equipped_components sp)) ->
  exists s, reached cfg es sp fcs s.
Proof.
  intros Hnd. destruct (OnEquipped_inv es sp Hnd) as (s0 & H0 & Hi0).
  destruct (run_seq_inv cfg es fcs s0 Hi0) as (s & Hs & _).
  exists s. unfold reached. by rewrite (st_bind_ok _ _ _ _ _ H0).
Qed.

(** C26: Each actor is hit at most once per component in a collision
    window: from any state the equipped weapon reaches, the timer ticks,
    the window's end and component destructions report every hit
    through a component of the weapon, and no component reports an
    actor twice or an actor already in its [HitActors]. *)
Theorem window_hits_once sp pre s fcs :
  NoDup (map CollidingComponent (equipped_components sp)) -> reached cfg es sp pre s ->
  Forall (fun fc => window_call (snd fc) = true) fcs ->
  exists s' o, run_seq cfg es fcs s = Ok (tt, s') /\ MeleeOutputs s' = MeleeOutputs s ++ o /\
    Forall (fun c => NoDup (HitActors c ++ hits_of (CollidingComponent c) o)) (ActiveCollidingComponents s) /\
    Forall (fun x => exists c, c ∈ ActiveCollidingComponents s /\ hit_target (CollidingComponent c) x <> []) o.
Proof.
  intros Hnd Hr Hw. pose proof (reached_inv cfg es sp pre s Hnd Hr) as Hinv.
  destruct (window_spec cfg es fcs s Hw Hinv) as (s' & o & Hrun & _ & Ho & E & G).
  exists s', o. split_and!; [done|done| |].
  - eapply comp_ext_nodup_hits; [exact E|apply Hinv].
  - eapply Forall_impl; [exact G|]. intros x. apply good_hit_comp.
Qed.

(** C27: Hits respect the ignore lists: when the physics sweeps honour
    the actors they are told to ignore, every hit reported in a window
    is an event [GameplayEvent.Montage.Hit] sent to the pawn about an
    actor that is not the pawn, not in [IgnoredActors] and not of an
    ignored class. *)
Theorem window_hits_respect_ignores sp pre s fcs :
  NoDup (map CollidingComponent (equipped_components sp)) -> reached cfg es sp pre s ->
  Forall (fun fc => window_call (snd fc) = true) fcs ->
  Forall (fun fc => trace_honours_ignores (fst fc)) fcs ->
  exists s' o, run_seq cfg es fcs s = Ok (tt, s') /\ MeleeOutputs s' = MeleeOutputs s ++ o /\
    Forall (fun x => exists comp hr p a,
      x = OnWeaponHit comp hr (GetPawn es) TAG_MeleeWeaponHit p /\ EvTarget p = Some a /\
      HitActor hr = Some a /\ a <> GetPawn es /\ a ∉ IgnoredActors cfg /\
      IsIgnoredClass cfg es (GetClass es a) = false) o.
Proof.
  intros Hnd Hr Hw Hh. pose proof (reached_inv cfg es sp pre s Hnd Hr) as Hinv.
  destruct (window_spec cfg es fcs s Hw Hinv) as (s' & o & Hrun & _ & Ho & _ & G).
  exists s', o. split_and!; [done|done|]. eapply Forall_impl; [exact G|].
  intros [comp hr pawn tag p|]; [|done].
  intros (_ & -> & -> & He & a & Ha & Hcl & f & Hf & _ & st & en & ign & Hin & Hp & Hig).
  apply list_elem_of_fmap in Hf as ([f' call] & -> & Hf). rewrite Forall_forall in Hh.
  pose proof (Hh _ Hf st en ign hr a Hin Ha) as Hn. cbn in Hn.
  exists comp, hr, p, a. split_and!; [done|congruence|done|intros ->; by apply Hn|set_solver|done].
Qed.

(** C28: A collision window opens fresh: when the notify window begins
    on the equipped, inactive weapon in a world, collision is activated,
    every component's [HitActors] is emptied, the first tick only
    records the socket locations (no hit is reported) and the timer is
    set. *)
Theorem NotifyBegin_opens_window sp pre s f n :
  NoDup (map CollidingComponent (equipped_components sp)) -> reached cfg es sp pre s ->
  bIsCollisionActivated s = false -> HasWorld es = true -> ResolveEquippedMeleeWeapon n = true ->
  exists s', run_melee cfg es f (CallNotifyBegin n) s = Ok (tt, s') /\ MeleeOutputs s' = MeleeOutputs s /\
    Forall (fun c => HitActors c = []) (ActiveCollidingComponents s') /\
    map CollidingComponent (ActiveCollidingComponents s') = map CollidingComponent (ActiveCollidingComponents s) /\
    bIsCollisionActivated s' = true /\ TimerSet s' = true /\ bCanPerformTrace s' = true.
Proof.
  intros Hnd Hr Ha Hw Hn. pose proof (reached_inv cfg es sp pre s Hnd Hr) as Hinv.
  destruct (ActivateCollision_spec cfg es f s Hinv) as (s' & Hrun & _ & Hx).
  destruct (Hx Ha) as (Ho & Hh & Hid & Ha' & Ht & Hc). rewrite Hw in Ht, Hc.
  exists s'. cbn [run_melee]. unfold NotifyBegin. rewrite Hn. by split_and!.
Qed.

(** C29: No hit outside a collision window: from a reached state whose
    collision is not active, any sequence of calls without a notify
    window begin (ends, clears, ticks, destructions, the unequip)
    reports no hit. *)
Theorem closed_window_no_hits sp pre s fcs :
  NoDup (map CollidingComponent (equipped_components sp)) -> reached cfg es sp pre s ->
  bIsCollisionActivated s = false -> Forall (fun fc => is_begin (snd fc) = false) fcs ->
  exists s' o, run_seq cfg es fcs s = Ok (tt, s') /\ MeleeOutputs s' = MeleeOutputs s ++ o /\
    forall comp, hits_of comp o = [].
Proof.
  intros Hnd Hr Ha Hb. exact (closed_seq cfg es fcs s Hb (reached_inv cfg es sp pre s Hnd Hr) Ha).
Qed.

End Theorems.

(** ** A sword on a concrete world *)

Definition melee_after (r : Result (unit * MeleeState)) : MeleeState :=
  match r with Ok (_, s) => s | Failed _ => MeleeState_new end.

Definition origin : FVector := {| VX := 0; VY := 0; VZ := 0 |}.

(** Component 1 is the blade, named "Blade"; component 2 is named
    "BladeT"; the pawn is actor 100, its controller 101. *)
Definition es_ex : MeleeStatic :=
  {| GetName := fun c => match c with 1%nat => "Blade" | 2%nat => "BladeT" | _ => "Other" end;
     GetClass := fun a => a; IsChildOf := Nat.eqb; GetPawn := 100%nat; HasWorld := true |}.

(** Actors of class 50 are ignored. *)
Definition cfg_ex : MeleeConfig :=
  ULyraMeleeWeaponInstance_config [50%nat] ["Pawn"] [] {| BaseDamage := 10; MaxDamage := 20 |} ∅.

Definition hit_on (a : ActorId) : FHitResult :=
  {| HitActor := Some a; HitComponent := (70 + a)%nat; HitLocation := origin |}.

(** Every sweep passes through actor 7 (twice: two of its components)
    and actor 50, and leaves out the actors it is told to ignore. *)
Definition frame_ex : MeleeFrame :=
  {| GetComponentLocation := fun _ => origin;
     GetSocketLocation_raw := fun _ _ => origin;
     GetCollisionProfileName := fun _ => "CharacterMesh";
     SphereTraceMultiForObjects := fun _ _ ign =>
       let hits := List.filter (fun hr => match HitActor hr with
                                          | Some a => negb (Contains ign a)
                                          | None => false
                                          end) [hit_on 7%nat; hit_on 7%nat; hit_on 50%nat] in
       (match hits with [] => false | _ => true end, hits);
     GetController := Some 101%nat |}.

Definition notify_ex : NotifyContext :=
  {| HasMeshComp := true; OwnerIsPawn := true; PawnHasController := true;
     ControllerHasQuickBar := true; EquippedIsThisWeapon := true |}.

(** A notify whose quick bar now holds another weapon. *)
Definition notify_other : NotifyContext :=
  {| HasMeshComp := true; OwnerIsPawn := true; PawnHasController := true;
     ControllerHasQuickBar := true; EquippedIsThisWeapon := false |}.

(** The sword's one spawned actor, with a mesh of two sockets, and an
    actor without primitive component. *)
Definition spawned_ex : list (option (ComponentId * list FName)) := [Some (1%nat, ["Tip"; "Hilt"]); None].

Definition open_ex : list (MeleeFrame * MeleeCall) := [(frame_ex, CallNotifyBegin notify_ex)].

Definition swing_ex : list (MeleeFrame * MeleeCall) :=
  [(frame_ex, CallTimer); (frame_ex, CallTimer); (frame_ex, CallNotifyEnd notify_ex)].

Definition s_idle : MeleeState :=
  melee_after ((OnEquipped spawned_ex ;;; run_seq cfg_ex es_ex []) MeleeState_new).

Definition s_open : MeleeState :=
  melee_after ((OnEquipped spawned_ex ;;; run_seq cfg_ex es_ex open_ex) MeleeState_new).

Lemma frame_ex_honours : trace_honours_ignores frame_ex.
Proof.
  intros st en ign hr a Hin Ha. cbv [frame_ex SphereTraceMultiForObjects] in Hin. cbv zeta in Hin. cbn [snd] in Hin. apply list_elem_of_In, filter_In in Hin as [_ Hk].
  rewrite Ha in Hk. apply Contains_false. by apply negb_true_iff.
Qed.

(** Two ticks of a swing, each sweeping both sockets through actor 7
    twice: the blade reports actor 7 once, and never actor 50. *)
Example swing_hits_actor_once :
  hits_of 1%nat (MeleeOutputs (melee_after (run_seq cfg_ex es_ex swing_ex s_open))) = [7%nat].
Proof. vm_compute. reflexivity. Qed.

(** GenerateUniqueSocketName concatenates without a separator: socket
    "TTip" of component "Blade" and socket "Tip" of component "BladeT"
    share the key, so one component's sweep would start from the
    other's location. *)
Example unique_socket_name_collision :
  GenerateUniqueSocketName es_ex 1%nat "TTip" = GenerateUniqueSocketName es_ex 2%nat "Tip".
Proof. reflexivity. Qed.

(** Unequipping inside a collision window leaves the trace timer
    running: OnUnequipped empties the components but neither clears
    [bIsCollisionActivated] nor the timer, and the window's end notify,
    which now finds another weapon in the quick bar, cannot stop it. *)
Example OnUnequipped_keeps_timer :
  let s := melee_after (run_seq cfg_ex es_ex
             [(frame_ex, CallOnUnequipped); (frame_ex, CallNotifyEnd notify_other)] s_open) in
  TimerSet s = true /\ bIsCollisionActivated s = true /\ ActiveCollidingComponents s = [].
Proof. vm_compute. split_and!; reflexivity. Qed.

Lemma spawned_ex_distinct : NoDup (map CollidingComponent (equipped_components spawned_ex)).
Proof. cbn. apply NoDup_singleton. Qed.

Lemma melee_calls_never_fault_witness :
  NoDup (map CollidingComponent (equipped_components spawned_ex)) /\
  exists s, reached cfg_ex es_ex spawned_ex (open_ex ++ swing_ex) s.
Proof.
  split; [exact spawned_ex_distinct|].
  exact (melee_calls_never_fault cfg_ex es_ex spawned_ex (open_ex ++ swing_ex) spawned_ex_distinct).
Defined.

Lemma window_hits_once_witness :
  reached cfg_ex es_ex spawned_ex open_ex s_open /\
  exists s' o, run_seq cfg_ex es_ex swing_ex s_open = Ok (tt, s') /\
    MeleeOutputs s' = MeleeOutputs s_open ++ o /\
    Forall (fun c => NoDup (HitActors c ++ hits_of (CollidingComponent c) o)) (ActiveCollidingComponents s_open) /\
    Forall (fun x => exists c, c ∈ ActiveCollidingComponents s_open /\ hit_target (CollidingComponent c) x <> []) o.
Proof.
  assert (Hr : reached cfg_ex es_ex spawned_ex open_ex s_open) by (vm_compute; reflexivity).
  assert (Hw : Forall (fun fc => window_call (snd fc) = true) swing_ex) by (repeat constructor).
  split; [exact Hr|].
  exact (window_hits_once cfg_ex es_ex spawned_ex open_ex s_open swing_ex spawned_ex_distinct Hr Hw).
Defined.

Lemma window_hits_respect_ignores_witness :
  Forall (fun fc => trace_honours_ignores (fst fc)) swing_ex /\
  exists s' o, run_seq cfg_ex es_ex swing_ex s_open = Ok (tt, s') /\
    MeleeOutputs s' = MeleeOutputs s_open ++ o /\
    Forall (fun x => exists comp hr p a,
      x = OnWeaponHit comp hr (GetPawn es_ex) TAG_MeleeWeaponHit p /\ EvTarget p = Some a /\
      HitActor hr = Some a /\ a <> GetPawn es_ex /\ a ∉ IgnoredActors cfg_ex /\
      IsIgnoredClass cfg_ex es_ex (GetClass es_ex a) = false) o.
Proof.
  assert (Hr : reached cfg_ex es_ex spawned_ex open_ex s_open) by (vm_compute; reflexivity).
  assert (Hw : Forall (fun fc => window_call (snd fc) = true) swing_ex) by (repeat constructor).
  assert (Hh : Forall (fun fc => trace_honours_ignores (fst fc)) swing_ex)
    by (repeat constructor; apply frame_ex_honours).
  split; [exact Hh|].
  exact (window_hits_respect_ignores cfg_ex es_ex spawned_ex open_ex s_open swing_ex spawned_ex_distinct Hr Hw Hh).
Defined.

Lemma NotifyBegin_opens_window_witness :
  bIsCollisionActivated s_idle = false /\
  exists s', run_melee cfg_ex es_ex frame_ex (CallNotifyBegin notify_ex) s_idle = Ok (tt, s') /\
    MeleeOutputs s' = MeleeOutputs s_idle /\
    Forall (fun c => HitActors c = []) (ActiveCollidingComponents s') /\
    map CollidingComponent (ActiveCollidingComponents s') = map CollidingComponent (ActiveCollidingComponents s_idle) /\
    bIsCollisionActivated s' = true /\ TimerSet s' = true /\ bCanPerformTrace s' = true.
Proof.
  assert (Hr : reached cfg_ex es_ex spawned_ex [] s_idle) by (vm_compute; reflexivity).
  assert (Ha : bIsCollisionActivated s_idle = false) by (vm_compute; reflexivity).
  split; [exact Ha|].
  exact (NotifyBegin_opens_window cfg_ex es_ex spawned_ex [] s_idle frame_ex notify_ex spawned_ex_distinct
           Hr Ha eq_refl eq_refl).
Defined.

Lemma closed_window_no_hits_witness :
  bIsCollisionActivated s_idle = false /\
  exists s' o, run_seq cfg_ex es_ex swing_ex s_idle = Ok (tt, s') /\
    MeleeOutputs s' = MeleeOutputs s_idle ++ o /\ forall comp, hits_of comp o = [].
Proof.
  assert (Hr : reached cfg_ex es_ex spawned_ex [] s_idle) by (vm_compute; reflexivity).
  assert (Ha : bIsCollisionActivated s_idle = false) by (vm_compute; reflexivity).
  assert (Hb : Forall (fun fc => is_begin (snd fc) = false) swing_ex) by (repeat constructor).
  split; [exact Ha|].
  exact (closed_window_no_hits cfg_ex es_ex spawned_ex [] s_idle swing_ex spawned_ex_distinct Hr Ha Hb).
Defined.

End MeleeWeapon.
