(* ===== verification/RangeGeometry.v ===== *)
(** * Targeting geometry of the range-target ability

    Models the geometry of
    src/LyraGame/AbilitySystem/Abilities/LyraGameplayAbility_RangeTarget.cpp:
    the random direction of a projectile in the spread cone
    ([VRandomConeNormalDistribution], lines 20-45), the location the
    weapon fires from ([GetTargetingSourceLocation], lines 329-343) and
    the targeting transform ([GetTargetingTransform], lines 345-426).

    Coordinates are rationals.  Sums, differences, scalings, dot
    products, the quaternion product and [FQuat::RotateVector] are
    polynomial and are computed exactly, as the engine writes them.
    What needs trigonometry, square roots, [pi] or powers of floats
    ([FQuat(FRotator)], [FRotator::Vector], [FVector::Rotation],
    [FVector::GetSafeNormal], [FQuat::Normalize], [FMath::Pow] and the
    degree conversions) is the record [FloatMath] of functions, which
    the theorems quantify over.  [FMath::FRand] is the generator's
    stream of numbers, read from its current position. *)

From S2P Require Import Prelude.
From Stdlib Require Import QArith.

Module RangeGeometry.

Local Open Scope Q_scope.

(** ** Vectors, rotators and quaternions *)

Record FVector := { VX : Q; VY : Q; VZ : Q }.

Definition ZeroVector : FVector := {| VX := 0; VY := 0; VZ := 0 |}.
Definition ForwardVector : FVector := {| VX := 1; VY := 0; VZ := 0 |}.

Definition vadd (a b : FVector) : FVector :=
  {| VX := VX a + VX b; VY := VY a + VY b; VZ := VZ a + VZ b |}.

Definition vsub (a b : FVector) : FVector :=
  {| VX := VX a - VX b; VY := VY a - VY b; VZ := VZ a - VZ b |}.

Definition vscale (a : FVector) (k : Q) : FVector :=
  {| VX := VX a * k; VY := VY a * k; VZ := VZ a * k |}.

(** [FVector::operator|], the dot product. *)
Definition vdot (a b : FVector) : Q := VX a * VX b + VY a * VY b + VZ a * VZ b.

Definition vcross (a b : FVector) : FVector :=
  {| VX := VY a * VZ b - VZ a * VY b;
     VY := VZ a * VX b - VX a * VZ b;
     VZ := VX a * VY b - VY a * VX b |}.

(** Equality of vectors up to [Qeq] on each coordinate. *)
Definition veq (a b : FVector) : Prop := VX a == VX b /\ VY a == VY b /\ VZ a == VZ b.

Record FRotator := { Pitch : Q; Yaw : Q; Roll : Q }.

Record FQuat := { QX : Q; QY : Q; QZ : Q; QW : Q }.

(** [FQuat::operator*], the Hamilton product. *)
Definition qmul (a b : FQuat) : FQuat :=
  {| QX := QW a * QX b + QX a * QW b + QY a * QZ b - QZ a * QY b;
     QY := QW a * QY b - QX a * QZ b + QY a * QW b + QZ a * QX b;
     QZ := QW a * QZ b + QX a * QY b - QY a * QX b + QZ a * QW b;
     QW := QW a * QW b - QX a * QX b - QY a * QY b - QZ a * QZ b |}.

(** [FQuat::RotateVector]: [V + W * T + Q x T] with [T = 2 (Q x V)]. *)
Definition QuatRotateVector (q : FQuat) (v : FVector) : FVector :=
  let Qv := {| VX := QX q; VY := QY q; VZ := QZ q |} in
  let TT := vscale (vcross Qv v) 2 in
  vadd (vadd v (vscale TT (QW q))) (vcross Qv TT).

(** An [FTransform] without scale: its rotation and translation. *)
Record FTransform := { Rotation : FQuat; Translation : FVector }.

(** [FTransform::GetUnitAxis(EAxis::X)]. *)
Definition GetUnitAxisX (t : FTransform) : FVector := QuatRotateVector (Rotation t) ForwardVector.

(** The float functions of the engine that are not polynomial. *)
Record FloatMath := {
  RadiansToDegrees : Q -> Q;
  DegreesToRadians : Q -> Q;
  Pow : Q -> Q -> Q;
  QuatOfRotator : FRotator -> FQuat;
  RotatorVector : FRotator -> FVector;
  VectorRotation : FVector -> FRotator;
  GetSafeNormal : FVector -> FVector;
  QuatNormalize : FQuat -> FQuat;
}.

(** [FTransform(FRotator, FVector)]. *)
Definition FTransform_of_rotator (m : FloatMath) (r : FRotator) (loc : FVector) : FTransform :=
  {| Rotation := QuatOfRotator m r; Translation := loc |}.

(** ** The spread cone *)

(** VRandomConeNormalDistribution, lines 20-45: [FRand] is the
    generator's stream and [k] its position; the result is the
    direction and the next position (two numbers are drawn inside a
    cone, none otherwise). *)
Definition VRandomConeNormalDistribution (m : FloatMath) (Dir : FVector) (ConeHalfAngleRad Exponent : Q)
    (FRand : nat -> Q) (k : nat) : FVector * nat :=
  if negb (Qle_bool ConeHalfAngleRad 0) then
    let ConeHalfAngleDegrees := RadiansToDegrees m ConeHalfAngleRad in
    let FromCenter := Pow m (FRand k) Exponent in
    let AngleFromCenter := FromCenter * ConeHalfAngleDegrees in
    let AngleAround := FRand (S k) * 360 in
    let DirQuat := QuatOfRotator m (VectorRotation m Dir) in
    let FromCenterQuat := QuatOfRotator m {| Pitch := 0; Yaw := AngleFromCenter; Roll := 0 |} in
    let AroundQuat := QuatOfRotator m {| Pitch := 0; Yaw := 0; Roll := AngleAround |} in
    let FinalDirectionQuat := QuatNormalize m (qmul (qmul DirQuat AroundQuat) FromCenterQuat) in
    (QuatRotateVector FinalDirectionQuat ForwardVector, S (S k))
  else (GetSafeNormal m Dir, k).

(** ** The targeting transform *)

(** [ELyraAbilityTargetingSource] (LyraGameplayAbility_RangedWeapon.h,
    outside src/). *)
Inductive ELyraAbilityTargetingSource :=
  | CameraTowardsFocus | PawnForward | PawnTowardsFocus
  | WeaponForward | WeaponTowardsFocus | Custom.

(** The controller of a pawn as [GetTargetingTransform] sees it: a
    player controller with its view point, or an AI or other controller
    with its control rotation. *)
Inductive TargetingController :=
  | PlayerController (ViewLoc : FVector) (ViewRot : FRotator)
  | AIController (ControlRotation : FRotator)
  | OtherController (ControlRotation : FRotator).

Record TargetingPawn := {
  ActorLocation : FVector;
  ActorQuat : FQuat;
  BaseEyeHeight : Q;
  PawnController : option TargetingController;
}.

(** GetTargetingSourceLocation, lines 329-343: [check(AvatarPawn)], then
    the pawn's location ([SourceRot] is unused). *)
Definition GetTargetingSourceLocation (AvatarPawn : option TargetingPawn) : Result FVector :=
  match AvatarPawn with
  | Some P => Ok (ActorLocation P)
  | None => Failed (CheckFailed "AvatarPawn")
  end.

Definition FocalDistance : Q := 1024.

Definition uses_focus (s : ELyraAbilityTargetingSource) : bool :=
  match s with CameraTowardsFocus | PawnTowardsFocus | WeaponTowardsFocus => true | _ => false end.

Definition from_weapon (s : ELyraAbilityTargetingSource) : bool :=
  match s with WeaponForward | WeaponTowardsFocus => true | _ => false end.

Definition towards_focus (s : ELyraAbilityTargetingSource) : bool :=
  match s with PawnTowardsFocus | WeaponTowardsFocus => true | _ => false end.

(** Lines 369-399: the camera location, its rotation and the focal
    point, for a pawn with a controller. *)
Definition focus_view (m : FloatMath) (Avatar : option TargetingPawn) (P : TargetingPawn)
    (C : TargetingController) : Result (FVector * FRotator * FVector) :=
  let view :=
    match C with
    | PlayerController l r => Ok (l, r)
    | AIController r | OtherController r =>
        match GetTargetingSourceLocation Avatar with Ok s => Ok (s, r) | Failed f => Failed f end
    end in
  match view with
  | Failed f => Failed f
  | Ok (CamLoc, CamRot) =>
      let AimDir := GetSafeNormal m (RotatorVector m CamRot) in
      let FocalLoc := vadd CamLoc (vscale AimDir FocalDistance) in
      match C with
      | PlayerController _ _ =>
          match GetTargetingSourceLocation Avatar with
          | Failed f => Failed f
          | Ok WeaponLoc =>
              let CamLoc' := vadd FocalLoc (vscale AimDir (vdot (vsub WeaponLoc FocalLoc) AimDir)) in
              Ok (CamLoc', CamRot, vadd CamLoc' (vscale AimDir FocalDistance))
          end
      | AIController _ =>
          Ok (vadd (ActorLocation P) {| VX := 0; VY := 0; VZ := BaseEyeHeight P |}, CamRot, FocalLoc)
      | OtherController _ => Ok (CamLoc, CamRot, FocalLoc)
      end
  end.

(** Lines 408-425: the source location, then a rotation towards the
    focal point when one was found and is wanted, else the pawn's. *)
Definition transform_from_source (m : FloatMath) (Avatar : option TargetingPawn) (P : TargetingPawn)
    (Source : ELyraAbilityTargetingSource) (FocalLoc : option FVector) : Result FTransform :=
  match (if from_weapon Source then GetTargetingSourceLocation Avatar else Ok (ActorLocation P)) with
  | Failed f => Failed f
  | Ok SourceLoc =>
      match FocalLoc with
      | Some F =>
          if towards_focus Source
          then Ok (FTransform_of_rotator m (VectorRotation m (vsub F SourceLoc)) SourceLoc)
          else Ok {| Rotation := ActorQuat P; Translation := SourceLoc |}
      | None => Ok {| Rotation := ActorQuat P; Translation := SourceLoc |}
      end
  end.

(** GetTargetingTransform, lines 345-426. *)
Definition GetTargetingTransform (m : FloatMath) (Avatar SourcePawn : option TargetingPawn)
    (Source : ELyraAbilityTargetingSource) : Result FTransform :=
  match SourcePawn with
  | None => Failed (CheckFailed "SourcePawn")
  | Some P =>
      if match Source with Custom => true | _ => false end
      then Failed (CheckFailed "Source != ELyraAbilityTargetingSource::Custom")
      else
        match PawnController P with
        | Some C =>
            if uses_focus Source then
              match focus_view m Avatar P C with
              | Failed f => Failed f
              | Ok (CamLoc, CamRot, FocalLoc) =>
                  match Source with
                  | CameraTowardsFocus => Ok (FTransform_of_rotator m CamRot CamLoc)
                  | _ => transform_from_source m Avatar P Source (Some FocalLoc)
                  end
              end
            else transform_from_source m Avatar P Source None
        | None => transform_from_source m Avatar P Source None
        end
  end.

(** ** Lemmas *)

(** The point [F + ((W - F) | d) d] is the foot of the perpendicular
    from [W] to the line through [F] along the unit vector [d]. *)
Lemma vdot_proj_orth (w f d : FVector) :
  vdot d d == 1 -> vdot (vsub w (vadd f (vscale d (vdot (vsub w f) d)))) d == 0.
Proof.
  intros Hd. transitivity (vdot (vsub w f) d * (1 - vdot d d)).
  - unfold vdot, vsub, vadd, vscale; cbn. ring.
  - rewrite Hd. ring.
Qed.

Lemma vadd_scale_assoc (l d : FVector) (a b : Q) :
  veq (vadd (vadd l (vscale d a)) (vscale d b)) (vadd l (vscale d (a + b))).
Proof. unfold veq, vadd, vscale; cbn. split_and!; ring. Qed.

(** A cone draws two numbers of the generator, a null spread none. *)
Lemma VRandomConeNormalDistribution_draws m Dir a e FRand k :
  snd (VRandomConeNormalDistribution m Dir a e FRand k) = (if Qle_bool a 0 then k else S (S k)).
Proof. unfold VRandomConeNormalDistribution. by destruct (Qle_bool a 0). Qed.

Lemma GetTargetingSourceLocation_some P : GetTargetingSourceLocation (Some P) = Ok (ActorLocation P).
Proof. reflexivity. Qed.

Lemma transform_from_source_ok m A P Source F :
  exists t, transform_from_source m (Some A) P Source F = Ok t.
Proof.
  unfold transform_from_source. destruct (from_weapon Source); cbn;
    destruct F; [destruct (towards_focus Source)| |destruct (towards_focus Source)|]; eauto.
Qed.

Lemma focus_view_ok m A P C : exists r, focus_view m (Some A) P C = Ok r.
Proof. destruct C; cbn; eauto. Qed.

(** With a source pawn and an avatar, every source but [Custom] gives a
    transform. *)
Lemma GetTargetingTransform_ok m A P Source :
  Source <> Custom -> exists t, GetTargetingTransform m (Some A) (Some P) Source = Ok t.
Proof.
  intros Hs. unfold GetTargetingTransform.
  destruct Source; try congruence; cbn [uses_focus];
    destruct (PawnController P) as [C|]; try apply transform_from_source_ok;
    destruct (focus_view_ok m A P C) as ([[CamLoc CamRot] F] & ->); eauto using transform_from_source_ok.
Qed.

(** ** Theorems *)

(** C34: The camera-towards-focus transform of a player starts at the
    point of the camera's line of sight nearest the weapon.  For a
    pawn with a player controller whose view direction normalizes to a
    unit vector [d], [GetTargetingTransform] succeeds with the view
    rotation and a start on the line of sight through the view point
    along [d], where the direction to the avatar's location (the weapon
    location) is orthogonal to [d]. *)
Theorem GetTargetingTransform_camera_projection m A P ViewLoc ViewRot :
  PawnController P = Some (PlayerController ViewLoc ViewRot) ->
  vdot (GetSafeNormal m (RotatorVector m ViewRot)) (GetSafeNormal m (RotatorVector m ViewRot)) == 1 ->
  exists t CamLoc,
    GetTargetingTransform m (Some A) (Some P) CameraTowardsFocus = Ok (FTransform_of_rotator m ViewRot CamLoc) /\
    veq CamLoc (vadd ViewLoc (vscale (GetSafeNormal m (RotatorVector m ViewRot)) t)) /\
    vdot (vsub (ActorLocation A) CamLoc) (GetSafeNormal m (RotatorVector m ViewRot)) == 0.
Proof.
  intros HC Hd. unfold GetTargetingTransform. rewrite HC. cbn.
  set (d := GetSafeNormal m (RotatorVector m ViewRot)).
  set (F := vadd ViewLoc (vscale d FocalDistance)).
  exists (FocalDistance + vdot (vsub (ActorLocation A) F) d).
  eexists. split; [reflexivity|]. split.
  - apply vadd_scale_assoc.
  - by apply vdot_proj_orth.
Qed.

(** ** Examples *)

(** Float functions for a camera that looks along +X: every rotator
    maps to the identity quaternion and the forward vector. *)
Definition math_ex : FloatMath :=
  {| RadiansToDegrees := fun x => x * 180 / (355 # 113); DegreesToRadians := fun x => x * (355 # 113) / 180;
     Pow := fun x _ => x; QuatOfRotator := fun _ => {| QX := 0; QY := 0; QZ := 0; QW := 1 |};
     RotatorVector := fun _ => ForwardVector; VectorRotation := fun _ => {| Pitch := 0; Yaw := 0; Roll := 0 |};
     GetSafeNormal := fun v => v; QuatNormalize := fun q => q |}.

Definition view_rot_ex : FRotator := {| Pitch := 0; Yaw := 0; Roll := 0 |}.

(** A player pawn at (100, 30, 0) whose camera is at the origin. *)
Definition player_ex : TargetingPawn :=
  {| ActorLocation := {| VX := 100; VY := 30; VZ := 0 |}; ActorQuat := {| QX := 0; QY := 0; QZ := 0; QW := 1 |};
     BaseEyeHeight := 60; PawnController := Some (PlayerController ZeroVector view_rot_ex) |}.

Lemma GetTargetingTransform_camera_projection_witness :
  exists t CamLoc,
    GetTargetingTransform math_ex (Some player_ex) (Some player_ex) CameraTowardsFocus
      = Ok (FTransform_of_rotator math_ex view_rot_ex CamLoc) /\
    veq CamLoc (vadd ZeroVector (vscale ForwardVector t)) /\
    vdot (vsub (ActorLocation player_ex) CamLoc) ForwardVector == 0.
Proof.
  apply (GetTargetingTransform_camera_projection math_ex player_ex player_ex ZeroVector view_rot_ex);
    reflexivity.
Defined.

(** The start is the point (100, 0, 0) of the line of sight, level
    with the pawn. *)
Example camera_start_ex :
  exists CamLoc, GetTargetingTransform math_ex (Some player_ex) (Some player_ex) CameraTowardsFocus
                   = Ok (FTransform_of_rotator math_ex view_rot_ex CamLoc) /\
    veq CamLoc {| VX := 100; VY := 0; VZ := 0 |}.
Proof. eexists. split; [reflexivity|]. split_and!; reflexivity. Qed.

End RangeGeometry.
