(* ===== verification/RangeTarget.v ===== *)
(** * ULyraGameplayAbility_RangeTarget: hit-scan targeting

    Models src/LyraGame/AbilitySystem/Abilities/LyraGameplayAbility_RangeTarget.cpp:
    the scene queries of one shot ([Trace], [DoSingleTrace],
    [TraceAttack]), the choice of the first pawn hit
    ([FindFirstPawnHitResult]), the targeting a locally controlled pawn
    runs ([PerformLocalTargeting], [StartRangedTargeting]) and the
    handling of the target data ([OnTargetDataReadyCallback]) with the
    ability's activation and end.

    The world's scene queries are [RangeWorld]: the hits a line trace
    or a sphere sweep returns, in the engine's order.  The direction of
    each projectile inside the spread cone and the targeting transform
    come from file [RangeGeometry] ([VRandomConeNormalDistribution],
    [GetTargetingTransform]); the random numbers [FMath::FRand] draws are
    a stream [FRand] read from position [k].  Coordinates are rationals. *)

From S2P Require Import Prelude RangeGeometry.
From Stdlib Require Import QArith.
Import RangeGeometry.

Module RangeTarget.

Local Open Scope Z_scope.

Definition TAG_RangedAbilityBlocked : string := "Ability.Ranged.Blocked".

(** The fields of an [FHitResult] the ability reads and writes.
    [HitObjectHandle] names the hit actor ([None] when there is none);
    [RepresentsPawn] is [HitObjectHandle.DoesRepresentClass(APawn)];
    [AttachParentIsPawn] says the hit actor is attached to a pawn. *)
Record FHitResult := {
  HitObjectHandle : option nat;
  RepresentsPawn : bool;
  AttachParentIsPawn : bool;
  bBlockingHit : bool;
  Location : FVector;
  ImpactPoint : FVector;
  TraceStart : FVector;
  TraceEnd : FVector;
}.

(** [FHitResult(ForceInit)] and the default constructor. *)
Definition FHitResult_init : FHitResult :=
  {| HitObjectHandle := None; RepresentsPawn := false; AttachParentIsPawn := false;
     bBlockingHit := false; Location := ZeroVector; ImpactPoint := ZeroVector;
     TraceStart := ZeroVector; TraceEnd := ZeroVector |}.

Definition with_trace_ends (h : FHitResult) (s e : FVector) : FHitResult :=
  {| HitObjectHandle := HitObjectHandle h; RepresentsPawn := RepresentsPawn h;
     AttachParentIsPawn := AttachParentIsPawn h; bBlockingHit := bBlockingHit h;
     Location := Location h; ImpactPoint := ImpactPoint h; TraceStart := s; TraceEnd := e |}.

Definition with_impact_at (h : FHitResult) (p : FVector) : FHitResult :=
  {| HitObjectHandle := HitObjectHandle h; RepresentsPawn := RepresentsPawn h;
     AttachParentIsPawn := AttachParentIsPawn h; bBlockingHit := bBlockingHit h;
     Location := p; ImpactPoint := p; TraceStart := TraceStart h; TraceEnd := TraceEnd h |}.

(** [Other.HitObjectHandle == Cur.HitObjectHandle]. *)
Definition same_handle (a b : FHitResult) : bool :=
  match HitObjectHandle a, HitObjectHandle b with
  | Some x, Some y => Nat.eqb x y
  | None, None => true
  | _, _ => false
  end.

(** [ContainsByPredicate] with that predicate. *)
Definition ContainsHandle (l : list FHitResult) (h : FHitResult) : bool :=
  existsb (same_handle h) l.


(** The configuration, with the constructor's defaults (lines 47-52). *)
Record RangeTargetConfig := {
  MaxTargetRange : Q;
  NumberOfProjectiles : Z;
  SpreadAngle : Q;
  SweepRadius : Q;
}.

Definition ULyraGameplayAbility_RangeTarget_config : RangeTargetConfig :=
  {| MaxTargetRange := 2500; NumberOfProjectiles := 1; SpreadAngle := 15; SweepRadius := 5 |}.

(** What the ability reads of its actor info and of the ability system:
    the ability system component, the avatar (its actor, the actors
    attached to it, a pawn, a Lyra character, locally controlled?), the controller, the net role and
    mode, and whether the ability's spec is still granted. *)
Record RangeActorInfo := {
  HasAbilitySystem : bool;
  AvatarActor : option nat;
  AvatarAttachedActors : list nat;
  AvatarIsPawn : bool;
  IsLyraCharacter : bool;
  HasController : bool;
  IsLocallyControlled : bool;
  IsNetAuthority : bool;
  IsDedicatedServer : bool;
  SpecFound : bool;
}.

Definition HasAvatar (info : RangeActorInfo) : bool := not_null (AvatarActor info).

(** The query parameters of a weapon trace: the actors it ignores. *)
Record FCollisionQueryParams := {
  IgnoredActors : list nat;
  bTraceComplex : bool;
  bReturnPhysicalMaterial : bool;
}.

Inductive ECollisionChannel := ECC_WorldStatic | ECC_WorldDynamic | ECC_Pawn | ECC_Visibility | ECC_Camera.

(** AddAdditionalTraceIgnoreActors, lines 290-299. *)
Definition AddAdditionalTraceIgnoreActors (info : RangeActorInfo) (TraceParams : FCollisionQueryParams)
  : FCollisionQueryParams :=
  match AvatarActor info with
  | Some _ =>
      {| IgnoredActors := IgnoredActors TraceParams ++ AvatarAttachedActors info;
         bTraceComplex := bTraceComplex TraceParams;
         bReturnPhysicalMaterial := bReturnPhysicalMaterial TraceParams |}
  | None => TraceParams
  end.

(** DetermineTraceChannel, lines 301-305. *)
Definition DetermineTraceChannel (TraceParams : FCollisionQueryParams) (bIsSimulated : bool) : ECollisionChannel :=
  ECC_Visibility.

(** The parameters Trace builds, lines 145-147: the avatar ignored,
    complex traces, physical materials returned, then the attached
    actors. *)
Definition WeaponTraceParams (info : RangeActorInfo) : FCollisionQueryParams :=
  AddAdditionalTraceIgnoreActors info
    {| IgnoredActors := match AvatarActor info with Some a => [a] | None => [] end;
       bTraceComplex := true; bReturnPhysicalMaterial := true |}.

(** The scene queries of the world: the hits of a line trace or of a
    sphere sweep of a radius, on a channel, with query parameters. *)
Record RangeWorld := {
  LineTraceMultiByChannel : FVector -> FVector -> ECollisionChannel -> FCollisionQueryParams -> list FHitResult;
  SweepMultiByChannel : FVector -> FVector -> Q -> ECollisionChannel -> FCollisionQueryParams -> list FHitResult;
}.

(** ** The scene queries of one shot *)

(** FindFirstPawnHitResult, lines 116-138: the index of the first hit
    on a pawn or on an actor attached to a pawn. *)
Fixpoint FindFirstPawnHitResult_from (Idx : Z) (HitResults : list FHitResult) : Z :=
  match HitResults with
  | [] => INDEX_NONE
  | CurHitResult :: rest =>
      if RepresentsPawn CurHitResult then Idx
      else if not_null (HitObjectHandle CurHitResult) && AttachParentIsPawn CurHitResult then Idx
      else FindFirstPawnHitResult_from (Idx + 1) rest
  end.

Definition FindFirstPawnHitResult (HitResults : list FHitResult) : Z :=
  FindFirstPawnHitResult_from 0 HitResults.

(** The filter of Trace, lines 163-177: a hit is added unless a hit on
    the same object is already in the output. *)
Fixpoint add_unique (OutHitResults HitResults : list FHitResult) : list FHitResult :=
  match HitResults with
  | [] => OutHitResults
  | CurHitResult :: rest =>
      add_unique (if ContainsHandle OutHitResults CurHitResult then OutHitResults
                  else OutHitResults ++ [CurHitResult]) rest
  end.

Definition positive_radius (r : Q) : bool := negb (Qle_bool r 0).

(** Trace, lines 140-189: a sweep when the radius is positive, else a
    line trace; the hit returned is the last of the output. *)
Definition Trace (w : RangeWorld) (info : RangeActorInfo) (StartTrace EndTrace : FVector) (InSweepRadius : Q)
    (OutHitResults : list FHitResult) : FHitResult * list FHitResult :=
  let TraceParams := WeaponTraceParams info in
  let TraceChannel := DetermineTraceChannel TraceParams false in
  let HitResults :=
    if positive_radius InSweepRadius
    then SweepMultiByChannel w StartTrace EndTrace InSweepRadius TraceChannel TraceParams
    else LineTraceMultiByChannel w StartTrace EndTrace TraceChannel TraceParams in
  match HitResults with
  | [] => (with_trace_ends FHitResult_init StartTrace EndTrace, OutHitResults)
  | _ :: _ =>
      let Out := add_unique OutHitResults HitResults in
      (List.last Out FHitResult_init, Out)
  end.

(** The hits the world returns for one query of [Trace]. *)
Definition query_results (w : RangeWorld) (info : RangeActorInfo) (s e : FVector) (r : Q) : list FHitResult :=
  let p := WeaponTraceParams info in
  if positive_radius r then SweepMultiByChannel w s e r ECC_Visibility p else LineTraceMultiByChannel w s e ECC_Visibility p.


(** DoSingleTrace, lines 191-242: a line trace first; when it hit no
    pawn and the radius is positive, a sweep whose hits replace the
    line trace's if they reach a pawn before any blocking hit the line
    trace also found. *)
Definition DoSingleTrace (w : RangeWorld) (info : RangeActorInfo) (StartTrace EndTrace : FVector) (InSweepRadius : Q)
    (OutHits : list FHitResult) : FHitResult * list FHitResult :=
  let '(Impact, OutHits) :=
    if FindFirstPawnHitResult OutHits =? INDEX_NONE
    then Trace w info StartTrace EndTrace 0 OutHits
    else (FHitResult_init, OutHits) in
  if (FindFirstPawnHitResult OutHits =? INDEX_NONE) && positive_radius InSweepRadius then
    let '(Impact', SweepHits) := Trace w info StartTrace EndTrace InSweepRadius [] in
    let FirstPawnIdx := FindFirstPawnHitResult SweepHits in
    if TArray_IsValidIndex SweepHits FirstPawnIdx then
      let bUseSweepHits :=
        negb (existsb (fun CurHitResult => bBlockingHit CurHitResult && ContainsHandle OutHits CurHitResult)
                      (firstn (Z.to_nat FirstPawnIdx) SweepHits)) in
      (Impact', if bUseSweepHits then SweepHits else OutHits)
    else (Impact', OutHits)
  else (Impact, OutHits).

(** What [TraceAttack] reads of its input. *)
Record FRangedFiringInput := {
  StartTrace : FVector;
  EndAim : FVector;
  AimDir : FVector;
  CharacterData : bool;
  bCanPlayBulletFX : bool;
}.

(** The loop of TraceAttack, lines 249-286: each projectile draws its
    direction with [Spread] from the generator at position [k] and flies
    along it for [MaxTargetRange]; a shot that hit an actor adds all its
    hits; an entry is always left in [OutHits]. *)
Fixpoint TraceAttack_loop (cfg : RangeTargetConfig) (w : RangeWorld) (info : RangeActorInfo) (InputData : FRangedFiringInput)
    (Spread : nat -> FVector * nat) (k n : nat) (OutHits : list FHitResult) : list FHitResult :=
  match n with
  | O => OutHits
  | S n' =>
      let '(BulletDir, k') := Spread k in
      let EndTrace := vadd (StartTrace InputData) (vscale BulletDir (MaxTargetRange cfg)) in
      let '(Impact, AllImpacts) := Trace w info (StartTrace InputData) EndTrace (SweepRadius cfg) [] in
      let OutHits1 :=
        if not_null (HitObjectHandle Impact) then
          match AllImpacts with [] => OutHits | _ => OutHits ++ AllImpacts end
        else OutHits in
      let OutHits2 :=
        match OutHits1 with
        | [] => [if bBlockingHit Impact then Impact else with_impact_at Impact EndTrace]
        | _ => OutHits1
        end in
      TraceAttack_loop cfg w info InputData Spread k' n' OutHits2
  end.

(** The direction of a projectile: [VRandomConeNormalDistribution]
    around the aim with half the spread angle, exponent 1. *)
Definition BulletSpread (cfg : RangeTargetConfig) (m : FloatMath) (FRand : nat -> Q) (InputData : FRangedFiringInput)
  : nat -> FVector * nat :=
  let HalfSpreadAngleInRadians := DegreesToRadians m (SpreadAngle cfg * (1#2))%Q in
  VRandomConeNormalDistribution m (AimDir InputData) HalfSpreadAngleInRadians 1 FRand.

(** TraceAttack, lines 244-288: [check(LyraCharacter)], then one shot per
    projectile, reading the generator [FRand] from its position [k]. *)
Definition TraceAttack (cfg : RangeTargetConfig) (w : RangeWorld) (info : RangeActorInfo) (m : FloatMath) (FRand : nat -> Q) (k : nat)
    (InputData : FRangedFiringInput) (OutHits : list FHitResult) : Result (list FHitResult) :=
  if CharacterData InputData
  then Ok (TraceAttack_loop cfg w info InputData (BulletSpread cfg m FRand InputData) k
                            (Z.to_nat (NumberOfProjectiles cfg)) OutHits)
  else Failed (CheckFailed "LyraCharacter").

(** ** The ability *)

Record FLyraGameplayAbilityTargetData_SingleTargetHit := {
  TargetHit : FHitResult;
  CartridgeID : Z;
}.

(** What the ability does that others see, in order. *)
Inductive RangeOutput :=
  | SuperActivateAbility
  | CallServerSetReplicatedTargetData (Data : list FLyraGameplayAbilityTargetData_SingleTargetHit)
  | OnRangedTargetDataReady (Data : list FLyraGameplayAbilityTargetData_SingleTargetHit)
  | CommitFailedWarning
  | ConsumeClientReplicatedTargetData
  | SuperEndAbility (bReplicateEndAbility bWasCancelled : bool).

(** The ability's state: the target-data delegate it registers, the
    scope lock and the end requests deferred under it, its outputs. *)
Record RangeAbilityState := {
  TargetDataDelegateBound : bool;
  ScopeLockCount : nat;
  WaitingToExecute : list (bool * bool);
  RangeOutputs : list RangeOutput;
}.

Definition emit_range (x : RangeOutput) : ST RangeAbilityState unit :=
  st_modify (fun a =>
    let '{| TargetDataDelegateBound := b; ScopeLockCount := n; WaitingToExecute := q; RangeOutputs := o |} := a in
    {| TargetDataDelegateBound := b; ScopeLockCount := n; WaitingToExecute := q; RangeOutputs := o ++ [x] |}).

Definition set_delegate (b : bool) : ST RangeAbilityState unit :=
  st_modify (fun a =>
    let '{| ScopeLockCount := n; WaitingToExecute := q; RangeOutputs := o |} := a in
    {| TargetDataDelegateBound := b; ScopeLockCount := n; WaitingToExecute := q; RangeOutputs := o |}).

Definition defer_end (e : bool * bool) : ST RangeAbilityState unit :=
  st_modify (fun a =>
    let '{| TargetDataDelegateBound := b; ScopeLockCount := n; WaitingToExecute := q; RangeOutputs := o |} := a in
    {| TargetDataDelegateBound := b; ScopeLockCount := n; WaitingToExecute := q ++ [e]; RangeOutputs := o |}).

(** CanActivateAbility, lines 55-80: refused while the controller's
    quick bar has an active slot; otherwise the parent class decides.
    [QuickBarActiveSlot] is [None] without controller or quick bar. *)
Definition CanActivateAbility (QuickBarActiveSlot : option Z) (SuperCanActivateAbility : bool) : bool :=
  let bResult := match QuickBarActiveSlot with
                 | Some ActiveSlotIndex => ActiveSlotIndex =? INDEX_NONE
                 | None => true
                 end in
  if bResult then SuperCanActivateAbility else false.

(** ActivateAbility, lines 82-92. *)
Definition ActivateAbility (info : RangeActorInfo) : ST RangeAbilityState unit :=
  st_check (HasAbilitySystem info) "MyAbilityComponent" ;;;
  set_delegate true ;;;
  emit_range SuperActivateAbility.

(** EndAbility, lines 94-114: deferred under a scope lock; otherwise the
    target-data delegate is removed and the data consumed. *)
Definition EndAbility (info : RangeActorInfo) (IsEndAbilityValid bReplicateEndAbility bWasCancelled : bool)
  : ST RangeAbilityState unit :=
  a <- st_get ;;
  if IsEndAbilityValid && Nat.ltb 0 (ScopeLockCount a) then defer_end (bReplicateEndAbility, bWasCancelled)
  else
    (if IsEndAbilityValid then
       st_check (HasAbilitySystem info) "MyAbilityComponent" ;;;
       set_delegate false ;;;
       emit_range ConsumeClientReplicatedTargetData
     else st_ret tt) ;;;
    emit_range (SuperEndAbility bReplicateEndAbility bWasCancelled).

(** OnTargetDataReadyCallback, lines 428-466: a client tells the server
    its target data; the data is handed to the blueprint when the
    ability commits (cost and cooldown, [CommitAbility]), otherwise a
    warning is logged and the ability ends ([K2_EndAbility] ends it,
    replicated, not cancelled). *)
Definition OnTargetDataReadyCallback (info : RangeActorInfo) (CommitAbility IsEndAbilityValid : bool)
    (InData : list FLyraGameplayAbilityTargetData_SingleTargetHit) : ST RangeAbilityState unit :=
  st_check (HasAbilitySystem info) "MyAbilityComponent" ;;;
  (if SpecFound info then
     (if IsLocallyControlled info && negb (IsNetAuthority info)
      then emit_range (CallServerSetReplicatedTargetData InData) else st_ret tt) ;;;
     (if CommitAbility then emit_range (OnRangedTargetDataReady InData)
      else emit_range CommitFailedWarning ;;; EndAbility info IsEndAbilityValid true false)
   else st_ret tt) ;;;
  emit_range ConsumeClientReplicatedTargetData.

(** PerformLocalTargeting, lines 307-327: [Avatar] is the avatar pawn
    with its location and controller, [FRand] and [k] the generator. *)
Definition PerformLocalTargeting (cfg : RangeTargetConfig) (w : RangeWorld) (m : FloatMath) (FRand : nat -> Q)
    (k : nat) (info : RangeActorInfo) (Avatar : TargetingPawn) : Result (list FHitResult) :=
  if AvatarIsPawn info && IsLocallyControlled info && IsLyraCharacter info then
    match GetTargetingTransform m (Some Avatar) (Some Avatar) CameraTowardsFocus with
    | Failed f => Failed f
    | Ok TargetTransform =>
        let InputData := {| StartTrace := Translation TargetTransform;
                            AimDir := GetUnitAxisX TargetTransform;
                            EndAim := vadd (Translation TargetTransform)
                                           (vscale (GetUnitAxisX TargetTransform) (MaxTargetRange cfg));
                            CharacterData := true;
                            bCanPlayBulletFX := negb (IsDedicatedServer info) |} in
        TraceAttack cfg w info m FRand k InputData []
    end
  else Ok [].

(** The target data of the hits: one entry per hit, all with the
    shot's [CartridgeID] ([FMath::Rand()]). *)
Definition MakeTargetData (FoundHits : list FHitResult) (Cartridge : Z)
  : list FLyraGameplayAbilityTargetData_SingleTargetHit :=
  map (fun FoundHit => {| TargetHit := FoundHit; CartridgeID := Cartridge |}) FoundHits.

(** StartRangedTargeting, lines 468-505. *)
Definition StartRangedTargeting (cfg : RangeTargetConfig) (w : RangeWorld) (m : FloatMath) (FRand : nat -> Q)
    (k : nat) (info : RangeActorInfo) (Avatar : TargetingPawn) (Cartridge : Z)
    (CommitAbility IsEndAbilityValid : bool) : ST RangeAbilityState unit :=
  st_check (HasAvatar info) "AvatarActor" ;;;
  st_check (HasAbilitySystem info) "MyAbilityComponent" ;;;
  st_check (HasController info) "Controller" ;;;
  match PerformLocalTargeting cfg w m FRand k info Avatar with
  | Failed f => st_fail f
  | Ok FoundHits =>
      OnTargetDataReadyCallback info CommitAbility IsEndAbilityValid (MakeTargetData FoundHits Cartridge)
  end.

(** The test of FindFirstPawnHitResult: a hit on a pawn or on an actor
    attached to a pawn. *)
Definition is_pawn_hit (h : FHitResult) : bool :=
  RepresentsPawn h || (not_null (HitObjectHandle h) && AttachParentIsPawn h).

(** A world honours the ignored actors of its queries when no hit it
    returns is on one of them. *)
Definition not_ignored (p : FCollisionQueryParams) (h : FHitResult) : Prop :=
  forall a, HitObjectHandle h = Some a -> a ∉ IgnoredActors p.

Definition honours_ignores (w : RangeWorld) : Prop :=
  forall s e r ch p, Forall (not_ignored p) (SweepMultiByChannel w s e r ch p) /\
                     Forall (not_ignored p) (LineTraceMultiByChannel w s e ch p).

(** ** Lemmas *)

(** The objects a list of hits is on. *)
Definition hit_handles (l : list FHitResult) : list (option nat) := map HitObjectHandle l.

Lemma same_handle_spec a b : same_handle a b = true <-> HitObjectHandle a = HitObjectHandle b.
Proof.
  unfold same_handle. destruct (HitObjectHandle a) as [x|], (HitObjectHandle b) as [y|];
    [rewrite Nat.eqb_eq; split; congruence|split; congruence..|done].
Qed.

Lemma ContainsHandle_spec l h : ContainsHandle l h = true <-> HitObjectHandle h ∈ hit_handles l.
Proof.
  unfold ContainsHandle, hit_handles. rewrite existsb_exists, list_elem_of_fmap. split.
  - intros (x & Hx & Hs). apply same_handle_spec in Hs. exists x. split; [done|by apply list_elem_of_In].
  - intros (x & Hx & Hin). exists x. split; [by apply list_elem_of_In|]. by apply same_handle_spec.
Qed.

(** The filter of Trace keeps the hits already there, adds no second
    hit on an object, and leaves a hit on every object the query
    returned. *)
Lemma add_unique_spec out hits :
  NoDup (hit_handles out) ->
  (exists extra, add_unique out hits = out ++ extra /\ Forall (fun h => h ∈ hits) extra) /\
  NoDup (hit_handles (add_unique out hits)) /\
  (forall h, h ∈ hits -> HitObjectHandle h ∈ hit_handles (add_unique out hits)).
Proof.
  revert out. induction hits as [|h hits IH]; intros out Hnd; cbn [add_unique].
  - split_and!; [exists []; by rewrite app_nil_r|done|set_solver].
  - destruct (ContainsHandle out h) eqn:Hc.
    + destruct (IH out Hnd) as ((extra & He & Hf) & Hnd' & Hall). split_and!.
      * exists extra. split; [done|]. eapply Forall_impl; [exact Hf|]. set_solver.
      * done.
      * intros h' [->|Hh']%elem_of_cons; [|by apply Hall].
        apply ContainsHandle_spec in Hc. rewrite He in *. unfold hit_handles in *.
        rewrite fmap_app. set_solver.
    + assert (Hnd1 : NoDup (hit_handles (out ++ [h]))).
      { unfold hit_handles. rewrite fmap_app. apply NoDup_app. split_and!; [done| |apply NoDup_singleton].
        intros x Hx ->%list_elem_of_singleton. apply not_true_iff_false in Hc. apply Hc.
        by apply ContainsHandle_spec. }
      destruct (IH (out ++ [h]) Hnd1) as ((extra & He & Hf) & Hnd' & Hall). split_and!.
      * exists (h :: extra). rewrite He, <- app_assoc. split; [done|]. constructor; [set_solver|].
        eapply Forall_impl; [exact Hf|]. set_solver.
      * done.
      * intros h' [->|Hh']%elem_of_cons; [|by apply Hall]. rewrite He. unfold hit_handles.
        rewrite !fmap_app. set_solver.
Qed.

Lemma FindFirstPawnHitResult_from_range Idx l :
  FindFirstPawnHitResult_from Idx l = INDEX_NONE \/
  (Idx <= FindFirstPawnHitResult_from Idx l < Idx + Z.of_nat (length l)).
Proof.
  revert Idx. induction l as [|h l IH]; intros Idx; cbn; [by left|].
  destruct (RepresentsPawn h); [right; lia|].
  destruct (not_null (HitObjectHandle h) && AttachParentIsPawn h); [right; lia|].
  destruct (IH (Idx + 1)) as [->|Hr]; [by left|right; lia].
Qed.

(** [Trace] filters the hits of its one query. *)
Lemma Trace_query_results w info s e r out :
  Trace w info s e r out =
    match query_results w info s e r with
    | [] => (with_trace_ends FHitResult_init s e, out)
    | _ :: _ => (List.last (add_unique out (query_results w info s e r)) FHitResult_init,
                 add_unique out (query_results w info s e r))
    end.
Proof. unfold Trace, query_results. cbn. by destruct (if positive_radius r then _ else _). Qed.

Lemma TraceAttack_loop_extends cfg w info input B index n OutHits :
  exists extra, TraceAttack_loop cfg w info input B index n OutHits = OutHits ++ extra.
Proof.
  revert index OutHits. induction n as [|n IH]; intros index OutHits; cbn [TraceAttack_loop];
    [exists []; by rewrite app_nil_r|].
  destruct (B index) as [dir index']. destruct (Trace _ _ _ _ _) as [Impact AllImpacts].
  set (OutHits1 := if not_null (HitObjectHandle Impact) then _ else _).
  assert (H1 : exists e1, OutHits1 = OutHits ++ e1).
  { subst OutHits1. destruct (not_null _); [|exists []; by rewrite app_nil_r].
    destruct AllImpacts; [exists []; by rewrite app_nil_r|by eexists]. }
  destruct H1 as (e1 & He1).
  set (OutHits2 := match OutHits1 with [] => _ | _ :: _ => OutHits1 end).
  assert (H2 : exists e2, OutHits2 = OutHits ++ e2).
  { subst OutHits2. rewrite He1. destruct (OutHits ++ e1) as [|x l] eqn:E.
    - apply app_eq_nil in E as [-> ->]. by eexists.
    - exists e1. by rewrite E. }
  destruct H2 as (e2 & He2). destruct (IH index' OutHits2) as (e3 & He3).
  exists (e2 ++ e3). by rewrite He3, He2, app_assoc.
Qed.

Lemma TraceAttack_loop_nonempty cfg w info input B index n OutHits :
  (1 <= n)%nat -> TraceAttack_loop cfg w info input B index n OutHits <> [].
Proof.
  destruct n as [|n]; [lia|]. intros _. cbn [TraceAttack_loop].
  destruct (B index) as [dir index']. destruct (Trace _ _ _ _ _) as [Impact AllImpacts].
  match goal with |- TraceAttack_loop _ _ _ _ _ _ _ ?o <> [] =>
    destruct (TraceAttack_loop_extends cfg w info input B index' n o) as (e & ->);
    assert (o <> []) by (destruct (if not_null (HitObjectHandle Impact) then _ else _); done) end.
  intros E. apply app_eq_nil in E as [E _]. contradiction.
Qed.

Lemma FindFirstPawnHitResult_from_list_find Idx l :
  FindFirstPawnHitResult_from Idx l =
    match list_find (fun h => is_pawn_hit h = true) l with
    | Some (i, _) => Idx + Z.of_nat i
    | None => INDEX_NONE
    end.
Proof.
  revert Idx. induction l as [|h l IH]; intros Idx; [done|]. cbn [FindFirstPawnHitResult_from list_find].
  rewrite IH. case_decide as Hp; unfold is_pawn_hit in Hp.
  - destruct (RepresentsPawn h); cbn in *; [lia|]. rewrite Hp. lia.
  - destruct (RepresentsPawn h); cbn in *; [done|]. apply not_true_iff_false in Hp. rewrite Hp.
    destruct (list_find _ l) as [[i x]|]; cbn; [lia|done].
Qed.

(** ** Ignored actors *)

Lemma add_unique_Forall (P : FHitResult -> Prop) out l :
  Forall P out -> Forall P l -> Forall P (add_unique out l).
Proof.
  revert out. induction l as [|h l IH]; intros out Ho Hl; cbn [add_unique]; [done|].
  apply Forall_cons in Hl as [Hh Hl]. apply IH; [|done].
  destruct (ContainsHandle out h); [done|]. apply Forall_app; auto.
Qed.

Lemma last_Forall {A} (P : A -> Prop) (l : list A) d : Forall P l -> P d -> P (List.last l d).
Proof.
  intros Hl Hd. induction Hl as [|x l Hx Hl IH]; [done|].
  destruct l; [done|exact IH].
Qed.

Lemma not_ignored_init p : not_ignored p FHitResult_init.
Proof. by intros a Ha. Qed.

Lemma query_results_honour w info s e r :
  honours_ignores w -> Forall (not_ignored (WeaponTraceParams info)) (query_results w info s e r).
Proof. intros Hw. unfold query_results. destruct (positive_radius r); [apply (Hw s e r)|apply (Hw s e r)]. Qed.

(** In a world that honours ignores, neither the hit [Trace] returns nor
    the hits it adds are on an actor the weapon trace ignores. *)
Lemma Trace_honours w info s e r out :
  honours_ignores w -> Forall (not_ignored (WeaponTraceParams info)) out ->
  not_ignored (WeaponTraceParams info) (fst (Trace w info s e r out)) /\
  Forall (not_ignored (WeaponTraceParams info)) (snd (Trace w info s e r out)).
Proof.
  intros Hw Ho. rewrite Trace_query_results. pose proof (query_results_honour w info s e r Hw) as Hq.
  destruct (query_results w info s e r) as [|h l]; cbn [fst snd]; [split; [by intros a Ha|done]|].
  pose proof (add_unique_Forall _ out _ Ho Hq) as Hu.
  split; [apply last_Forall; [exact Hu|apply not_ignored_init]|exact Hu].
Qed.

Lemma TraceAttack_loop_honours cfg w info input B k n OutHits :
  honours_ignores w -> Forall (not_ignored (WeaponTraceParams info)) OutHits ->
  Forall (not_ignored (WeaponTraceParams info)) (TraceAttack_loop cfg w info input B k n OutHits).
Proof.
  intros Hw. revert k OutHits. induction n as [|n IH]; intros k OutHits Ho; cbn [TraceAttack_loop]; [done|].
  destruct (B k) as [dir k']. set (e := vadd _ _).
  pose proof (Trace_honours w info (StartTrace input) e (SweepRadius cfg) [] Hw (Forall_nil_2 _)) as [Hi Ha].
  destruct (Trace _ _ _ _ _ _) as [Impact AllImpacts]. cbn [fst snd] in Hi, Ha.
  apply IH. assert (H1 : Forall (not_ignored (WeaponTraceParams info))
                            (if not_null (HitObjectHandle Impact) then
                               match AllImpacts with [] => OutHits | _ => OutHits ++ AllImpacts end
                             else OutHits)).
  { destruct (not_null _); [destruct AllImpacts; [done|by apply Forall_app]|done]. }
  destruct (if not_null (HitObjectHandle Impact) then _ else _); [|done].
  apply Forall_singleton. destruct (bBlockingHit Impact); [done|]. exact Hi.
Qed.

(** The end of an ability that is not scope locked. *)
Lemma EndAbility_unlocked info valid r c a :
  HasAbilitySystem info = true -> ScopeLockCount a = 0%nat ->
  EndAbility info valid r c a =
    Ok (tt, {| TargetDataDelegateBound := if valid then false else TargetDataDelegateBound a;
               ScopeLockCount := 0; WaitingToExecute := WaitingToExecute a;
               RangeOutputs := RangeOutputs a ++ (if valid then [ConsumeClientReplicatedTargetData] else []) ++
                               [SuperEndAbility r c] |}).
Proof.
  intros Hasc Hl. destruct a as [b n q o]. cbn in Hl. subst n. unfold EndAbility.
  rewrite st_bind_get. cbn [ScopeLockCount Nat.ltb]. rewrite andb_false_r.
  destruct valid; cbv [st_check emit_range set_delegate st_modify st_bind st_ret st_get]; rewrite ?Hasc; cbn; repeat rewrite <- app_assoc; reflexivity.
Qed.

Lemma PerformLocalTargeting_ok cfg w m FRand k info A :
  exists hits, PerformLocalTargeting cfg w m FRand k info A = Ok hits /\
    (AvatarIsPawn info && IsLocallyControlled info && IsLyraCharacter info = true ->
     (1 <= NumberOfProjectiles cfg)%Z -> hits <> []).
Proof.
  unfold PerformLocalTargeting. destruct (AvatarIsPawn info && IsLocallyControlled info && IsLyraCharacter info).
  - destruct (GetTargetingTransform_ok m A A CameraTowardsFocus) as (t & ->); [discriminate|].
    eexists. split; [reflexivity|]. intros _ Hn. apply TraceAttack_loop_nonempty. lia.
  - eexists. split; [reflexivity|]. discriminate.
Qed.

(** ** Theorems *)


(** C30: One bullet never hits an object twice: Trace keeps the hits
    already in its output, adds only hits the query returned, never two
    hits on the same object, and leaves a hit on every object the query
    returned; the hit it returns is the last of the output, or an empty
    hit spanning the trace when nothing was hit. *)
Theorem Trace_no_double_hits w info s e r out :
  NoDup (hit_handles out) ->
  exists extra, snd (Trace w info s e r out) = out ++ extra /\
    Forall (fun h => h ∈ query_results w info s e r) extra /\
    NoDup (hit_handles (snd (Trace w info s e r out))) /\
    (forall h, h ∈ query_results w info s e r -> HitObjectHandle h ∈ hit_handles (snd (Trace w info s e r out))) /\
    fst (Trace w info s e r out) =
      match query_results w info s e r with
      | [] => with_trace_ends FHitResult_init s e
      | _ :: _ => List.last (snd (Trace w info s e r out)) FHitResult_init
      end.
Proof.
  intros Hnd. rewrite !Trace_query_results.
  destruct (query_results w info s e r) as [|h hits] eqn:Hq; cbn [fst snd].
  - exists []. rewrite app_nil_r. split_and!; [done|constructor|done|set_solver|done].
  - destruct (add_unique_spec out (h :: hits) Hnd) as ((extra & He & Hf) & Hnd' & Hall).
    exists extra. split_and!; [done|done|done|done|done].
Qed.

(** A shot always leaves an entry for the tracers: with at least
    one projectile, TraceAttack keeps the hits it was given and returns
    a non-empty list (the hits of a projectile that hit an actor, or the
    fake impact at the end of the first trace). *)
Theorem TraceAttack_always_reports cfg w info m FRand k input OutHits :
  CharacterData input = true -> (1 <= NumberOfProjectiles cfg)%Z ->
  exists hits extra, TraceAttack cfg w info m FRand k input OutHits = Ok hits /\ hits = OutHits ++ extra /\ hits <> [].
Proof.
  intros Hc Hn. unfold TraceAttack. rewrite Hc.
  destruct (TraceAttack_loop_extends cfg w info input (BulletSpread cfg m FRand input) k
              (Z.to_nat (NumberOfProjectiles cfg)) OutHits) as (e & He).
  eexists _, e. split_and!; [reflexivity|exact He|]. apply TraceAttack_loop_nonempty. lia.
Qed.

(** C31: A shot never reports the shooter: when the avatar is an actor
    and the world honours the ignored actors of its queries, no hit
    TraceAttack reports is on the avatar or on an actor attached to it
    (its weapon), the actors Trace and AddAdditionalTraceIgnoreActors
    ignore. *)
Theorem TraceAttack_ignores_avatar cfg w info m FRand k input av hits :
  AvatarActor info = Some av -> honours_ignores w ->
  TraceAttack cfg w info m FRand k input [] = Ok hits ->
  Forall (fun h => forall a, HitObjectHandle h = Some a -> a <> av /\ a ∉ AvatarAttachedActors info) hits.
Proof.
  intros Hav Hw. unfold TraceAttack. destruct (CharacterData input); [|discriminate]. intros [= <-].
  eapply Forall_impl; [apply TraceAttack_loop_honours; [exact Hw|constructor]|].
  intros h Hh a Ha. specialize (Hh a Ha). unfold WeaponTraceParams, AddAdditionalTraceIgnoreActors in Hh.
  rewrite Hav in Hh. cbn in Hh. split; [intros ->; apply Hh; set_solver|set_solver].
Qed.

(** C32: FindFirstPawnHitResult is the search for the first pawn hit: its
    index loop returns exactly the position stdpp's [list_find] gives
    for the test "the hit represents a pawn, or an actor attached to a
    pawn", and [INDEX_NONE] when no hit passes it. *)
Theorem FindFirstPawnHitResult_list_find l :
  FindFirstPawnHitResult l =
    match list_find (fun h => is_pawn_hit h = true) l with
    | Some (i, _) => Z.of_nat i
    | None => INDEX_NONE
    end.
Proof.
  unfold FindFirstPawnHitResult. rewrite FindFirstPawnHitResult_from_list_find.
  by destruct (list_find _ l) as [[i x]|].
Qed.

(** DoSingleTrace keeps the line trace's hits when they reach a
    pawn; it keeps the sweep's hits only when the line trace reached no
    pawn, the sweep radius is positive, and the sweep reached a pawn
    before any blocking hit on an object the line trace also hit. *)
Theorem DoSingleTrace_choice w info s e r :
  let line := snd (Trace w info s e 0 []) in
  let sweep := snd (Trace w info s e r []) in
  let hits := snd (DoSingleTrace w info s e r []) in
  (FindFirstPawnHitResult line <> INDEX_NONE -> hits = line) /\
  (hits = line \/
   (hits = sweep /\ FindFirstPawnHitResult line = INDEX_NONE /\ positive_radius r = true /\
    exists i, FindFirstPawnHitResult sweep = Z.of_nat i /\ (i < length sweep)%nat /\
      Forall (fun h => bBlockingHit h = true -> HitObjectHandle h ∉ hit_handles line) (firstn i sweep))).
Proof.
  cbv zeta. unfold DoSingleTrace. change (FindFirstPawnHitResult []) with INDEX_NONE. rewrite Z.eqb_refl.
  destruct (Trace w info s e 0 []) as [Impact line] eqn:Hl. cbn [snd].
  destruct (Z.eqb_spec (FindFirstPawnHitResult line) INDEX_NONE) as [Hp|Hp];
    [|cbn [andb]; split; [done|by left]].
  destruct (positive_radius r) eqn:Hr; cbn [andb]; [|split; [done|by left]].
  destruct (Trace w info s e r []) as [Impact' sweep] eqn:Hs. cbn [snd].
  split; [done|].
  destruct (TArray_IsValidIndex sweep (FindFirstPawnHitResult sweep)) eqn:Hv; [|by left].
  destruct (existsb _ _) eqn:Hb; cbn [negb]; [by left|right].
  unfold TArray_IsValidIndex in Hv. apply andb_true_iff in Hv as [H0 H1]. apply Z.leb_le in H0. apply Z.ltb_lt in H1.
  split_and!; [done|done|done|]. exists (Z.to_nat (FindFirstPawnHitResult sweep)).
  split_and!; [lia|lia|]. apply Forall_forall. intros h Hh Hblock Hin.
  apply not_true_iff_false in Hb. apply Hb, existsb_exists. exists h. split; [by apply list_elem_of_In|].
  rewrite Hblock. by apply ContainsHandle_spec.
Qed.

(** C33: The targeting protocol: when the checks pass and the ability
    is granted and not scope locked, StartRangedTargeting hands every
    hit of the local targeting, under one cartridge, to the server
    exactly when the caller is a locally controlled client, to the
    blueprint exactly when the ability commits (else it warns and ends
    the ability), and consumes the replicated target data last. *)
Theorem StartRangedTargeting_protocol cfg w m FRand k info A Cartridge commit valid a :
  HasAvatar info = true -> HasAbilitySystem info = true -> HasController info = true ->
  SpecFound info = true -> ScopeLockCount a = 0%nat ->
  exists hits a', PerformLocalTargeting cfg w m FRand k info A = Ok hits /\
    StartRangedTargeting cfg w m FRand k info A Cartridge commit valid a = Ok (tt, a') /\
    RangeOutputs a' = RangeOutputs a ++
      (if IsLocallyControlled info && negb (IsNetAuthority info)
       then [CallServerSetReplicatedTargetData (MakeTargetData hits Cartridge)] else []) ++
      (if commit then [OnRangedTargetDataReady (MakeTargetData hits Cartridge)]
       else CommitFailedWarning :: (if valid then [ConsumeClientReplicatedTargetData] else []) ++
            [SuperEndAbility true false]) ++
      [ConsumeClientReplicatedTargetData].
Proof.
  intros Hav Hasc Hc Hsp Hl. destruct (PerformLocalTargeting_ok cfg w m FRand k info A) as (hits & Hp & _).
  exists hits. destruct a as [b n q o]. cbn in Hl. subst n.
  destruct (IsLocallyControlled info) eqn:Hlc, (IsNetAuthority info) eqn:Hna, commit, valid;
    eexists; (split; [exact Hp|]);
    cbv [StartRangedTargeting OnTargetDataReadyCallback EndAbility st_check emit_range set_delegate
         defer_end st_modify st_bind st_ret st_get st_fail];
    rewrite Hp, Hav, Hasc, Hc, Hsp, ?Hlc, ?Hna; cbn;
    (split; [reflexivity|]); cbn; repeat rewrite <- app_assoc; reflexivity.
Qed.

(** ** A shot in a concrete world *)

Definition hit_ex (a : option nat) (pawn blocking : bool) : FHitResult :=
  {| HitObjectHandle := a; RepresentsPawn := pawn; AttachParentIsPawn := false; bBlockingHit := blocking;
     Location := ZeroVector; ImpactPoint := ZeroVector; TraceStart := ZeroVector; TraceEnd := ZeroVector |}.

(** The hits a world that honours the query's ignored actors returns. *)
Definition honour (p : FCollisionQueryParams) (l : list FHitResult) : list FHitResult :=
  List.filter (fun h => match HitObjectHandle h with Some a => negb (bool_decide (a ∈ IgnoredActors p)) | None => true end) l.

(** The line trace hits the avatar's weapon (actor 2) and a wall
    (actor 5, blocking); the sweep first meets the weapon, then the pawn
    9 twice (two of its components), then the wall.  The world honours
    the ignored actors. *)
Definition world_ex : RangeWorld :=
  {| LineTraceMultiByChannel := fun _ _ _ p => honour p [hit_ex (Some 2%nat) false true; hit_ex (Some 5%nat) false true];
     SweepMultiByChannel := fun _ _ _ _ p =>
       honour p [hit_ex (Some 2%nat) false false; hit_ex (Some 9%nat) true false;
                 hit_ex (Some 9%nat) true false; hit_ex (Some 5%nat) false true] |}.

Definition input_ex : FRangedFiringInput :=
  {| StartTrace := ZeroVector; EndAim := vscale ForwardVector 2500; AimDir := ForwardVector;
     CharacterData := true; bCanPlayBulletFX := true |}.

(** A locally controlled client pawn, actor 1, holding its weapon,
    actor 2. *)
Definition info_ex : RangeActorInfo :=
  {| HasAbilitySystem := true; AvatarActor := Some 1%nat; AvatarAttachedActors := [2%nat]; AvatarIsPawn := true; IsLyraCharacter := true;
     HasController := true; IsLocallyControlled := true; IsNetAuthority := false;
     IsDedicatedServer := false; SpecFound := true |}.

Definition ability_ex : RangeAbilityState :=
  {| TargetDataDelegateBound := true; ScopeLockCount := 0; WaitingToExecute := []; RangeOutputs := [] |}.

(** The default ability sweeps with radius 5: the pawn is reported once,
    then the wall. *)
Example TraceAttack_reports_pawn_once :
  option_map hit_handles (match TraceAttack ULyraGameplayAbility_RangeTarget_config world_ex info_ex math_ex (fun _ => 1#2)%Q 0 input_ex [] with Ok l => Some l | Failed _ => None end) =
  Some [Some 9%nat; Some 5%nat].
Proof. vm_compute. reflexivity. Qed.

Lemma Trace_no_double_hits_witness :
  NoDup (hit_handles []) /\
  exists extra, snd (Trace world_ex info_ex ZeroVector ForwardVector 5 []) = [] ++ extra /\
    Forall (fun h => h ∈ query_results world_ex info_ex ZeroVector ForwardVector 5) extra /\
    NoDup (hit_handles (snd (Trace world_ex info_ex ZeroVector ForwardVector 5 []))) /\
    (forall h, h ∈ query_results world_ex info_ex ZeroVector ForwardVector 5 ->
       HitObjectHandle h ∈ hit_handles (snd (Trace world_ex info_ex ZeroVector ForwardVector 5 []))) /\
    fst (Trace world_ex info_ex ZeroVector ForwardVector 5 []) =
      match query_results world_ex info_ex ZeroVector ForwardVector 5 with
      | [] => with_trace_ends FHitResult_init ZeroVector ForwardVector
      | _ :: _ => List.last (snd (Trace world_ex info_ex ZeroVector ForwardVector 5 [])) FHitResult_init
      end.
Proof.
  assert (Hnd : NoDup (hit_handles [])) by (vm_compute; constructor).
  split; [exact Hnd|]. exact (Trace_no_double_hits world_ex info_ex ZeroVector ForwardVector 5 [] Hnd).
Defined.

Lemma TraceAttack_always_reports_witness :
  CharacterData input_ex = true /\ (1 <= NumberOfProjectiles ULyraGameplayAbility_RangeTarget_config)%Z /\
  exists hits extra, TraceAttack ULyraGameplayAbility_RangeTarget_config world_ex info_ex math_ex (fun _ => 1#2)%Q 0 input_ex [] = Ok hits /\
    hits = [] ++ extra /\ hits <> [].
Proof.
  assert (Hc : CharacterData input_ex = true) by reflexivity.
  assert (Hn : (1 <= NumberOfProjectiles ULyraGameplayAbility_RangeTarget_config)%Z) by (vm_compute; discriminate).
  split_and!; [exact Hc|exact Hn|].
  exact (TraceAttack_always_reports ULyraGameplayAbility_RangeTarget_config world_ex info_ex math_ex (fun _ => 1#2)%Q 0 input_ex [] Hc Hn).
Defined.

Lemma StartRangedTargeting_protocol_witness :
  ScopeLockCount ability_ex = 0%nat /\
  exists hits a', PerformLocalTargeting ULyraGameplayAbility_RangeTarget_config world_ex math_ex (fun _ => 1#2)%Q 0 info_ex player_ex = Ok hits /\
    StartRangedTargeting ULyraGameplayAbility_RangeTarget_config world_ex math_ex (fun _ => 1#2)%Q 0 info_ex player_ex 42 true true ability_ex = Ok (tt, a') /\
    RangeOutputs a' = RangeOutputs ability_ex ++
      (if IsLocallyControlled info_ex && negb (IsNetAuthority info_ex)
       then [CallServerSetReplicatedTargetData (MakeTargetData hits 42)] else []) ++
      (if true then [OnRangedTargetDataReady (MakeTargetData hits 42)]
       else CommitFailedWarning :: (if true then [ConsumeClientReplicatedTargetData] else []) ++
            [SuperEndAbility true false]) ++
      [ConsumeClientReplicatedTargetData].
Proof.
  assert (Hl : ScopeLockCount ability_ex = 0%nat) by reflexivity.
  split; [exact Hl|].
  exact (StartRangedTargeting_protocol ULyraGameplayAbility_RangeTarget_config world_ex math_ex (fun _ => 1#2)%Q 0 info_ex player_ex
           42 true true ability_ex eq_refl eq_refl eq_refl eq_refl Hl).
Defined.

Lemma honour_not_ignored p l : Forall (not_ignored p) (honour p l).
Proof.
  apply Forall_forall. intros h Hh a Ha. unfold honour in Hh. apply list_elem_of_In, filter_In in Hh as [_ Hf].
  rewrite Ha in Hf. apply negb_true_iff, bool_decide_eq_false in Hf. exact Hf.
Qed.

Lemma world_ex_honours : honours_ignores world_ex.
Proof. intros s e r ch p. split; apply honour_not_ignored. Qed.

Lemma TraceAttack_ignores_avatar_witness :
  exists hits, TraceAttack ULyraGameplayAbility_RangeTarget_config world_ex info_ex math_ex (fun _ => 1#2)%Q 0
                 input_ex [] = Ok hits /\
    Forall (fun h => forall a, HitObjectHandle h = Some a -> a <> 1%nat /\ a ∉ AvatarAttachedActors info_ex) hits.
Proof.
  pose (hits := match TraceAttack ULyraGameplayAbility_RangeTarget_config world_ex info_ex math_ex (fun _ => 1#2)%Q 0
                        input_ex [] with Ok l => l | Failed _ => [] end).
  assert (H : TraceAttack ULyraGameplayAbility_RangeTarget_config world_ex info_ex math_ex (fun _ => 1#2)%Q 0
                input_ex [] = Ok hits) by (vm_compute; reflexivity).
  exists hits. split; [exact H|].
  exact (TraceAttack_ignores_avatar ULyraGameplayAbility_RangeTarget_config world_ex info_ex math_ex
           (fun _ => 1#2)%Q 0 input_ex 1%nat hits eq_refl world_ex_honours H).
Defined.

End RangeTarget.
