(* ===== verification/Enemies.v ===== *)
(** * The non-player characters: enemy spawner, AI controller, enemy
      character and friendly NPC

    Models src/LyraGame/Enemies: [ALyraEnemySpawner] (LyraEnemySpawner.cpp),
    which spawns [NumberOfEnemiesToCreate] AI pawns once the experience
    is loaded and, when [ShouldRespawn], sets a respawn timer each time
    one of them is destroyed; [ALyraEnemyControllerBase]
    (LyraEnemyControllerBase.cpp), the team agent of those pawns; and
    [ALyraEnemyCharacterBase] (LyraEnemyCharacterBase.cpp), which takes
    its pawn data when its ability system is initialized.  The pawn data
    asset is [ULyraPawnData] (Character/LyraPawnData.cpp).  Module
    [FriendlyNPC] models [ALyraFriendlyNPC] (Character/LyraFriendlyNPC.cpp),
    an interactable character whose [OnInteractEvent] is the interface's
    default (outside these sources).

    Actors are numbered by the spawner's allocator [NextActor].  What the
    engine decides is [SpawnerWorld]: whether a world and the team
    subsystem exist, the authority of the spawner, the pawn class's
    default controller class and whether a controller class wants a
    player state.  Spawning with [AdjustIfPossibleButAlwaysSpawn]
    always succeeds; the engine's [SpawnDefaultController] gives the pawn
    a new controller of its [AIControllerClass], if any.  The calls the
    spawner receives after the experience is loaded are pawn
    destructions and the firing of respawn timers ([SpawnerCall]). *)

From S2P Require Import Prelude.

Module EnemySpawner.

Local Open Scope Z_scope.

Definition ActorId := nat.
Definition ClassId := nat.

(** ULyraPawnData: the fields the enemies read; the constructor
    (LyraPawnData.cpp, lines 7-14) leaves them empty. *)
Record ULyraPawnData := {
  PawnDisplayName : string;
  PawnClass : option ClassId;
  AbilitySets : list (option nat);
}.

Definition ULyraPawnData_new : ULyraPawnData :=
  {| PawnDisplayName := "None"; PawnClass := None; AbilitySets := [] |}.

(** The spawner's UPROPERTYs; [PawnData] is the soft pointer after
    [Get] or [LoadSynchronous] ([None]: the asset could not be loaded). *)
Record SpawnerConfig := {
  PawnData : option ULyraPawnData;
  TeamID : nat;
  BehaviorTree : option nat;
  NumberOfEnemiesToCreate : Z;
  ShouldRespawn : bool;
  ControllerClass : option ClassId;
}.

Record SpawnerWorld := {
  HasWorld : bool;
  SpawnerHasAuthority : bool;
  HasTeamSubsystem : bool;
  PawnDefaultAIControllerClass : option ClassId;
  ControllerWantsPlayerState : ClassId -> bool;
}.

Inductive SpawnerOutput :=
  | PawnExtSetPawnData (Pawn : ActorId)
  | RunBehaviorTree (Controller : ActorId) (Tree : nat)
  | InitializeAbilitySystem (Pawn : ActorId) (OwnerIsPlayerState : bool)
  | ChangeTeamForActor (Controller : option ActorId) (Team : nat)
  | OnEnemyPawnSpawned (Pawn : ActorId).

#[export] Instance SpawnerOutput_eq_dec : EqDecision SpawnerOutput.
Proof. solve_decision. Defined.

(** The spawner's state: [SpawnedEnemyList] (controller pointers,
    [None] for [nullptr]), the pawns whose [OnDestroyed] is bound to
    [OnSpawnedPawnDestroyed] with their controllers, the respawn timers
    pending, the actor allocator and the outputs. *)
Record SpawnerState := {
  SpawnedEnemyList : list (option ActorId);
  BoundPawns : list (ActorId * option ActorId);
  PendingRespawns : nat;
  NextActor : ActorId;
  SpawnerOutputs : list SpawnerOutput;
}.

Definition SpawnerState_new : SpawnerState :=
  {| SpawnedEnemyList := []; BoundPawns := []; PendingRespawns := 0; NextActor := 1%nat; SpawnerOutputs := [] |}.

Definition emit_spawner (x : SpawnerOutput) : ST SpawnerState unit :=
  st_modify (fun s =>
    let '{| SpawnedEnemyList := l; BoundPawns := b; PendingRespawns := p; NextActor := n; SpawnerOutputs := o |} := s in
    {| SpawnedEnemyList := l; BoundPawns := b; PendingRespawns := p; NextActor := n; SpawnerOutputs := o ++ [x] |}).

(** A new actor from the world. *)
Definition new_actor : ST SpawnerState ActorId :=
  fun s =>
    let '{| SpawnedEnemyList := l; BoundPawns := b; PendingRespawns := p; NextActor := n; SpawnerOutputs := o |} := s in
    Ok (n, {| SpawnedEnemyList := l; BoundPawns := b; PendingRespawns := p; NextActor := S n; SpawnerOutputs := o |}).

Definition set_lists (l : list (option ActorId)) (b : list (ActorId * option ActorId)) (p : nat)
  : ST SpawnerState unit :=
  st_modify (fun s =>
    let '{| NextActor := n; SpawnerOutputs := o |} := s in
    {| SpawnedEnemyList := l; BoundPawns := b; PendingRespawns := p; NextActor := n; SpawnerOutputs := o |}).

(** [TArray::RemoveSingle]: the first equal element, if any. *)
Fixpoint RemoveSingle (x : option ActorId) (l : list (option ActorId)) : list (option ActorId) :=
  match l with
  | [] => []
  | y :: l' =>
      if match x, y with Some a, Some b => Nat.eqb a b | None, None => true | _, _ => false end
      then l' else y :: RemoveSingle x l'
  end.

Section Spawner.
  Variable cfg : SpawnerConfig.
  Variable w : SpawnerWorld.

(** SpawnEnemyFromClass, lines 54-100: the pawn (when a world and a pawn
    class exist), its controller class set to [ControllerClassToSpawn]
    and its pawn data given before the end of spawning, a default
    controller, and the behavior tree run on it. *)
Definition SpawnEnemyFromClass (LoadedPawnData : ULyraPawnData) (BehaviorTreeToRun : option nat)
    (ControllerClassToSpawn : option ClassId)
  : ST SpawnerState (option (ActorId * option (ActorId * ClassId))) :=
  if HasWorld w && not_null (PawnClass LoadedPawnData) then
    NewPawn <- new_actor ;;
    let AIControllerClass :=
      match ControllerClassToSpawn with Some cc => Some cc | None => PawnDefaultAIControllerClass w end in
    (if not_null ControllerClassToSpawn then emit_spawner (PawnExtSetPawnData NewPawn) else st_ret tt) ;;;
    Controller <- (match AIControllerClass with
                   | Some cc => c <- new_actor ;; st_ret (Some (c, cc))
                   | None => st_ret None
                   end) ;;
    (match BehaviorTreeToRun, Controller with
     | Some bt, Some (c, _) => emit_spawner (RunBehaviorTree c bt)
     | _, _ => st_ret tt
     end) ;;;
    st_ret (Some (NewPawn, Controller))
  else st_ret None.

(** SpawnOneEnemy, lines 122-161: the ability system of the player state
    (when the controller wants one) or of the pawn, the team, the
    controller recorded and the destruction bound. *)
Definition SpawnOneEnemy : ST SpawnerState unit :=
  match PawnData cfg with
  | None => st_ret tt
  | Some LoadedPawnData =>
      r <- SpawnEnemyFromClass LoadedPawnData (BehaviorTree cfg) (ControllerClass cfg) ;;
      match r with
      | None => st_ret tt
      | Some (SpawnedNPC, Controller) =>
          let bWantsPlayerState :=
            match Controller with Some (_, cc) => ControllerWantsPlayerState w cc | None => true end in
          let AbilityOwnerHasASC := if bWantsPlayerState then not_null Controller else true in
          (if AbilityOwnerHasASC then emit_spawner (InitializeAbilitySystem SpawnedNPC bWantsPlayerState)
           else st_ret tt) ;;;
          (if HasTeamSubsystem w
           then emit_spawner (ChangeTeamForActor (option_map fst Controller) (TeamID cfg)) else st_ret tt) ;;;
          s <- st_get ;;
          set_lists (SpawnedEnemyList s ++ [option_map fst Controller])
                    (BoundPawns s ++ [(SpawnedNPC, option_map fst Controller)]) (PendingRespawns s) ;;;
          emit_spawner (OnEnemyPawnSpawned SpawnedNPC)
      end
  end.

Fixpoint SpawnEnemies (n : nat) : ST SpawnerState unit :=
  match n with
  | O => st_ret tt
  | S n' => SpawnOneEnemy ;;; SpawnEnemies n'
  end.

(** ServerCreateEnemies, lines 38-50. *)
Definition ServerCreateEnemies : ST SpawnerState unit :=
  if not_null (ControllerClass cfg) then SpawnEnemies (Z.to_nat (NumberOfEnemiesToCreate cfg))
  else st_ret tt.

(** OnExperienceLoaded, lines 28-36 (a build with server code). *)
Definition OnExperienceLoaded : ST SpawnerState unit :=
  if SpawnerHasAuthority w then ServerCreateEnemies else st_ret tt.

(** BeginPlay, lines 16-26: the two [check]s, then
    [CallOrRegister_OnExperienceLoaded_LowPriority], which calls
    [OnExperienceLoaded] at once when the experience is already loaded
    and otherwise registers it; the result says whether it is left
    registered. *)
Definition BeginPlay (HasGameState HasExperienceComponent ExperienceIsLoaded : bool) : ST SpawnerState bool :=
  st_check HasGameState "GameState" ;;;
  st_check HasExperienceComponent "ExperienceComponent" ;;;
  if ExperienceIsLoaded then OnExperienceLoaded ;;; st_ret false else st_ret true.

(** OnSpawnedPawnDestroyed, lines 102-120: the controller the pawn has
    when it is destroyed is removed from the list, and a respawn timer
    is set. *)
Definition OnSpawnedPawnDestroyed (ControllerAtDestroy : option ActorId) : ST SpawnerState unit :=
  if negb (SpawnerHasAuthority w) then st_ret tt
  else
    s <- st_get ;;
    set_lists (RemoveSingle ControllerAtDestroy (SpawnedEnemyList s)) (BoundPawns s)
              (if ShouldRespawn cfg then S (PendingRespawns s) else PendingRespawns s).

(** ** The calls after the experience is loaded *)

(** The destruction of a spawned pawn, its controller detached first or
    not, and the firing of a respawn timer. *)
Inductive SpawnerCall :=
  | CallPawnDestroyed (Pawn : ActorId) (Detached : bool)
  | CallRespawnTimer.

Fixpoint unbind (p : ActorId) (b : list (ActorId * option ActorId)) : option (option ActorId * list (ActorId * option ActorId)) :=
  match b with
  | [] => None
  | (q, c) :: b' =>
      if Nat.eqb p q then Some (c, b')
      else match unbind p b' with Some (c', b'') => Some (c', (q, c) :: b'') | None => None end
  end.

(** The engine delivers [OnDestroyed] once to a bound pawn (then the
    binding is gone) and fires a pending timer once. *)
Definition run_spawner (call : SpawnerCall) : ST SpawnerState unit :=
  match call with
  | CallPawnDestroyed p Detached =>
      s <- st_get ;;
      match unbind p (BoundPawns s) with
      | None => st_ret tt
      | Some (c, b') =>
          set_lists (SpawnedEnemyList s) b' (PendingRespawns s) ;;;
          OnSpawnedPawnDestroyed (if Detached then None else c)
      end
  | CallRespawnTimer =>
      s <- st_get ;;
      match PendingRespawns s with
      | O => st_ret tt
      | S k => set_lists (SpawnedEnemyList s) (BoundPawns s) k ;;; SpawnOneEnemy
      end
  end.

Fixpoint run_spawner_seq (calls : list SpawnerCall) : ST SpawnerState unit :=
  match calls with
  | [] => st_ret tt
  | c :: calls' => run_spawner c ;;; run_spawner_seq calls'
  end.

End Spawner.

(** ** Lemmas *)

Section SpawnerLemmas.
  Variable cfg : SpawnerConfig.
  Variable w : SpawnerWorld.

(** The spawner can spawn: it has authority and a world, and its pawn
    data loads with a pawn class. *)
Definition spawnable : Prop :=
  SpawnerHasAuthority w = true /\ HasWorld w = true /\
  exists pd, PawnData cfg = Some pd /\ not_null (PawnClass pd) = true.

(** Each SpawnOneEnemy of a spawnable spawner binds one new pawn and
    records its controller. *)
Lemma SpawnOneEnemy_binds s :
  spawnable ->
  exists p c s', SpawnOneEnemy cfg w s = Ok (tt, s') /\
    BoundPawns s' = BoundPawns s ++ [(p, c)] /\ SpawnedEnemyList s' = SpawnedEnemyList s ++ [c] /\
    PendingRespawns s' = PendingRespawns s /\ p = NextActor s /\ (NextActor s < NextActor s')%nat.
Proof.
  intros (_ & Hw & pd & Hpd & Hpc). destruct s as [l b k n o].
  unfold SpawnOneEnemy, SpawnEnemyFromClass. rewrite Hpd, Hw, Hpc. cbn [andb].
  destruct (ControllerClass cfg) as [cc|] eqn:Hcc; cbn [not_null];
    [|destruct (PawnDefaultAIControllerClass w) as [cc|]];
    cbv [st_bind st_ret st_get new_actor emit_spawner st_modify set_lists]; cbn;
    repeat match goal with
           | |- context [if ?b then _ else _] => destruct b
           | |- context [match ?o with Some _ => _ | None => _ end] => destruct o
           end; cbn; (do 3 eexists); split_and!; try reflexivity; cbn; lia.
Qed.

Lemma SpawnEnemies_binds n s :
  spawnable ->
  exists s', SpawnEnemies cfg w n s = Ok (tt, s') /\
    length (BoundPawns s') = (length (BoundPawns s) + n)%nat /\ PendingRespawns s' = PendingRespawns s.
Proof.
  intros Hsp. revert s. induction n as [|n IH]; intros s; cbn [SpawnEnemies].
  - exists s. split_and!; [done|lia|done].
  - destruct (SpawnOneEnemy_binds s Hsp) as (p & c & s1 & H1 & Hb1 & _ & Hp1 & _ & _).
    rewrite (st_bind_ok _ _ _ _ _ H1). destruct (IH s1) as (s2 & H2 & Hb2 & Hp2).
    exists s2. rewrite Hb2, Hb1, length_app. cbn. split_and!; [done|lia|congruence].
Qed.

Lemma unbind_length p b c b' : unbind p b = Some (c, b') -> length b = S (length b').
Proof.
  revert b'. induction b as [|[q c0] b IH]; intros b' H; cbn in H; [done|].
  destruct (Nat.eqb p q); [by injection H as -> ->|].
  destruct (unbind p b) as [[c' b'']|] eqn:E; [|done]. injection H as -> <-. cbn. by rewrite (IH _ eq_refl).
Qed.

(** A respawn timer that fires spawns one bound pawn. *)
Lemma respawn_timer_fires s k :
  spawnable -> PendingRespawns s = S k ->
  exists s', run_spawner cfg w CallRespawnTimer s = Ok (tt, s') /\
    PendingRespawns s' = k /\ length (BoundPawns s') = S (length (BoundPawns s)) /\
    exists c, BoundPawns s' = BoundPawns s ++ [(NextActor s, c)] /\ (NextActor s < NextActor s')%nat.
Proof.
  intros Hsp Hk. cbn [run_spawner]. rewrite st_bind_get, Hk.
  destruct s as [l b k0 n o]. cbn in Hk. subst k0. cbv [st_bind set_lists st_modify]. cbn -[SpawnOneEnemy].
  destruct (SpawnOneEnemy_binds {| SpawnedEnemyList := l; BoundPawns := b; PendingRespawns := k;
                                   NextActor := n; SpawnerOutputs := o |} Hsp)
    as (p & c & s1 & H1 & Hb1 & _ & Hp1 & Hp & Hn).
  rewrite H1. eexists. split; [reflexivity|]. rewrite Hb1, Hp1, length_app. cbn in *. subst p.
  split_and!; [done|lia|]. by exists c.
Qed.

(** One call keeps the population: bound pawns plus pending respawns
    stay constant with respawn, and nothing is pending without. *)
Lemma run_spawner_population call s :
  spawnable ->
  exists s', run_spawner cfg w call s = Ok (tt, s') /\
    (ShouldRespawn cfg = true ->
       (length (BoundPawns s') + PendingRespawns s' = length (BoundPawns s) + PendingRespawns s)%nat) /\
    (ShouldRespawn cfg = false -> PendingRespawns s = 0%nat ->
       PendingRespawns s' = 0%nat /\ (length (BoundPawns s') <= length (BoundPawns s))%nat).
Proof.
  intros Hsp. pose proof Hsp as (Ha & _). destruct call as [p det|].
  - cbn [run_spawner]. rewrite st_bind_get. destruct (unbind p (BoundPawns s)) as [[c b']|] eqn:Hu; [|exists s; split_and!; [done|lia|lia]].
    pose proof (unbind_length _ _ _ _ Hu) as Hl. destruct s as [l b k n o]. cbn in *.
    unfold OnSpawnedPawnDestroyed. rewrite Ha. cbv [st_bind st_ret st_get set_lists st_modify]. cbn.
    eexists. split; [reflexivity|]. cbn. split; intros Hr; rewrite Hr; [lia|intros ->; lia].
  - destruct (PendingRespawns s) as [|k] eqn:Hk.
    + exists s. cbn [run_spawner]. rewrite st_bind_get, Hk. split_and!; [done|lia|lia].
    + destruct (respawn_timer_fires s k Hsp Hk) as (s' & H & Hp & Hb & _).
      exists s'. rewrite Hp, Hb. split_and!; [done|lia|congruence].
Qed.

Lemma run_spawner_seq_population calls s :
  spawnable ->
  exists s', run_spawner_seq cfg w calls s = Ok (tt, s') /\
    (ShouldRespawn cfg = true ->
       (length (BoundPawns s') + PendingRespawns s' = length (BoundPawns s) + PendingRespawns s)%nat) /\
    (ShouldRespawn cfg = false -> PendingRespawns s = 0%nat ->
       PendingRespawns s' = 0%nat /\ (length (BoundPawns s') <= length (BoundPawns s))%nat).
Proof.
  intros Hsp. revert s. induction calls as [|c calls IH]; intros s; cbn [run_spawner_seq].
  - exists s. split_and!; [done|lia|lia].
  - destruct (run_spawner_population c s Hsp) as (s1 & H1 & Hr1 & Hn1).
    rewrite (st_bind_ok _ _ _ _ _ H1). destruct (IH s1) as (s2 & H2 & Hr2 & Hn2).
    exists s2. split_and!; [done| |].
    + intros Hr. rewrite (Hr2 Hr). exact (Hr1 Hr).
    + intros Hr H0. destruct (Hn1 Hr H0) as [H1p H1l]. destruct (Hn2 Hr H1p). lia.
Qed.

(** The pending timers, fired, restore the pawns they stand for. *)
Lemma pending_timers_restore k s :
  spawnable -> PendingRespawns s = k ->
  exists s', run_spawner_seq cfg w (repeat CallRespawnTimer k) s = Ok (tt, s') /\
    PendingRespawns s' = 0%nat /\ length (BoundPawns s') = (length (BoundPawns s) + k)%nat.
Proof.
  intros Hsp. revert s. induction k as [|k IH]; intros s Hk; cbn [repeat run_spawner_seq].
  - exists s. split_and!; [done|done|lia].
  - destruct (respawn_timer_fires s k Hsp Hk) as (s1 & H1 & Hp1 & Hb1 & _).
    rewrite (st_bind_ok _ _ _ _ _ H1). destruct (IH s1 Hp1) as (s2 & H2 & Hp2 & Hb2).
    exists s2. split_and!; [done|done|lia].
Qed.

(** Loading the experience creates [NumberOfEnemiesToCreate] bound
    pawns and leaves no respawn pending. *)
Lemma OnExperienceLoaded_population :
  spawnable -> not_null (ControllerClass cfg) = true ->
  exists s, OnExperienceLoaded cfg w SpawnerState_new = Ok (tt, s) /\
    length (BoundPawns s) = Z.to_nat (NumberOfEnemiesToCreate cfg) /\ PendingRespawns s = 0%nat.
Proof.
  intros Hsp Hcc. pose proof Hsp as (Ha & _).
  unfold OnExperienceLoaded, ServerCreateEnemies. rewrite Ha, Hcc.
  destruct (SpawnEnemies_binds (Z.to_nat (NumberOfEnemiesToCreate cfg)) SpawnerState_new Hsp)
    as (s & Hs & Hl & Hp). exists s. cbn in Hl, Hp. split_and!; [done|lia|done].
Qed.

(** [RemoveSingle nullptr] removes nothing from a list without one. *)
Lemma RemoveSingle_None_absent l : None ∉ l -> RemoveSingle None l = l.
Proof.
  induction l as [|[a|] l IH]; intros Hn; cbn; [done| |].
  - apply not_elem_of_cons in Hn as [_ Hn]. by rewrite IH.
  - apply not_elem_of_cons in Hn as [Hn _]. done.
Qed.

End SpawnerLemmas.

(** ** Theorems *)

(** C35: The spawner keeps its population.  A spawnable spawner with a
    controller class creates [NumberOfEnemiesToCreate] bound pawns when
    the experience is loaded; afterwards, whatever destructions and
    timer firings follow, none of them fails, and the pawns alive plus
    the respawns pending stay [NumberOfEnemiesToCreate] when
    [ShouldRespawn] is set, while without it nothing is ever pending and
    the population only shrinks. *)
Theorem spawner_keeps_population cfg w calls :
  spawnable cfg w -> not_null (ControllerClass cfg) = true ->
  exists s s', OnExperienceLoaded cfg w SpawnerState_new = Ok (tt, s) /\
    length (BoundPawns s) = Z.to_nat (NumberOfEnemiesToCreate cfg) /\
    run_spawner_seq cfg w calls s = Ok (tt, s') /\
    (ShouldRespawn cfg = true ->
       (length (BoundPawns s') + PendingRespawns s')%nat = Z.to_nat (NumberOfEnemiesToCreate cfg)) /\
    (ShouldRespawn cfg = false ->
       PendingRespawns s' = 0%nat /\ (length (BoundPawns s') <= Z.to_nat (NumberOfEnemiesToCreate cfg))%nat).
Proof.
  intros Hsp Hcc. destruct (OnExperienceLoaded_population cfg w Hsp Hcc) as (s & Hs & Hl & Hp).
  destruct (run_spawner_seq_population cfg w calls s Hsp) as (s' & Hs' & Hr & Hn).
  exists s, s'. split_and!; [done|done|done| |].
  - intros Hr1. rewrite (Hr Hr1). lia.
  - intros Hr1. destruct (Hn Hr1 Hp). lia.
Qed.

(** C36: Respawning restores the population.  For a spawnable spawner
    with a controller class and [ShouldRespawn], whatever destructions
    and timer firings follow the experience load, once the respawn
    timers still pending fire, [NumberOfEnemiesToCreate] pawns are bound
    again and nothing is pending. *)
Theorem spawner_restores_population cfg w calls :
  spawnable cfg w -> not_null (ControllerClass cfg) = true -> ShouldRespawn cfg = true ->
  exists s s' s'', OnExperienceLoaded cfg w SpawnerState_new = Ok (tt, s) /\
    run_spawner_seq cfg w calls s = Ok (tt, s') /\
    run_spawner_seq cfg w (repeat CallRespawnTimer (PendingRespawns s')) s' = Ok (tt, s'') /\
    length (BoundPawns s'') = Z.to_nat (NumberOfEnemiesToCreate cfg) /\ PendingRespawns s'' = 0%nat.
Proof.
  intros Hsp Hcc Hr. destruct (OnExperienceLoaded_population cfg w Hsp Hcc) as (s & Hs & Hl & Hp).
  destruct (run_spawner_seq_population cfg w calls s Hsp) as (s' & Hs' & Hr' & _).
  destruct (pending_timers_restore cfg w _ s' Hsp eq_refl) as (s'' & Hs'' & Hp'' & Hl'').
  exists s, s', s''. split_and!; [done|done|done| |done].
  specialize (Hr' Hr). lia.
Qed.

(** ** Examples *)

Definition pawn_data_ex : ULyraPawnData :=
  {| PawnDisplayName := "Enemy"; PawnClass := Some 7%nat; AbilitySets := [Some 1%nat] |}.

Definition spawner_cfg_ex (n : Z) (respawn : bool) : SpawnerConfig :=
  {| PawnData := Some pawn_data_ex; TeamID := 2; BehaviorTree := Some 3%nat;
     NumberOfEnemiesToCreate := n; ShouldRespawn := respawn; ControllerClass := Some 5%nat |}.

Definition spawner_world_ex : SpawnerWorld :=
  {| HasWorld := true; SpawnerHasAuthority := true; HasTeamSubsystem := true;
     PawnDefaultAIControllerClass := Some 5%nat; ControllerWantsPlayerState := fun _ => false |}.

Lemma spawner_keeps_population_witness :
  spawnable (spawner_cfg_ex 3 true) spawner_world_ex /\
  exists s s', OnExperienceLoaded (spawner_cfg_ex 3 true) spawner_world_ex SpawnerState_new = Ok (tt, s) /\
    length (BoundPawns s) = 3%nat /\
    run_spawner_seq (spawner_cfg_ex 3 true) spawner_world_ex
      [CallPawnDestroyed 1%nat false; CallRespawnTimer; CallPawnDestroyed 3%nat true] s = Ok (tt, s') /\
    (ShouldRespawn (spawner_cfg_ex 3 true) = true -> (length (BoundPawns s') + PendingRespawns s')%nat = 3%nat) /\
    (ShouldRespawn (spawner_cfg_ex 3 true) = false ->
       PendingRespawns s' = 0%nat /\ (length (BoundPawns s') <= 3)%nat).
Proof.
  assert (Hsp : spawnable (spawner_cfg_ex 3 true) spawner_world_ex).
  { split_and!; [reflexivity|reflexivity|]. exists pawn_data_ex. split; reflexivity. }
  split; [exact Hsp|]. apply (spawner_keeps_population _ _ _ Hsp). reflexivity.
Defined.

Lemma spawner_restores_population_witness :
  exists s s' s'', OnExperienceLoaded (spawner_cfg_ex 2 true) spawner_world_ex SpawnerState_new = Ok (tt, s) /\
    run_spawner_seq (spawner_cfg_ex 2 true) spawner_world_ex
      [CallPawnDestroyed 1%nat false; CallPawnDestroyed 3%nat true] s = Ok (tt, s') /\
    run_spawner_seq (spawner_cfg_ex 2 true) spawner_world_ex (repeat CallRespawnTimer (PendingRespawns s')) s'
      = Ok (tt, s'') /\
    length (BoundPawns s'') = 2%nat /\ PendingRespawns s'' = 0%nat.
Proof.
  assert (Hsp : spawnable (spawner_cfg_ex 2 true) spawner_world_ex).
  { split_and!; [reflexivity|reflexivity|]. exists pawn_data_ex. split; reflexivity. }
  exact (spawner_restores_population _ _ _ Hsp eq_refl eq_refl).
Defined.

(** C37: [SpawnedEnemyList] loses track of its controllers.  When a bound
    pawn's controller is detached before the pawn is destroyed (the
    engine does so when an AI controller unpossesses on death),
    [RemoveSingle] is given [nullptr]: on a list that holds no
    [nullptr] it removes nothing, so the dead pawn's controller stays
    listed while the pawn is unbound and (with [ShouldRespawn]) a
    respawn is scheduled that will append a second controller. *)
Theorem SpawnedEnemyList_keeps_dead_controller cfg w p c b' s :
  SpawnerHasAuthority w = true -> unbind p (BoundPawns s) = Some (c, b') ->
  None ∉ SpawnedEnemyList s ->
  run_spawner cfg w (CallPawnDestroyed p true) s =
    Ok (tt, {| SpawnedEnemyList := SpawnedEnemyList s; BoundPawns := b';
               PendingRespawns := if ShouldRespawn cfg then S (PendingRespawns s) else PendingRespawns s;
               NextActor := NextActor s; SpawnerOutputs := SpawnerOutputs s |}).
Proof.
  intros Ha Hu Hn. destruct s as [l b k n o]. cbn in *.
  cbv [run_spawner OnSpawnedPawnDestroyed st_bind st_ret st_get set_lists st_modify]. cbn.
  rewrite Hu, Ha. cbn. by rewrite RemoveSingle_None_absent.
Qed.

(** The spawner of one enemy after the experience is loaded: pawn 1
    with controller 2. *)
Definition spawner_state_ex : SpawnerState :=
  match OnExperienceLoaded (spawner_cfg_ex 1 true) spawner_world_ex SpawnerState_new with
  | Ok (_, s) => s
  | Failed _ => SpawnerState_new
  end.

Lemma SpawnedEnemyList_keeps_dead_controller_witness :
  unbind 1%nat (BoundPawns spawner_state_ex) = Some (Some 2%nat, []) /\
  None ∉ SpawnedEnemyList spawner_state_ex /\
  run_spawner (spawner_cfg_ex 1 true) spawner_world_ex (CallPawnDestroyed 1%nat true) spawner_state_ex =
    Ok (tt, {| SpawnedEnemyList := [Some 2%nat]; BoundPawns := []; PendingRespawns := 1%nat;
               NextActor := NextActor spawner_state_ex; SpawnerOutputs := SpawnerOutputs spawner_state_ex |}).
Proof.
  assert (Hu : unbind 1%nat (BoundPawns spawner_state_ex) = Some (Some 2%nat, [])) by (vm_compute; reflexivity).
  assert (Hl : SpawnedEnemyList spawner_state_ex = [Some 2%nat]) by (vm_compute; reflexivity).
  assert (Hn : None ∉ SpawnedEnemyList spawner_state_ex)
    by (rewrite Hl; apply not_elem_of_cons; split; [discriminate|apply not_elem_of_nil]).
  split; [exact Hu|split; [exact Hn|]].
  rewrite <- Hl.
  exact (SpawnedEnemyList_keeps_dead_controller (spawner_cfg_ex 1 true) spawner_world_ex 1%nat _ _
           spawner_state_ex eq_refl Hu Hn).
Defined.

End EnemySpawner.

(** ** ALyraEnemyControllerBase (LyraEnemyControllerBase.cpp) *)

Module EnemyController.

(** [FGenericTeamId]: its 8-bit id; [NoTeam] is 255. *)
Definition FGenericTeamId := nat.
Definition NoTeam : FGenericTeamId := 255.

Inductive ETeamAttitude := Friendly | Neutral | Hostile.

(** What the controller calls out: Lyra's [ConditionalBroadcastTeamChanged]
    (defined with the team agent interface, outside these sources), the
    error log of a non-authority call, and the perception update. *)
Inductive ControllerEvent :=
  | ConditionalBroadcastTeamChanged (OldTeamID NewTeamID : FGenericTeamId)
  | LogTeamsError
  | RequestStimuliListenerUpdate (Perception : nat).

Record ALyraEnemyControllerBase := {
  bWantsPlayerState : bool;
  bStopAILogicOnUnposses : bool;
  MyTeamID : FGenericTeamId;
  ControllerEvents : list ControllerEvent;
}.

(** The constructor, lines 11-19 (the engine's defaults of [AAIController]
    for the flags are overwritten there). *)
Definition ALyraEnemyControllerBase_new : ALyraEnemyControllerBase :=
  {| bWantsPlayerState := false; bStopAILogicOnUnposses := false; MyTeamID := NoTeam;
     ControllerEvents := [] |}.

Definition with_team (c : ALyraEnemyControllerBase) (t : FGenericTeamId) (e : ControllerEvent) :=
  let '{| bWantsPlayerState := a; bStopAILogicOnUnposses := b; ControllerEvents := l |} := c in
  {| bWantsPlayerState := a; bStopAILogicOnUnposses := b; MyTeamID := t; ControllerEvents := l ++ [e] |}.

(** SetGenericTeamId, lines 21-34. *)
Definition SetGenericTeamId (HasAuthority : bool) (NewTeamID : FGenericTeamId)
    (c : ALyraEnemyControllerBase) : ALyraEnemyControllerBase :=
  if HasAuthority then with_team c NewTeamID (ConditionalBroadcastTeamChanged (MyTeamID c) NewTeamID)
  else with_team c (MyTeamID c) LogTeamsError.

(** GetGenericTeamId, lines 36-39. *)
Definition GetGenericTeamId (c : ALyraEnemyControllerBase) : FGenericTeamId := MyTeamID c.

(** The other actor, as [GetTeamAttitudeTowards] sees it: not a pawn, or a
    pawn whose controller is a team agent with its team id, or not. *)
Inductive OtherActor :=
  | NotAPawn
  | PawnControlledBy (TeamAgent : option FGenericTeamId).

(** GetTeamAttitudeTowards, lines 46-67. *)
Definition GetTeamAttitudeTowards (c : ALyraEnemyControllerBase) (Other : OtherActor) : ETeamAttitude :=
  match Other with
  | PawnControlledBy (Some OtherTeamID) =>
      if negb (Nat.eqb OtherTeamID (GetGenericTeamId c)) then Hostile else Friendly
  | _ => Neutral
  end.

(** UpdateTeamAttitude, lines 69-75. *)
Definition UpdateTeamAttitude (AIPerception : option nat) (c : ALyraEnemyControllerBase)
  : ALyraEnemyControllerBase :=
  match AIPerception with
  | Some p =>
      let '{| bWantsPlayerState := a; bStopAILogicOnUnposses := b; MyTeamID := t; ControllerEvents := l |} := c in
      {| bWantsPlayerState := a; bStopAILogicOnUnposses := b; MyTeamID := t;
         ControllerEvents := l ++ [RequestStimuliListenerUpdate p] |}
  | None => c
  end.

(** Team changes and attitudes.  On the authority, [SetGenericTeamId t]
    makes the controller friendly exactly to the pawns of team agents of
    team [t] and hostile to those of other teams, neutral to the rest,
    and broadcasts the change from the old team; elsewhere it keeps the
    team and logs an error. *)
Theorem SetGenericTeamId_attitude auth t c other :
  let c' := SetGenericTeamId auth t c in
  (auth = true ->
     GetGenericTeamId c' = t /\
     last (ControllerEvents c') = Some (ConditionalBroadcastTeamChanged (MyTeamID c) t) /\
     GetTeamAttitudeTowards c' other =
       match other with
       | PawnControlledBy (Some t') => if Nat.eqb t' t then Friendly else Hostile
       | _ => Neutral
       end) /\
  (auth = false ->
     GetGenericTeamId c' = GetGenericTeamId c /\ last (ControllerEvents c') = Some LogTeamsError /\
     GetTeamAttitudeTowards c' other = GetTeamAttitudeTowards c other).
Proof.
  destruct c as [a b t0 l]. cbn. split; intros ->; cbn;
    (split; [reflexivity|split; [apply last_snoc|]]);
    destruct other as [|[t'|]]; cbn; try reflexivity.
  by destruct (Nat.eqb t' t).
Qed.

Lemma SetGenericTeamId_attitude_witness :
  GetTeamAttitudeTowards (SetGenericTeamId true 1 ALyraEnemyControllerBase_new) (PawnControlledBy (Some 2)) = Hostile.
Proof.
  destruct (SetGenericTeamId_attitude true 1 ALyraEnemyControllerBase_new (PawnControlledBy (Some 2))) as [H _].
  destruct (H eq_refl) as (_ & _ & ->). reflexivity.
Defined.

(** Attitudes between two enemy controllers are symmetric. *)
Lemma GetTeamAttitudeTowards_sym c1 c2 :
  GetTeamAttitudeTowards c1 (PawnControlledBy (Some (GetGenericTeamId c2))) =
  GetTeamAttitudeTowards c2 (PawnControlledBy (Some (GetGenericTeamId c1))).
Proof. cbn. by rewrite Nat.eqb_sym. Qed.

End EnemyController.

(** ** ALyraEnemyCharacterBase (LyraEnemyCharacterBase.cpp) *)

Module EnemyCharacter.
Import EnemySpawner.

Definition FName := string.
(** [NAME_LyraAbilityReady], line 14. *)
Definition NAME_LyraAbilityReady : FName := "LyraAbilitiesReady".

(** The character's [PawnData], the ability sets given to its ability
    system component, and the extension events it sends. *)
Record EnemyCharacterState := {
  CharPawnData : option ULyraPawnData;
  GivenAbilitySets : list nat;
  ExtensionEvents : list FName;
}.

Definition EnemyCharacterState_new : EnemyCharacterState :=
  {| CharPawnData := None; GivenAbilitySets := []; ExtensionEvents := [] |}.

(** The non-null entries of [AbilitySets], in order. *)
Fixpoint valid_sets (l : list (option nat)) : list nat :=
  match l with
  | [] => []
  | Some a :: l' => a :: valid_sets l'
  | None :: l' => valid_sets l'
  end.

(** SetPawnData, lines 21-41. *)
Definition SetPawnData (IsAuthority : bool) (InPawnData : option ULyraPawnData)
  : ST EnemyCharacterState unit :=
  match InPawnData with
  | None => st_fail (CheckFailed "InPawnData")
  | Some pd =>
      if negb IsAuthority then st_ret tt
      else st_modify (fun s =>
        let '{| GivenAbilitySets := g; ExtensionEvents := e |} := s in
        {| CharPawnData := Some pd; GivenAbilitySets := g ++ valid_sets (AbilitySets pd);
           ExtensionEvents := e ++ [NAME_LyraAbilityReady] |})
  end.

(** GetEnemyPawnName, lines 43-51: [FName()] is [NAME_None]. *)
Definition GetEnemyPawnName (s : EnemyCharacterState) : FName :=
  match CharPawnData s with Some pd => PawnDisplayName pd | None => "None" end.

(** OnAbilitySystemInitialized, lines 53-61: [PawnExt] is the pawn
    extension component, if found, with the pawn data it holds. *)
Definition OnAbilitySystemInitialized (IsAuthority : bool) (PawnExt : option (option ULyraPawnData))
  : ST EnemyCharacterState unit :=
  match PawnExt with
  | None => st_ret tt
  | Some pd => SetPawnData IsAuthority pd
  end.

(** Initialization of an enemy character.  When its ability system is
    initialized on the authority with a pawn extension component that
    holds pawn data (as the spawner arranges), the character takes that
    pawn data, reports its display name, is given every valid ability
    set of it and sends [NAME_LyraAbilityReady]; an extension component
    without pawn data fails the [check]. *)
Theorem OnAbilitySystemInitialized_spec auth pd s :
  (auth = true -> exists s',
     OnAbilitySystemInitialized auth (Some (Some pd)) s = Ok (tt, s') /\
     GetEnemyPawnName s' = PawnDisplayName pd /\
     GivenAbilitySets s' = GivenAbilitySets s ++ valid_sets (AbilitySets pd) /\
     ExtensionEvents s' = ExtensionEvents s ++ [NAME_LyraAbilityReady]) /\
  OnAbilitySystemInitialized auth (Some None) s = Failed (CheckFailed "InPawnData").
Proof.
  split; [|reflexivity]. intros ->. destruct s. eexists. split_and!; reflexivity.
Qed.

Lemma OnAbilitySystemInitialized_spec_witness :
  exists s', OnAbilitySystemInitialized true (Some (Some pawn_data_ex)) EnemyCharacterState_new = Ok (tt, s') /\
    GetEnemyPawnName s' = "Enemy".
Proof.
  destruct (OnAbilitySystemInitialized_spec true pawn_data_ex EnemyCharacterState_new) as [H _].
  destruct (H eq_refl) as (s' & Hs & Hn & _). exists s'. split; [exact Hs|exact Hn].
Defined.

(** A second initialization gives the ability sets again: [SetPawnData]
    has no guard against pawn data already set. *)
Example OnAbilitySystemInitialized_twice :
  (OnAbilitySystemInitialized true (Some (Some pawn_data_ex)) ;;;
   OnAbilitySystemInitialized true (Some (Some pawn_data_ex))) EnemyCharacterState_new
  = Ok (tt, {| CharPawnData := Some pawn_data_ex; GivenAbilitySets := [1%nat; 1%nat];
               ExtensionEvents := [NAME_LyraAbilityReady; NAME_LyraAbilityReady] |}).
Proof. reflexivity. Qed.

End EnemyCharacter.

(** ** ALyraFriendlyNPC (Character/LyraFriendlyNPC.cpp) *)

Module FriendlyNPC.

(** [FInteractionOption]: its text and the rest of its fields, opaque;
    [FInventoryPickup]: opaque. *)
Record FInteractionOption := { Text : string; OptionRest : nat }.

Record ALyraFriendlyNPC := {
  bCanEverTick : bool;
  Option : FInteractionOption;
  StaticInventory : nat;
}.

(** The constructor, lines 8-12. *)
Definition ALyraFriendlyNPC_new (opt : FInteractionOption) (inv : nat) : ALyraFriendlyNPC :=
  {| bCanEverTick := false; Option := opt; StaticInventory := inv |}.

(** GatherInteractionOptions, lines 14-18: the builder's options. *)
Definition GatherInteractionOptions (npc : ALyraFriendlyNPC) (Builder : list FInteractionOption)
  : list FInteractionOption := Builder ++ [Option npc].

(** GetPickupInventory, lines 20-23, and GetInteractionOption, lines 25-28. *)
Definition GetPickupInventory (npc : ALyraFriendlyNPC) : nat := StaticInventory npc.
Definition GetInteractionOption (npc : ALyraFriendlyNPC) : FInteractionOption := Option npc.

(** SetInteractionText, lines 35-38. *)
Definition SetInteractionText (npc : ALyraFriendlyNPC) (InteractionText : string) : ALyraFriendlyNPC :=
  let '{| bCanEverTick := b; Option := o; StaticInventory := i |} := npc in
  {| bCanEverTick := b; Option := {| Text := InteractionText; OptionRest := OptionRest o |};
     StaticInventory := i |}.

(** The option gathered after [SetInteractionText] carries the new text
    and nothing else of the NPC changes. *)
Lemma SetInteractionText_gathered npc t b :
  GatherInteractionOptions (SetInteractionText npc t) b =
    b ++ [{| Text := t; OptionRest := OptionRest (Option npc) |}] /\
  GetPickupInventory (SetInteractionText npc t) = GetPickupInventory npc.
Proof. by destruct npc. Qed.

End FriendlyNPC.
