(* ===== verification/EnemyInit.v ===== *)
(** * Spawned enemies take their pawn data

    The composition of [ALyraEnemySpawner] with [ALyraEnemyCharacterBase]
    (file [Enemies]): SpawnEnemyFromClass gives the new pawn's extension
    component its pawn data ([PawnExtSetPawnData], LyraEnemySpawner.cpp
    line 77) before SpawnOneEnemy initializes its ability system
    ([InitializeAbilitySystem], line 146), which runs the character's
    OnAbilitySystemInitialized (LyraEnemyCharacterBase.cpp lines 53-61).
    The order of the spawner's outputs is what makes the character's
    [check(InPawnData)] hold.  [init_after_set] scans the outputs; the
    pawn extension of a pawn holds the spawner's pawn data once
    [PawnExtSetPawnData] for it was sent. *)

From S2P Require Import Prelude Enemies.
Import EnemySpawner EnemyCharacter.

Module EnemyInit.

(** Whether every [InitializeAbilitySystem] of the outputs comes after
    the [PawnExtSetPawnData] of its pawn ([seen]: the pawns given pawn
    data before). *)
Fixpoint init_after_set (seen : list ActorId) (outs : list SpawnerOutput) : bool :=
  match outs with
  | [] => true
  | PawnExtSetPawnData p :: outs' => init_after_set (p :: seen) outs'
  | InitializeAbilitySystem p _ :: outs' => bool_decide (p ∈ seen) && init_after_set seen outs'
  | _ :: outs' => init_after_set seen outs'
  end.

(** The pawn data the extension component of [p] holds after [outs]. *)
Definition pawn_ext_data (cfg : SpawnerConfig) (outs : list SpawnerOutput) (p : ActorId)
  : option ULyraPawnData :=
  if bool_decide (PawnExtSetPawnData p ∈ outs) then PawnData cfg else None.

(** ** Lemmas on the scan *)

Lemma init_after_set_mono seen seen' outs :
  seen ⊆ seen' -> init_after_set seen outs = true -> init_after_set seen' outs = true.
Proof.
  revert seen seen'. induction outs as [|o outs IH]; intros seen seen' Hs H; [done|].
  destruct o; cbn in *; try (by eapply IH; [|exact H]; set_solver).
  apply andb_true_iff in H as [Hp H]. apply bool_decide_eq_true in Hp.
  apply andb_true_iff. split; [apply bool_decide_eq_true; set_solver|by eapply IH].
Qed.

Lemma init_after_set_app seen o1 o2 :
  init_after_set seen o1 = true -> init_after_set [] o2 = true -> init_after_set seen (o1 ++ o2) = true.
Proof.
  revert seen. induction o1 as [|o o1 IH]; intros seen H1 H2; cbn.
  - eapply init_after_set_mono; [|exact H2]. set_solver.
  - destruct o; cbn in H1; try by apply IH.
    apply andb_true_iff in H1 as [Hp H1]. rewrite Hp. by apply IH.
Qed.

(** Where the scan passes, every initialization follows the
    [PawnExtSetPawnData] of its pawn. *)
Lemma init_after_set_prefix seen o1 p b o2 :
  init_after_set seen (o1 ++ InitializeAbilitySystem p b :: o2) = true ->
  p ∈ seen \/ PawnExtSetPawnData p ∈ o1.
Proof.
  revert seen. induction o1 as [|o o1 IH]; intros seen H; cbn in H.
  - apply andb_true_iff in H as [Hp _]. left. by apply bool_decide_eq_true in Hp.
  - destruct o; try (destruct (IH _ H); [by left|right; set_solver]).
    + destruct (IH _ H) as [Hin|Hin]; [|right; set_solver].
      apply elem_of_cons in Hin as [->|Hin]; [right; set_solver|by left].
    + apply andb_true_iff in H as [_ H]. destruct (IH _ H); [by left|right; set_solver].
Qed.

(** ** The spawner's outputs *)

Section Outputs.
  Variable cfg : SpawnerConfig.
  Variable w : SpawnerWorld.
  Hypothesis Hsp : spawnable cfg w.
  Hypothesis Hcc : not_null (ControllerClass cfg) = true.

(** A spawn sends the pawn data before the initialization. *)
Lemma SpawnOneEnemy_outputs s :
  exists s', SpawnOneEnemy cfg w s = Ok (tt, s') /\
    exists blk, SpawnerOutputs s' = SpawnerOutputs s ++ blk /\ init_after_set [] blk = true.
Proof.
  destruct Hsp as (_ & Hw & pd & Hpd & Hpc). destruct s as [l b k n o].
  unfold SpawnOneEnemy, SpawnEnemyFromClass. rewrite Hpd, Hw, Hpc. cbn [andb].
  destruct (ControllerClass cfg) as [cc|] eqn:Ecc; [|discriminate].
  cbv [st_bind st_ret st_get new_actor emit_spawner st_modify set_lists]; cbn.
  repeat match goal with
         | |- context [if ?b then _ else _] => destruct b
         | |- context [match ?o with Some _ => _ | None => _ end] => destruct o
         end; cbn; eexists; (split; [reflexivity|]); eexists;
    (split; [rewrite <- ?app_assoc; reflexivity|]); cbn; rewrite ?bool_decide_true by set_solver; reflexivity.
Qed.

Lemma SpawnEnemies_outputs m s :
  init_after_set [] (SpawnerOutputs s) = true ->
  exists s', SpawnEnemies cfg w m s = Ok (tt, s') /\ init_after_set [] (SpawnerOutputs s') = true.
Proof.
  revert s. induction m as [|m IH]; intros s Hs; cbn [SpawnEnemies]; [by exists s|].
  destruct (SpawnOneEnemy_outputs s) as (s1 & H1 & blk & Ho & Hb).
  rewrite (st_bind_ok _ _ _ _ _ H1). apply IH. rewrite Ho. by apply init_after_set_app.
Qed.

Lemma run_spawner_outputs call s :
  init_after_set [] (SpawnerOutputs s) = true ->
  exists s', run_spawner cfg w call s = Ok (tt, s') /\ init_after_set [] (SpawnerOutputs s') = true.
Proof.
  intros Hs. pose proof Hsp as (Ha & _). destruct call as [p det|]; cbn [run_spawner]; rewrite st_bind_get.
  - destruct (unbind p (BoundPawns s)) as [[c b']|]; [|by exists s].
    destruct s as [l b k n o]. unfold OnSpawnedPawnDestroyed. rewrite Ha.
    cbv [st_bind st_ret st_get set_lists st_modify]. cbn. by eexists.
  - destruct (PendingRespawns s) as [|k] eqn:Hk; [by exists s|].
    destruct s as [l b k0 n o]. cbv [st_bind set_lists st_modify]. cbn -[SpawnOneEnemy].
    destruct (SpawnOneEnemy_outputs {| SpawnedEnemyList := l; BoundPawns := b; PendingRespawns := k;
                                       NextActor := n; SpawnerOutputs := o |}) as (s1 & H1 & blk & Ho & Hb).
    rewrite H1. eexists. split; [reflexivity|]. rewrite Ho. by apply init_after_set_app.
Qed.

Lemma run_spawner_seq_outputs calls s :
  init_after_set [] (SpawnerOutputs s) = true ->
  exists s', run_spawner_seq cfg w calls s = Ok (tt, s') /\ init_after_set [] (SpawnerOutputs s') = true.
Proof.
  revert s. induction calls as [|c calls IH]; intros s Hs; cbn [run_spawner_seq]; [by exists s|].
  destruct (run_spawner_outputs c s Hs) as (s1 & H1 & Hs1). rewrite (st_bind_ok _ _ _ _ _ H1). by apply IH.
Qed.

End Outputs.

(** ** Theorem *)

(** C38: Every enemy the spawner initializes has its pawn data.  For a
    spawnable spawner with a controller class, after the experience is
    loaded and any destructions and respawns, each time the spawner
    initializes a pawn's ability system, the pawn's extension component
    already holds the spawner's pawn data, so the character's
    OnAbilitySystemInitialized passes its [check(InPawnData)] and the
    enemy reports the pawn data's display name. *)
Theorem spawned_enemies_have_pawn_data cfg w calls pd :
  spawnable cfg w -> not_null (ControllerClass cfg) = true -> PawnData cfg = Some pd ->
  exists s s', OnExperienceLoaded cfg w SpawnerState_new = Ok (tt, s) /\
    run_spawner_seq cfg w calls s = Ok (tt, s') /\
    forall o1 p b o2, SpawnerOutputs s' = o1 ++ InitializeAbilitySystem p b :: o2 ->
      exists cs, OnAbilitySystemInitialized true (Some (pawn_ext_data cfg o1 p)) EnemyCharacterState_new
                   = Ok (tt, cs) /\ GetEnemyPawnName cs = PawnDisplayName pd.
Proof.
  intros Hsp Hcc Hpd. pose proof Hsp as (Ha & _).
  assert (H0 : exists s, OnExperienceLoaded cfg w SpawnerState_new = Ok (tt, s) /\
                         init_after_set [] (SpawnerOutputs s) = true).
  { unfold OnExperienceLoaded, ServerCreateEnemies. rewrite Ha, Hcc. by apply SpawnEnemies_outputs. }
  destruct H0 as (s & Hs & Ho). destruct (run_spawner_seq_outputs cfg w Hsp Hcc calls s Ho) as (s' & Hs' & Ho').
  exists s, s'. split_and!; [done|done|]. intros o1 p b o2 Heq. rewrite Heq in Ho'.
  destruct (init_after_set_prefix _ _ _ _ _ Ho') as [Hin|Hin]; [set_solver|].
  unfold pawn_ext_data. rewrite bool_decide_true by done. rewrite Hpd. by eexists.
Qed.

Lemma spawned_enemies_have_pawn_data_witness :
  exists s s', OnExperienceLoaded (spawner_cfg_ex 2 true) spawner_world_ex SpawnerState_new = Ok (tt, s) /\
    run_spawner_seq (spawner_cfg_ex 2 true) spawner_world_ex [CallPawnDestroyed 1%nat false; CallRespawnTimer] s
      = Ok (tt, s') /\
    forall o1 p b o2, SpawnerOutputs s' = o1 ++ InitializeAbilitySystem p b :: o2 ->
      exists cs, OnAbilitySystemInitialized true (Some (pawn_ext_data (spawner_cfg_ex 2 true) o1 p))
                   EnemyCharacterState_new = Ok (tt, cs) /\ GetEnemyPawnName cs = PawnDisplayName pawn_data_ex.
Proof.
  assert (Hsp : spawnable (spawner_cfg_ex 2 true) spawner_world_ex).
  { split_and!; [reflexivity|reflexivity|]. exists pawn_data_ex. split; reflexivity. }
  exact (spawned_enemies_have_pawn_data _ _ _ pawn_data_ex Hsp eq_refl eq_refl).
Defined.

End EnemyInit.
